(* ===== verification/_CoqProject ===== *)
-Q . S2P
Prelude.v
GoStrings.v
Json.v
Options.v
Libraries.v
Http.v
Sha256.v
K8s.v
ApiTypes.v
Heap.v
DeepCopy.v
Naming.v
Shell.v
Meta.v
PodSecurity.v
HwAccel.v
Script.v
Builder.v
Wrapper.v
Setup.v
Web.v
Workloads.v
Gateway.v
Kube.v
Programs.v
Client.v
Wire.v
Bindings.v
PluginController.v
Teardown.v
JellyfinController.v
ApiController.v
ApiRuns.v
Server.v
Converge.v
Session.v
Wiring.v
Objects.v
Provision.v
Settled.v
Served.v
Delivery.v
System.v
Scheme.v
Stability.v
Admission.v
Utils.v
Main.v
