(* ===== verification/Prelude.v ===== *)
(** * JellyOps: a verified model of the Jellyfin Kubernetes operator

    JellyOps runs Jellyfin media servers on Kubernetes. A [Jellyfin] resource
    describes an instance, a [JellyfinPlugin] a plugin image that is composed into the
    pods of the instances it belongs to. Three controllers work on them:

    - the instance controller builds the server Deployment with its plugins, its
      storage, Service, Ingress, web tier and gateway route;
    - the plugin controller checks compatibility, runs the plugin's companion
      workloads and drains them when the plugin is deleted;
    - the API controller logs in to a ready server over HTTP and brings its libraries
      and settings to what the resource declares.

    They share the status of the resources and the builders of internal/plugins,
    which turn resources into Kubernetes objects without calling anything.

    ** The files, in the order they build

    What the program stands on:
    - [Prelude]: results and panics, sorting by a key, maps built by loops, automation.
    - [GoStrings], [Sha256]: the functions of Go's standard library on strings, paths,
      numbers and hashes that the program uses, as executable definitions.
    - [Json]: documents of encoding/json as syntax trees; numbers read as doubles.
    - [Http]: requests and answers of net/http.
    - [K8s], [ApiTypes]: the Kubernetes objects and the custom resources
      (api/v1alpha1), a record per struct, an [option] per pointer.
    - [Heap]: Go values in memory, with what they share; [DeepCopy]: the generated copies
      of the custom resources (zz_generated.deepcopy.go) over it.
    - [Kube]: programs that call the API server, Jellyfin and the random source;
      [Programs]: their results, and the calls they are able to make.
    - [Script]: the fragment of the POSIX shell the containers' scripts are written in,
      from the bytes of a script to its effect on the files of the container.

    internal/plugins, a file each: [Naming] (naming.go), [Shell] (shell.go), [Meta]
    (meta.go), [PodSecurity] (podsecurity.go), [HwAccel] (hwaccel.go), [Builder]
    (builder.go), [Wrapper] (the scripts builder.go writes), [Setup] (the start-up script
    of hwaccel.go), [Web] (web.go), [Workloads] (workloads.go), [Gateway] (gateway.go).

    internal/jellyfinapi: [Options] (configuration.go, encoding.go and the options of
    libraries.go), [Libraries] (the comparison of libraries.go, types.go), [Client]
    (client.go, startup.go and the requests of the others); [Wire], what its requests are
    as bytes.

    internal/controller: [Bindings] (bindings.go, conditions.go, statusupdate.go),
    [PluginController], [JellyfinController], [ApiController] (the three reconcilers);
    [ApiRuns] runs the last against a small server. [Teardown] follows many rounds of the
    plugin controller against any API server that keeps the laws it states. [Server] is a
    Jellyfin server that works, [Converge] a pass over its libraries, [Session] logging in
    to it and writing its settings.

    [Wiring] has the permissions and the watches of the three controllers, [Stability]
    what a second reconcile does, [Admission] the schemas of the resources (the markers
    on the types of api/v1alpha1) as functions that complete and check them, [Scheme] the
    registration of the kinds, [Main] the entry point (cmd/main.go), [Utils] the helpers of
    the end-to-end tests. [Objects] is an API server that works, [Provision] one pass of the
    instance controller against it, [Settled] passes of the API controller against it and a
    network of Jellyfin servers, [Served] a pass of the first and then one of the second, [Delivery] one of the plugin controller and then of the
    instance controller; [System] lets all three controllers run at once, interrupted and
    interleaved with others.

    ** How the code is modelled

    A Go function that returns a value and an error is a function to [result]; a
    possible panic is an error of its own type. A slice is a list, a map a [gmap], a
    set of strings a [gset]; where the code ranges over a map, the order is an
    operation of the class [Prelude.MapOrder], of which only the entries are known.
    The one map the builders write through a shared reference, a resource's
    [limits], lives in a store ([HwAccel], [Builder]) that is threaded through. The code
    that is about sharing and nothing else, the deep copies, runs on a store of all
    values: pointers, slices as windows of arrays, maps.

    A function that calls a server is a [Kube.prog]: a tree that branches on every
    answer the call may get. [Kube.always I Q tr p] says that, whatever is answered,
    each call satisfies [I] given the events before it and the result satisfies [Q];
    [Kube.always_run] relates it to the runs against any server with a state. So a
    theorem about a controller quantifies over all behaviours of the API server and of
    Jellyfin, including failures at any point and changes made by others in between.

    What is not in the repository appears as follows, never as a definition made up for
    it: the library functions of controller-runtime and apimachinery are operations of
    [Kube.KubeLib] and [Kube.RetryLib] with their documented laws, and a reference
    implementation that satisfies them; what the rounds of a controller rely on of the
    API server and of Jellyfin is the classes [Teardown.ApiServer] and
    [Server.JellyfinServer], each with an instance, as is what an API server
    that works does, [Objects.ApiObjects], and what a concurrent write does, [System.Cluster]; the scheme is [Scheme.SchemeLib], the types of other packages that the
    resources hold [DeepCopy.External], the machine of the tests [Utils.Host]; a command that a script runs is
    an operation of the class [Script.Runtime]; the gateway that executes a route is a parameter
    of [Gateway] with the precedence rules the Gateway API documents; [url.Parse] is
    [Http.NetUrl], whose law is about URLs of a host name and a port only; the text of library
    errors is a parameter without laws; so is the [%q] verb of the programs that
    use it, which [Wire.Quote] defines but for the tables of printable runes, and which the
    theorems about a server that reads the header back are about.

    ** What is proved

    - [Naming]: sanitizing and truncating give DNS-1123 labels of at most 63 bytes for
      every input, and so do the names derived from them.
    - [Shell]: a POSIX shell reads a joined command line back as the same words.
    - [Meta]: versions are totally ordered, print and parse back, and the ABI gate admits
      a plugin exactly when its target is not newer than the server.
    - [PodSecurity], [HwAccel]: the hardening of containers and the effect of attaching
      a device, on the pod and on the shared limits.
    - [Builder]: the pod refines a declarative layout, does not depend on the order of
      the plugins, mounts only volumes it has, keeps names apart, hardens every container,
      and fails only on a plugin that declares two ways to install.
    - [Wrapper]: what an install, hook or staging container does when its script is
      read by a shell: which steps run, when the container succeeds, when the marker of
      a completed install is left; and the one combination of settings whose script is
      not a program.
    - [Setup]: the server with an accelerator picks the device it should, writes it to
      encoding.xml, and starts whatever fails on the way.
    - [Workloads], [Web], [Gateway]: selectors never cross between server, web tier and
      workloads; media are shared as asked; a gateway sends each request where the
      split mode needs it.
    - [Options], [Libraries]: overlays keep what is not managed and are idempotent; a
      deep merge changes exactly the declared leaves; a comparison settles in one round.
    - [Client]: bootstrap refines the first-run protocol of the server. [Wire]: a request
      reads back as it was meant, whatever bytes its names and tokens hold.
    - [Bindings]: which plugins enter a pod; what a status write sends.
    - [PluginController]: nothing is deleted before it is drained, nothing is created
      before the plugin is admitted, exactly the stale workloads are pruned, immutable
      fields are kept, and the status says what was found.
    - [Teardown]: a deleted plugin is let go after finitely many passes of its
      controller, while others act in between, if the Deployment controller keeps
      stopping the pods of Deployments scaled to zero.
    - [JellyfinController]: every claim a pod mounts is provided for, claims only
      grow, a volume in use is never deleted, and every object written is the
      instance's own.
    - [ApiController]: every request has its reason, settings are written only as
      overlays of what was just read, keys are reused or minted by the protocol, and
      nothing is contacted before the instance is ready, nor any host but its own.
    - [Converge]: one pass over the libraries makes what the server means equal to what
      is declared. [Session]: bootstrap gets a key from a new server and from one whose
      password is known, and a settings area puts its document in place. [Settled]: one
      undisturbed pass of the API controller does all of this at the instance's own
      server, reports it, and touches nothing else; the next changes nothing there.
      [Served]: it finds the server under the address the instance controller reported.
    - [Stability]: no controller fights for its objects; a mutation leaves alone what it
      has made, whatever others filled in meanwhile in the fields that are theirs.
    - [Admission]: the defaults of the schemas change nothing that is built; the storage
      of an admitted instance is provided, and nothing it asks for is silently ignored.
    - [Wiring], [Scheme], [Main]: every call of a controller is permitted by its markers,
      of which the deployed role is the sum, and it watches what it keeps, routes and
      volumes apart; its kinds are registered; the process serves only when every step
      before succeeded, and its TLS servers are hardened.
    - [Provision]: one undisturbed pass of the instance controller makes everything the
      resource asks for, removes what it does not, and touches nothing else. [Delivery]: a
      pass of the plugin controller before it brings up the companions of a plugin, and the
      server is then built with the plugin exactly when its ABI is compatible.
    - [System]: what holds of the calls of one reconcile holds in every interleaving of
      many; no interleaving loses data that claims and Secrets hold.
    - [DeepCopy]: a copy means the same and shares no memory with anything else, so that
      a controller that writes into an object it was handed writes into its own.
    - [Utils]: uncommenting code undoes commenting.

    Lemmas outside these groups record where the code does less than it means to; they
    are named after what goes wrong, for instance [Builder.plugin_volume_names_collide],
    [Libraries.duplicate_names_flap] and [ApiRuns.generated_password_is_lost].

    ** Bounds

    No definition of the program runs on fuel: loops are over lists, and the retry of
    status writes is bounded by the library, for any bound. (The block loop of [Sha256]
    has the number of words left as its fuel, and each turn takes sixteen.) The parser
    of [Script] has fuel in proportion to the tokens of a script; running out of it is
    an error of its own, distinct from a syntax error, and the theorems of [Wrapper]
    give the parse of each script, so it does not run out on them; calls of functions
    may be nested four deep, the scripts nest them once. Integers are [Z];
    the places where the width matters (version components, 64-bit settings, the
    exponents of doubles) state it.

    ** What is left out

    Log lines; what controller-runtime's constructors do with the options [Main] gives
    them; the flags zap and the client configuration add; the kubelet's expansion of
    [$(VAR)] in the environment of containers; the log of the tests. Of the YAML manifests
    the role is modelled, and of the generated schemas what the markers say ([Admission]).
    What the API server fills in by itself in a Deployment or a Service is not among the
    changes [Stability] allows. [System] has the objects that hold data, claims and
    Secrets; that a Deployment of others can be torn down by its name is
    [PluginController.finalize_can_hit_instance]. A deep copy takes the value it copies,
    not its address: the generated functions never write through [in].
    Documents are trees, so white space, the spelling of strings and the sign of a zero
    are not distinguished, and names of fields are matched up to ASCII case. *)
From stdpp Require Export base list gmap strings sorting pretty.
From Stdlib Require Export Ascii ZArith Lia.

(** ** Go's two-valued returns

    A Go function that returns [(T, error)] is a function to [result E T]:
    every caller in this program discards the value when the error is set. *)
Inductive result (E A : Type) : Type :=
  | Ok (a : A)
  | Err (e : E).
Arguments Ok {E A} a.
Arguments Err {E A} e.

(** A run-time panic of the Go program. *)
Inductive Panic : Type := IndexOutOfRange | NilDereference.

(** A pointer's target: [None] is nil. *)
Definition deref {A} (o : option A) : result Panic A :=
  match o with Some a => Ok a | None => Err NilDereference end.

Declare Scope go_scope.
Delimit Scope go_scope with go.

#[export] Instance result_ret {E} : MRet (result E) := λ A a, Ok a.
#[export] Instance result_bind {E} : MBind (result E) := λ A B f r,
  match r with Ok a => f a | Err e => Err e end.
#[export] Instance result_fmap {E} : FMap (result E) := λ A B f r,
  match r with Ok a => Ok (f a) | Err e => Err e end.

(** [fmt.Errorf("...: %w", err)]: wrap the error of a call. *)
Definition wrap_err {E F A} (w : E → F) (r : result E A) : result F A :=
  match r with Ok a => Ok a | Err e => Err (w e) end.

Definition is_Ok {E A} (r : result E A) : bool :=
  match r with Ok _ => true | Err _ => false end.

Definition result_or {E A} (d : A) (r : result E A) : A :=
  match r with Ok a => a | Err _ => d end.

(** A loop over a slice whose body may fail; the first error stops it. *)
Fixpoint mapR {E A B} (f : A → result E B) (l : list A) : result E (list B) :=
  match l with
  | [] => Ok []
  | a :: l => b ← f a; bs ← mapR f l; Ok (b :: bs)
  end.

(** Go's "empty string means unset" idiom: [if s == "" { s = d }]. *)
Definition or_default (d s : string) : string :=
  if decide (s = "") then d else s.

(** Concatenation of strings reduces on a constructor. *)
#[global] Arguments String.append !_ _ / : simpl nomatch.

(** ** Automation shared by the development *)
Create HintDb jellyops.

(** Split every [match]/[if]/[decide] in sight and close what is immediate. *)
Ltac case_all :=
  repeat (case_match || case_decide || case_bool_decide); simplify_eq/=; try done.

Tactic Notation "by_cases" constr(P) := destruct (decide P).

(** ** Results *)
Lemma bind_Ok {E A B} (r : result E A) (f : A → result E B) b :
  (r ≫= f) = Ok b ↔ ∃ a, r = Ok a ∧ f a = Ok b.
Proof. destruct r; simpl; [naive_solver|split; [done|by intros (?&[=]&?)]]. Qed.

Lemma bind_Err {E A B} (r : result E A) (f : A → result E B) e :
  (r ≫= f) = Err e ↔ r = Err e ∨ ∃ a, r = Ok a ∧ f a = Err e.
Proof.
  destruct r; simpl; split; try done.
  - eauto.
  - by intros [[=]|(?&[= <-]&?)].
  - intros [= ->]; eauto.
  - by intros [[= ->]|(?&[=]&?)].
Qed.

Lemma result_or_Ok {E A} (d : A) (r : result E A) : is_Ok r = true → r = Ok (result_or d r).
Proof. by destruct r. Qed.

Section mapR.
Context {E A B : Type}.
Implicit Types (l : list A) (f : A → result E B).

Lemma mapR_Ok f l bs :
  mapR f l = Ok bs ↔ Forall2 (λ a b, f a = Ok b) l bs.
Proof.
  revert bs. induction l as [|a l IH]; intros bs; simpl.
  - split; [by intros [= <-]|by inversion 1].
  - split.
    + intros (b & Hb & (bs' & Hbs & [= <-])%bind_Ok)%bind_Ok.
      constructor; [done|by apply IH].
    + inversion 1 as [|? b ? bs' Hb Hbs]; subst. rewrite Hb; simpl.
      apply IH in Hbs. by rewrite Hbs.
Qed.

Lemma mapR_length f l bs : mapR f l = Ok bs → length bs = length l.
Proof. intros H%mapR_Ok. by apply Forall2_length in H. Qed.
End mapR.

(** ** Lists *)
Section lists.
Context {A : Type}.
Implicit Types l : list A.

Lemma NoDup_fmap_filter {K} (f : A → K) (P : A → Prop) `{!∀ x, Decision (P x)} l :
  NoDup (f <$> l) → NoDup (f <$> filter P l).
Proof.
  induction l as [|x l IH]; [done|].
  rewrite fmap_cons, NoDup_cons. intros [Hx Hl].
  rewrite filter_cons. destruct (decide (P x)); [|by apply IH].
  rewrite fmap_cons, NoDup_cons. split; [|by apply IH].
  rewrite list_elem_of_fmap. intros (y & Hy & Hin).
  apply Hx, list_elem_of_fmap. exists y. split; [done|].
  by apply list_elem_of_filter in Hin as [_ ?].
Qed.

Lemma NoDup_fmap_inj_on {K} (f : A → K) l x y :
  NoDup (f <$> l) → x ∈ l → y ∈ l → f x = f y → x = y.
Proof.
  induction l as [|z l IH]; [by intros _ ?%elem_of_nil|].
  rewrite fmap_cons, NoDup_cons, !elem_of_cons. intros [Hz Hl].
  assert (∀ w, w ∈ l → f w ≠ f z) as Hne.
  { intros w Hw Heq. apply Hz, list_elem_of_fmap. eauto. }
  intros [->|Hx] [->|Hy] Heq; [done|..]; [|by edestruct Hne|by apply IH].
  by edestruct Hne.
Qed.

Lemma forallb_ext_elem (f g : A → bool) l : (∀ x, x ∈ l → f x = g x) → forallb f l = forallb g l.
Proof.
  induction l as [|x l IH]; intros H; [done|]. cbn. rewrite H by left.
  f_equal. apply IH. intros y Hy. apply H. by right.
Qed.

Lemma concat_map_Permutation {B} (f : A → list B) l1 l2 :
  l1 ≡ₚ l2 → (l1 ≫= f) ≡ₚ (l2 ≫= f).
Proof. intros H. by rewrite H. Qed.
End lists.

Lemma filter_nil {A} (P : A → Prop) `{!∀ x, Decision (P x)} l : (∀ x, x ∈ l → ¬ P x) → filter P l = [].
Proof.
  intros Hno. destruct (filter P l) as [|x l'] eqn:Hl; [done|].
  assert (x ∈ filter P l) as [Hx Hin]%list_elem_of_filter by (rewrite Hl; left). by destruct (Hno x Hin).
Qed.

Lemma filter_all {A} (P : A → Prop) `{!∀ x, Decision (P x)} (l : list A) : (∀ x, x ∈ l → P x) → filter P l = l.
Proof.
  induction l as [|x l IH]; intros Hl; [done|]. rewrite filter_cons, decide_True by (apply Hl; left).
  f_equal. apply IH. intros y Hy. apply Hl. by right.
Qed.

Lemma bind_nil {A B} (f : A → list B) l : (∀ x, x ∈ l → f x = []) → l ≫= f = [].
Proof.
  induction l as [|x l IH]; intros H; [done|]. cbn. rewrite H by left. apply IH. intros y Hy. apply H. by right.
Qed.

Lemma sum_list_with_mono {A} (f g : A → nat) l :
  (∀ x, x ∈ l → g x ≤ f x) → sum_list_with g l ≤ sum_list_with f l.
Proof.
  induction l as [|x l IH]; intros Hl; cbn; [done|].
  specialize (IH (λ y Hy, Hl y (list_elem_of_further _ _ _ Hy))). specialize (Hl x (list_elem_of_here _ _)). lia.
Qed.

(** A sum falls when every term that is not yet zero does. *)
Lemma sum_list_with_strict {A} (f g : A → nat) l :
  (∀ x, x ∈ l → g x < f x ∨ g x = 0) → sum_list_with f l ≠ 0 → sum_list_with g l < sum_list_with f l.
Proof.
  intros Hl Hne. assert (∀ x, x ∈ l → g x ≤ f x) as Hle by (intros x Hx; destruct (Hl x Hx); lia).
  induction l as [|x l IH]; cbn in *; [done|].
  assert (g x < f x ∨ g x = 0) as Hx by (apply Hl; left).
  assert (sum_list_with g l ≤ sum_list_with f l) by (apply sum_list_with_mono; intros y Hy; apply Hle; by right).
  destruct (decide (sum_list_with f l = 0)); [lia|].
  enough (sum_list_with g l < sum_list_with f l) by lia.
  apply IH; [intros y Hy; apply Hl; by right|done|intros y Hy; apply Hle; by right].
Qed.

Lemma StronglySorted_filter {A} (R : relation A) (P : A → Prop) `{!∀ x, Decision (P x)} l :
  StronglySorted R l → StronglySorted R (filter P l).
Proof.
  induction 1 as [|x l Hl IH Hx]; [constructor|]. rewrite filter_cons.
  destruct (decide (P x)); [|done]. constructor; [done|].
  rewrite Forall_forall in Hx |- *. intros y [_ Hy]%list_elem_of_filter. auto.
Qed.

(** ** Ranging over a map

    The order in which [range] visits a Go map is unspecified: an operation that
    ranges over a map takes the order as a class, of which it may only rely on the
    entries being those of the map. *)
Class MapOrder : Type := {
  range_map : ∀ {A : Type}, gmap string A → list (string * A);
  range_map_perm : ∀ A (m : gmap string A), range_map m ≡ₚ map_to_list m;
}.
#[export] Instance reference_order : MapOrder.
Proof. by refine {| range_map A := @map_to_list _ _ (gmap string A) _ |}. Defined.

(** ** A map built by a loop over a list, the last of equal keys winning *)
Section index_by.
Context {A : Type} (key : A → string).
Implicit Types (l : list A) (m : gmap string A).

Definition index_by l m : gmap string A := fold_left (λ m x, <[key x := x]> m) l m.

Lemma index_by_None l m k : index_by l m !! k = None ↔ k ∉ key <$> l ∧ m !! k = None.
Proof.
  unfold index_by. revert m. induction l as [|x l IH]; intros m; cbn [fold_left].
  - rewrite fmap_nil. split; [split; [by intros ?%elem_of_nil|done]|tauto].
  - rewrite IH, fmap_cons, not_elem_of_cons, lookup_insert_None. naive_solver.
Qed.

Lemma index_by_elem l k x : index_by l ∅ !! k = Some x → x ∈ l ∧ key x = k.
Proof.
  assert (∀ m, index_by l m !! k = Some x → x ∈ l ∧ key x = k ∨ m !! k = Some x) as H.
  { unfold index_by. induction l as [|y l IH]; intros m; cbn [fold_left]; [by right|].
    intros [[? ?]|H]%IH; [left; split; [by right|done]|].
    apply lookup_insert_Some in H as [[? ->]|[_ ?]]; [left; split; [by left|done]|by right]. }
  intros [?|?]%H; [done|]. by rewrite lookup_empty in *.
Qed.

Lemma index_by_Some l k x :
  NoDup (key <$> l) → index_by l ∅ !! k = Some x ↔ x ∈ l ∧ key x = k.
Proof.
  intros Hnd. split; [apply index_by_elem|]. intros [Hx <-].
  destruct (index_by l ∅ !! key x) as [y|] eqn:Hy.
  - apply index_by_elem in Hy as [Hy Hk]. f_equal. by eapply NoDup_fmap_inj_on.
  - apply index_by_None in Hy as [Hy _]. destruct Hy. apply list_elem_of_fmap. eauto.
Qed.
End index_by.

(** ** [slices.SortFunc] on a string key

    The source sorts with [strings.Compare] on a name: byte-wise
    lexicographic order, which is stdpp's [String.le]. *)
Definition sort_by {A} (key : A → string) (l : list A) : list A :=
  merge_sort (λ x y, String.le (key x) (key y)) l.

Definition sort_strings (l : list string) : list string := sort_by id l.

Section sort_by.
Context {A : Type} (key : A → string).
Implicit Types l : list A.

#[local] Instance key_le_total : Total (λ x y : A, String.le (key x) (key y)).
Proof. intros x y. apply (total String.le). Qed.
#[local] Instance key_le_trans : Transitive (λ x y : A, String.le (key x) (key y)).
Proof. intros x y z. apply (transitivity (R := String.le)). Qed.

Lemma sort_by_Permutation l : sort_by key l ≡ₚ l.
Proof. apply merge_sort_Permutation. Qed.

Lemma elem_of_sort_by l x : x ∈ sort_by key l ↔ x ∈ l.
Proof. by rewrite sort_by_Permutation. Qed.

Lemma sort_by_sorted l :
  StronglySorted (λ x y, String.le (key x) (key y)) (sort_by key l).
Proof. by apply StronglySorted_merge_sort; apply _. Qed.

(** With distinct keys the sorted list depends only on the multiset, so any
    correct sorting routine yields the same result. *)
Lemma sorted_by_key_unique l1 l2 :
  NoDup (key <$> l1) → l1 ≡ₚ l2 →
  StronglySorted (λ x y, String.le (key x) (key y)) l1 →
  StronglySorted (λ x y, String.le (key x) (key y)) l2 →
  l1 = l2.
Proof.
  intros Hnd Hp H1 H2. eapply StronglySorted_unique_strong; [|done..].
  intros x y Hx Hy Hxy Hyx. rewrite <-Hp in Hy.
  eapply NoDup_fmap_inj_on; [done..|]. by apply (anti_symm String.le).
Qed.

Lemma sort_by_Permutation_eq l1 l2 :
  NoDup (key <$> l1) → l1 ≡ₚ l2 → sort_by key l1 = sort_by key l2.
Proof.
  intros Hnd Hp. apply sorted_by_key_unique; [..|by apply sort_by_sorted|by apply sort_by_sorted].
  - by rewrite sort_by_Permutation.
  - by rewrite !sort_by_Permutation.
Qed.

Lemma sort_by_id l :
  NoDup (key <$> l) → StronglySorted (λ x y, String.le (key x) (key y)) l →
  sort_by key l = l.
Proof.
  intros Hnd Hs. apply sorted_by_key_unique; [..|by apply sort_by_sorted|done].
  - by rewrite sort_by_Permutation.
  - by rewrite sort_by_Permutation.
Qed.

(** A change that keeps the keys may be made before or after sorting. *)
Lemma sort_by_fmap (f : A → A) l :
  (∀ x, key (f x) = key x) → NoDup (key <$> l) → sort_by key (f <$> l) = f <$> sort_by key l.
Proof.
  intros Hf Hnd. assert (Hk : ∀ l', key <$> (f <$> l') = key <$> l').
  { intros l'. rewrite <- list_fmap_compose. apply list_fmap_ext. intros i x _. apply Hf. }
  apply sorted_by_key_unique; [|by rewrite !sort_by_Permutation|apply sort_by_sorted|].
  - by rewrite sort_by_Permutation, Hk.
  - pose proof (sort_by_sorted l) as Hs. induction Hs as [|x l' _ IH Hall]; [constructor|].
    cbn. constructor; [done|]. rewrite Forall_fmap. eapply Forall_impl; [exact Hall|].
    intros y. cbn. by rewrite !Hf.
Qed.
End sort_by.

#[export] Hint Resolve sort_by_Permutation sort_by_sorted : jellyops.
#[export] Hint Rewrite @elem_of_sort_by : jellyops.
