(* ===== verification/GoStrings.v ===== *)
(** * Go's strings, strconv and path packages

    The functions of Go's standard library the operator uses on strings. A Go
    string is a sequence of bytes, and so is a Rocq [string]; where a function
    works on runes (trimming, lower-casing) the model works on the UTF-8
    encodings of the runes that matter. *)
From S2P Require Import Prelude.

(** ** Slicing and searching *)

(** [s[:n]] and [s[n:]] for an [n] within bounds. *)
Fixpoint take_s (n : nat) (s : string) : string :=
  match n, s with
  | S n, String c s => String c (take_s n s)
  | _, _ => ""
  end.

Fixpoint drop_s (n : nat) (s : string) : string :=
  match n, s with
  | 0, _ => s
  | S n, String _ s => drop_s n s
  | S _, "" => ""
  end.

Fixpoint all_chars (P : ascii → bool) (s : string) : bool :=
  match s with
  | "" => true
  | String c s => P c && all_chars P s
  end.

(** Does byte [c] occur in [s]? *)
Definition no_byte (c : ascii) (s : string) : bool :=
  all_chars (λ x, negb (Ascii.eqb x c)) s.

Fixpoint first_char (s : string) : option ascii :=
  match s with "" => None | String c _ => Some c end.

Fixpoint last_char (s : string) : option ascii :=
  match s with "" => None | String c "" => Some c | String _ s => last_char s end.

(** [strings.Index(s, c)], [strings.LastIndex(s, c)] for a one-byte [c]; [None] is -1. *)
Fixpoint Index (c : ascii) (s : string) : option nat :=
  match s with
  | "" => None
  | String x s => if Ascii.eqb x c then Some 0 else S <$> Index c s
  end.

Fixpoint LastIndex (c : ascii) (s : string) : option nat :=
  match s with
  | "" => None
  | String x s =>
      match LastIndex c s with
      | Some i => Some (S i)
      | None => if Ascii.eqb x c then Some 0 else None
      end
  end.

(** [strings.IndexAny(s, chars)] for ASCII [chars]. *)
Fixpoint IndexAny (chars : list ascii) (s : string) : option nat :=
  match s with
  | "" => None
  | String x s => if existsb (Ascii.eqb x) chars then Some 0 else S <$> IndexAny chars s
  end.

Definition HasPrefix (s p : string) : bool := String.prefix p s.

Definition TrimPrefix (s p : string) : string :=
  if HasPrefix s p then drop_s (String.length p) s else s.

(** [strings.Split(s, c)] for a one-byte separator: never the empty list. *)
Fixpoint Split (c : ascii) (s : string) : list string :=
  match s with
  | "" => [""]
  | String x s =>
      if Ascii.eqb x c then "" :: Split c s
      else match Split c s with
           | h :: t => String x h :: t
           | [] => [String x ""]
           end
  end.

Fixpoint Join (l : list string) (sep : string) : string :=
  match l with
  | [] => ""
  | [x] => x
  | x :: l => x +:+ sep +:+ Join l sep
  end.

(** [strings.ReplaceAll(s, c, r)] for a one-byte [c]. *)
Fixpoint ReplaceByte (c : ascii) (r : string) (s : string) : string :=
  match s with
  | "" => ""
  | String x s =>
      if Ascii.eqb x c then r +:+ ReplaceByte c r s else String x (ReplaceByte c r s)
  end.

(** ** Character classes *)
Definition between (lo hi : N) (c : ascii) : bool :=
  let n := N_of_ascii c in (lo <=? n)%N && (n <=? hi)%N.

Definition is_digit (c : ascii) : bool := between 48 57 c.
Definition is_lower (c : ascii) : bool := between 97 122 c.
Definition is_upper (c : ascii) : bool := between 65 90 c.
Definition is_alnum (c : ascii) : bool := is_lower c || is_digit c.

(** [strings.ToLower], up to the runes outside ASCII that stay outside ASCII.

    Two runes outside ASCII have an ASCII lower case: U+0130 (bytes C4 B0)
    lowers to [i] and U+212A (bytes E2 84 AA) to [k]. Every other rune outside
    ASCII lowers to a rune outside ASCII; its bytes are kept, which is exact for
    the only use in the program, where the next step erases every run of
    characters outside [a-z0-9]. *)
Definition lower_char (c : ascii) : ascii :=
  if is_upper c then ascii_of_N (N_of_ascii c + 32) else c.

Fixpoint ToLower (s : string) : string :=
  match s with
  | "" => ""
  | String a s1 =>
      if Ascii.eqb a "196" then
        match s1 with
        | String b s2 => if Ascii.eqb b "176" then String "i" (ToLower s2) else String a (ToLower s1)
        | "" => String a ""
        end
      else if Ascii.eqb a "226" then
        match s1 with
        | String b (String c s3) =>
            if Ascii.eqb b "132" && Ascii.eqb c "170" then String "k" (ToLower s3)
            else String a (ToLower s1)
        | _ => String a (ToLower s1)
        end
      else String (lower_char a) (ToLower s1)
  end.

(** ** Trimming *)

(** The runes of [unicode.IsSpace], by the length of their UTF-8 encoding. *)
Definition space1 (c : ascii) : bool := between 9 13 c || Ascii.eqb c " ".
Definition space2 (a b : ascii) : bool :=
  Ascii.eqb a "194" && (Ascii.eqb b "133" || Ascii.eqb b "160").
Definition space3 (a b c : ascii) : bool :=
  (Ascii.eqb a "225" && Ascii.eqb b "154" && Ascii.eqb c "128")
  || (Ascii.eqb a "226" && Ascii.eqb b "128"
      && (between 128 138 c || Ascii.eqb c "168" || Ascii.eqb c "169" || Ascii.eqb c "175"))
  || (Ascii.eqb a "226" && Ascii.eqb b "129" && Ascii.eqb c "159")
  || (Ascii.eqb a "227" && Ascii.eqb b "128" && Ascii.eqb c "128").

Fixpoint trim_go (p1 : ascii → bool) (p2 : ascii → ascii → bool)
    (p3 : ascii → ascii → ascii → bool) (s : string) : string :=
  match s with
  | "" => ""
  | String a s1 =>
      if p1 a then trim_go p1 p2 p3 s1 else
      match s1 with
      | "" => s
      | String b s2 =>
          if p2 a b then trim_go p1 p2 p3 s2 else
          match s2 with
          | "" => s
          | String c s3 => if p3 a b c then trim_go p1 p2 p3 s3 else s
          end
      end
  end.

Definition TrimSpace (s : string) : string :=
  let l := trim_go space1 space2 space3 s in
  String.rev (trim_go space1 (λ a b, space2 b a) (λ a b c, space3 c b a) (String.rev l)).

(** [strings.TrimRight(s, "\n")]. *)
Fixpoint TrimRightByte (c : ascii) (s : string) : string :=
  match s with
  | "" => ""
  | String x s =>
      match TrimRightByte c s with
      | "" => if Ascii.eqb x c then "" else String x ""
      | t => String x t
      end
  end.

(** ** Numbers *)
Definition digit_val (c : ascii) : Z := Z.of_N (N_of_ascii c) - 48.

Fixpoint parse_digits (acc : Z) (s : string) : option Z :=
  match s with
  | "" => Some acc
  | String c s => if is_digit c then parse_digits (acc * 10 + digit_val c)%Z s else None
  end.

Definition int64_max : Z := 9223372036854775807.
Definition int64_min : Z := -9223372036854775808.

(** [int32] addition wraps around. *)
Definition wrap32 (x : Z) : Z := ((x + 2147483648) mod 4294967296 - 2147483648)%Z.
Definition add_int32 (x y : Z) : Z := wrap32 (x + y).

(** [strconv.Atoi] on a 64-bit platform: an optional sign, then at least one
    digit; a value outside [int] is a range error. *)
Definition Atoi (s : string) : option Z :=
  let '(neg, d) :=
    match s with
    | String "-" r => (true, r)
    | String "+" r => (false, r)
    | _ => (false, s)
    end in
  if decide (d = "") then None else
  v ← parse_digits 0 d;
  let n := if neg : bool then (- v)%Z else v in
  if decide (int64_min ≤ n ≤ int64_max)%Z then Some n else None.

(** ** Package path *)

(** [path.Clean]: [stack] holds the components kept so far, last first. *)
Fixpoint clean_comps (rooted : bool) (stack comps : list string) : list string :=
  match comps with
  | [] => stack
  | c :: cs =>
      if decide (c = "" ∨ c = ".") then clean_comps rooted stack cs
      else if decide (c = "..") then
        match stack with
        | [] => clean_comps rooted (if rooted then [] else [".."]) cs
        | top :: rest =>
            if decide (top = "..") then clean_comps rooted (".." :: stack) cs
            else clean_comps rooted rest cs
        end
      else clean_comps rooted (c :: stack) cs
  end.

Definition path_Clean (p : string) : string :=
  let rooted := HasPrefix p "/" in
  let comps := reverse (clean_comps rooted [] (Split "/" p)) in
  if rooted then "/" +:+ Join comps "/"
  else match comps with [] => "." | _ => Join comps "/" end.

(** [path.Join] of two elements. *)
Definition path_Join (a b : string) : string :=
  if decide (a = "") then (if decide (b = "") then "" else path_Clean b)
  else path_Clean (a +:+ "/" +:+ b).

(** A name that is one component of a path: what a directory entry can be. *)
Definition plain_component (s : string) : bool :=
  no_byte "/" s && negb (bool_decide (s = "")) && negb (bool_decide (s = "."))
  && negb (bool_decide (s = "..")).

(** ** Concatenation and slicing *)
Section append.
Implicit Types s t u : string.

Lemma app_s_nil_r s : s +:+ "" = s.
Proof. induction s as [|c s IH]; [done|]. cbn. by rewrite IH. Qed.

Lemma app_s_assoc s t u : (s +:+ t) +:+ u = s +:+ (t +:+ u).
Proof. induction s as [|c s IH]; [done|]. cbn. by f_equal. Qed.

Lemma length_app_s s t : String.length (s +:+ t) = String.length s + String.length t.
Proof. induction s as [|c s IH]; [done|]. cbn. by f_equal. Qed.

Lemma app_s_inj_l s t u : s +:+ t = s +:+ u → t = u.
Proof. induction s as [|c s IH]; [done|]. cbn. intros [= H]. by apply IH. Qed.

Lemma app_s_inj_len s s' t t' :
  String.length s = String.length s' → s +:+ t = s' +:+ t' → s = s' ∧ t = t'.
Proof.
  revert s'. induction s as [|c s IH]; intros [|c' s']; cbn; try done.
  intros [= Hl] [= -> H]. by destruct (IH _ Hl H) as [-> ->].
Qed.

Lemma app_s_inj_r s s' t : s +:+ t = s' +:+ t → s = s'.
Proof.
  intros H. apply (app_s_inj_len _ _ t t); [|done].
  apply (f_equal String.length) in H. rewrite !length_app_s in H. lia.
Qed.

Lemma app_s_eq_nil s t : s +:+ t = "" ↔ s = "" ∧ t = "".
Proof. split; [|by intros [-> ->]]. destruct s; cbn; naive_solver. Qed.

Lemma take_drop_s n s : take_s n s +:+ drop_s n s = s.
Proof. revert s. induction n as [|n IH]; intros [|c s]; cbn; try done. by f_equal. Qed.

Lemma length_take_s n s : String.length (take_s n s) = n `min` String.length s.
Proof. revert s. induction n as [|n IH]; intros [|c s]; cbn; try done. by f_equal. Qed.

Lemma length_drop_s n s : String.length (drop_s n s) = String.length s - n.
Proof. revert s. induction n as [|n IH]; intros [|c s]; cbn; done. Qed.

Lemma take_s_app s t : take_s (String.length s) (s +:+ t) = s.
Proof. induction s as [|c s IH]; [by destruct t|]. cbn. by f_equal. Qed.

Lemma drop_s_app s t : drop_s (String.length s) (s +:+ t) = t.
Proof. induction s as [|c s IH]; [done|]. by cbn. Qed.

Lemma take_s_all n s : String.length s ≤ n → take_s n s = s.
Proof.
  revert s. induction n as [|n IH]; intros [|c s]; cbn; try done; try lia.
  intros. rewrite IH; [done|lia].
Qed.

Lemma HasPrefix_app p s : HasPrefix (p +:+ s) p = true.
Proof. apply String.prefix_correct. revert s. induction p as [|c p IH]; intros s; cbn; [by destruct s|]. by rewrite IH. Qed.

Lemma HasPrefix_spec s p : HasPrefix s p = true ↔ ∃ t, s = p +:+ t.
Proof.
  split; [|intros [t ->]; apply HasPrefix_app].
  unfold HasPrefix. revert s. induction p as [|c p IH]; intros s; [by exists s|].
  destruct s as [|c' s]; cbn; [done|].
  destruct (ascii_dec c c') as [->|]; [|done].
  intros [t ->]%IH. by exists t.
Qed.

Lemma TrimPrefix_app p s : TrimPrefix (p +:+ s) p = s.
Proof. unfold TrimPrefix. by rewrite HasPrefix_app, drop_s_app. Qed.
End append.

(** ** Characters of a string *)
Section chars.
Implicit Types (s t : string) (P Q : ascii → bool).

Lemma all_chars_app P s t : all_chars P (s +:+ t) = all_chars P s && all_chars P t.
Proof. induction s as [|c s IH]; [done|]. cbn. by rewrite IH, andb_assoc. Qed.

Lemma all_chars_impl P Q s :
  (∀ c, P c = true → Q c = true) → all_chars P s = true → all_chars Q s = true.
Proof.
  intros HPQ. induction s as [|c s IH]; [done|]. cbn.
  intros [Hc Hs]%andb_true_iff. rewrite (HPQ c Hc); simpl; by apply IH.
Qed.

Lemma all_chars_take P n s : all_chars P s = true → all_chars P (take_s n s) = true.
Proof.
  revert s. induction n as [|n IH]; intros [|c s]; cbn; try done.
  intros [-> Hs]%andb_true_iff. by apply IH.
Qed.

Lemma all_chars_drop P n s : all_chars P s = true → all_chars P (drop_s n s) = true.
Proof.
  revert s. induction n as [|n IH]; intros [|c s]; cbn; try done.
  intros [_ Hs]%andb_true_iff. by apply IH.
Qed.

Lemma no_byte_app c s t : no_byte c (s +:+ t) = no_byte c s && no_byte c t.
Proof. apply all_chars_app. Qed.

Lemma last_char_app s t : t ≠ "" → last_char (s +:+ t) = last_char t.
Proof.
  intros Ht. induction s as [|c s IH]; [done|]. cbn.
  destruct (s +:+ t) eqn:E; [by apply app_s_eq_nil in E as [_ ?]|done].
Qed.

Lemma last_char_nonempty s : s ≠ "" → is_Some (last_char s).
Proof.
  induction s as [|c s IH]; [done|]. intros _. cbn. destruct s; [done|by apply IH].
Qed.

Lemma all_chars_last P s c : all_chars P s = true → last_char s = Some c → P c = true.
Proof.
  induction s as [|x s IH]; [done|]. cbn. intros [Hx Hs]%andb_true_iff.
  destruct s; [by intros [= <-]|by apply IH].
Qed.

Lemma first_char_app s t : s ≠ "" → first_char (s +:+ t) = first_char s.
Proof. by destruct s. Qed.
End chars.

Lemma all_ascii_forall (P : ascii → bool) :
  forallb (λ n, P (ascii_of_nat n)) (seq 0 256) = true → ∀ c, P c = true.
Proof.
  intros H c. rewrite forallb_forall in H.
  rewrite <-(ascii_nat_embedding c). apply H, in_seq.
  pose proof (nat_ascii_bounded c). lia.
Qed.

(** Decide a property of one byte by checking all 256 of them. *)
Ltac by_bytes :=
  match goal with
  | |- ∀ c, ?P = true => apply (all_ascii_forall (λ c, P)); vm_compute; reflexivity
  end.

(** ** Index and LastIndex *)
Section index.
Implicit Types (s t : string) (c : ascii).

Lemma ascii_eqb_false c d : c ≠ d → Ascii.eqb c d = false.
Proof. by apply Ascii.eqb_neq. Qed.

Lemma Index_None c s : Index c s = None ↔ no_byte c s = true.
Proof.
  induction s as [|x s IH]; [done|]. cbn. destruct (Ascii.eqb x c); cbn; [done|].
  rewrite fmap_None. apply IH.
Qed.

Lemma Index_app c s t : no_byte c s = true → Index c (s +:+ String c t) = Some (String.length s).
Proof.
  induction s as [|x s IH]; cbn; [by rewrite Ascii.eqb_refl|].
  destruct (Ascii.eqb x c); cbn; [done|]. intros H. by rewrite IH.
Qed.

Lemma LastIndex_None c s : LastIndex c s = None ↔ no_byte c s = true.
Proof.
  induction s as [|x s IH]; [done|]. cbn. destruct (LastIndex c s) as [i|].
  - split; [done|]. intros [_ H]%andb_true_iff. by apply IH in H.
  - destruct (Ascii.eqb x c); cbn; [done|]. naive_solver.
Qed.

Lemma LastIndex_app c s t : no_byte c t = true → LastIndex c (s +:+ String c t) = Some (String.length s).
Proof.
  intros Ht. induction s as [|x s IH]; cbn; [|by rewrite IH].
  apply LastIndex_None in Ht. by rewrite Ht, Ascii.eqb_refl.
Qed.

Lemma drop_s_after s c t : drop_s (S (String.length s)) (s +:+ String c t) = t.
Proof. induction s as [|x s IH]; [done|]. cbn in *. done. Qed.
End index.

(** ** Split and Join *)
Section split.
Implicit Types (s t : string) (l : list string) (c : ascii).

Lemma Split_cons_nonnil c s : ∃ h l, Split c s = h :: l.
Proof.
  induction s as [|x s (h & l & IH)]; [by exists "", []|]. cbn.
  destruct (Ascii.eqb x c); [eauto|]. rewrite IH. eauto.
Qed.

Lemma Split_no_byte c s : no_byte c s = true → Split c s = [s].
Proof.
  induction s as [|x s IH]; [done|]. cbn. destruct (Ascii.eqb x c); cbn; [done|].
  intros H. by rewrite IH.
Qed.

Lemma Split_app c s t : Split c (s +:+ String c t) = Split c s ++ Split c t.
Proof.
  induction s as [|x s IH]; cbn.
  - by rewrite Ascii.eqb_refl.
  - rewrite IH. destruct (Ascii.eqb x c); [done|].
    destruct (Split_cons_nonnil c s) as (h & l & ->). done.
Qed.

Lemma Join_Split c s : Join (Split c s) (String c "") = s.
Proof.
  induction s as [|x s IH]; [done|]. cbn.
  destruct (Split_cons_nonnil c s) as (h & l & Hs). rewrite Hs in IH |- *.
  destruct (Ascii.eqb x c) eqn:Hx.
  - apply Ascii.eqb_eq in Hx as ->. cbn. by rewrite <-IH.
  - destruct l; cbn in *; by rewrite <-IH.
Qed.

Lemma Join_cons x y l sep : Join (x :: y :: l) sep = x +:+ sep +:+ Join (y :: l) sep.
Proof. done. Qed.

Lemma Split_Join c l :
  l ≠ [] → Forall (λ s, no_byte c s = true) l → Split c (Join l (String c "")) = l.
Proof.
  induction l as [|s l IH]; [done|]. intros _. inversion 1 as [|?? Hs Hl]; subst.
  destruct l as [|s' l]; [by apply Split_no_byte|].
  rewrite Join_cons. change (String c "" +:+ Join (s' :: l) (String c ""))
    with (String c (Join (s' :: l) (String c ""))).
  rewrite Split_app, (Split_no_byte c s Hs), IH by done. done.
Qed.

Lemma Join_app l1 l2 sep :
  l1 ≠ [] → l2 ≠ [] → Join (l1 ++ l2) sep = Join l1 sep +:+ sep +:+ Join l2 sep.
Proof.
  intros H1 H2. induction l1 as [|x l1 IH]; [done|].
  destruct l1 as [|y l1].
  - by destruct l2.
  - rewrite <-!app_comm_cons, !Join_cons, app_comm_cons, IH by done.
    by rewrite !app_s_assoc.
Qed.
End split.

(** ** Paths *)
Section path.
Implicit Types (s : string) (l : list string).

Definition normal_component (s : string) : Prop := s ≠ "" ∧ s ≠ "." ∧ s ≠ "..".

Lemma plain_component_spec s :
  plain_component s = true ↔ no_byte "/" s = true ∧ normal_component s.
Proof.
  unfold plain_component, normal_component.
  rewrite !andb_true_iff, !negb_true_iff, !bool_decide_eq_false. tauto.
Qed.

Lemma clean_comps_app r st l1 l2 :
  clean_comps r st (l1 ++ l2) = clean_comps r (clean_comps r st l1) l2.
Proof.
  revert st. induction l1 as [|c l1 IH]; intros st; [done|]. cbn.
  repeat (case_decide || case_match); apply IH.
Qed.

Lemma clean_comps_normal r st l :
  Forall normal_component l → clean_comps r st l = reverse l ++ st.
Proof.
  revert st. induction l as [|c l IH]; intros st; [done|].
  inversion 1 as [|?? (H1 & H2 & H3) Hl]; subst. cbn [clean_comps].
  rewrite decide_False by tauto. rewrite decide_False by done.
  rewrite IH by done. by rewrite reverse_cons, <-app_assoc.
Qed.

(** Cleaning a rooted path leaves no empty, [.] or [..] component. *)
Lemma clean_comps_rooted_normal st l :
  Forall normal_component st → Forall normal_component (clean_comps true st l).
Proof.
  revert st. induction l as [|c l IH]; intros st Hst; [done|]. cbn.
  case_decide; [by apply IH|]. case_decide.
  - destruct st as [|top st]; [by apply IH|]. inversion Hst as [|?? (H1 & H2 & H3)]; subst.
    rewrite decide_False by done. by apply IH.
  - apply IH. constructor; [|done]. unfold normal_component. tauto.
Qed.

(** A directory written as the source writes them: [/a/b/c]. *)
Definition clean_dir (dir : string) (bs : list string) : Prop :=
  dir = "/" +:+ Join bs "/" ∧ bs ≠ [] ∧ Forall (λ b, plain_component b = true) bs.

Lemma clean_dir_comps dir bs name :
  clean_dir dir bs →
  clean_comps true [] (Split "/" (dir +:+ "/" +:+ name)) =
  clean_comps true (reverse bs) (Split "/" name).
Proof.
  intros (-> & Hne & Hbs).
  rewrite app_s_assoc.
  change ("/" +:+ (Join bs "/" +:+ "/" +:+ name)) with (String "/" (Join bs "/" +:+ String "/" name)).
  change (Split "/" (String "/" ?x)) with ("" :: Split "/" x). cbn [clean_comps].
  rewrite decide_True by tauto. rewrite Split_app, clean_comps_app. f_equal.
  rewrite Split_Join; [|done|].
  - rewrite clean_comps_normal; [by rewrite app_nil_r|].
    eapply Forall_impl; [done|]. intros b Hb. by apply plain_component_spec in Hb as [_ ?].
  - eapply Forall_impl; [done|]. intros b Hb. by apply plain_component_spec in Hb as [? _].
Qed.

Lemma path_Join_dir dir bs name :
  clean_dir dir bs →
  path_Join dir name = "/" +:+ Join (reverse (clean_comps true (reverse bs) (Split "/" name))) "/".
Proof.
  intros Hd. unfold path_Join.
  pose proof Hd as (Hdir & _). rewrite decide_False by (by rewrite Hdir).
  unfold path_Clean.
  assert (HasPrefix (dir +:+ "/" +:+ name) "/" = true) as ->.
  { rewrite Hdir, app_s_assoc. apply HasPrefix_app. }
  by rewrite (clean_dir_comps _ _ _ Hd).
Qed.

(** Joining a single plain component onto a directory appends it. *)
Lemma path_Join_plain dir bs name :
  clean_dir dir bs → plain_component name = true →
  path_Join dir name = dir +:+ "/" +:+ name.
Proof.
  intros Hd [Hno Hn]%plain_component_spec. rewrite (path_Join_dir _ _ _ Hd).
  rewrite Split_no_byte by done. rewrite clean_comps_normal by (by constructor).
  rewrite reverse_app, reverse_involutive.
  destruct Hd as (-> & Hne & _). rewrite Join_app by done. by rewrite app_s_assoc.
Qed.
End path.

(** ** Decimal numbers *)
Section numbers.

Lemma is_digit_pretty x : (x < 10)%N →
  is_digit (pretty_N_char x) = true ∧ digit_val (pretty_N_char x) = Z.of_N x.
Proof.
  intros Hx. assert (x = 0 ∨ x = 1 ∨ x = 2 ∨ x = 3 ∨ x = 4 ∨ x = 5 ∨ x = 6 ∨ x = 7 ∨ x = 8 ∨ x = 9)%N
    as Hc by lia.
  by repeat destruct Hc as [->|Hc]; subst.
Qed.

Lemma parse_digits_pretty_go x s :
  (0 < x)%N → parse_digits 0 (pretty_N_go x s) = parse_digits (Z.of_N x) s.
Proof.
  revert s. induction (N.lt_wf_0 x) as [x _ IH]; intros s Hx.
  rewrite pretty_N_go_step by done.
  destruct (is_digit_pretty (x `mod` 10)) as [Hd Hv]; [by apply N.mod_lt|].
  assert (Hxz : Z.of_N x = (Z.of_N (x `div` 10) * 10 + Z.of_N (x `mod` 10))%Z).
  { pose proof (N.div_mod' x 10). lia. }
  destruct (decide (x `div` 10 = 0)%N) as [H0|H0].
  - rewrite H0 in Hxz |- *. rewrite pretty_N_go_0. cbn. rewrite Hd, Hv. f_equal. lia.
  - rewrite IH; [|by apply N.div_lt|by apply N.neq_0_lt_0]. cbn. rewrite Hd, Hv. f_equal. lia.
Qed.

Lemma parse_digits_pretty n : (0 ≤ n)%Z → parse_digits 0 (pretty n) = Some n.
Proof.
  intros Hn. destruct n as [|p|p]; [done| |lia].
  change (pretty (Z.pos p)) with (pretty_N (N.pos p)).
  unfold pretty_N. rewrite decide_False by done.
  by rewrite parse_digits_pretty_go.
Qed.

Lemma pretty_N_go_first x s :
  (0 < x)%N → ∃ c t, pretty_N_go x s = String c t ∧ is_digit c = true.
Proof.
  revert s. induction (N.lt_wf_0 x) as [x _ IH]; intros s Hx.
  rewrite pretty_N_go_step by done.
  destruct (decide (x `div` 10 = 0)%N) as [H0|H0].
  - rewrite H0, pretty_N_go_0. do 2 eexists. split; [done|].
    by apply is_digit_pretty, N.mod_lt.
  - apply IH; [by apply N.div_lt|by apply N.neq_0_lt_0].
Qed.

Lemma pretty_nonneg_first n : (0 ≤ n)%Z → ∃ c t, pretty n = String c t ∧ is_digit c = true.
Proof.
  intros Hn. destruct n as [|p|p]; [by eexists _, _| |lia].
  change (pretty (Z.pos p)) with (pretty_N (N.pos p)).
  unfold pretty_N. rewrite decide_False by done. by apply pretty_N_go_first.
Qed.

Lemma pretty_N_go_digits x s :
  all_chars is_digit s = true → all_chars is_digit (pretty_N_go x s) = true.
Proof.
  revert s. induction (N.lt_wf_0 x) as [x _ IH]; intros s Hs.
  destruct (decide (x = 0)%N) as [->|Hx]; [by rewrite pretty_N_go_0|].
  rewrite pretty_N_go_step by (by apply N.neq_0_lt_0).
  apply IH; [apply N.div_lt; lia|]. cbn [all_chars]. rewrite Hs, andb_true_r.
  by apply is_digit_pretty, N.mod_lt.
Qed.

Lemma pretty_digits n : (0 ≤ n)%Z → all_chars is_digit (pretty n) = true.
Proof.
  intros Hn. destruct n as [|p|p]; [done| |lia].
  change (pretty (Z.pos p)) with (pretty_N (N.pos p)). unfold pretty_N. case_decide; [done|].
  by apply pretty_N_go_digits.
Qed.

Lemma Atoi_unsigned c t :
  is_digit c = true → Atoi (String c t) =
    v ← parse_digits 0 (String c t);
    if decide (int64_min ≤ v ≤ int64_max)%Z then Some v else None.
Proof.
  intros Hc. unfold Atoi.
  assert (c ≠ "-"%char ∧ c ≠ "+"%char) as [H1 H2] by (by split; intros ->).
  by destruct c as [[][][][][][][][]].
Qed.

Lemma Atoi_pretty n : (0 ≤ n ≤ int64_max)%Z → Atoi (pretty n) = Some n.
Proof.
  intros Hn. destruct (pretty_nonneg_first n) as (c & t & Hp & Hc); [lia|].
  rewrite Hp, Atoi_unsigned by done. rewrite <-Hp, parse_digits_pretty by lia. cbn.
  rewrite decide_True; [done|]. unfold int64_min. lia.
Qed.

Lemma Atoi_range s n : Atoi s = Some n → (int64_min ≤ n ≤ int64_max)%Z.
Proof.
  unfold Atoi. case_match. case_decide; [done|].
  destruct (parse_digits 0 _) as [v|]; cbn; [|done]. by case_decide; intros [= <-].
Qed.
End numbers.

#[export] Hint Rewrite app_s_assoc length_app_s all_chars_app no_byte_app : jellyops.
#[export] Hint Resolve HasPrefix_app TrimPrefix_app Join_Split : jellyops.
