(* ===== verification/Json.v ===== *)
(** * JSON documents (encoding/json, as internal/jellyfinapi uses it)

    A document is identified with its syntax tree: white space and the spelling of
    strings are not distinguished, which no function of the program does either, as
    it compares documents only after decoding them. Decoding into an [any] reads
    numbers as IEEE doubles and keeps the last of two equal keys. *)
From S2P Require Import Prelude.

(** ** Numbers *)
(** The literal [m * 10^e] of a document, or the text [strconv] prints for the
    double [m * 2^e], which by its documentation reads back as that double. *)
Inductive number : Type := Literal (m e : Z) | Float (m e : Z).
#[export] Instance number_eq_dec : EqDecision number.
Proof. solve_decision. Defined.

(** A double as an odd mantissa and an exponent, or as zero. *)
Fixpoint odd_part (p : positive) (e : Z) : positive * Z :=
  match p with
  | xO p => odd_part p (e + 1)
  | _ => (p, e)
  end.
Definition normalize (m e : Z) : Z * Z :=
  match m with
  | Z0 => (0, 0)%Z
  | Zpos p => let '(p, e) := odd_part p e in (Zpos p, e)
  | Zneg p => let '(p, e) := odd_part p e in (Zneg p, e)
  end.

Definition round_half_even (n d : Z) : Z :=
  let q := (n / d)%Z in
  let r := (n mod d)%Z in
  if ((2 * r <? d) || ((2 * r =? d) && Z.even q))%Z then q else (q + 1)%Z.

(** The binary exponent of the double nearest to [n / d], both positive: its
    mantissa has 53 bits unless the number is subnormal. *)
Definition double_exponent (n d : Z) : Z :=
  let k := (Z.log2 n - Z.log2 d - 53)%Z in
  let k := if (n * 2 ^ Z.max 0 (- k) <? 2 ^ 53 * (d * 2 ^ Z.max 0 k))%Z then k else (k + 1)%Z in
  Z.max (-1074) k.

(** [strconv.ParseFloat] on the literal [m * 10^e]: the nearest double, ties to
    even, or an error when it is out of range. *)
Definition ParseFloat (m e : Z) : option (Z * Z) :=
  if decide (m = 0%Z) then Some (0, 0)%Z
  else
    let n := (Z.abs m * 10 ^ Z.max 0 e)%Z in
    let d := (10 ^ Z.max 0 (- e))%Z in
    let k := double_exponent n d in
    let a := round_half_even (n * 2 ^ Z.max 0 (- k)) (d * 2 ^ Z.max 0 k) in
    if ((971 <? k) || ((k =? 971) && (2 ^ 53 <=? a)))%Z then None
    else Some (normalize (Z.sgn m * a) k).

(** ** Documents *)
Inductive Json : Type :=
  | JNull
  | JBool (b : bool)
  | JNumber (n : number)
  | JString (s : string)
  | JArray (l : list Json)
  | JObject (fs : list (string * Json)).

#[export] Instance Json_eq_dec : EqDecision Json.
Proof.
  refine (fix go (x y : Json) := let dec : EqDecision Json := @go in
    match x, y with
    | JNull, JNull => left eq_refl
    | JBool a, JBool b => cast_if (decide (a = b))
    | JNumber a, JNumber b => cast_if (decide (a = b))
    | JString a, JString b => cast_if (decide (a = b))
    | JArray a, JArray b => cast_if (decide (a = b))
    | JObject a, JObject b => cast_if (decide (a = b))
    | _, _ => right _
    end); clear dec go; abstract congruence.
Defined.

(** [json.RawMessage]: no text at all, text that is not JSON, or a document. *)
Inductive RawMessage : Type := Empty | Malformed | Text (j : Json).

(** A Go map from its fields, the last of two equal keys winning, and the fields of
    a map in the order [json.Marshal] writes them. *)
Definition of_fields (fs : list (string * Json)) : gmap string Json :=
  fold_left (λ m '(k, v), <[k := v]> m) fs ∅.
Definition fields (m : gmap string Json) : list (string * Json) :=
  sort_by fst (map_to_list m).

Definition decode_number (n : number) : option number :=
  match n with
  | Literal m e => '(a, k) ← ParseFloat m e; Some (Float a k)
  | Float a k => let '(a, k) := normalize a k in Some (Float a k)
  end.

(** [json.Unmarshal] into an [any]. *)
Fixpoint decode (j : Json) : option Json :=
  match j with
  | JNumber n => JNumber <$> decode_number n
  | JArray l => JArray <$> mapM decode l
  | JObject fs =>
      (λ fs, JObject (fields (of_fields fs))) <$>
        mapM (λ f : string * Json, (f.1 ,.) <$> decode f.2) fs
  | _ => Some j
  end.

(** [json.Unmarshal] of a raw message into a [map[string]json.RawMessage]. *)
Definition unmarshal_raw_map (r : RawMessage) : option (gmap string Json) :=
  match r with
  | Text (JObject fs) => Some (of_fields fs)
  | Text JNull => Some ∅
  | _ => None
  end.

(** [json.Unmarshal] of a raw message into a [map[string]any]. *)
Definition unmarshal_map (r : RawMessage) : option (gmap string Json) :=
  match r with
  | Text j =>
      v ← decode j;
      match v with
      | JObject fs => Some (of_fields fs)
      | JNull => Some ∅
      | _ => None
      end
  | _ => None
  end.

Definition marshal_map (m : gmap string Json) : RawMessage := Text (JObject (fields m)).

Section number_tests.
Example float_tenth : ParseFloat 1 (-1) = Some (3602879701896397, -55)%Z.
Proof. vm_compute. reflexivity. Qed.
Example float_above_2_53 : ParseFloat 9007199254740993 0 = Some (1, 53)%Z.
Proof. vm_compute. reflexivity. Qed.
Example float_max : ParseFloat 17976931348623157 292 = Some (2 ^ 53 - 1, 971)%Z.
Proof. vm_compute. reflexivity. Qed.
Example float_overflow : ParseFloat 18 307 = None.
Proof. vm_compute. reflexivity. Qed.
Example float_min : ParseFloat 5 (-324) = Some (1, -1074)%Z.
Proof. vm_compute. reflexivity. Qed.
Example float_underflow : ParseFloat 2 (-324) = Some (0, 0)%Z.
Proof. vm_compute. reflexivity. Qed.
End number_tests.

(** ** Numbers: integers that fit a double are exact *)
Lemma odd_part_idemp p e p' e' : odd_part p e = (p', e') → odd_part p' e' = (p', e').
Proof.
  revert e. induction p as [p IH|p IH|]; intros e; cbn; [by intros [= <- <-]|apply IH|by intros [= <- <-]].
Qed.

Lemma normalize_idemp m e : normalize (normalize m e).1 (normalize m e).2 = normalize m e.
Proof.
  destruct m as [|p|p]; cbn; [done|..]; destruct (odd_part p e) as [p' e'] eqn:Hp; cbn;
    by rewrite (odd_part_idemp _ _ _ _ Hp).
Qed.

Lemma odd_part_shift p j e : odd_part (Nat.iter j xO p) (e - Z.of_nat j) = odd_part p e.
Proof.
  revert e. induction j as [|j IH]; intros e.
  - rewrite Z.sub_0_r. done.
  - change (odd_part (Nat.iter j xO p) (e - Z.of_nat (S j) + 1) = odd_part p e).
    rewrite <-(IH e). f_equal. lia.
Qed.

Lemma shift_pos p j : Zpos (Nat.iter j xO p) = (Zpos p * 2 ^ Z.of_nat j)%Z.
Proof.
  induction j as [|j IH]; [cbn; lia|].
  change (Nat.iter (S j) xO p) with (xO (Nat.iter j xO p)).
  rewrite Pos2Z.inj_xO, IH, Nat2Z.inj_succ, Z.pow_succ_r by lia. lia.
Qed.

Lemma normalize_shift m j e : (0 ≤ j)%Z → normalize (m * 2 ^ j) (e - j) = normalize m e.
Proof.
  intros Hj. destruct (Z_of_nat_complete j Hj) as [n ->].
  destruct m as [|p|p]; [done|..].
  - rewrite <-shift_pos. cbn [normalize]. by rewrite odd_part_shift.
  - rewrite <-Pos2Z.opp_pos, Z.mul_opp_l, <-shift_pos, !Pos2Z.opp_pos.
    cbn [normalize]. by rewrite odd_part_shift.
Qed.

Lemma round_exact a d : (0 < d)%Z → round_half_even (a * d) d = a.
Proof.
  intros Hd. unfold round_half_even. rewrite Z.div_mul, Z.mod_mul by lia.
  by rewrite (proj2 (Z.ltb_lt _ _)) by lia.
Qed.

(** The exponent of a positive integer: its leading bit lands on bit 52. *)
Lemma double_exponent_int n : (0 < n)%Z → double_exponent n 1 = (Z.log2 n - 52)%Z.
Proof.
  intros Hn. unfold double_exponent. change (Z.log2 1) with 0%Z.
  pose proof (Z.log2_spec n Hn) as [Hlo Hhi]. pose proof (Z.log2_nonneg n) as Hl.
  rewrite (proj2 (Z.ltb_ge _ _)); [lia|].
  rewrite Z.mul_1_l, <-Z.pow_add_r by lia.
  destruct (decide (Z.log2 n ≤ 53)%Z) as [Hs|Hs].
  - rewrite (Z.max_l 0 (Z.log2 n - 0 - 53)), Z.max_r by lia.
    trans (2 ^ Z.log2 n * 2 ^ (- (Z.log2 n - 0 - 53)))%Z; [|nia].
    rewrite <-Z.pow_add_r by lia. apply Z.pow_le_mono_r; lia.
  - rewrite (Z.max_r 0 (Z.log2 n - 0 - 53)), (Z.max_l 0 (- _)) by lia.
    rewrite Z.mul_1_r. etrans; [|exact Hlo]. apply Z.pow_le_mono_r; lia.
Qed.

Lemma ParseFloat_exact n : (Z.abs n ≤ 2 ^ 53)%Z → ParseFloat n 0 = Some (normalize n 0).
Proof.
  intros Hn. unfold ParseFloat. case_decide as Hz; [by subst|].
  change (10 ^ Z.max 0 (- 0))%Z with 1%Z. change (10 ^ Z.max 0 0)%Z with 1%Z.
  rewrite Z.mul_1_r, double_exponent_int by lia.
  set (l := Z.log2 (Z.abs n)).
  assert (0 ≤ l)%Z by apply Z.log2_nonneg.
  assert (l ≤ 53)%Z.
  { unfold l. etrans; [by apply Z.log2_le_mono|]. by rewrite Z.log2_pow2. }
  rewrite (proj2 (Z.ltb_ge _ _)), (proj2 (Z.eqb_neq _ _)) by lia. cbn [orb andb]. f_equal.
  assert (∀ a k, (0 ≤ k)%Z → Z.abs n = (a * 2 ^ k)%Z → normalize (Z.sgn n * a) k = normalize n 0) as Hdiv.
  { intros a k Hk Ha. rewrite <-(normalize_shift (Z.sgn n * a) k) by done.
    rewrite <-Z.mul_assoc, <-Ha, Z.mul_comm, Z.abs_sgn. by rewrite Z.sub_diag. }
  destruct (decide (l ≤ 52)%Z).
  - rewrite (Z.max_l 0 (l - 52)), Z.max_r by lia. rewrite Z.pow_0_r, Z.mul_1_r.
    rewrite <-(Z.mul_1_r (Z.abs n * _)), round_exact by done.
    rewrite Z.mul_assoc, (Z.mul_comm (Z.sgn n)), Z.abs_sgn. rewrite <-(normalize_shift n (52 - l) 0) by lia. f_equal; [|lia]. do 2 f_equal; lia.
  - assert (l = 53)%Z as Hl by lia.
    assert (Z.abs n = 2 ^ 53)%Z as ->.
    { pose proof (Z.log2_spec (Z.abs n)) as Hs. fold l in Hs. rewrite Hl in Hs. lia. }
    rewrite Hl. change (round_half_even _ _) with (2 ^ 52)%Z. apply Hdiv; [done|].
    pose proof (Z.log2_spec (Z.abs n)) as Hs. fold l in Hs. rewrite Hl in Hs. lia.
Qed.

Lemma ParseFloat_int n : (Z.abs n < 2 ^ 1000)%Z → is_Some (ParseFloat n 0).
Proof.
  intros Hn. unfold ParseFloat. case_decide; [done|].
  change (10 ^ Z.max 0 (- 0))%Z with 1%Z. change (10 ^ Z.max 0 0)%Z with 1%Z.
  rewrite Z.mul_1_r, double_exponent_int by lia.
  assert (Z.log2 (Z.abs n) < 1000)%Z by (apply Z.log2_lt_pow2; lia).
  by rewrite (proj2 (Z.ltb_ge _ _)), (proj2 (Z.eqb_neq _ _)) by lia.
Qed.

(** ** Maps and their fields *)
Lemma of_fields_spec fs (m0 : gmap string Json) k :
  fold_left (λ m '(k, v), <[k := v]> m) fs m0 !! k =
    match (list_to_map (reverse fs) : gmap string Json) !! k with Some v => Some v | None => m0 !! k end.
Proof.
  revert m0. induction fs as [|[k' v] fs IH]; intros m0.
  { cbn [fold_left]. by rewrite reverse_nil, list_to_map_nil, lookup_empty. }
  cbn [fold_left]. rewrite IH, reverse_cons, list_to_map_app, lookup_union. cbn [list_to_map foldr].
  destruct (list_to_map (reverse fs) !! k) as [w|]; [by rewrite union_Some_l|].
  rewrite (left_id None union). destruct (decide (k = k')) as [->|Hne]; by simplify_map_eq.
Qed.

Lemma of_fields_list_to_map fs : of_fields fs = list_to_map (reverse fs).
Proof.
  apply map_eq. intros k. unfold of_fields. rewrite of_fields_spec.
  destruct (_ !! k); by rewrite ?lookup_empty.
Qed.

Lemma fields_Permutation m : fields m ≡ₚ map_to_list m.
Proof. apply sort_by_Permutation. Qed.

Lemma fields_NoDup m : NoDup (fields m).*1.
Proof. rewrite fields_Permutation. apply NoDup_fst_map_to_list. Qed.

Lemma of_fields_fields m : of_fields (fields m) = m.
Proof.
  rewrite of_fields_list_to_map. rewrite <-(list_to_map_to_list m) at 2. symmetry.
  apply list_to_map_proper; [apply NoDup_fst_map_to_list|].
  by rewrite reverse_Permutation, fields_Permutation.
Qed.

Lemma fields_inj m1 m2 : fields m1 = fields m2 → m1 = m2.
Proof. intros H%(f_equal of_fields). by rewrite !of_fields_fields in H. Qed.

Lemma elem_of_fields m k v : (k, v) ∈ fields m ↔ m !! k = Some v.
Proof. unfold fields. by rewrite elem_of_sort_by, elem_of_map_to_list. Qed.

(** With distinct keys, the fields of a document are the entries of its map. *)
Lemma of_fields_lookup fs k v : NoDup fs.*1 → of_fields fs !! k = Some v ↔ (k, v) ∈ fs.
Proof.
  intros Hnd. rewrite of_fields_list_to_map, <-elem_of_list_to_map.
  - apply elem_of_reverse.
  - by rewrite fmap_reverse, reverse_Permutation.
Qed.

Lemma of_fields_elem fs k v : of_fields fs !! k = Some v → (k, v) ∈ fs.
Proof.
  rewrite of_fields_list_to_map. intros H%elem_of_list_to_map_2. by apply elem_of_reverse.
Qed.

(** ** Induction over documents *)
Fixpoint Json_ind' (P : Json → Prop)
    (Hnull : P JNull) (Hbool : ∀ b, P (JBool b)) (Hnum : ∀ n, P (JNumber n))
    (Hstr : ∀ s, P (JString s)) (Harr : ∀ l, Forall P l → P (JArray l))
    (Hobj : ∀ fs, Forall (λ f, P f.2) fs → P (JObject fs)) (j : Json) : P j :=
  match j with
  | JNull => Hnull | JBool b => Hbool b | JNumber n => Hnum n | JString s => Hstr s
  | JArray l =>
      Harr l ((fix go l := match l return Forall P l with
               | [] => Forall_nil_2 _
               | x :: l => Forall_cons_2 _ _ _ (Json_ind' P Hnull Hbool Hnum Hstr Harr Hobj x) (go l)
               end) l)
  | JObject fs =>
      Hobj fs ((fix go fs := match fs return Forall (λ f, P f.2) fs with
                | [] => Forall_nil_2 _
                | f :: fs => Forall_cons_2 _ _ _ (Json_ind' P Hnull Hbool Hnum Hstr Harr Hobj f.2) (go fs)
                end) fs)
  end.

(** ** Decoding twice is decoding once *)
Lemma decode_idemp j v : decode j = Some v → decode v = Some v.
Proof.
  revert v. induction j as [|b|n|s|l IH|fs IH] using Json_ind'; intros v; cbn; try by intros [= <-].
  - destruct n as [m e|m e]; cbn.
    + destruct (ParseFloat m e) as [[a k]|] eqn:Hp; [|done]. intros [= <-]. cbn.
      assert (normalize a k = (a, k)) as ->; [|done].
      unfold ParseFloat in Hp. case_decide; [by simplify_eq|]. case_match; [done|].
      injection Hp as Hp. pose proof (normalize_idemp (fst (normalize a k)) 0).
      match type of Hp with normalize ?x ?y = _ => pose proof (normalize_idemp x y) as Hn end.
      by rewrite Hp in Hn.
    + destruct (normalize m e) as [a k] eqn:Hn. intros [= <-]. cbn.
      pose proof (normalize_idemp m e) as Hi. rewrite Hn in Hi. cbn in Hi. by rewrite Hi.
  - destruct (mapM decode l) as [l'|] eqn:Hl; [|done]. intros [= <-]. cbn.
    apply mapM_Some in Hl. assert (mapM decode l' = Some l') as ->; [|done].
    apply mapM_Some. clear -Hl IH. induction Hl; [done|].
    apply Forall_cons in IH as [? ?]. constructor; auto.
  - destruct (mapM _ fs) as [fs'|] eqn:Hfs; [|done]. intros [= <-]. cbn.
    apply mapM_Some in Hfs.
    assert (Forall (λ f, decode f.2 = Some f.2) fs') as Hfs'.
    { clear -Hfs IH. induction Hfs as [|[k x] f' fs fs' Hf Hfs IHfs]; [done|].
      apply Forall_cons in IH as [IHx IH]. constructor; [|auto].
      cbn in Hf. destruct (decode x) as [y|] eqn:Hy; [|done]. injection Hf as <-. cbn. auto. }
    assert (mapM (λ f : string * Json, (f.1,.) <$> decode f.2) (fields (of_fields fs'))
            = Some (fields (of_fields fs'))) as ->.
    { apply mapM_Some, Forall_Forall2_diag, Forall_forall. intros [k x] Hkx%elem_of_fields.
      apply of_fields_elem in Hkx. rewrite Forall_forall in Hfs'. apply Hfs' in Hkx.
      cbn in *. by rewrite Hkx. }
    cbn. by rewrite of_fields_fields.
Qed.
