(* ===== verification/Options.v ===== *)
(** * Overlaying managed settings on a server's documents
    (internal/jellyfinapi/configuration.go, encoding.go, and the options of
    libraries.go)

    The server replaces a configuration as a whole, so every write is the document
    just read with the managed fields set. *)
From S2P Require Import Prelude Json.

(** The error of [json.Unmarshal]. *)
Inductive JsonError : Type := SyntaxOrTypeError.

Definition unmarshalled {A} (o : option A) : result JsonError A :=
  match o with Some a => Ok a | None => Err SyntaxOrTypeError end.

(** [len(bytesTrim(b)) > 0] *)
Definition bytesTrim (b : RawMessage) : bool :=
  match b with Empty | Text JNull => false | _ => true end.

Definition jsonEqual (a b : Json) : bool :=
  match decode a, decode b with
  | Some av, Some bv => bool_decide (av = bv)
  | _, _ => false
  end.

(** ** One managed field

    The body every overlay repeats: a field that already reads as wanted is left
    as it is. *)
Definition set_field (s : gmap string Json * bool) (kv : string * Json) : gmap string Json * bool :=
  let '(opts, changed) := s in
  let '(key, raw) := kv in
  match opts !! key with
  | Some cur => if jsonEqual cur raw then (opts, changed) else (<[key := raw]> opts, true)
  | None => (<[key := raw]> opts, true)
  end.

(** The document's fields, its null or missing text read as no fields. *)
Definition current_options (current : RawMessage) : result JsonError (gmap string Json) :=
  if bytesTrim current then unmarshalled (unmarshal_raw_map current) else Ok ∅.

Definition overlay (current : RawMessage) (kvs : list (string * Json))
    : result JsonError (RawMessage * bool) :=
  opts ← current_options current;
  let '(opts, changed) := fold_left set_field kvs (opts, false) in
  if (changed : bool) then Ok (marshal_map opts, true) else Ok (current, false).

(** ** libraries.go *)
Definition readOnlyLibraryOptions : gmap string Json :=
  {[ "SaveLocalMetadata" := JBool false; "MetadataSavers" := JArray [];
     "SaveSubtitlesWithMedia" := JBool false; "SaveLyricsWithMedia" := JBool false;
     "SaveTrickplayWithMedia" := JBool false ]}.

Definition EnforceReadOnlyOptions `{MapOrder} (current : RawMessage)
    : result JsonError (RawMessage * bool) :=
  overlay current (range_map readOnlyLibraryOptions).

(** [deepMerge]: the fields of [src], in the order they are visited. *)
Fixpoint merge_value (sv : Json) (dv : option Json) : Json :=
  match sv, dv with
  | JObject sm, Some (JObject dm) =>
      JObject (fields (fold_left (λ m f, <[f.1 := merge_value f.2 (m !! f.1)]> m) sm (of_fields dm)))
  | _, _ => sv
  end.
Definition deepMerge (dst : gmap string Json) (src : list (string * Json)) : gmap string Json :=
  fold_left (λ m f, <[f.1 := merge_value f.2 (m !! f.1)]> m) src dst.

Definition jsonToMap (raw : RawMessage) : gmap string Json :=
  if bytesTrim raw then default ∅ (unmarshal_map raw) else ∅.

Definition MergeLibraryOptions `{MapOrder} (current desired : RawMessage)
    : result JsonError (RawMessage * bool) :=
  if negb (bytesTrim desired) then Ok (current, false)
  else
    curMap ← (if bytesTrim current then unmarshalled (unmarshal_map current) else Ok ∅);
    desMap ← unmarshalled (unmarshal_map desired);
    let merged := deepMerge curMap (range_map desMap) in
    if decide (merged = jsonToMap current) then Ok (current, false)
    else Ok (marshal_map merged, true).

(** ** configuration.go *)
Definition overlayConfig (current : RawMessage) (managed : gmap string Json)
    : result JsonError (RawMessage * bool) :=
  overlay current (fields managed).

Definition put (key : string) (v : option Json) (m : gmap string Json) : gmap string Json :=
  match v with Some v => <[key := v]> m | None => m end.

(** An integer, a string list, as [json.Marshal] writes them. *)
Definition JInt (n : Z) : Json := JNumber (Literal n 0).
Definition JStrings (l : list string) : Json := JArray (JString <$> l).

Record DesiredServerConfig := mkDSC {
  dsc_ServerName : option string;
  dsc_UICulture : option string;
  dsc_QuickConnectAvailable : option bool;
  dsc_EnableMetrics : option bool;
  dsc_EnableNormalizedItemByNameIds : option bool;
  dsc_AllowClientLogUpload : option bool;
  dsc_EnableSlowResponseWarning : option bool;
  dsc_SlowResponseThresholdMs : option Z;
  dsc_LibraryScanFanoutConcurrency : option Z;
  dsc_LibraryMetadataRefreshConcurrency : option Z;
  dsc_ParallelImageEncodingLimit : option Z;
  dsc_ActivityLogRetentionDays : option Z;
  dsc_LibraryMonitorDelay : option Z;
  dsc_LibraryUpdateDuration : option Z;
  dsc_InactiveSessionThreshold : option Z;
  dsc_LogFileRetentionDays : option Z;
  dsc_CachePath : option string;
  dsc_MetadataPath : option string;
  dsc_CorsHosts : option (list string);
  dsc_MinResumePct : option Z;
  dsc_MaxResumePct : option Z;
  dsc_MinResumeDurationSeconds : option Z;
  dsc_MinAudiobookResume : option Z;
  dsc_MaxAudiobookResume : option Z;
  dsc_RemoteClientBitrateLimit : option Z;
}.

Definition DesiredServerConfig_managed (d : DesiredServerConfig) : gmap string Json :=
  fold_left (λ m kv, put kv.1 kv.2 m)
    [("ServerName", JString <$> dsc_ServerName d);
     ("UICulture", JString <$> dsc_UICulture d);
     ("QuickConnectAvailable", JBool <$> dsc_QuickConnectAvailable d);
     ("EnableMetrics", JBool <$> dsc_EnableMetrics d);
     ("EnableNormalizedItemByNameIds", JBool <$> dsc_EnableNormalizedItemByNameIds d);
     ("AllowClientLogUpload", JBool <$> dsc_AllowClientLogUpload d);
     ("EnableSlowResponseWarning", JBool <$> dsc_EnableSlowResponseWarning d);
     ("SlowResponseThresholdMs", JInt <$> dsc_SlowResponseThresholdMs d);
     ("LibraryScanFanoutConcurrency", JInt <$> dsc_LibraryScanFanoutConcurrency d);
     ("LibraryMetadataRefreshConcurrency", JInt <$> dsc_LibraryMetadataRefreshConcurrency d);
     ("ParallelImageEncodingLimit", JInt <$> dsc_ParallelImageEncodingLimit d);
     ("ActivityLogRetentionDays", JInt <$> dsc_ActivityLogRetentionDays d);
     ("LibraryMonitorDelay", JInt <$> dsc_LibraryMonitorDelay d);
     ("LibraryUpdateDuration", JInt <$> dsc_LibraryUpdateDuration d);
     ("InactiveSessionThreshold", JInt <$> dsc_InactiveSessionThreshold d);
     ("LogFileRetentionDays", JInt <$> dsc_LogFileRetentionDays d);
     ("CachePath", JString <$> dsc_CachePath d);
     ("MetadataPath", JString <$> dsc_MetadataPath d);
     ("CorsHosts", JStrings <$> dsc_CorsHosts d);
     ("MinResumePct", JInt <$> dsc_MinResumePct d);
     ("MaxResumePct", JInt <$> dsc_MaxResumePct d);
     ("MinResumeDurationSeconds", JInt <$> dsc_MinResumeDurationSeconds d);
     ("MinAudiobookResume", JInt <$> dsc_MinAudiobookResume d);
     ("MaxAudiobookResume", JInt <$> dsc_MaxAudiobookResume d);
     ("RemoteClientBitrateLimit", JInt <$> dsc_RemoteClientBitrateLimit d)] ∅.

Definition DesiredServerConfig_Empty (d : DesiredServerConfig) : bool :=
  bool_decide (DesiredServerConfig_managed d = ∅).

Definition EnforceServerConfig (current : RawMessage) (desired : DesiredServerConfig)
    : result JsonError (RawMessage * bool) :=
  overlayConfig current (DesiredServerConfig_managed desired).

Record DesiredBranding := mkDB {
  db_LoginDisclaimer : option string;
  db_CustomCss : option string;
  db_SplashscreenEnabled : option bool;
}.

Definition DesiredBranding_managed (d : DesiredBranding) : gmap string Json :=
  put "SplashscreenEnabled" (JBool <$> db_SplashscreenEnabled d)
    (put "CustomCss" (JString <$> db_CustomCss d)
       (put "LoginDisclaimer" (JString <$> db_LoginDisclaimer d) ∅)).

Definition DesiredBranding_Empty (d : DesiredBranding) : bool :=
  bool_decide (DesiredBranding_managed d = ∅).

Definition EnforceBranding (current : RawMessage) (desired : DesiredBranding)
    : result JsonError (RawMessage * bool) :=
  overlayConfig current (DesiredBranding_managed desired).

(** ** encoding.go *)
Record DesiredEncoding := mkDE {
  de_EnableThrottling : option bool;
  de_ThrottleDelaySeconds : option Z;
  de_EnableSegmentDeletion : option bool;
  de_SegmentKeepSeconds : option Z;
}.

Definition DesiredEncoding_Empty (d : DesiredEncoding) : bool :=
  bool_decide (de_EnableThrottling d = None ∧ de_ThrottleDelaySeconds d = None ∧
               de_EnableSegmentDeletion d = None ∧ de_SegmentKeepSeconds d = None).

(** The calls to [set], one per declared field. *)
Definition encoding_fields (d : DesiredEncoding) : list (string * Json) :=
  omap (λ kv : string * option Json, (kv.1 ,.) <$> kv.2)
    [("EnableThrottling", JBool <$> de_EnableThrottling d);
     ("ThrottleDelaySeconds", JInt <$> de_ThrottleDelaySeconds d);
     ("EnableSegmentDeletion", JBool <$> de_EnableSegmentDeletion d);
     ("SegmentKeepSeconds", JInt <$> de_SegmentKeepSeconds d)].

Definition EnforceEncodingOptions (current : RawMessage) (desired : DesiredEncoding)
    : result JsonError (RawMessage * bool) :=
  overlay current (encoding_fields desired).

(** ** The overlay *)
Lemma jsonEqual_refl v : is_Some (decode v) → jsonEqual v v = true.
Proof. intros [w Hw]. unfold jsonEqual. rewrite Hw. by apply bool_decide_eq_true. Qed.

(** What a field ends up as. *)
Definition kept (cur : option Json) (v : Json) : Json :=
  match cur with Some c => if jsonEqual c v then c else v | None => v end.
Definition satisfied (opts : gmap string Json) (kv : string * Json) : bool :=
  match opts !! kv.1 with Some c => jsonEqual c kv.2 | None => false end.

Lemma set_field_eq opts ch kv :
  set_field (opts, ch) kv = (<[kv.1 := kept (opts !! kv.1) kv.2]> opts, ch || negb (satisfied opts kv)).
Proof.
  destruct kv as [k v]. unfold set_field, kept, satisfied. cbn.
  destruct (opts !! k) as [c|] eqn:Hk; [destruct (jsonEqual c v)|]; cbn; f_equal;
    rewrite ?orb_true_r, ?orb_false_r; try done.
  by rewrite insert_id.
Qed.

Lemma fold_set_field kvs opts ch :
  NoDup kvs.*1 →
  (∀ k, (fold_left set_field kvs (opts, ch)).1 !! k =
        match (list_to_map kvs : gmap string Json) !! k with
        | Some v => Some (kept (opts !! k) v) | None => opts !! k end) ∧
  (fold_left set_field kvs (opts, ch)).2 = ch || negb (forallb (satisfied opts) kvs).
Proof.
  revert opts ch. induction kvs as [|[k v] kvs IH]; intros opts ch Hnd.
  { cbn. rewrite orb_false_r. by setoid_rewrite lookup_empty. }
  rewrite fmap_cons in Hnd. apply NoDup_cons in Hnd as [Hk Hnd].
  cbn [fold_left]. rewrite set_field_eq. cbn [fst snd].
  destruct (IH (<[k:=kept (opts !! k) v]> opts) (ch || negb (satisfied opts (k, v))) Hnd) as [IH1 IH2].
  assert ((list_to_map kvs : gmap string Json) !! k = None) as Hnone.
  { by apply not_elem_of_list_to_map_1. }
  split.
  - intros k'. rewrite IH1. cbn [list_to_map foldr]. destruct (decide (k' = k)) as [->|Hne].
    + simplify_map_eq. done.
    + by rewrite !lookup_insert_ne by done.
  - rewrite IH2. cbn [forallb]. rewrite negb_andb, orb_assoc. do 2 f_equal.
    apply forallb_ext_elem. intros [k' v'] Hin. unfold satisfied. cbn.
    rewrite lookup_insert_ne; [done|]. intros ->. apply Hk. apply list_elem_of_fmap. by exists (k', v').
Qed.

(** The promise of an overlay of [wanted]: it fails only on text that is not an
    object, sets the wanted fields, leaves every other field, leaves alone a
    document that already reads as wanted and says so, and has nothing left to do
    when run again. *)
Definition overlay_contract (wanted : gmap string Json)
    (enforce : RawMessage → result JsonError (RawMessage * bool)) : Prop :=
  ∀ current, match current_options current with
  | Err e => enforce current = Err e
  | Ok opts => ∃ out changed opts',
      enforce current = Ok (out, changed) ∧ current_options out = Ok opts' ∧
      (∀ k, wanted !! k = None → opts' !! k = opts !! k) ∧
      (∀ k v, wanted !! k = Some v → ∃ w, opts' !! k = Some w ∧ jsonEqual w v = true) ∧
      (changed = false ↔
         ∀ k v, wanted !! k = Some v → ∃ w, opts !! k = Some w ∧ jsonEqual w v = true) ∧
      (changed = false → out = current) ∧
      enforce out = Ok (out, false)
  end.

Lemma satisfied_spec opts k v :
  satisfied opts (k, v) = true ↔ ∃ w, opts !! k = Some w ∧ jsonEqual w v = true.
Proof.
  unfold satisfied. cbn. destruct (opts !! k); split; try done; [eauto|by intros (? & [= ->] & ?)|].
  by intros (? & [=] & _).
Qed.

Lemma overlay_ok wanted kvs :
  kvs ≡ₚ map_to_list wanted →
  (∀ k v, wanted !! k = Some v → is_Some (decode v)) →
  overlay_contract wanted (λ current, overlay current kvs).
Proof.
  intros Hp Hdec current. unfold overlay. destruct (current_options current) as [opts|e] eqn:Hc; [|done].
  cbn. assert (NoDup kvs.*1) as Hnd by (rewrite Hp; apply NoDup_fst_map_to_list).
  assert (list_to_map kvs = wanted) as Hmap.
  { rewrite <-(list_to_map_to_list wanted). apply list_to_map_proper; [done|done]. }
  assert (∀ opts, forallb (satisfied opts) kvs = true ↔
            ∀ k v, wanted !! k = Some v → ∃ w, opts !! k = Some w ∧ jsonEqual w v = true) as Hall.
  { intros o. rewrite forallb_forall. split.
    - intros H k v Hkv. apply satisfied_spec, H. apply list_elem_of_In. rewrite Hp.
      by apply elem_of_map_to_list.
    - intros H [k v] Hin%list_elem_of_In. rewrite Hp in Hin. apply satisfied_spec, H.
      by apply elem_of_map_to_list in Hin. }
  destruct (fold_set_field kvs opts false Hnd) as [Hget Hch]. rewrite Hmap in Hget.
  destruct (fold_left set_field kvs (opts, false)) as [opts' ch] eqn:Hfold. cbn in Hget, Hch.
  assert (∀ k v, wanted !! k = Some v → ∃ w, opts' !! k = Some w ∧ jsonEqual w v = true) as Hset.
  { intros k v Hkv. rewrite Hget, Hkv. eexists. split; [done|]. unfold kept.
    destruct (opts !! k) as [c|]; [destruct (jsonEqual c v) eqn:?; [done|]|]; eapply jsonEqual_refl; eauto. }
  assert (∀ k, wanted !! k = None → opts' !! k = opts !! k) as Hframe.
  { intros k Hk. by rewrite Hget, Hk. }
  destruct (forallb (satisfied opts) kvs) eqn:Hsat; cbn in Hch; subst ch.
  - pose proof (proj1 (Hall opts) Hsat) as Hs. exists current, false, opts.
    repeat split; try done. rewrite Hc. cbn. by rewrite Hfold.
  - exists (marshal_map opts'), true, opts'.
    assert (current_options (marshal_map opts') = Ok opts') as Ho.
    { unfold current_options. cbn. by rewrite of_fields_fields. }
    repeat split; try done.
    + intros Hs%Hall. congruence.
    + rewrite Ho. cbn. destruct (fold_set_field kvs opts' false Hnd) as [_ Hch].
      destruct (fold_left set_field kvs (opts', false)) as [o ch]. cbn in Hch.
      by rewrite (proj2 (Hall opts') Hset) in Hch; subst ch.
Qed.

(** Managed values are always readable: integers fit 64 bits. *)
Definition int64 (n : Z) : Prop := (- 2 ^ 63 ≤ n < 2 ^ 63)%Z.
Definition int64_opt (o : option Z) : Prop := match o with Some n => int64 n | None => True end.

Lemma decode_JInt n : int64 n → is_Some (decode (JInt n)).
Proof.
  intros Hn. cbn. assert (Z.abs n < 2 ^ 1000)%Z as Hb.
  { apply Z.le_lt_trans with (2 ^ 63)%Z; [unfold int64 in Hn; lia|by apply Z.pow_lt_mono_r]. }
  destruct (ParseFloat_int n Hb) as [[a k] ->]. by eexists.
Qed.

Lemma decode_JStrings l : is_Some (decode (JStrings l)).
Proof.
  cbn. assert (mapM decode (JString <$> l) = Some (JString <$> l)) as ->; [|by eexists].
  apply mapM_Some. induction l; [constructor|]. by constructor.
Qed.

Definition readable (kv : string * option Json) : Prop :=
  match kv.2 with Some v => is_Some (decode v) | None => True end.

Lemma readable_bool k o : readable (k, JBool <$> o).
Proof. destruct o; cbn; [by eexists|done]. Qed.
Lemma readable_string k o : readable (k, JString <$> o).
Proof. destruct o; cbn; [by eexists|done]. Qed.
Lemma readable_strings k o : readable (k, JStrings <$> o).
Proof. destruct o; [apply decode_JStrings|done]. Qed.
Lemma readable_int k o : int64_opt o → readable (k, JInt <$> o).
Proof. destruct o; [apply decode_JInt|done]. Qed.
#[export] Hint Resolve readable_bool readable_string readable_strings readable_int : jellyops.

Lemma put_lookup l m k v :
  fold_left (λ m kv, put kv.1 kv.2 m) l m !! k = Some v → m !! k = Some v ∨ (k, Some v) ∈ l.
Proof.
  revert m. induction l as [|[k' o] l IH]; intros m; cbn; [by left|].
  intros [H|H]%IH; [|by right; right]. destruct o as [w|]; cbn in H; [|by left].
  apply lookup_insert_Some in H as [[-> ->]|[_ H]]; [by right; left|by left].
Qed.

Lemma put_readable l k v :
  Forall readable l → fold_left (λ m kv, put kv.1 kv.2 m) l (∅ : gmap string Json) !! k = Some v →
  is_Some (decode v).
Proof.
  intros Hl [H|H]%put_lookup; [done|]. rewrite Forall_forall in Hl. by apply Hl in H.
Qed.

(** The integer fields of a server configuration. *)
Definition server_ints (d : DesiredServerConfig) : list (option Z) :=
  [dsc_SlowResponseThresholdMs d; dsc_LibraryScanFanoutConcurrency d;
   dsc_LibraryMetadataRefreshConcurrency d; dsc_ParallelImageEncodingLimit d;
   dsc_ActivityLogRetentionDays d; dsc_LibraryMonitorDelay d; dsc_LibraryUpdateDuration d;
   dsc_InactiveSessionThreshold d; dsc_LogFileRetentionDays d; dsc_MinResumePct d;
   dsc_MaxResumePct d; dsc_MinResumeDurationSeconds d; dsc_MinAudiobookResume d;
   dsc_MaxAudiobookResume d; dsc_RemoteClientBitrateLimit d].

Lemma server_managed_readable d k v :
  Forall int64_opt (server_ints d) → DesiredServerConfig_managed d !! k = Some v → is_Some (decode v).
Proof.
  unfold server_ints. rewrite !Forall_cons. intros Hi. apply put_readable.
  repeat constructor; auto with jellyops; apply readable_int; tauto.
Qed.

Lemma encoding_fields_keys d : NoDup (encoding_fields d).*1.
Proof.
  destruct d as [[] [] [] []]; cbn; repeat constructor; set_solver.
Qed.

(** The contract of each operation. *)
Section contracts.
Context `{MapOrder}.

Lemma server_contract d :
  Forall int64_opt (server_ints d) →
  overlay_contract (DesiredServerConfig_managed d) (λ c, EnforceServerConfig c d).
Proof. intros Hd. apply overlay_ok; [apply fields_Permutation|]. intros k v. by apply server_managed_readable. Qed.

Lemma branding_contract b : overlay_contract (DesiredBranding_managed b) (λ c, EnforceBranding c b).
Proof.
  apply overlay_ok; [apply fields_Permutation|].
  intros k v Hk. eapply (put_readable [("LoginDisclaimer", JString <$> db_LoginDisclaimer b);
    ("CustomCss", JString <$> db_CustomCss b); ("SplashscreenEnabled", JBool <$> db_SplashscreenEnabled b)]); [|exact Hk].
  repeat constructor; auto with jellyops.
Qed.

Lemma encoding_contract t :
  Forall int64_opt [de_ThrottleDelaySeconds t; de_SegmentKeepSeconds t] →
  overlay_contract (list_to_map (encoding_fields t)) (λ c, EnforceEncodingOptions c t).
Proof.
  intros Ht. apply overlay_ok; [symmetry; apply map_to_list_to_map, encoding_fields_keys|].
  intros k v Hkv%elem_of_list_to_map_2. rewrite !Forall_cons in Ht. destruct Ht as (Ht1 & Ht2 & _).
  unfold encoding_fields in Hkv. apply list_elem_of_omap in Hkv as ([k' o] & Hin & Ho).
  destruct o as [w|]; [|done]. injection Ho as -> ->.
  assert (Forall readable
    [("EnableThrottling", JBool <$> de_EnableThrottling t);
     ("ThrottleDelaySeconds", JInt <$> de_ThrottleDelaySeconds t);
     ("EnableSegmentDeletion", JBool <$> de_EnableSegmentDeletion t);
     ("SegmentKeepSeconds", JInt <$> de_SegmentKeepSeconds t)]) as Hr.
  { repeat constructor; auto with jellyops. }
  rewrite Forall_forall in Hr. by apply Hr in Hin.
Qed.

Lemma read_only_decodes k v : readOnlyLibraryOptions !! k = Some v → is_Some (decode v).
Proof.
  assert (map_Forall (λ (_ : string) v, is_Some (decode v)) readOnlyLibraryOptions) as Hall; [|apply Hall].
  repeat (apply map_Forall_insert_2; [by eexists|]). apply map_Forall_empty.
Qed.

Lemma read_only_contract : overlay_contract readOnlyLibraryOptions EnforceReadOnlyOptions.
Proof. apply overlay_ok; [apply range_map_perm|apply read_only_decodes]. Qed.
End contracts.

(** C28: Writing a configuration back never loses what is not managed: for the server's
    general and playback settings, its branding, its transcoding settings, and the
    options of a library kept from writing into its media. *)
Theorem enforce_overlays `{MapOrder} (d : DesiredServerConfig) (b : DesiredBranding) (t : DesiredEncoding)
    (Hd : Forall int64_opt (server_ints d))
    (Ht : Forall int64_opt [de_ThrottleDelaySeconds t; de_SegmentKeepSeconds t]) :
  overlay_contract (DesiredServerConfig_managed d) (λ c, EnforceServerConfig c d) ∧
  overlay_contract (DesiredBranding_managed b) (λ c, EnforceBranding c b) ∧
  overlay_contract (list_to_map (encoding_fields t)) (λ c, EnforceEncodingOptions c t) ∧
  overlay_contract readOnlyLibraryOptions EnforceReadOnlyOptions.
Proof.
  split_and!; [by apply server_contract|apply branding_contract|by apply encoding_contract|apply read_only_contract].
Qed.

(** ** The deep merge *)
Definition decoded (j : Json) : Prop := decode j = Some j.

Lemma decoded_object m :
  (∀ k v, m !! k = Some v → decoded v) → decoded (JObject (fields m)).
Proof.
  intros Hm. unfold decoded. cbn.
  assert (mapM (λ f : string * Json, (f.1,.) <$> decode f.2) (fields m) = Some (fields m)) as ->.
  { apply mapM_Some, Forall_Forall2_diag, Forall_forall. intros [k v] Hkv%elem_of_fields.
    cbn. by rewrite (Hm _ _ Hkv). }
  cbn. by rewrite of_fields_fields.
Qed.

Lemma decoded_object_inv fs :
  decoded (JObject fs) →
  fs = fields (of_fields fs) ∧ ∀ k v, of_fields fs !! k = Some v → decoded v.
Proof.
  unfold decoded. cbn. destruct (mapM _ fs) as [fs'|] eqn:Hfs; [|done]. intros [= Hfs'].
  assert (of_fields fs = of_fields fs') as Heq by (by rewrite <-Hfs', of_fields_fields).
  split; [by rewrite Heq|]. rewrite Heq. intros k v Hkv%of_fields_elem.
  apply mapM_Some in Hfs. apply list_elem_of_lookup in Hkv as [i Hi].
  eapply Forall2_lookup_r in Hfs as ([k' x] & _ & Hx); [|exact Hi].
  cbn in Hx. destruct (decode x) eqn:Hdx; [|done]. injection Hx as -> ->. by eapply decode_idemp.
Qed.

Lemma decoded_map r m k v : unmarshal_map r = Some m → m !! k = Some v → decoded v.
Proof.
  unfold unmarshal_map. destruct r as [| |j]; try done.
  destruct (decode j) as [w|] eqn:Hj; [|done]. cbn. apply decode_idemp in Hj.
  destruct w; try done; intros [= <-]; [by rewrite lookup_empty|]. by apply decoded_object_inv.
Qed.

Lemma deepMerge_lookup dst src k :
  NoDup src.*1 →
  deepMerge dst src !! k =
    match (list_to_map src : gmap string Json) !! k with
    | Some v => Some (merge_value v (dst !! k)) | None => dst !! k end.
Proof.
  unfold deepMerge. revert dst. induction src as [|[k' v] src IH]; intros dst Hnd; [done|].
  rewrite fmap_cons in Hnd. apply NoDup_cons in Hnd as [Hk' Hnd]. cbn [fold_left fst snd].
  rewrite IH by done. cbn [list_to_map foldr fst snd]. destruct (decide (k = k')) as [->|Hne].
  - assert ((list_to_map src : gmap string Json) !! k' = None) as -> by (by apply not_elem_of_list_to_map_1).
    by rewrite !lookup_insert_eq.
  - by rewrite !lookup_insert_ne by done.
Qed.

(** Whatever order the entries of the source are visited in, the result is the same. *)
Lemma deepMerge_order dst src m :
  src ≡ₚ map_to_list m → ∀ k,
  deepMerge dst src !! k =
    match m !! k with Some v => Some (merge_value v (dst !! k)) | None => dst !! k end.
Proof.
  intros Hp k. assert (NoDup src.*1) by (rewrite Hp; apply NoDup_fst_map_to_list).
  rewrite deepMerge_lookup by done. rewrite <-(list_to_map_to_list m).
  by rewrite (list_to_map_proper src (map_to_list m)).
Qed.

Lemma merge_object sm dm :
  merge_value (JObject sm) (Some (JObject dm)) = JObject (fields (deepMerge (of_fields dm) sm)).
Proof. reflexivity. Qed.

Lemma merge_lookup sm dm k :
  decoded (JObject sm) →
  deepMerge (of_fields dm) sm !! k =
    match of_fields sm !! k with
    | Some v => Some (merge_value v (of_fields dm !! k)) | None => of_fields dm !! k end.
Proof.
  intros [Hsm _]%decoded_object_inv. rewrite Hsm at 1. apply deepMerge_order, fields_Permutation.
Qed.

(** The value a path of keys leads to. *)
Fixpoint get_path (p : list string) (j : Json) : option Json :=
  match p with
  | [] => Some j
  | k :: p => match j with JObject fs => of_fields fs !! k ≫= get_path p | _ => None end
  end.
Definition is_object (j : Json) : bool := match j with JObject _ => true | _ => false end.

(** [s] says nothing about the path: an object on the way lacks its next key. *)
Fixpoint silent (p : list string) (s : Json) : Prop :=
  match p, s with
  | k :: p, JObject sm => match of_fields sm !! k with Some v => silent p v | None => True end
  | _, _ => False
  end.

Lemma merge_leaf p sv dv v :
  decoded sv → get_path p sv = Some v → is_object v = false → get_path p (merge_value sv dv) = Some v.
Proof.
  revert sv dv. induction p as [|k p IH]; intros sv dv Hs; cbn.
  - intros [= ->] Hv. by destruct v.
  - destruct sv as [| | | | |sm]; try done. intros Hg Hv.
    destruct dv as [[| | | | |dm]|]; try exact Hg.
    rewrite merge_object. rewrite of_fields_fields, merge_lookup by done.
    destruct (of_fields sm !! k) as [x|] eqn:Hx; [|done]. cbn in Hg |- *.
    apply IH; [|done|done]. apply decoded_object_inv in Hs as [_ Hs]. eauto.
Qed.

Lemma silent_get p sv : silent p sv → get_path p sv = None.
Proof.
  revert sv. induction p as [|k p IH]; intros sv; [done|]. destruct sv as [| | | | |sm]; cbn; try done.
  destruct (of_fields sm !! k); cbn; [apply IH|done].
Qed.

Lemma merge_frame p sv dv :
  decoded sv → silent p sv → get_path p (merge_value sv dv) = dv ≫= get_path p.
Proof.
  revert sv dv. induction p as [|k p IH]; intros sv dv Hs Hp; [done|].
  destruct sv as [| | | | |sm]; try done.
  destruct dv as [[| | | | |dm]|]; try (by apply (silent_get (k :: p) (JObject sm))).
  rewrite merge_object. cbn in Hp |- *. rewrite of_fields_fields, merge_lookup by done.
  destruct (of_fields sm !! k) as [x|] eqn:Hx; [|done]. cbn.
  apply IH; [|done]. apply decoded_object_inv in Hs as [_ Hs]. eauto.
Qed.

Lemma merge_decoded sv dv :
  decoded sv → (∀ d, dv = Some d → decoded d) → decoded (merge_value sv dv).
Proof.
  revert dv. induction sv as [|b|n|s|l _|sm IH] using Json_ind'; intros dv Hs Hd; try exact Hs.
  destruct dv as [[| | | | |dm]|]; try exact Hs.
  rewrite merge_object. apply decoded_object. intros k v. rewrite merge_lookup by done.
  specialize (Hd _ eq_refl). apply decoded_object_inv in Hd as [_ Hd].
  pose proof (decoded_object_inv _ Hs) as [_ Hsv].
  destruct (of_fields sm !! k) as [x|] eqn:Hx; [|by apply Hd]. intros [= <-].
  rewrite Forall_forall in IH. apply (IH (k, x)); [by apply of_fields_elem|eauto|eauto].
Qed.

Lemma merge_self sv : decoded sv → merge_value sv (Some sv) = sv.
Proof.
  induction sv as [|b|n|s|l _|sm IH] using Json_ind'; intros Hs; try done.
  rewrite merge_object. pose proof (decoded_object_inv _ Hs) as [Hsm Hsv].
  rewrite Hsm at 3. do 2 f_equal. apply map_eq. intros k. rewrite merge_lookup by done.
  destruct (of_fields sm !! k) as [x|] eqn:Hx; [|done]. f_equal.
  rewrite Forall_forall in IH. apply (IH (k, x)); [by apply of_fields_elem|eauto].
Qed.

Lemma merge_idemp sv dv : decoded sv → merge_value sv (Some (merge_value sv dv)) = merge_value sv dv.
Proof.
  revert dv. induction sv as [|b|n|s|l _|sm IH] using Json_ind'; intros dv Hs; try done.
  destruct dv as [[| | | | |dm]|]; try (by apply merge_self).
  rewrite !merge_object. do 2 f_equal. apply map_eq. intros k. rewrite !merge_lookup by done.
  rewrite of_fields_fields, merge_lookup by done.
  pose proof (decoded_object_inv _ Hs) as [_ Hsv].
  destruct (of_fields sm !! k) as [x|] eqn:Hx; [|done]. f_equal.
  rewrite Forall_forall in IH. apply (IH (k, x)); [by apply of_fields_elem|eauto].
Qed.

Lemma merge_map_value dst des k :
  ∀ src, src ≡ₚ map_to_list des →
  deepMerge dst src !! k = deepMerge dst (fields des) !! k.
Proof.
  intros src Hp. rewrite (deepMerge_order dst src des), (deepMerge_order dst (fields des) des); [done|..].
  - apply fields_Permutation.
  - done.
Qed.

(** The fields a library has: none when its options are missing or null. *)
Definition current_map (current : RawMessage) : option (gmap string Json) :=
  if bytesTrim current then unmarshal_map current else Some ∅.

Lemma current_map_decoded current m : current_map current = Some m → decoded (JObject (fields m)).
Proof.
  unfold current_map. intros H. apply decoded_object. intros k v Hkv.
  destruct (bytesTrim current); [by eapply decoded_map|]. injection H as <-. by rewrite lookup_empty in Hkv.
Qed.

Lemma marshal_map_current m : decoded (JObject (fields m)) → current_map (marshal_map m) = Some m.
Proof. intros Hm. unfold current_map, marshal_map. cbn -[decode]. rewrite Hm. cbn. by rewrite of_fields_fields. Qed.

Lemma MergeLibraryOptions_eq `{MapOrder} current desired cur des :
  bytesTrim desired = true → current_map current = Some cur → unmarshal_map desired = Some des →
  MergeLibraryOptions current desired =
    Ok (if decide (deepMerge cur (fields des) = cur) then (current, false)
        else (marshal_map (deepMerge cur (fields des)), true)).
Proof.
  intros Hd Hc Hu. unfold MergeLibraryOptions. rewrite Hd, Hu. cbn.
  assert (deepMerge cur (range_map des) = deepMerge cur (fields des)) as Heq.
  { apply map_eq. intros k. apply merge_map_value, range_map_perm. }
  assert (jsonToMap current = cur) as Hj.
  { unfold jsonToMap, current_map in *. destruct (bytesTrim current); [by rewrite Hc|by injection Hc]. }
  unfold current_map in Hc. rewrite Hj.
  destruct (bytesTrim current); [rewrite Hc|injection Hc as <-]; cbn; rewrite Heq; by case_decide.
Qed.

(** C29: Declared library options are merged into the server's: each declared leaf gets
    its value, everything the declaration does not mention keeps its own, at any
    depth; a write happens exactly when this changes something, and never twice. *)
Theorem MergeLibraryOptions_spec `{MapOrder} (current desired : RawMessage) :
  if bytesTrim desired then
    match unmarshal_map desired, current_map current with
    | Some des, Some cur => ∃ out changed merged,
        MergeLibraryOptions current desired = Ok (out, changed) ∧
        current_map out = Some merged ∧
        (∀ p v, get_path p (JObject (fields des)) = Some v → is_object v = false →
           get_path p (JObject (fields merged)) = Some v) ∧
        (∀ p, silent p (JObject (fields des)) →
           get_path p (JObject (fields merged)) = get_path p (JObject (fields cur))) ∧
        (changed = true ↔ merged ≠ cur) ∧
        (changed = false → out = current) ∧
        MergeLibraryOptions out desired = Ok (out, false)
    | _, _ => MergeLibraryOptions current desired = Err SyntaxOrTypeError
    end
  else MergeLibraryOptions current desired = Ok (current, false).
Proof.
  destruct (bytesTrim desired) eqn:Hb; [|unfold MergeLibraryOptions; by rewrite Hb].
  destruct (unmarshal_map desired) as [des|] eqn:Hdes.
  2: { unfold MergeLibraryOptions, current_map. rewrite Hb, Hdes. cbn.
       by destruct (bytesTrim current); [destruct (unmarshal_map current)|]. }
  destruct (current_map current) as [cur|] eqn:Hcur.
  2: { unfold MergeLibraryOptions, current_map in *. rewrite Hb. cbn.
       destruct (bytesTrim current); [by rewrite Hcur|done]. }
  pose proof (current_map_decoded _ _ Hcur) as Hcd.
  assert (decoded (JObject (fields des))) as Hdd.
  { apply decoded_object. intros k v. by eapply decoded_map. }
  set (merged := deepMerge cur (fields des)).
  assert (JObject (fields merged) = merge_value (JObject (fields des)) (Some (JObject (fields cur)))) as Hm.
  { rewrite merge_object. by rewrite of_fields_fields. }
  assert (decoded (JObject (fields merged))) as Hmd.
  { rewrite Hm. apply merge_decoded; [done|]. by intros d [= <-]. }
  pose proof (MergeLibraryOptions_eq current desired cur des Hb Hcur Hdes) as Heq.
  assert (∀ out, current_map out = Some merged → MergeLibraryOptions out desired = Ok (out, false)) as Hagain.
  { intros out Hout. rewrite (MergeLibraryOptions_eq out desired merged des Hb Hout Hdes).
    rewrite decide_True; [done|]. apply fields_inj.
    assert (JObject (fields (deepMerge merged (fields des))) = JObject (fields merged)) as [=]; [|done].
    rewrite <-(of_fields_fields merged) at 1. rewrite <-merge_object, Hm. by apply merge_idemp. }
  fold merged in Heq. case_decide as Hch.
  - exists current, false, cur. repeat split; try done.
    intros p v Hp Hv. rewrite <-Hch, Hm. by apply merge_leaf.
  - exists (marshal_map merged), true, merged.
    pose proof (marshal_map_current _ Hmd) as Hout. repeat split; try done.
    + intros p v Hp Hv. rewrite Hm. by apply merge_leaf.
    + intros p Hp. rewrite Hm. by rewrite (merge_frame p _ _ Hdd Hp).
    + by apply Hagain.
Qed.

Definition example_server : DesiredServerConfig :=
  mkDSC (Some "home") None (Some true) None None None None (Some 500%Z) None None None None None None None
    None None None (Some ["*"]) None (Some 90%Z) None None None None.

Lemma enforce_overlays_witness :
  overlay_contract (DesiredServerConfig_managed example_server) (λ c, EnforceServerConfig c example_server) ∧
  overlay_contract (DesiredBranding_managed (mkDB (Some "hi") None None))
    (λ c, EnforceBranding c (mkDB (Some "hi") None None)) ∧
  overlay_contract (list_to_map (encoding_fields (mkDE (Some true) (Some 180%Z) None None)))
    (λ c, EnforceEncodingOptions c (mkDE (Some true) (Some 180%Z) None None)) ∧
  overlay_contract readOnlyLibraryOptions EnforceReadOnlyOptions.
Proof.
  apply (enforce_overlays example_server); unfold server_ints, int64_opt, int64; cbn;
    repeat constructor; discriminate || reflexivity.
Defined.

(** A run of each: an unmanaged field and a nested option survive. *)
Example overlay_run :
  EnforceBranding (Text (JObject [("SplashscreenLocation", JString "/s.png"); ("CustomCss", JString "a")]))
    (mkDB None (Some "b") None) =
  Ok (Text (JObject [("CustomCss", JString "b"); ("SplashscreenLocation", JString "/s.png")]), true).
Proof. vm_compute. reflexivity. Qed.

Example merge_run :
  MergeLibraryOptions
    (Text (JObject [("A", JObject [("x", JInt 1); ("y", JInt 2)]); ("B", JNull)]))
    (Text (JObject [("A", JObject [("y", JInt 3)])])) =
  Ok (Text (JObject [("A", JObject [("x", JNumber (Float 1 0)); ("y", JNumber (Float 3 0))]);
                     ("B", JNull)]), true).
Proof. vm_compute. reflexivity. Qed.

(** The document each operation returns, by whether it changed. *)
Lemma overlay_marshals current kvs out changed :
  overlay current kvs = Ok (out, changed) → if changed then ∃ m, out = marshal_map m else out = current.
Proof.
  unfold overlay. destruct (current_options current); [|done]. cbn.
  destruct (fold_left _ _ _) as [opts []]; intros [= <- <-]; [by eexists|done].
Qed.

Lemma overlay_out current kvs out changed :
  overlay current kvs = Ok (out, changed) → if changed then ∃ j, out = Text j else out = current.
Proof. intros H%overlay_marshals. destruct changed; [|done]. destruct H as [m ->]. by eexists. Qed.

Lemma MergeLibraryOptions_out `{MapOrder} current desired out changed :
  MergeLibraryOptions current desired = Ok (out, changed) →
  if changed then ∃ j, out = Text j else out = current.
Proof.
  unfold MergeLibraryOptions. destruct (bytesTrim desired); cbn; [|by intros [= <- <-]].
  destruct (if bytesTrim current then _ else _); [|done]. cbn.
  destruct (unmarshal_map desired); [|done]. cbn. case_decide; intros [= <- <-]; [done|by eexists].
Qed.

(** *** Options that read *)
Lemma decode_object fs : is_Some (decode (JObject fs)) ↔ ∀ k v, (k, v) ∈ fs → is_Some (decode v).
Proof.
  cbn. rewrite fmap_is_Some, mapM_is_Some, Forall_forall. split.
  - intros Hfs k v Hin. by apply Hfs, fmap_is_Some in Hin.
  - intros Hfs [k v] Hin. apply fmap_is_Some. by eapply Hfs.
Qed.

Lemma marshal_map_reads m : is_Some (current_map (marshal_map m)) ↔ ∀ k v, m !! k = Some v → is_Some (decode v).
Proof.
  assert (is_Some (current_map (marshal_map m)) ↔ is_Some (decode (JObject (fields m)))) as ->.
  { change (current_map (marshal_map m)) with (unmarshal_map (Text (JObject (fields m)))). unfold unmarshal_map.
    destruct (decode (JObject (fields m))) as [v|] eqn:Hv; [|by split; intros []].
    cbn in Hv. destruct (mapM _ (fields m)) as [fs|]; [|done]. injection Hv as <-. by split; intros _; eexists. }
  rewrite decode_object. by setoid_rewrite elem_of_fields.
Qed.

Lemma current_map_options current :
  is_Some (current_map current) → ∃ opts, current_options current = Ok opts ∧
    ∀ k v, opts !! k = Some v → is_Some (decode v).
Proof.
  intros [m Hm]. unfold current_map, current_options in *. destruct (bytesTrim current) eqn:Hb.
  2: { exists ∅. split; [done|]. intros k v Hk. by rewrite lookup_empty in Hk. }
  destruct current as [| |j]; [done..|]. unfold unmarshal_map in Hm. destruct (decode j) as [w|] eqn:Hj; [|done].
  assert (∃ fs, j = JObject fs) as [fs ->].
  { destruct j as [| |n| |l|fs]; [done|by injection Hj as <-| |by injection Hj as <-| |by eexists];
      apply fmap_Some in Hj as (? & _ & ->); done. }
  exists (of_fields fs). split; [done|]. assert (is_Some (decode (JObject fs))) as Hd by by eexists.
  intros k v Hk%of_fields_elem. by eapply decode_object.
Qed.

(** The options a library is left with read again. *)
Lemma EnforceReadOnlyOptions_reads `{MapOrder} current :
  is_Some (current_map current) →
  ∃ out changed, EnforceReadOnlyOptions current = Ok (out, changed) ∧ is_Some (current_map out).
Proof.
  intros Hc. destruct (current_map_options _ Hc) as (opts & Ho & Hdec).
  pose proof (read_only_contract current) as Hcon. rewrite Ho in Hcon.
  destruct Hcon as (out & changed & opts' & He & Hopts & Hframe & Hset & _). exists out, changed. split; [done|].
  pose proof (overlay_marshals _ _ _ _ He) as Hout. destruct changed; [|by subst]. destruct Hout as [m ->].
  assert (m = opts') as ->.
  { unfold current_options in Hopts. cbn in Hopts. rewrite of_fields_fields in Hopts. by injection Hopts. }
  apply marshal_map_reads. intros k v Hk. destruct (readOnlyLibraryOptions !! k) as [w|] eqn:Hw.
  - destruct (Hset k w Hw) as (v' & Hk' & Heq). assert (v' = v) as -> by congruence.
    unfold jsonEqual in Heq. destruct (decode v); [by eexists|done].
  - rewrite Hframe in Hk by done. by eapply Hdec.
Qed.

Lemma MergeLibraryOptions_reads `{MapOrder} current desired :
  is_Some (current_map current) → is_Some (unmarshal_map desired) →
  ∃ r, MergeLibraryOptions current desired = Ok r.
Proof.
  intros [cur Hc] [des Hd]. destruct (bytesTrim desired) eqn:Hb.
  - rewrite (MergeLibraryOptions_eq _ _ _ _ Hb Hc Hd). by eexists.
  - exists (current, false). unfold MergeLibraryOptions. by rewrite Hb.
Qed.

(** Declared options win over the read-only ones, so a declaration that turns one of
    them back on is written again at every pass, although nothing changes. *)
Lemma declared_options_defeat_read_only :
  let options b := Text (JObject [("MetadataSavers", JArray []); ("SaveLocalMetadata", JBool b);
    ("SaveLyricsWithMedia", JBool false); ("SaveSubtitlesWithMedia", JBool false);
    ("SaveTrickplayWithMedia", JBool false)]) in
  EnforceReadOnlyOptions (options true) = Ok (options false, true) ∧
  MergeLibraryOptions (options false) (Text (JObject [("SaveLocalMetadata", JBool true)]))
    = Ok (options true, true).
Proof. split; vm_compute; reflexivity. Qed.
