(* ===== verification/Libraries.v ===== *)
(** * Comparing the wanted libraries with the server's
    (internal/jellyfinapi/types.go and [DiffLibraries] of libraries.go) *)
From S2P Require Import Prelude Json Options.

(** ** types.go *)
Record VirtualFolder := mkVF {
  vf_Name : string;
  vf_CollectionType : string;
  vf_Locations : list string;
  vf_ItemID : string;
  vf_LibraryOptions : RawMessage;
}.

Record DesiredLibrary := mkDL {
  dl_Name : string;
  dl_CollectionType : string;
  dl_Paths : list string;
  dl_Options : RawMessage;
  dl_PreventWrites : bool;
}.

Record LibraryDiff := mkDiff {
  ld_ToCreate : list DesiredLibrary;
  ld_PathsToAdd : gmap string (list string);
  ld_PathsToRemove : gmap string (list string);
  ld_ToRemove : list string;
}.

(** [Changed]: some list of the diff is not empty; the maps are searched in any
    order. *)
Definition Changed `{MapOrder} (d : LibraryDiff) : bool :=
  if decide (0 < length (ld_ToCreate d) ∨ 0 < length (ld_ToRemove d)) then true
  else if existsb (λ kv : string * list string, bool_decide (0 < length kv.2)) (range_map (ld_PathsToAdd d)) then true
  else existsb (λ kv : string * list string, bool_decide (0 < length kv.2)) (range_map (ld_PathsToRemove d)).

(** ** DiffLibraries *)
Definition toSet (ss : list string) : gset string := fold_left (λ m s, {[ s ]} ∪ m) ss ∅.

(** [m[k] = append(m[k], p)] *)
Definition append_path (k : string) (m : gmap string (list string)) (p : string)
    : gmap string (list string) := <[k := default [] (m !! k) ++ [p]]> m.

(** One turn of the loop over the wanted libraries. *)
Definition diff_one (existingByName : gmap string VirtualFolder) (diff : LibraryDiff) (d : DesiredLibrary)
    : LibraryDiff :=
  match existingByName !! dl_Name d with
  | None => mkDiff (ld_ToCreate diff ++ [d]) (ld_PathsToAdd diff) (ld_PathsToRemove diff) (ld_ToRemove diff)
  | Some cur =>
      let have := toSet (vf_Locations cur) in
      let want := toSet (dl_Paths d) in
      mkDiff (ld_ToCreate diff)
        (fold_left (λ m p, if decide (p ∈ have) then m else append_path (dl_Name d) m p)
           (dl_Paths d) (ld_PathsToAdd diff))
        (fold_left (λ m p, if decide (p ∈ want) then m else append_path (dl_Name d) m p)
           (vf_Locations cur) (ld_PathsToRemove diff))
        (ld_ToRemove diff)
  end.

Definition DiffLibraries (desired : list DesiredLibrary) (existing : list VirtualFolder)
    (managed : list string) (prune : bool) : LibraryDiff :=
  let existingByName := index_by vf_Name existing ∅ in
  let desiredByName := index_by dl_Name desired ∅ in
  let diff := fold_left (diff_one existingByName) desired (mkDiff [] ∅ ∅ []) in
  let toRemove :=
    if prune then
      let managedSet := toSet managed in
      sort_strings
        (vf_Name <$> filter (λ f, desiredByName !! vf_Name f = None ∧ vf_Name f ∈ managedSet) existing)
    else [] in
  mkDiff (sort_by dl_Name (ld_ToCreate diff)) (ld_PathsToAdd diff) (ld_PathsToRemove diff) toRemove.

(** ** What the diff contains *)
Lemma elem_of_toSet ss s : s ∈ toSet ss ↔ s ∈ ss.
Proof.
  unfold toSet. assert (∀ m : gset string, s ∈ fold_left (λ m s, {[ s ]} ∪ m) ss m ↔ s ∈ ss ∨ s ∈ m) as H.
  { induction ss as [|x ss IH]; intros m; cbn; [set_solver|]. rewrite IH. set_solver. }
  rewrite H. set_solver.
Qed.

Lemma append_path_fold (P : string → Prop) `{!∀ p, Decision (P p)} k ps m n :
  default [] (fold_left (λ m p, if decide (P p) then m else append_path k m p) ps m !! n) =
    default [] (m !! n) ++ (if decide (n = k) then filter (λ p, ¬ P p) ps else []).
Proof.
  revert m. induction ps as [|p ps IH]; intros m; cbn [fold_left].
  - case_decide; by rewrite app_nil_r.
  - rewrite IH, filter_cons. destruct (decide (P p)) as [Hp|Hp].
    + by rewrite (decide_False (P := ¬ P p)) by tauto.
    + rewrite (decide_True (P := ¬ P p)) by done. unfold append_path.
      case_decide as Hn; [subst n; rewrite lookup_insert_eq; cbn; by rewrite <-app_assoc|].
      by rewrite lookup_insert_ne by done.
Qed.

Section diff.
Context (existingByName : gmap string VirtualFolder).

Definition missing_paths (d : DesiredLibrary) : list string :=
  match existingByName !! dl_Name d with
  | Some cur => filter (λ p, p ∉ toSet (vf_Locations cur)) (dl_Paths d)
  | None => []
  end.
Definition stale_paths (d : DesiredLibrary) : list string :=
  match existingByName !! dl_Name d with
  | Some cur => filter (λ p, p ∉ toSet (dl_Paths d)) (vf_Locations cur)
  | None => []
  end.

Lemma diff_fold desired diff :
  let r := fold_left (diff_one existingByName) desired diff in
  ld_ToCreate r = ld_ToCreate diff ++ filter (λ d, existingByName !! dl_Name d = None) desired ∧
  (∀ n, default [] (ld_PathsToAdd r !! n) =
     default [] (ld_PathsToAdd diff !! n) ++ (filter (λ d, dl_Name d = n) desired ≫= missing_paths)) ∧
  (∀ n, default [] (ld_PathsToRemove r !! n) =
     default [] (ld_PathsToRemove diff !! n) ++ (filter (λ d, dl_Name d = n) desired ≫= stale_paths)) ∧
  ld_ToRemove r = ld_ToRemove diff.
Proof.
  cbn zeta. revert diff. induction desired as [|d desired IH]; intros diff.
  { cbn. rewrite app_nil_r. split_and!; try done; intros n; by rewrite app_nil_r. }
  cbn [fold_left]. specialize (IH (diff_one existingByName diff d)) as (IHc & IHa & IHr & IHd).
  rewrite IHc, IHd. unfold diff_one, missing_paths, stale_paths in *. rewrite filter_cons.
  destruct (existingByName !! dl_Name d) as [cur|] eqn:Hcur; cbn [ld_ToCreate ld_PathsToAdd ld_PathsToRemove ld_ToRemove] in *.
  - rewrite decide_False by done. split_and!; try done; intros n.
    + rewrite IHa, append_path_fold, filter_cons, <-app_assoc. f_equal.
      destruct (decide (n = dl_Name d)) as [->|Hn].
      * rewrite decide_True by done. cbn [mbind list_bind]. by rewrite Hcur.
      * by rewrite decide_False by done.
    + rewrite IHr, append_path_fold, filter_cons, <-app_assoc. f_equal.
      destruct (decide (n = dl_Name d)) as [->|Hn].
      * rewrite decide_True by done. cbn [mbind list_bind]. by rewrite Hcur.
      * by rewrite decide_False by done.
  - rewrite decide_True by done. split_and!; try done.
    + by rewrite <-app_assoc.
    + intros n. rewrite IHa, filter_cons. case_decide; [|done]. cbn [mbind list_bind]. by rewrite Hcur.
    + intros n. rewrite IHr, filter_cons. case_decide; [|done]. cbn [mbind list_bind]. by rewrite Hcur.
Qed.
End diff.

Lemma DiffLibraries_eq desired existing managed prune :
  let ebn := index_by vf_Name existing ∅ in
  let diff := DiffLibraries desired existing managed prune in
  (∀ d, d ∈ ld_ToCreate diff ↔ d ∈ desired ∧ dl_Name d ∉ vf_Name <$> existing) ∧
  (∀ n, default [] (ld_PathsToAdd diff !! n) = filter (λ d, dl_Name d = n) desired ≫= missing_paths ebn) ∧
  (∀ n, default [] (ld_PathsToRemove diff !! n) = filter (λ d, dl_Name d = n) desired ≫= stale_paths ebn) ∧
  (∀ n, n ∈ ld_ToRemove diff ↔
     prune = true ∧ n ∈ managed ∧ n ∈ vf_Name <$> existing ∧ n ∉ dl_Name <$> desired).
Proof.
  cbn zeta. unfold DiffLibraries. cbn [ld_ToCreate ld_PathsToAdd ld_PathsToRemove ld_ToRemove].
  destruct (diff_fold (index_by vf_Name existing ∅) desired (mkDiff [] ∅ ∅ [])) as (Hc & Ha & Hr & _).
  split_and!; [| exact Ha | exact Hr |].
  - intros d. rewrite elem_of_sort_by, Hc. cbn. rewrite list_elem_of_filter, index_by_None, lookup_empty.
    naive_solver.
  - intros n. destruct prune; [|split; [by intros ?%elem_of_nil|by intros []]].
    unfold sort_strings. rewrite elem_of_sort_by, list_elem_of_fmap. split.
    + intros (f & -> & [[Hn Hm] Hf]%list_elem_of_filter).
      rewrite index_by_None in Hn. apply elem_of_toSet in Hm. split_and!; [done|done| |tauto].
      apply list_elem_of_fmap. eauto.
    + intros (_ & Hm & (f & -> & Hf)%list_elem_of_fmap & Hn). exists f. split; [done|].
      apply list_elem_of_filter. rewrite index_by_None, elem_of_toSet, lookup_empty. auto.
Qed.

Lemma existsb_nonempty `{MapOrder} (m : gmap string (list string)) :
  existsb (λ kv : string * list string, bool_decide (0 < length kv.2)) (range_map m) = false ↔
  ∀ n, default [] (m !! n) = [].
Proof.
  rewrite <-not_true_iff_false, existsb_exists. setoid_rewrite bool_decide_eq_true. split.
  - intros Hno n. destruct (m !! n) as [[|p ps]|] eqn:Hn; try done. destruct Hno.
    exists (n, p :: ps). split; [|cbn; lia]. apply list_elem_of_In. rewrite range_map_perm.
    by apply elem_of_map_to_list.
  - intros Hno ([n ps] & Hin%list_elem_of_In & Hl). rewrite range_map_perm in Hin.
    apply elem_of_map_to_list in Hin. specialize (Hno n). rewrite Hin in Hno. cbn in Hno, Hl. subst ps. cbn in Hl. lia.
Qed.

Lemma Changed_false `{MapOrder} d :
  Changed d = false ↔
  ld_ToCreate d = [] ∧ ld_ToRemove d = [] ∧
  (∀ n, default [] (ld_PathsToAdd d !! n) = []) ∧ (∀ n, default [] (ld_PathsToRemove d !! n) = []).
Proof.
  rewrite <-!existsb_nonempty. unfold Changed. case_decide as Hl.
  - split; [done|]. intros (Hc & Hr & _). rewrite Hc, Hr in Hl. cbn in Hl. lia.
  - assert (ld_ToCreate d = [] ∧ ld_ToRemove d = []) as [-> ->].
    { destruct (ld_ToCreate d), (ld_ToRemove d); cbn in Hl; auto; lia. }
    case_match; naive_solver.
Qed.

(** The server is as wanted. *)
Definition settled (desired : list DesiredLibrary) (folders : list VirtualFolder)
    (managed : list string) (prune : bool) : Prop :=
  (∀ d, d ∈ desired → ∃ f, f ∈ folders ∧ vf_Name f = dl_Name d ∧
     ∀ p, p ∈ vf_Locations f ↔ p ∈ dl_Paths d) ∧
  (prune = true → ∀ f, f ∈ folders → vf_Name f ∈ managed → vf_Name f ∈ dl_Name <$> desired).

Lemma settled_unchanged `{MapOrder} desired folders managed prune :
  NoDup (vf_Name <$> folders) → settled desired folders managed prune →
  Changed (DiffLibraries desired folders managed prune) = false.
Proof.
  intros Hnd [Hd Hp]. apply Changed_false.
  destruct (DiffLibraries_eq desired folders managed prune) as (Hc & Ha & Hr & Hrm).
  assert (∀ d, d ∈ desired → ∃ f, index_by vf_Name folders ∅ !! dl_Name d = Some f ∧
            ∀ p, p ∈ vf_Locations f ↔ p ∈ dl_Paths d) as Hf.
  { intros d (f & Hin & Hn & Hl)%Hd. exists f. split; [|done]. by apply index_by_Some. }
  split_and!.
  - apply elem_of_nil_inv. intros d [Hin Hno]%Hc. apply Hd in Hin as (f & Hin & Hn & _).
    apply Hno, list_elem_of_fmap. eauto.
  - apply elem_of_nil_inv. intros n (Hpr & Hm & (f & -> & Hf')%list_elem_of_fmap & Hno)%Hrm. by apply Hno, Hp.
  - intros n. rewrite Ha. apply bind_nil. intros d [_ Hin]%list_elem_of_filter.
    apply Hf in Hin as (f & Hl & Hlocs). unfold missing_paths. rewrite Hl. apply filter_nil.
    intros p Hp' Hnp. by rewrite elem_of_toSet, Hlocs in Hnp.
  - intros n. rewrite Hr. apply bind_nil. intros d [_ Hin]%list_elem_of_filter.
    apply Hf in Hin as (f & Hl & Hlocs). unfold stale_paths. rewrite Hl. apply filter_nil.
    intros p Hp' Hnp. by rewrite elem_of_toSet, <-Hlocs in Hnp.
Qed.

(** ** Convergence

    The effect of the requests on the server's libraries, by the documentation of its
    API: a created library has the given name and paths (the rest is the server's
    choice), paths are added and removed by library name. *)
Section effect.
Context (created : DesiredLibrary → VirtualFolder)
  (created_Name : ∀ d, vf_Name (created d) = dl_Name d)
  (created_Locations : ∀ d, vf_Locations (created d) = dl_Paths d).

Definition set_locations (f : VirtualFolder) (ps : list string) : VirtualFolder :=
  mkVF (vf_Name f) (vf_CollectionType f) ps (vf_ItemID f) (vf_LibraryOptions f).
Definition apply_paths (diff : LibraryDiff) (f : VirtualFolder) : VirtualFolder :=
  set_locations f
    (filter (λ p, p ∉ default [] (ld_PathsToRemove diff !! vf_Name f))
       (vf_Locations f ++ default [] (ld_PathsToAdd diff !! vf_Name f))).
Definition apply_diff (diff : LibraryDiff) (folders : list VirtualFolder) : list VirtualFolder :=
  filter (λ f, vf_Name f ∉ ld_ToRemove diff)
    (apply_paths diff <$> folders ++ (created <$> ld_ToCreate diff)).

Lemma filter_unique {A} (key : A → string) (l : list A) x :
  NoDup (key <$> l) → x ∈ l → filter (λ y, key y = key x) l = [x].
Proof.
  induction l as [|y l IH]; [by intros _ ?%elem_of_nil|].
  rewrite fmap_cons, NoDup_cons, filter_cons. intros [Hy Hnd] [->|Hx]%elem_of_cons.
  - rewrite decide_True by done. f_equal. apply filter_nil. intros z Hz Hk. apply Hy.
    rewrite <-Hk. by apply list_elem_of_fmap_2.
  - rewrite decide_False; [by apply IH|]. intros Hk. apply Hy. rewrite Hk. by apply list_elem_of_fmap_2.
Qed.

Section settle.
Context (desired : list DesiredLibrary) (existing : list VirtualFolder) (managed : list string)
  (prune : bool) (Hdes : NoDup (dl_Name <$> desired)) (Hex : NoDup (vf_Name <$> existing)).
Let diff := DiffLibraries desired existing managed prune.

(** The paths the diff adds to and removes from a wanted library. *)
Lemma diff_paths d n :
  d ∈ desired → dl_Name d = n →
  default [] (ld_PathsToAdd diff !! n) = missing_paths (index_by vf_Name existing ∅) d ∧
  default [] (ld_PathsToRemove diff !! n) = stale_paths (index_by vf_Name existing ∅) d.
Proof.
  intros Hd <-. destruct (DiffLibraries_eq desired existing managed prune) as (_ & Ha & Hr & _).
  fold diff in Ha, Hr. rewrite Ha, Hr, (filter_unique dl_Name desired d Hdes Hd).
  cbn. by rewrite !app_nil_r.
Qed.

Lemma diff_no_paths n :
  n ∉ dl_Name <$> desired →
  default [] (ld_PathsToAdd diff !! n) = [] ∧ default [] (ld_PathsToRemove diff !! n) = [].
Proof.
  intros Hn. destruct (DiffLibraries_eq desired existing managed prune) as (_ & Ha & Hr & _).
  fold diff in Ha, Hr. rewrite Ha, Hr. rewrite filter_nil; [done|].
  intros d Hd Hk. apply Hn. rewrite <-Hk. by apply list_elem_of_fmap_2.
Qed.

Lemma apply_diff_names n :
  n ∈ vf_Name <$> apply_diff diff existing ↔
  (n ∈ vf_Name <$> existing ∨ n ∈ dl_Name <$> desired) ∧ n ∉ ld_ToRemove diff.
Proof.
  destruct (DiffLibraries_eq desired existing managed prune) as (Hc & _). fold diff in Hc.
  unfold apply_diff. rewrite list_elem_of_fmap. setoid_rewrite list_elem_of_filter.
  setoid_rewrite list_elem_of_fmap. setoid_rewrite elem_of_app. setoid_rewrite list_elem_of_fmap. split.
  - intros (g & -> & Hrm & f & -> & Hf). split; [|exact Hrm].
    destruct Hf as [Hf|(d & -> & [Hd _]%Hc)]; [left; by exists f|right; exists d].
    split; [apply created_Name|done].
  - intros [Hn Hrm].
    assert (∃ f, vf_Name f = n ∧ (f ∈ existing ∨ ∃ y, f = created y ∧ y ∈ ld_ToCreate diff)) as (f & <- & Hf).
    { destruct Hn as [(f & -> & Hf)|(d & -> & Hd)]; [by exists f; auto|].
      destruct (decide (dl_Name d ∈ vf_Name <$> existing)) as [(f & Hk & Hf)%list_elem_of_fmap|Hno].
      - exists f. auto.
      - exists (created d). split; [apply created_Name|]. right. exists d. split; [done|]. by apply Hc. }
    exists (apply_paths diff f). split; [done|]. split; [exact Hrm|]. by exists f.
Qed.

Lemma apply_diff_NoDup : NoDup (vf_Name <$> apply_diff diff existing).
Proof.
  destruct (DiffLibraries_eq desired existing managed prune) as (Hc & _). fold diff in Hc.
  apply NoDup_fmap_filter. rewrite <-list_fmap_compose.
  change (vf_Name ∘ apply_paths diff) with vf_Name. rewrite fmap_app, <-list_fmap_compose.
  apply NoDup_app. split_and!; [done| |].
  - intros n Hn (d & -> & [_ Hno]%Hc)%list_elem_of_fmap. cbn in Hn. by rewrite created_Name in Hn.
  - assert (vf_Name ∘ created <$> ld_ToCreate diff = dl_Name <$> ld_ToCreate diff) as ->.
    { apply list_fmap_ext. intros i d _. apply created_Name. }
    unfold diff, DiffLibraries. cbn [ld_ToCreate]. rewrite sort_by_Permutation.
    destruct (diff_fold (index_by vf_Name existing ∅) desired (mkDiff [] ∅ ∅ [])) as (-> & _).
    cbn. by apply NoDup_fmap_filter.
Qed.

Lemma apply_diff_settled : settled desired (apply_diff diff existing) managed prune.
Proof.
  destruct (DiffLibraries_eq desired existing managed prune) as (Hc & _ & _ & Hrm). fold diff in Hc, Hrm.
  split.
  - intros d Hd.
    assert (dl_Name d ∉ ld_ToRemove diff) as Hkeep.
    { intros (_ & _ & _ & Hno)%Hrm. apply Hno. by apply list_elem_of_fmap_2. }
    destruct (diff_paths d _ Hd eq_refl) as [Ha Hr].
    destruct (decide (dl_Name d ∈ vf_Name <$> existing)) as [(f & Hk & Hf)%list_elem_of_fmap|Hno].
    + exists (apply_paths diff f). split_and!.
      * apply list_elem_of_filter. split; [by rewrite Hk in Hkeep|]. apply list_elem_of_fmap_2, elem_of_app. by left.
      * done.
      * intros p. assert (index_by vf_Name existing ∅ !! dl_Name d = Some f) as Hl by by apply index_by_Some.
        unfold missing_paths, stale_paths in Ha, Hr. rewrite Hl in Ha, Hr.
        cbn [apply_paths set_locations vf_Locations]. rewrite <-Hk, Ha, Hr, list_elem_of_filter, elem_of_app, !list_elem_of_filter, !elem_of_toSet.
        destruct (decide (p ∈ dl_Paths d)), (decide (p ∈ vf_Locations f)); tauto.
    + exists (apply_paths diff (created d)). split_and!.
      * apply list_elem_of_filter. split; [by cbn; rewrite created_Name|].
        apply list_elem_of_fmap_2, elem_of_app. right. apply list_elem_of_fmap_2, Hc. done.
      * apply created_Name.
      * intros p. assert (index_by vf_Name existing ∅ !! dl_Name d = None) as Hl.
        { by apply index_by_None. }
        unfold missing_paths, stale_paths in Ha, Hr. rewrite Hl in Ha, Hr.
        cbn [apply_paths set_locations vf_Locations]. rewrite created_Name, created_Locations, Ha, Hr, app_nil_r, list_elem_of_filter.
        split; [by intros []|]. intros Hp. split; [by intros ?%elem_of_nil|done].
  - intros Hp f Hf Hm. destruct (decide (vf_Name f ∈ dl_Name <$> desired)) as [|Hno]; [done|].
    apply (list_elem_of_fmap_2 vf_Name), apply_diff_names in Hf as [[Hf|Hf] Hnrm]; [|done].
    destruct Hnrm. by apply Hrm.
Qed.
End settle.

(** One round settles the libraries: afterwards every wanted library exists with
    exactly its paths and the comparison finds nothing left to do; a library that is
    not wanted is gone exactly when pruning is on and the operator had managed it,
    and is otherwise untouched. *)
Theorem DiffLibraries_converges `{MapOrder} (desired : list DesiredLibrary) (existing : list VirtualFolder)
    (managed : list string) (prune : bool)
    (Hdes : NoDup (dl_Name <$> desired)) (Hex : NoDup (vf_Name <$> existing)) :
  let after := apply_diff (DiffLibraries desired existing managed prune) existing in
  Changed (DiffLibraries desired after managed prune) = false ∧
  (∀ d, d ∈ desired → ∃ f, f ∈ after ∧ vf_Name f = dl_Name d ∧
     ∀ p, p ∈ vf_Locations f ↔ p ∈ dl_Paths d) ∧
  (∀ f, f ∈ existing → vf_Name f ∉ dl_Name <$> desired →
     if prune && bool_decide (vf_Name f ∈ managed) then vf_Name f ∉ vf_Name <$> after else f ∈ after).
Proof.
  cbn zeta. pose proof (apply_diff_settled desired existing managed prune Hdes Hex) as Hs.
  split_and!; [apply settled_unchanged; [by apply apply_diff_NoDup|done]|apply Hs|].
  intros f Hf Hno. destruct (DiffLibraries_eq desired existing managed prune) as (_ & _ & _ & Hrm).
  destruct (prune && bool_decide (vf_Name f ∈ managed)) eqn:Hp.
  - apply andb_true_iff in Hp as [-> Hm%bool_decide_eq_true].
    rewrite apply_diff_names. intros [_ Hn]. apply Hn, Hrm. split_and!; [done|done|by apply list_elem_of_fmap_2|done].
  - destruct (diff_no_paths desired existing managed prune _ Hno) as [Ha Hr].
    apply list_elem_of_filter. split.
    + rewrite Hrm. intros (-> & Hm & _). by rewrite bool_decide_eq_true_2 in Hp.
    + apply list_elem_of_fmap. exists f. split; [|apply elem_of_app; by left].
      unfold apply_paths. rewrite Ha, Hr, app_nil_r.
      rewrite filter_all; [by destruct f|]. by intros p _ ?%elem_of_nil.
Qed.
End effect.

Definition example_library (name : string) (paths : list string) : DesiredLibrary :=
  mkDL name "movies" paths Empty false.
Definition example_folder (name : string) (paths : list string) : VirtualFolder :=
  mkVF name "movies" paths "id" Empty.
Definition example_created (d : DesiredLibrary) : VirtualFolder :=
  mkVF (dl_Name d) (dl_CollectionType d) (dl_Paths d) "new" Empty.

Lemma DiffLibraries_converges_witness :
  let desired := [example_library "Films" ["/films"]; example_library "Shows" ["/tv"]] in
  let existing := [example_folder "Shows" ["/old"]; example_folder "Home" ["/home"]; example_folder "Kids" ["/k"]] in
  let after := apply_diff example_created (DiffLibraries desired existing ["Kids"] true) existing in
  Changed (DiffLibraries desired after ["Kids"] true) = false ∧
  (∀ d, d ∈ desired → ∃ f, f ∈ after ∧ vf_Name f = dl_Name d ∧
     ∀ p, p ∈ vf_Locations f ↔ p ∈ dl_Paths d) ∧
  (∀ f, f ∈ existing → vf_Name f ∉ dl_Name <$> desired →
     if true && bool_decide (vf_Name f ∈ ["Kids"]) then vf_Name f ∉ vf_Name <$> after else f ∈ after).
Proof.
  intros desired existing. apply (DiffLibraries_converges example_created);
    [done|done|by apply (bool_decide_unpack _); vm_compute|by apply (bool_decide_unpack _); vm_compute].
Defined.

(** Two folders that name one library never settle: with both paths in place, each
    folder's turn removes the other's path; with none, both are added again. *)
Lemma duplicate_names_flap :
  let desired := [example_library "Films" ["/a"]; example_library "Films" ["/b"]] in
  ld_PathsToRemove (DiffLibraries desired [example_folder "Films" ["/a"; "/b"]] [] false) !! "Films"
    = Some ["/b"; "/a"] ∧
  ld_PathsToAdd (DiffLibraries desired [example_folder "Films" []] [] false) !! "Films"
    = Some ["/a"; "/b"].
Proof. split; vm_compute; reflexivity. Qed.
