(* ===== verification/Http.v ===== *)
(** * HTTP exchanges (net/http and net/url, as internal/jellyfinapi uses them)

    The bodies are JSON documents; a query is kept as its values. *)
From S2P Require Import Prelude GoStrings Json.

(** [url.Values] *)
Notation Values := (gmap string (list string)).

Record URL := mkURL {
  u_Scheme : string;
  u_Host : string;
  u_Path : string;
  u_Query : Values;
}.

(** Letters, digits, dots and hyphens: what the host names of Services are made of. *)
Definition host_char (c : ascii) : bool := is_alnum c || Ascii.eqb c "-" || Ascii.eqb c ".".

(** [url.Parse] is the library's; an http URL that is nothing but a host name and a port
    has these two as its host and no path. *)
Class NetUrl : Type := {
  url_Parse : string → result string URL;
  parse_host_port : ∀ host port, all_chars host_char host = true → host ≠ "" → (0 ≤ port)%Z →
    url_Parse ("http://" +:+ host +:+ ":" +:+ pretty port) = Ok (mkURL "http" (host +:+ ":" +:+ pretty port) "" ∅);
}.

(** What stands behind the scheme taken as the host: exact on such URLs. *)
Definition plain_Parse (s : string) : result string URL := Ok (mkURL "http" (TrimPrefix s "http://") "" ∅).
Lemma plain_Parse_host_port (host : string) (port : Z) :
  all_chars host_char host = true → host ≠ "" → (0 ≤ port)%Z →
  plain_Parse ("http://" +:+ host +:+ ":" +:+ pretty port) = Ok (mkURL "http" (host +:+ ":" +:+ pretty port) "" ∅).
Proof. intros _ _ _. unfold plain_Parse. by rewrite TrimPrefix_app. Qed.

#[export] Instance plain_url : NetUrl := {| url_Parse := plain_Parse; parse_host_port := plain_Parse_host_port |}.

Record HttpRequest := mkHttpRequest {
  rq_Method : string;
  rq_URL : URL;
  rq_Header : list (string * string);
  rq_Body : option Json;
}.

(** [rs_Snippet] is the text of the body, up to 512 bytes. *)
Record HttpResponse := mkHttpResponse {
  rs_StatusCode : Z;
  rs_Body : RawMessage;
  rs_Snippet : string;
}.

Definition MethodGet : string := "GET".
Definition MethodPost : string := "POST".
Definition MethodDelete : string := "DELETE".
Definition StatusBadRequest : Z := 400.
