(* ===== verification/Sha256.v ===== *)
(** * SHA-256 and hexadecimal encoding

    [crypto/sha256.Sum256] and [encoding/hex.EncodeToString] of Go's standard
    library, which [shortHash] (internal/plugins/naming.go) uses. Words are
    32-bit values in [N], additions wrap modulo 2^32 (FIPS 180-4). *)
From S2P Require Import Prelude GoStrings.

Module Sha256.
#[local] Open Scope N_scope.

Definition mask32 (x : N) : N := N.land x 4294967295.
Definition add32 (x y : N) : N := mask32 (x + y).
Definition rotr (n x : N) : N := N.lor (N.shiftr x n) (mask32 (N.shiftl x (32 - n))).

Definition Ch (x y z : N) : N := N.lxor (N.land x y) (N.land (N.lxor x 4294967295) z).
Definition Maj (x y z : N) : N := N.lxor (N.land x y) (N.lxor (N.land x z) (N.land y z)).
Definition Sigma0 (x : N) : N := N.lxor (rotr 2 x) (N.lxor (rotr 13 x) (rotr 22 x)).
Definition Sigma1 (x : N) : N := N.lxor (rotr 6 x) (N.lxor (rotr 11 x) (rotr 25 x)).
Definition sigma0 (x : N) : N := N.lxor (rotr 7 x) (N.lxor (rotr 18 x) (N.shiftr x 3)).
Definition sigma1 (x : N) : N := N.lxor (rotr 17 x) (N.lxor (rotr 19 x) (N.shiftr x 10)).

(** The constants are derived, as the standard defines them: the first 32 bits
    of the fractional parts of roots of the first primes. *)
Definition is_prime (n : N) : bool :=
  forallb (λ i, negb (n mod N.of_nat i =? 0)) (seq 2 (N.to_nat (N.sqrt n) - 1)).

Definition primes : list N := filter (λ n, is_prime n = true) (N.of_nat <$> seq 2 310).

(** The largest [r] below [acc + 2^bits] with [r ^ e <= x], bit by bit. *)
Fixpoint root_bits (e x : N) (bits : nat) (acc : N) : N :=
  match bits with
  | O => acc
  | S b => let r := acc + 2 ^ N.of_nat b in
           root_bits e x b (if r ^ e <=? x then r else acc)
  end.

Definition frac_root (e p : N) : N := mask32 (root_bits e (p * 2 ^ (32 * e)) 40 0).

Definition K : list N := Eval vm_compute in frac_root 3 <$> primes.

(** The eight working variables. *)
Record state := mkState { sa : N; sb : N; sc : N; sd : N; se : N; sf : N; sg : N; sh : N }.

Definition initial (i : nat) : N := frac_root 2 (nth i primes 0).

Definition H0 : state := Eval vm_compute in
  mkState (initial 0) (initial 1) (initial 2) (initial 3) (initial 4) (initial 5) (initial 6) (initial 7).

Definition round (k w : N) (s : state) : state :=
  let t1 := add32 (sh s) (add32 (Sigma1 (se s)) (add32 (Ch (se s) (sf s) (sg s)) (add32 k w))) in
  let t2 := add32 (Sigma0 (sa s)) (Maj (sa s) (sb s) (sc s)) in
  mkState (add32 t1 t2) (sa s) (sb s) (sc s) (add32 (sd s) t1) (se s) (sf s) (sg s).

(** The message schedule as a window of the last sixteen words. *)
Definition next_word (win : list N) : N :=
  let w := λ i, nth i win 0 in
  add32 (sigma1 (w 14%nat)) (add32 (w 9%nat) (add32 (sigma0 (w 1%nat)) (w 0%nat))).

Fixpoint rounds (ks : list N) (win : list N) (s : state) : state :=
  match ks with
  | [] => s
  | k :: ks =>
      let nw := next_word win in
      rounds ks (tail win ++ [nw]) (round k (hd 0 win) s)
  end.

Definition compress (s : state) (block : list N) : state :=
  let r := rounds K block s in
  mkState (add32 (sa s) (sa r)) (add32 (sb s) (sb r)) (add32 (sc s) (sc r)) (add32 (sd s) (sd r))
          (add32 (se s) (se r)) (add32 (sf s) (sf r)) (add32 (sg s) (sg r)) (add32 (sh s) (sh r)).

Fixpoint words (bs : list N) : list N :=
  match bs with
  | a :: b :: c :: d :: bs => ((a * 256 + b) * 256 + c) * 256 + d :: words bs
  | _ => []
  end.

(** Sixteen words at a time; the padded message is a whole number of blocks. *)
Fixpoint blocks (fuel : nat) (ws : list N) (s : state) : state :=
  match fuel, ws with
  | S fuel, _ :: _ => blocks fuel (drop 16 ws) (compress s (take 16 ws))
  | _, _ => s
  end.

Definition be_bytes (n : nat) (x : N) : list N :=
  (λ i, N.land (N.shiftr x (8 * N.of_nat i)) 255) <$> reverse (seq 0 n).

Definition pad (bs : list N) : list N :=
  let l := length bs in
  bs ++ [128] ++ replicate (Nat.modulo (119 - Nat.modulo l 64) 64) 0
     ++ be_bytes 8 (8 * N.of_nat l).

Definition digest (s : state) : list N :=
  be_bytes 4 (sa s) ++ be_bytes 4 (sb s) ++ be_bytes 4 (sc s) ++ be_bytes 4 (sd s)
  ++ be_bytes 4 (se s) ++ be_bytes 4 (sf s) ++ be_bytes 4 (sg s) ++ be_bytes 4 (sh s).

Fixpoint bytes_of_string (s : string) : list N :=
  match s with "" => [] | String c s => N_of_ascii c :: bytes_of_string s end.

(** [sha256.Sum256([]byte(s))]. *)
Definition Sum256 (s : string) : list N :=
  let ws := words (pad (bytes_of_string s)) in
  digest (blocks (length ws) ws H0).

Definition hex_digit (n : N) : ascii :=
  ascii_of_N (if n <? 10 then 48 + n else 87 + n).

(** [hex.EncodeToString]. *)
Fixpoint EncodeToString (bs : list N) : string :=
  match bs with
  | [] => ""
  | b :: bs => String (hex_digit (N.shiftr b 4)) (String (hex_digit (N.land b 15)) (EncodeToString bs))
  end.

(** Lower-case hexadecimal digits. *)
Definition is_hex (c : ascii) : bool := is_digit c || between 97 102 c.

(** ** The standard's test vectors *)
Example sum256_abc :
  EncodeToString (Sum256 "abc") = "ba7816bf8f01cfea414140de5dae2223b00361a396177a9cb410ff61f20015ad".
Proof. vm_compute. reflexivity. Qed.

Example sum256_empty :
  EncodeToString (Sum256 "") = "e3b0c44298fc1c149afbf4c8996fb92427ae41e4649b934ca495991b7852b855".
Proof. vm_compute. reflexivity. Qed.

Example sum256_two_blocks :
  EncodeToString (Sum256 "abcdbcdecdefdefgefghfghighijhijkijkljklmklmnlmnomnopnopq")
  = "248d6a61d20638b8e5c026930c3e6039a33ce45964ff2167f6ecedd419db06c1".
Proof. vm_compute. reflexivity. Qed.

(** ** Shape of the output *)
Lemma length_digest s : length (digest s) = 32%nat.
Proof. reflexivity. Qed.

Lemma length_Sum256 s : length (Sum256 s) = 32%nat.
Proof. apply length_digest. Qed.

Lemma length_EncodeToString bs : String.length (EncodeToString bs) = (2 * length bs)%nat.
Proof. induction bs as [|b bs IH]; [done|]. cbn [EncodeToString String.length length]. lia. Qed.

Definition is_byte (b : N) : Prop := b < 256.

Lemma be_bytes_byte n x : Forall is_byte (be_bytes n x).
Proof.
  apply Forall_fmap, Forall_forall. intros i _. unfold is_byte. cbn.
  replace 255 with (N.ones 8) by done. rewrite N.land_ones. by apply N.mod_lt.
Qed.

Lemma Sum256_bytes s : Forall is_byte (Sum256 s).
Proof. unfold Sum256, digest. rewrite !Forall_app. repeat split; apply be_bytes_byte. Qed.

Lemma hex_digit_is_hex n : n < 16 → is_hex (hex_digit n) = true.
Proof.
  intros Hn. rewrite <-(N2Nat.id n) in Hn |- *.
  assert (H : forallb (λ i, is_hex (hex_digit (N.of_nat i))) (seq 0 16) = true) by (by vm_compute).
  rewrite forallb_forall in H. apply H, in_seq. lia.
Qed.

Lemma EncodeToString_hex bs :
  Forall is_byte bs → all_chars is_hex (EncodeToString bs) = true.
Proof.
  induction 1 as [|b bs Hb _ IH]; [done|]. cbn [EncodeToString all_chars].
  rewrite !hex_digit_is_hex; [done|..].
  - replace 15 with (N.ones 4) by done. rewrite N.land_ones. by apply N.mod_lt.
  - rewrite N.shiftr_div_pow2. apply N.Div0.div_lt_upper_bound. exact Hb.
Qed.
End Sha256.

#[export] Hint Resolve Sha256.Sum256_bytes Sha256.EncodeToString_hex : jellyops.
