(* ===== verification/K8s.v ===== *)
(** * Kubernetes API objects

    The data types of k8s.io/api and k8s.io/apimachinery the operator builds,
    with the fields it reads or writes. A pointer is an [option], a string-typed
    enumeration a [string], an [int32] or [int64] a [Z]. Fields the program only
    copies along inside a list the user wrote (the [valueFrom] of an environment
    variable, the volume sources it never inspects) are left out. *)
From S2P Require Import Prelude.

(** A [resource.Quantity], by its numeric value in the smallest unit. *)
Definition Quantity : Type := Z.

(** ** Maps that are shared by reference

    [corev1.ResourceList] is a Go map: a struct copy shares it. A list of
    limits is therefore a location in a store. *)
Notation ResourceList := (gmap string Quantity).
Notation loc := N (only parsing).
Notation Store := (gmap loc ResourceList).

Record ResourceRequirements := mkResources {
  rr_Limits : option loc;
  rr_Requests : option loc;
}.
Definition ResourceRequirements_zero := mkResources None None.

(** ** Metadata *)
Record OwnerReference := mkOwnerRef {
  or_Kind : string; or_Name : string; or_UID : string; or_Controller : bool }.

Record ObjectMeta := mkMeta {
  om_Name : string;
  om_Namespace : string;
  om_UID : string;
  om_Generation : Z;
  om_CreationTimestamp : option Z;
  om_DeletionTimestamp : option Z;
  om_Labels : gmap string string;
  om_Annotations : gmap string string;
  om_Finalizers : list string;
  om_OwnerReferences : list OwnerReference;
}.

(** Metadata of an object literal: only the name, namespace, labels and annotations. *)
Definition meta_lit (name ns : string) (labels annots : gmap string string) : ObjectMeta :=
  {| om_Name := name; om_Namespace := ns; om_UID := ""; om_Generation := 0;
     om_CreationTimestamp := None; om_DeletionTimestamp := None;
     om_Labels := labels; om_Annotations := annots; om_Finalizers := []; om_OwnerReferences := [] |}.

Definition set_om_Labels (x : gmap string string) (m : ObjectMeta) : ObjectMeta :=
  {| om_Name := om_Name m; om_Namespace := om_Namespace m; om_UID := om_UID m;
     om_Generation := om_Generation m; om_CreationTimestamp := om_CreationTimestamp m;
     om_DeletionTimestamp := om_DeletionTimestamp m; om_Labels := x; om_Annotations := om_Annotations m;
     om_Finalizers := om_Finalizers m; om_OwnerReferences := om_OwnerReferences m |}.
Definition set_om_Annotations (x : gmap string string) (m : ObjectMeta) : ObjectMeta :=
  {| om_Name := om_Name m; om_Namespace := om_Namespace m; om_UID := om_UID m;
     om_Generation := om_Generation m; om_CreationTimestamp := om_CreationTimestamp m;
     om_DeletionTimestamp := om_DeletionTimestamp m; om_Labels := om_Labels m; om_Annotations := x;
     om_Finalizers := om_Finalizers m; om_OwnerReferences := om_OwnerReferences m |}.
Definition set_om_Finalizers (x : list string) (m : ObjectMeta) : ObjectMeta :=
  {| om_Name := om_Name m; om_Namespace := om_Namespace m; om_UID := om_UID m;
     om_Generation := om_Generation m; om_CreationTimestamp := om_CreationTimestamp m;
     om_DeletionTimestamp := om_DeletionTimestamp m; om_Labels := om_Labels m;
     om_Annotations := om_Annotations m; om_Finalizers := x; om_OwnerReferences := om_OwnerReferences m |}.
Definition set_om_OwnerReferences (x : list OwnerReference) (m : ObjectMeta) : ObjectMeta :=
  {| om_Name := om_Name m; om_Namespace := om_Namespace m; om_UID := om_UID m;
     om_Generation := om_Generation m; om_CreationTimestamp := om_CreationTimestamp m;
     om_DeletionTimestamp := om_DeletionTimestamp m; om_Labels := om_Labels m;
     om_Annotations := om_Annotations m; om_Finalizers := om_Finalizers m; om_OwnerReferences := x |}.

Record LabelSelectorRequirement := mkRequirement {
  lsr_Key : string; lsr_Operator : string; lsr_Values : list string }.
Record LabelSelector := mkSelector {
  ls_MatchLabels : gmap string string;
  ls_MatchExpressions : list LabelSelectorRequirement }.

(** A Service or Deployment selector (a plain map) selects the pods whose
    labels contain it. *)
Definition selects (selector labels : gmap string string) : Prop := selector ⊆ labels.
#[export] Instance selects_dec s l : Decision (selects s l).
Proof. unfold selects. apply _. Defined.

(** ** Volumes *)
Record PVCVolumeSource := mkPVCSource { pvcs_ClaimName : string; pvcs_ReadOnly : bool }.
Record NFSVolumeSource := mkNFSSource { nfss_Server : string; nfss_Path : string; nfss_ReadOnly : bool }.
Record ImageVolumeSource := mkImageSource { ivs_Reference : string; ivs_PullPolicy : string }.
Record HostPathVolumeSource := mkHostPath { hp_Path : string; hp_Type : option string }.

Record Volume := mkVolume {
  vol_Name : string;
  vol_PersistentVolumeClaim : option PVCVolumeSource;
  vol_NFS : option NFSVolumeSource;
  vol_Image : option ImageVolumeSource;
  vol_HostPath : option HostPathVolumeSource;
}.
Definition pvc_volume (name : string) (src : PVCVolumeSource) : Volume :=
  mkVolume name (Some src) None None None.
Definition nfs_volume (name : string) (src : NFSVolumeSource) : Volume :=
  mkVolume name None (Some src) None None.
Definition image_volume (name : string) (src : ImageVolumeSource) : Volume :=
  mkVolume name None None (Some src) None.
Definition hostpath_volume (name : string) (src : HostPathVolumeSource) : Volume :=
  mkVolume name None None None (Some src).

Record VolumeMount := mkMount {
  vm_Name : string; vm_MountPath : string; vm_SubPath : string; vm_ReadOnly : bool }.

(** ** Containers and pods *)
Record EnvVar := mkEnv { ev_Name : string; ev_Value : string }.
Record ContainerPort := mkPort { cp_Name : string; cp_ContainerPort : Z; cp_Protocol : string }.

Record HTTPGetAction := mkHTTPGet { hg_Path : string; hg_Port : Z }.
Record Probe := mkProbe {
  pr_HTTPGet : option HTTPGetAction; pr_InitialDelaySeconds : Z; pr_PeriodSeconds : Z }.

Record SecurityContext := mkSC {
  sc_RunAsNonRoot : option bool;
  sc_RunAsUser : option Z;
  sc_RunAsGroup : option Z;
  sc_AllowPrivilegeEscalation : option bool;
  sc_CapabilitiesDrop : option (list string);
}.
Definition SecurityContext_zero := mkSC None None None None None.

Record Container := mkContainer {
  c_Name : string;
  c_Image : string;
  c_ImagePullPolicy : string;
  c_Command : list string;
  c_Args : list string;
  c_Env : list EnvVar;
  c_Ports : list ContainerPort;
  c_Resources : ResourceRequirements;
  c_VolumeMounts : list VolumeMount;
  c_ReadinessProbe : option Probe;
  c_LivenessProbe : option Probe;
  c_StartupProbe : option Probe;
  c_SecurityContext : option SecurityContext;
}.

Record PodSecurityContext := mkPSC {
  psc_SeccompProfile : option string;
  psc_RunAsNonRoot : option bool;
  psc_RunAsUser : option Z;
  psc_RunAsGroup : option Z;
  psc_FSGroup : option Z;
  psc_SupplementalGroups : list Z;
}.
Definition PodSecurityContext_zero := mkPSC None None None None None [].
Definition SeccompProfileTypeRuntimeDefault : string := "RuntimeDefault".

Record Toleration := mkToleration {
  tol_Key : string; tol_Operator : string; tol_Value : string; tol_Effect : string }.

Record PodSpec := mkPodSpec {
  ps_Containers : list Container;
  ps_InitContainers : list Container;
  ps_Volumes : list Volume;
  ps_ImagePullSecrets : list string;
  ps_SecurityContext : option PodSecurityContext;
  ps_RuntimeClassName : option string;
  ps_NodeSelector : gmap string string;
  ps_Tolerations : list Toleration;
  ps_PriorityClassName : string;
  ps_TerminationGracePeriodSeconds : option Z;
}.

Record PodTemplateSpec := mkPodTemplate {
  pt_Labels : gmap string string;
  pt_Annotations : gmap string string;
  pt_Spec : PodSpec;
}.

(** ** Assignments to one field of a struct *)
Definition set_c_Env (x : list EnvVar) (c : Container) : Container :=
  mkContainer (c_Name c) (c_Image c) (c_ImagePullPolicy c) (c_Command c) (c_Args c) x
    (c_Ports c) (c_Resources c) (c_VolumeMounts c) (c_ReadinessProbe c)
    (c_LivenessProbe c) (c_StartupProbe c) (c_SecurityContext c).
Definition set_c_Command (x : list string) (c : Container) : Container :=
  mkContainer (c_Name c) (c_Image c) (c_ImagePullPolicy c) x (c_Args c) (c_Env c) (c_Ports c)
    (c_Resources c) (c_VolumeMounts c) (c_ReadinessProbe c) (c_LivenessProbe c)
    (c_StartupProbe c) (c_SecurityContext c).
Definition set_c_VolumeMounts (x : list VolumeMount) (c : Container) : Container :=
  mkContainer (c_Name c) (c_Image c) (c_ImagePullPolicy c) (c_Command c) (c_Args c) (c_Env c)
    (c_Ports c) (c_Resources c) x (c_ReadinessProbe c) (c_LivenessProbe c)
    (c_StartupProbe c) (c_SecurityContext c).
Definition set_c_Resources (x : ResourceRequirements) (c : Container) : Container :=
  mkContainer (c_Name c) (c_Image c) (c_ImagePullPolicy c) (c_Command c) (c_Args c) (c_Env c)
    (c_Ports c) x (c_VolumeMounts c) (c_ReadinessProbe c) (c_LivenessProbe c)
    (c_StartupProbe c) (c_SecurityContext c).
Definition set_c_SecurityContext (x : option SecurityContext) (c : Container) : Container :=
  mkContainer (c_Name c) (c_Image c) (c_ImagePullPolicy c) (c_Command c) (c_Args c) (c_Env c)
    (c_Ports c) (c_Resources c) (c_VolumeMounts c) (c_ReadinessProbe c)
    (c_LivenessProbe c) (c_StartupProbe c) x.

Definition set_ps_Containers (x : list Container) (p : PodSpec) : PodSpec :=
  mkPodSpec x (ps_InitContainers p) (ps_Volumes p) (ps_ImagePullSecrets p)
    (ps_SecurityContext p) (ps_RuntimeClassName p) (ps_NodeSelector p)
    (ps_Tolerations p) (ps_PriorityClassName p) (ps_TerminationGracePeriodSeconds p).
Definition set_ps_InitContainers (x : list Container) (p : PodSpec) : PodSpec :=
  mkPodSpec (ps_Containers p) x (ps_Volumes p) (ps_ImagePullSecrets p)
    (ps_SecurityContext p) (ps_RuntimeClassName p) (ps_NodeSelector p)
    (ps_Tolerations p) (ps_PriorityClassName p) (ps_TerminationGracePeriodSeconds p).
Definition set_ps_Volumes (x : list Volume) (p : PodSpec) : PodSpec :=
  mkPodSpec (ps_Containers p) (ps_InitContainers p) x (ps_ImagePullSecrets p)
    (ps_SecurityContext p) (ps_RuntimeClassName p) (ps_NodeSelector p)
    (ps_Tolerations p) (ps_PriorityClassName p) (ps_TerminationGracePeriodSeconds p).
Definition set_ps_SecurityContext (x : option PodSecurityContext) (p : PodSpec) : PodSpec :=
  mkPodSpec (ps_Containers p) (ps_InitContainers p) (ps_Volumes p) (ps_ImagePullSecrets p) x
    (ps_RuntimeClassName p) (ps_NodeSelector p) (ps_Tolerations p)
    (ps_PriorityClassName p) (ps_TerminationGracePeriodSeconds p).
Definition set_ps_RuntimeClassName (x : option string) (p : PodSpec) : PodSpec :=
  mkPodSpec (ps_Containers p) (ps_InitContainers p) (ps_Volumes p) (ps_ImagePullSecrets p)
    (ps_SecurityContext p) x (ps_NodeSelector p) (ps_Tolerations p)
    (ps_PriorityClassName p) (ps_TerminationGracePeriodSeconds p).

(** ** Workload and network objects *)
Record DeploymentStatus := mkDepStatus {
  ds_Replicas : Z; ds_ReadyReplicas : Z; ds_AvailableReplicas : Z }.

Record Deployment := mkDeployment {
  dep_Meta : ObjectMeta;
  dep_Replicas : option Z;
  dep_Selector : gmap string string;
  dep_Strategy : string;
  dep_Template : PodTemplateSpec;
  dep_Status : DeploymentStatus;
}.
Definition DeploymentStatus_zero := mkDepStatus 0 0 0.
Definition RecreateDeploymentStrategyType : string := "Recreate".

Record ServicePort := mkSvcPort {
  sp_Name : string; sp_Port : Z; sp_TargetPort : Z; sp_Protocol : string }.
Record Service := mkService {
  svc_Meta : ObjectMeta;
  svc_Type : string;
  svc_Selector : gmap string string;
  svc_Ports : list ServicePort;
}.
Definition ServiceTypeClusterIP : string := "ClusterIP".

(** *** Storage objects *)
Record PersistentVolumeClaim := mkPVC {
  pvcl_Meta : ObjectMeta;
  pvcl_AccessModes : list string;
  pvcl_Requests : gmap string Quantity;
  pvcl_StorageClassName : option string;
  pvcl_VolumeName : string;
  pvcl_Phase : string;
}.
Record ClaimReference := mkClaimRef { cr_Namespace : string; cr_Name : string; cr_UID : string }.
Record PersistentVolume := mkPV {
  pv_Meta : ObjectMeta;
  pv_Capacity : gmap string Quantity;
  pv_AccessModes : list string;
  pv_ReclaimPolicy : string;
  pv_MountOptions : list string;
  pv_StorageClassName : string;
  pv_NFS : option NFSVolumeSource;
  pv_ClaimRef : option ClaimReference;
  pv_Phase : string;
}.
Definition ReadWriteOnce : string := "ReadWriteOnce".
Definition ReadWriteMany : string := "ReadWriteMany".
Definition ResourceStorage : string := "storage".
Definition ClaimBound : string := "Bound".
Definition VolumeBound : string := "Bound".
Definition VolumePending : string := "Pending".
Definition PersistentVolumeReclaimDelete : string := "Delete".

(** *** Secrets *)
Record Secret := mkSecret { sec_Meta : ObjectMeta; sec_Data : gmap string string }.

(** *** Ingress *)
Record IngressRule := mkIngressRule {
  ir_Host : string; ir_Path : string; ir_PathType : string; ir_Service : string; ir_Port : Z }.
Record IngressTLSEntry := mkIngressTLSEntry { ite_Hosts : list string; ite_SecretName : string }.
Record Ingress := mkIngress {
  ing_Meta : ObjectMeta;
  ing_ClassName : option string;
  ing_Rules : list IngressRule;
  ing_TLS : list IngressTLSEntry;
}.
Definition PathTypePrefix : string := "Prefix".

Definition PullIfNotPresent : string := "IfNotPresent".
Definition ProtocolTCP : string := "TCP".
Definition HostPathCharDev : string := "CharDevice".
Definition HostPathDirectory : string := "Directory".

(** ** Status conditions *)
Record Condition := mkCondition {
  cond_Type : string; cond_Status : string; cond_Reason : string; cond_Message : string;
  cond_ObservedGeneration : Z }.
Definition ConditionTrue : string := "True".
Definition ConditionFalse : string := "False".

(** ** Decidable equality *)
#[export] Instance VolumeMount_eq_dec : EqDecision VolumeMount.
Proof. solve_decision. Defined.
#[export] Instance PVCVolumeSource_eq_dec : EqDecision PVCVolumeSource.
Proof. solve_decision. Defined.
#[export] Instance NFSVolumeSource_eq_dec : EqDecision NFSVolumeSource.
Proof. solve_decision. Defined.
#[export] Instance ImageVolumeSource_eq_dec : EqDecision ImageVolumeSource.
Proof. solve_decision. Defined.
#[export] Instance HostPathVolumeSource_eq_dec : EqDecision HostPathVolumeSource.
Proof. solve_decision. Defined.
#[export] Instance Volume_eq_dec : EqDecision Volume.
Proof. solve_decision. Defined.
