(* ===== verification/ApiTypes.v ===== *)
(** * The custom resources (api/v1alpha1)

    [Jellyfin], [JellyfinPlugin] and the types of their specs and statuses,
    field by field. A pointer field is an [option], a string enumeration a
    [string] as in the source, whose code compares strings and has default
    branches; [resource.Quantity] is its numeric value, zero when unset. *)
From S2P Require Import Prelude Json K8s.

(** ** jellyfin_storage_types.go *)
Record PVCSpec := mkPVCSpec {
  pvc_ExistingClaim : string;
  pvc_Size : Quantity;
  pvc_StorageClassName : string;
  pvc_AccessModes : list string;
  pvc_MountPath : string;
}.

Record NFSSource := mkNFS {
  nfs_Server : string;
  nfs_Path : string;
  nfs_ReadOnly : bool;
  nfs_Provision : bool;
  nfs_StorageClassName : string;
  nfs_MountOptions : list string;
}.

(** [Options] is the raw JSON of the opaque library options. *)
Record LibrarySpec := mkLibrarySpec {
  lib_Name : string;
  lib_CollectionType : string;
  lib_Options : option RawMessage;
}.

Record MediaFolder := mkMediaFolder {
  mf_Name : string;
  mf_MountPath : string;
  mf_ReadOnly : bool;
  mf_NFS : option NFSSource;
  mf_PVC : option PVCSpec;
  mf_ExistingClaim : string;
  mf_Library : option LibrarySpec;
}.

Record JellyfinStorage := mkStorage {
  st_Config : PVCSpec;
  st_Cache : option PVCSpec;
  st_Trickplay : option PVCSpec;
  st_Media : list MediaFolder;
}.

(** ** jellyfin_service_types.go *)
Record ServiceSpec := mkServiceSpec {
  ss_Type : string;
  ss_Port : Z;
  ss_Annotations : gmap string string;
}.

Record IngressTLS := mkIngressTLS { itls_SecretName : string }.

Record IngressSpec := mkIngressSpec {
  is_ClassName : string;
  is_Host : string;
  is_TLS : option IngressTLS;
  is_Annotations : gmap string string;
}.

Record HardwareAccel := mkHardwareAccel {
  hw_Type : string;
  hw_DevicePath : string;
  hw_DeviceResource : string;
  hw_RenderGroupGID : option Z;
  hw_RuntimeClassName : string;
}.

Record PodSecuritySpec := mkPodSecuritySpec {
  psec_RunAsNonRoot : option bool;
  psec_RunAsUser : option Z;
  psec_RunAsGroup : option Z;
  psec_FsGroup : option Z;
  psec_SupplementalGroups : list Z;
}.

(** ** jellyfin_web_types.go *)
Definition WebModeDeployment : string := "deployment".
Definition WebModeVolume : string := "volume".

Record WebSpec := mkWebSpec {
  web_Image : string;
  web_Mode : string;
  web_SubPath : string;
  web_PullPolicy : string;
  web_Replicas : option Z;
  web_Resources : ResourceRequirements;
  web_Service : ServiceSpec;
  web_PodAnnotations : gmap string string;
}.

Record GatewayReference := mkGatewayReference {
  gr_Name : string;
  gr_Namespace : string;
  gr_SectionName : string;
}.

Record GatewaySSO := mkGatewaySSO {
  sso_AutoLoginRedirect : bool;
  sso_AuthorizePath : string;
}.

Record GatewaySpec := mkGatewaySpec {
  gw_GatewayRef : GatewayReference;
  gw_Hostname : string;
  gw_Annotations : gmap string string;
  gw_SSO : option GatewaySSO;
}.

(** The receiver is a pointer and may be nil. *)
Definition EffectiveMode (w : option WebSpec) : string :=
  match w with
  | None => WebModeDeployment
  | Some w => if decide (web_Mode w = "") then WebModeDeployment else web_Mode w
  end.

(** ** The blocks applied over the HTTP API *)
Record JellyfinAPISpec := mkAPISpec {
  api_Mode : string;
  api_CredentialsSecret : option string;
  api_GeneratedSecretName : string;
  api_ManageLibraries : bool;
  api_Prune : bool;
  api_RefreshLibraryOnChange : bool;
}.

Record ThrottleSpec := mkThrottle {
  th_Enabled : option bool;
  th_DelaySeconds : option Z;
}.
Record SegmentDeletionSpec := mkSegmentDeletion {
  sd_Enabled : option bool;
  sd_KeepSeconds : option Z;
}.
Record TranscodingSpec := mkTranscoding {
  tr_Throttle : option ThrottleSpec;
  tr_SegmentDeletion : option SegmentDeletionSpec;
}.

Record BrandingSpec := mkBranding {
  br_LoginDisclaimer : option string;
  br_CustomCss : option string;
  br_SplashscreenEnabled : option bool;
}.

(** [CorsHosts] is a slice whose nil means unset, hence an [option]. *)
Record GeneralSpec := mkGeneral {
  ge_ServerName : option string;
  ge_UICulture : option string;
  ge_QuickConnectAvailable : option bool;
  ge_EnableMetrics : option bool;
  ge_EnableNormalizedItemByNameIds : option bool;
  ge_AllowClientLogUpload : option bool;
  ge_EnableSlowResponseWarning : option bool;
  ge_SlowResponseThresholdMs : option Z;
  ge_LibraryScanFanoutConcurrency : option Z;
  ge_LibraryMetadataRefreshConcurrency : option Z;
  ge_ParallelImageEncodingLimit : option Z;
  ge_ActivityLogRetentionDays : option Z;
  ge_LibraryMonitorDelay : option Z;
  ge_LibraryUpdateDuration : option Z;
  ge_InactiveSessionThreshold : option Z;
  ge_LogFileRetentionDays : option Z;
  ge_CachePath : option string;
  ge_MetadataPath : option string;
  ge_CorsHosts : option (list string);
}.

Record PlaybackSpec := mkPlayback {
  pl_MinResumePct : option Z;
  pl_MaxResumePct : option Z;
  pl_MinResumeDurationSeconds : option Z;
  pl_MinAudiobookResumeMinutes : option Z;
  pl_MaxAudiobookResumeMinutes : option Z;
  pl_RemoteClientBitrateLimit : option Z;
}.

(** ** jellyfin_types.go *)
Record JellyfinSpec := mkJellyfinSpec {
  js_Image : string;
  js_Replicas : option Z;
  js_Storage : JellyfinStorage;
  js_Service : ServiceSpec;
  js_Ingress : option IngressSpec;
  js_Web : option WebSpec;
  js_Gateway : option GatewaySpec;
  js_Resources : ResourceRequirements;
  js_HardwareAcceleration : option HardwareAccel;
  js_PodSecurity : option PodSecuritySpec;
  js_API : option JellyfinAPISpec;
  js_Transcoding : option TranscodingSpec;
  js_General : option GeneralSpec;
  js_Branding : option BrandingSpec;
  js_Playback : option PlaybackSpec;
  js_PluginSelector : option LabelSelector;
  js_PodAnnotations : gmap string string;
  js_ImagePullSecrets : list string;
}.

Record InstanceEndpoints := mkEndpoints { ie_Service : string; ie_Ingress : string }.

Record LoadedPlugin := mkLoadedPlugin {
  lp_Name : string;
  lp_PluginName : string;
  lp_Version : string;
  lp_GUID : string;
}.

Record JellyfinStatus := mkJellyfinStatus {
  jst_Phase : string;
  jst_ObservedGeneration : Z;
  jst_Endpoints : InstanceEndpoints;
  jst_LoadedPlugins : list LoadedPlugin;
  jst_APICredentialsSecret : string;
  jst_ManagedLibraries : list string;
  jst_Conditions : list Condition;
}.

Record Jellyfin := mkJellyfin {
  jf_Meta : ObjectMeta;
  jf_Spec : JellyfinSpec;
  jf_Status : JellyfinStatus;
}.
Definition jf_Name (jf : Jellyfin) : string := om_Name (jf_Meta jf).
Definition jf_Namespace (jf : Jellyfin) : string := om_Namespace (jf_Meta jf).

(** ** jellyfinplugin_workload_types.go *)
Record ImageSource := mkImageSrc {
  img_Reference : string;
  img_PullPolicy : string;
  img_SubPath : string;
}.

Record PluginMeta := mkPluginMeta {
  pm_GUID : string;
  pm_Name : string;
  pm_Version : string;
  pm_TargetABI : string;
  pm_SubPath : string;
}.

Definition InstanceMediaAll : string := "All".
Definition InstanceMediaSelected : string := "Selected".
Definition InstanceMediaNone : string := "None".

Record InstanceMediaSelection := mkInstanceMedia {
  im_Mode : string;
  im_Include : list string;
  im_ReadWrite : list string;
}.

Record WorkloadAutoscaling := mkAutoscaling {
  as_MinReplicas : option Z;
  as_MaxReplicas : Z;
  as_TargetCPUUtilizationPercentage : option Z;
}.

Record PluginWorkload := mkWorkload {
  wl_Name : string;
  wl_Image : ImageSource;
  wl_Replicas : option Z;
  wl_Command : list string;
  wl_Args : list string;
  wl_Env : list EnvVar;
  wl_Ports : list ContainerPort;
  wl_Resources : ResourceRequirements;
  wl_VolumeMounts : list VolumeMount;
  wl_Volumes : list Volume;
  wl_InstanceMedia : option InstanceMediaSelection;
  wl_TerminationGracePeriodSeconds : option Z;
  wl_NodeSelector : gmap string string;
  wl_Tolerations : list Toleration;
  wl_PriorityClassName : string;
  wl_RuntimeClassName : string;
  wl_PodSecurity : option PodSecuritySpec;
  wl_ReadinessProbe : option Probe;
  wl_LivenessProbe : option Probe;
  wl_StartupProbe : option Probe;
  wl_Autoscaling : option WorkloadAutoscaling;
}.

Definition ServiceTargetInstance : string := "instance".

Record PluginService := mkPluginService {
  psv_Name : string;
  psv_Selector : string;
  psv_Ports : list ServicePort;
  psv_Type : string;
}.

Record PluginInstall := mkInstall {
  ins_Image : option ImageSource;
  ins_Script : string;
  ins_Command : list string;
  ins_Args : list string;
  ins_Env : list EnvVar;
  ins_VolumeMounts : list VolumeMount;
  ins_Resources : ResourceRequirements;
  ins_FailurePolicy : string;
  ins_TimeoutSeconds : option Z;
  ins_RunOnce : bool;
}.

(** ** jellyfinplugin_types.go *)
Definition InjectionImageVolume : string := "imageVolume".
Definition InjectionImageVolumeCopy : string := "imageVolumeCopy".
Definition FailurePolicyIgnore : string := "Ignore".
Definition FailurePolicyFail : string := "Fail".

Definition PluginPhasePending : string := "Pending".
Definition PluginPhaseInjecting : string := "Injecting".
Definition PluginPhaseInstalling : string := "Installing".
Definition PluginPhaseWorkloadsReady : string := "WorkloadsReady".
Definition PluginPhaseLoaded : string := "Loaded".
Definition PluginPhaseFailed : string := "Failed".
Definition PluginPhaseDisabled : string := "Disabled".

Record JellyfinPluginSpec := mkPluginSpec {
  pls_JellyfinRef : option string;
  pls_PluginImage : ImageSource;
  pls_Meta : PluginMeta;
  pls_Injection : string;
  pls_Install : option PluginInstall;
  pls_Workloads : list PluginWorkload;
  pls_Services : list PluginService;
}.

Record JellyfinPluginStatus := mkPluginStatus {
  pst_Phase : string;
  pst_ObservedGeneration : Z;
  pst_Injected : bool;
  pst_Installed : bool;
  pst_ABICompatible : bool;
  pst_LoadedVersion : string;
  pst_WorkloadReadyReplicas : Z;
  pst_Conditions : list Condition;
}.

Record JellyfinPlugin := mkPlugin {
  p_Meta : ObjectMeta;
  p_Spec : JellyfinPluginSpec;
  p_Status : JellyfinPluginStatus;
}.
Definition p_Name (p : JellyfinPlugin) : string := om_Name (p_Meta p).
Definition p_Namespace (p : JellyfinPlugin) : string := om_Namespace (p_Meta p).
