(* ===== verification/Heap.v ===== *)
(** * Go values in memory

    A store of Go values with the references between them, for the code whose
    point is what it shares: the generated deep copies ([DeepCopy]). A Go type is a
    [gotype]: its values as the program means them, and when a value in memory, at
    some set of locations, is one of them. *)
From S2P Require Import Prelude.

Notation loc := positive (only parsing).

Inductive lit : Type := LitInt (z : Z) | LitString (s : string) | LitBool (b : bool).
#[export] Instance lit_eq_dec : EqDecision lit.
Proof. solve_decision. Defined.

(** Strings are immutable, so a string is a scalar. A slice is a window of an
    array: its location, the offset and the length. [Zero] is what a variable holds
    between its allocation and the first write. *)
Inductive val : Type :=
| Zero
| Scalar (x : lit)
| Ptr (p : option loc)
| Slice (w : option (loc * nat * nat))
| MapRef (m : option loc)
| Struct (fs : list (string * val)).

Inductive obj : Type :=
| Cell (v : val)
| Array (vs : list val)
| Table (kvs : gmap string val).

Notation heap := (gmap loc obj) (only parsing).

(** ** Computing with a store

    [None] is an access that Go's types and nil checks rule out. *)
Definition M (A : Type) : Type := heap → option (A * heap).
#[export] Instance M_ret : MRet M := λ A x h, Some (x, h).
#[export] Instance M_bind : MBind M := λ A B f m h, '(x, h') ← m h; f x h'.

Definition nothing {A} : M A := λ h, None.
Definition of_option {A} (o : option A) : M A := λ h, (λ x, (x, h)) <$> o.

Definition fresh_loc (h : heap) : loc := Pos.succ (map_fold (λ l _ m, Pos.max l m) 1%positive h).
Definition alloc (o : obj) : M loc := λ h, Some (fresh_loc h, <[fresh_loc h := o]> h).
Definition load (l : loc) : M obj := λ h, (λ o, (o, h)) <$> h !! l.
Definition store (l : loc) (o : obj) : M unit := λ h, _ ← h !! l; Some (tt, <[l := o]> h).

Fixpoint for_each {A} (body : A → M unit) (l : list A) : M unit :=
  match l with
  | [] => mret tt
  | x :: l => body x ≫= λ _, for_each body l
  end.

Fixpoint lookup_field (F : string) (fs : list (string * val)) : option val :=
  match fs with
  | [] => None
  | (G, v) :: fs => if decide (F = G) then Some v else lookup_field F fs
  end.
Fixpoint update_field (F : string) (w : val) (fs : list (string * val)) : list (string * val) :=
  match fs with
  | [] => []
  | (G, v) :: fs => if decide (F = G) then (G, w) :: fs else (G, v) :: update_field F w fs
  end.
(** [v.F] and [v.F = w] *)
Definition get (F : string) (v : val) : M val :=
  match v with Struct fs => of_option (lookup_field F fs) | _ => nothing end.
Definition set (F : string) (w v : val) : M val :=
  match v with Struct fs => mret (Struct (update_field F w fs)) | _ => nothing end.

(** ** The statements of a generated copy

    A copier takes the value it copies and returns the value it writes. *)
Definition copier : Type := val → M val.

(** [out.F = in.F] *)
Definition copy_value : copier := λ v, mret v.

(** [if in.F != nil { *out = new(T); **out = **in }] *)
Definition new_copy : copier := λ v,
  match v with
  | Ptr None => mret v
  | Ptr (Some l) =>
      l' ← alloc (Cell Zero);
      o ← load l;
      _ ← store l' o;
      mret (Ptr (Some l'))
  | _ => nothing
  end.

(** [if in.F != nil { *out = new(T); ( *in).DeepCopyInto( *out) }] *)
Definition new_into (DeepCopyInto : copier) : copier := λ v,
  match v with
  | Ptr None => mret v
  | Ptr (Some l) =>
      l' ← alloc (Cell Zero);
      o ← load l;
      match o with
      | Cell w =>
          w' ← DeepCopyInto w;
          _ ← store l' (Cell w');
          mret (Ptr (Some l'))
      | _ => nothing
      end
  | _ => nothing
  end.

(** [if in.F != nil { *out = make([]T, len( *in)); copy( *out, *in) }] *)
Definition slice_copy : copier := λ v,
  match v with
  | Slice None => mret v
  | Slice (Some (l, off, n)) =>
      l' ← alloc (Array (replicate n Zero));
      o ← load l;
      match o with
      | Array vs =>
          _ ← store l' (Array (take n (drop off vs)));
          mret (Slice (Some (l', 0, n)))
      | _ => nothing
      end
  | _ => nothing
  end.

(** [( *in)[i].DeepCopyInto(&( *out)[i])] *)
Definition element_into (DeepCopyInto : copier) (l off l' i : _) : M unit :=
  o ← load l;
  match o with
  | Array vs =>
      w ← of_option (vs !! (off + i));
      w' ← DeepCopyInto w;
      o' ← load l';
      match o' with
      | Array vs' => store l' (Array (<[i := w']> vs'))
      | _ => nothing
      end
  | _ => nothing
  end.

(** [if in.F != nil { *out = make([]T, len( *in)); for i := range *in { ... } }] *)
Definition slice_into (DeepCopyInto : copier) : copier := λ v,
  match v with
  | Slice None => mret v
  | Slice (Some (l, off, n)) =>
      l' ← alloc (Array (replicate n Zero));
      _ ← for_each (element_into DeepCopyInto l off l') (seq 0 n);
      mret (Slice (Some (l', 0, n)))
  | _ => nothing
  end.

(** [( *out)[key] = val] *)
Definition set_key (l' : loc) (kv : string * val) : M unit :=
  o ← load l';
  match o with Table kvs => store l' (Table (<[kv.1 := kv.2]> kvs)) | _ => nothing end.

(** [if in.F != nil { *out = make(map[string]T, len( *in));
     for key, val := range *in { ( *out)[key] = val } }] *)
Definition map_copy `{MapOrder} : copier := λ v,
  match v with
  | MapRef None => mret v
  | MapRef (Some l) =>
      l' ← alloc (Table ∅);
      o ← load l;
      match o with
      | Table kvs =>
          _ ← for_each (set_key l') (range_map kvs);
          mret (MapRef (Some l'))
      | _ => nothing
      end
  | _ => nothing
  end.

(** A body: [*out = *in], then a statement per field that needs one. *)
Fixpoint run_statements (body : list (string * copier)) (in_ out : val) : M val :=
  match body with
  | [] => mret out
  | (F, copy) :: body =>
      v ← get F in_;
      v' ← copy v;
      out ← set F v' out;
      run_statements body in_ out
  end.
Definition copy_fields (body : list (string * copier)) : copier := λ in_, run_statements body in_ in_.

(** [if in == nil { return nil }; out := new(T); in.DeepCopyInto(out); return out] *)
Definition copy_of (DeepCopyInto : copier) : copier := new_into DeepCopyInto.

(** [if c := in.DeepCopy(); c != nil { return c }; return nil] *)
Definition object_of (DeepCopy : copier) : copier := λ v,
  c ← DeepCopy v;
  match c with Ptr (Some _) => mret c | _ => mret (Ptr None) end.

(** ** Types

    [repr s h v x L]: in the store [h], the value [v] means [x] and reaches exactly
    the locations [L]. With [s] the locations of different parts are different: the
    value is a tree. Without it parts may share. *)
Record gotype : Type := mkType {
  value : Type;
  repr : bool → heap → val → value → gset loc → Prop;
  repr_frame s h h' v x L :
    repr s h v x L → (∀ l, l ∈ L → h' !! l = h !! l) → repr s h' v x L;
  repr_dom s h v x L : repr s h v x L → L ⊆ dom h;
}.
Arguments repr T s h v x L : rename.

Definition joined (s : bool) (L1 L2 L : gset loc) : Prop :=
  L = L1 ∪ L2 ∧ (s = true → L1 ## L2).

Definition scalar : gotype.
Proof.
  refine (mkType lit (λ s h v x L, v = Scalar x ∧ L = ∅) _ _).
  - done.
  - intros s h v x L [_ ->]. set_solver.
Defined.

(** A pointer, nil or to a variable of the type. *)
Definition ptr_repr (T : gotype) (s : bool) (h : heap) (v : val) (x : option (value T)) (L : gset loc) : Prop :=
  match x with
  | None => v = Ptr None ∧ L = ∅
  | Some y => ∃ l w L1, v = Ptr (Some l) ∧ h !! l = Some (Cell w) ∧ repr T s h w y L1 ∧ joined s {[l]} L1 L
  end.
Definition ptr (T : gotype) : gotype.
Proof.
  refine (mkType (option (value T)) (ptr_repr T) _ _).
  - intros s h h' v [y|] L; [|done]. intros (l&w&L1&->&Hl&Hr&[-> Hd]) Hf.
    exists l, w, L1. split_and!; [done|by rewrite Hf by set_solver| |done].
    eapply repr_frame; [done|]. set_solver.
  - intros s h v [y|] L; [|intros [_ ->]; set_solver]. intros (l&w&L1&->&Hl&Hr%repr_dom&[-> Hd]).
    apply elem_of_dom_2 in Hl. set_solver.
Defined.

(** The elements a slice sees, in order. *)
Fixpoint elements_repr (T : gotype) (s : bool) (h : heap) (vs : list val) (xs : list (value T))
    (L : gset loc) : Prop :=
  match vs, xs with
  | [], [] => L = ∅
  | v :: vs, x :: xs => ∃ L1 L2, repr T s h v x L1 ∧ elements_repr T s h vs xs L2 ∧ joined s L1 L2 L
  | _, _ => False
  end.

Lemma elements_frame T s h h' vs xs L :
  elements_repr T s h vs xs L → (∀ l, l ∈ L → h' !! l = h !! l) → elements_repr T s h' vs xs L.
Proof.
  revert xs L. induction vs as [|v vs IH]; intros [|x xs] L; cbn; [done..|].
  intros (L1&L2&Hr&He&[-> Hd]) Hf. exists L1, L2. split_and!; [| |done].
  - eapply repr_frame; [done|]. set_solver.
  - apply IH; [done|]. set_solver.
Qed.

Lemma elements_dom T s h vs xs L : elements_repr T s h vs xs L → L ⊆ dom h.
Proof.
  revert xs L. induction vs as [|v vs IH]; intros [|x xs] L; cbn; [intros ->; set_solver|done..|].
  intros (L1&L2&Hr%repr_dom&He%IH&[-> Hd]). set_solver.
Qed.

Lemma elements_length T s h vs xs L : elements_repr T s h vs xs L → length vs = length xs.
Proof.
  revert xs L. induction vs as [|v vs IH]; intros [|x xs] L; cbn; [done..|].
  intros (L1&L2&_&He%IH&_). lia.
Qed.

Definition slice_repr (T : gotype) (s : bool) (h : heap) (v : val) (x : option (list (value T)))
    (L : gset loc) : Prop :=
  match x with
  | None => v = Slice None ∧ L = ∅
  | Some xs => ∃ l off vs L1,
      v = Slice (Some (l, off, length xs)) ∧ h !! l = Some (Array vs) ∧
      elements_repr T s h (take (length xs) (drop off vs)) xs L1 ∧ joined s {[l]} L1 L
  end.
Definition slice (T : gotype) : gotype.
Proof.
  refine (mkType (option (list (value T))) (slice_repr T) _ _).
  - intros s h h' v [xs|] L; [|done]. intros (l&off&vs&L1&->&Hl&He&[-> Hd]) Hf.
    exists l, off, vs, L1. split_and!; [done|by rewrite Hf by set_solver| |done].
    eapply elements_frame; [done|]. set_solver.
  - intros s h v [xs|] L; [|intros [_ ->]; set_solver]. intros (l&off&vs&L1&->&Hl&He%elements_dom&[-> Hd]).
    apply elem_of_dom_2 in Hl. set_solver.
Defined.

(** [map[string]string], the only map type of the custom resources. *)
Definition map_repr (s : bool) (h : heap) (v : val) (x : option (gmap string lit)) (L : gset loc) : Prop :=
  match x with
  | None => v = MapRef None ∧ L = ∅
  | Some m => ∃ l, v = MapRef (Some l) ∧ h !! l = Some (Table (Scalar <$> m)) ∧ L = {[l]}
  end.
Definition string_map : gotype.
Proof.
  refine (mkType (option (gmap string lit)) map_repr _ _).
  - intros s h h' v [m|] L; [|done]. intros (l&->&Hl&->) Hf. exists l.
    split_and!; [done|by rewrite Hf by set_solver|done].
  - intros s h v [m|] L; [|intros [_ ->]; set_solver]. intros (l&->&Hl&->).
    apply elem_of_dom_2 in Hl. set_solver.
Defined.

(** A struct: a value for every field, under the names of the declaration. *)
Fixpoint fields_value (Ts : list (string * gotype)) : Type :=
  match Ts with [] => unit | (_, T) :: Ts => value T * fields_value Ts end.
Fixpoint fields_repr (Ts : list (string * gotype)) (s : bool) (h : heap) (fs : list (string * val)) :
    fields_value Ts → gset loc → Prop :=
  match Ts with
  | [] => λ _ L, fs = [] ∧ L = ∅
  | (F, T) :: Ts => λ x L, ∃ v fs' L1 L2,
      fs = (F, v) :: fs' ∧ repr T s h v x.1 L1 ∧ fields_repr Ts s h fs' x.2 L2 ∧ joined s L1 L2 L
  end.

Lemma fields_frame Ts s h h' fs x L :
  fields_repr Ts s h fs x L → (∀ l, l ∈ L → h' !! l = h !! l) → fields_repr Ts s h' fs x L.
Proof.
  revert fs L. induction Ts as [|[F T] Ts IH]; intros fs L; cbn; [done|].
  intros (v&fs'&L1&L2&->&Hr&Hs&[-> Hd]) Hf. exists v, fs', L1, L2. split_and!; [done| | |done].
  - eapply repr_frame; [done|]. set_solver.
  - apply IH; [done|]. set_solver.
Qed.

Lemma fields_dom Ts s h fs x L : fields_repr Ts s h fs x L → L ⊆ dom h.
Proof.
  revert fs L. induction Ts as [|[F T] Ts IH]; intros fs L; cbn; [intros [_ ->]; set_solver|].
  intros (v&fs'&L1&L2&->&Hr%repr_dom&Hs%IH&[-> Hd]). set_solver.
Qed.

Definition struct (Ts : list (string * gotype)) : gotype.
Proof.
  refine (mkType (fields_value Ts) (λ s h v x L, ∃ fs, v = Struct fs ∧ fields_repr Ts s h fs x L) _ _).
  - intros s h h' v x L (fs&->&Hr) Hf. exists fs. split; [done|]. by eapply fields_frame.
  - intros s h v x L (fs&->&Hr). by eapply fields_dom.
Defined.

(** A store that only grew still holds what it held. *)
Lemma repr_mono T s (h h' : heap) v x L : repr T s h v x L → h ⊆ h' → repr T s h' v x L.
Proof.
  intros Hr Hsub. eapply repr_frame; [done|]. intros l Hl%(repr_dom _ _ _ _ _ _ Hr).
  apply elem_of_dom in Hl as [o Ho]. rewrite Ho. by eapply lookup_weaken.
Qed.

Lemma elements_mono T s (h h' : heap) vs xs L : elements_repr T s h vs xs L → h ⊆ h' → elements_repr T s h' vs xs L.
Proof.
  intros Hr Hsub. eapply elements_frame; [done|]. intros l Hl%(elements_dom _ _ _ _ _ _ Hr).
  apply elem_of_dom in Hl as [o Ho]. rewrite Ho. by eapply lookup_weaken.
Qed.

Lemma fields_mono Ts s (h h' : heap) fs x L : fields_repr Ts s h fs x L → h ⊆ h' → fields_repr Ts s h' fs x L.
Proof.
  intros Hr Hsub. eapply fields_frame; [done|]. intros l Hl%(fields_dom _ _ _ _ _ _ Hr).
  apply elem_of_dom in Hl as [o Ho]. rewrite Ho. by eapply lookup_weaken.
Qed.

(** ** What a copier promises

    Given a value that means [x], it returns one that means [x] too; the store only
    grows, the copy reaches nothing that existed before, and is a tree. *)
Class Copies (T : gotype) (f : copier) : Prop := copies s h v x L :
  repr T s h v x L →
  ∃ v' h' L', f v h = Some (v', h') ∧ repr T true h' v' x L' ∧ h ⊆ h' ∧ L' ## dom h.

(** A type without references: a value of it reaches nothing, in any store. *)
Class Flat (T : gotype) : Prop := flat s h v x L :
  repr T s h v x L → L = ∅ ∧ ∀ s' h', repr T s' h' v x ∅.

(** The statements of a body against the fields of a type: a field that no statement
    copies has no references. *)
Class Covers (Ts : list (string * gotype)) (body : list (string * copier)) : Prop :=
  covers s h fs x L (names : list string) (pre out : list (string * val)) :
  fields_repr Ts s h fs x L → pre.*1 = names → out.*1 = names → NoDup (names ++ Ts.*1) →
  ∃ fs' h' L', run_statements body (Struct (pre ++ fs)) (Struct (out ++ fs)) h = Some (Struct (out ++ fs'), h') ∧
    fields_repr Ts true h' fs' x L' ∧ h ⊆ h' ∧ L' ## dom h.

Lemma fresh_loc_fresh (h : heap) : fresh_loc h ∉ dom h.
Proof.
  assert (∀ l, l ∈ dom h → (l ≤ map_fold (λ l _ m, Pos.max l m) 1%positive h)%positive) as Hle.
  { apply (map_fold_weak_ind (λ m h, ∀ l, l ∈ dom h → (l ≤ m)%positive)); [set_solver|].
    intros k o m r Hk IH l. rewrite dom_insert, elem_of_union, elem_of_singleton. intros [->|Hl%IH]; lia. }
  intros Hin%Hle. unfold fresh_loc in Hin. lia.
Qed.

Lemma joined_empty_r L : joined true L ∅ L.
Proof. split; set_solver. Qed.

Lemma alloc_grows (h : heap) o : h ⊆ <[fresh_loc h := o]> h.
Proof. apply insert_subseteq, not_elem_of_dom, fresh_loc_fresh. Qed.

(** A location of the old store is not the fresh one. *)
Lemma lookup_alloc (h : heap) o l o' : h !! l = Some o' → <[fresh_loc h := o]> h !! l = Some o'.
Proof. intros Hl. eapply lookup_weaken; [done|apply alloc_grows]. Qed.

Lemma store_eq h l o o' : h !! l = Some o → store l o' h = Some (tt, <[l := o']> h).
Proof. intros Hl. unfold store. by rewrite Hl. Qed.

Lemma load_eq h l o : h !! l = Some o → load l h = Some (o, h).
Proof. intros Hl. unfold load. by rewrite Hl. Qed.

Lemma bind_eq {A B} (m : M A) (f : A → M B) h x h' : m h = Some (x, h') → (m ≫= f) h = f x h'.
Proof. intros Hm. unfold mbind, M_bind. by rewrite Hm. Qed.

(** Writing over what was allocated since: the old store is still there. *)
Lemma overwrite_grows (h h' : heap) l o : h ⊆ h' → l ∉ dom h → h ⊆ <[l := o]> h'.
Proof.
  intros Hsub Hl. apply map_subseteq_spec. intros k o' Hk. rewrite lookup_insert_ne; [by eapply lookup_weaken|].
  intros ->. by apply elem_of_dom_2 in Hk.
Qed.

#[export] Instance scalar_flat : Flat scalar.
Proof. by intros s h v x L [-> ->]. Qed.

#[export] Instance struct_nil_flat : Flat (struct []).
Proof. intros s h v [] L (fs&->&->&->). split; [done|]. intros s' h'. by eexists. Qed.

#[export] Instance struct_cons_flat F T Ts : Flat T → Flat (struct Ts) → Flat (struct ((F, T) :: Ts)).
Proof.
  intros HT HTs s h v [x xs] L (fs&->&w&fs'&L1&L2&->&Hr&Hs&[-> _]).
  destruct (HT _ _ _ _ _ Hr) as [-> HT'].
  destruct (HTs s h (Struct fs') xs L2) as [-> HTs']; [by exists fs'|].
  split; [set_solver|]. intros s' h'. destruct (HTs' s' h') as (fs&[= <-]&Hfs).
  eexists; split; [done|]. exists w, fs', ∅, ∅. split_and!; [done|apply HT'|done|]. split; set_solver.
Qed.

#[export] Instance copy_value_copies T : Flat T → Copies T copy_value.
Proof.
  intros HT s h v x L [-> Hr]%HT. exists v, h, ∅. split_and!; [done|apply Hr|done|set_solver].
Qed.

Ltac heap_step := erewrite bind_eq by first
  [ reflexivity
  | eassumption
  | eapply load_eq; eassumption
  | eapply store_eq; eassumption
  | apply load_eq, lookup_alloc; eassumption
  | eapply store_eq, lookup_insert_eq ]; cbv beta iota.

#[export] Instance new_copy_copies T : Flat T → Copies (ptr T) new_copy.
Proof.
  intros HT s h v [y|] L; cbn [repr ptr ptr_repr]; [|intros [-> ->]; exists (Ptr None), h, ∅; split_and!; set_solver].
  intros (l&w&L1&->&Hl&[-> Hr]%HT&_). pose proof (fresh_loc_fresh h).
  do 2 eexists. exists {[fresh_loc h]}. split_and!.
  - unfold new_copy. repeat heap_step. reflexivity.
  - exists (fresh_loc h), w, ∅. split_and!; [done|apply lookup_insert_eq|apply Hr|apply joined_empty_r].
  - by apply overwrite_grows; [apply alloc_grows|].
  - set_solver.
Qed.

#[export] Instance new_into_copies T f : Copies T f → Copies (ptr T) (new_into f).
Proof.
  intros Hf s h v [y|] L; cbn [repr ptr ptr_repr]; [|intros [-> ->]; exists (Ptr None), h, ∅; split_and!; set_solver].
  intros (l&w&L1&->&Hl&Hr&_). pose proof (fresh_loc_fresh h) as Hfr. set (l' := fresh_loc h) in *.
  destruct (Hf s (<[l' := Cell Zero]> h) w y L1) as (w'&h2&L2&Hrun&Hr'&Hsub&Hd);
    [by eapply repr_mono, alloc_grows|].
  assert (h2 !! l' = Some (Cell Zero)) by (eapply lookup_weaken; [apply lookup_insert_eq|done]).
  rewrite dom_insert in Hd.
  do 2 eexists. exists ({[l']} ∪ L2). split_and!.
  - unfold new_into. heap_step. fold l'. repeat heap_step. reflexivity.
  - exists l', w', L2. split_and!; [done|apply lookup_insert_eq| |split; set_solver].
    eapply repr_frame; [done|]. intros k Hk. apply lookup_insert_ne. set_solver.
  - apply overwrite_grows; [|done]. etrans; [apply alloc_grows|done].
  - set_solver.
Qed.

Lemma elements_flat T s h vs xs L :
  Flat T → elements_repr T s h vs xs L → L = ∅ ∧ ∀ s' h', elements_repr T s' h' vs xs ∅.
Proof.
  intros HT. revert xs L. induction vs as [|v vs IH]; intros [|x xs] L; cbn; [by intros ->|done..|].
  intros (L1&L2&[-> Hr]%HT&[-> He]%IH&[-> _]). split; [set_solver|]. intros s' h'.
  exists ∅, ∅. split_and!; [apply Hr|apply He|split; set_solver].
Qed.

#[export] Instance slice_copy_copies T : Flat T → Copies (slice T) slice_copy.
Proof.
  intros HT s h v [ys|] L; cbn [repr slice slice_repr];
    [|intros [-> ->]; exists (Slice None), h, ∅; split_and!; set_solver].
  intros (l&off&vs&L1&->&Hl&[-> He]%elements_flat&_); [|done]. pose proof (fresh_loc_fresh h).
  do 2 eexists. exists {[fresh_loc h]}. split_and!.
  - unfold slice_copy. repeat heap_step. reflexivity.
  - exists (fresh_loc h), 0, (take (length ys) (drop off vs)), ∅.
    split_and!; [done|apply lookup_insert_eq| |apply joined_empty_r].
    rewrite drop_0, take_take, Nat.min_id. apply He.
  - by apply overwrite_grows; [apply alloc_grows|].
  - set_solver.
Qed.

(** The loop over the elements of a slice, from index [i]: everything but the new
    array [l'] stays, and the array holds copies from there on. *)
Lemma elements_copied T f s h0 h l off vs l' out i ys L :
  Copies T f → h0 !! l = Some (Array vs) → h0 ⊆ delete l' h → h !! l' = Some (Array out) →
  i + length ys ≤ length out → elements_repr T s h0 (take (length ys) (drop (off + i) vs)) ys L →
  ∃ ws h' L', for_each (element_into f l off l') (seq i (length ys)) h = Some (tt, h') ∧
    h' !! l' = Some (Array (take i out ++ ws ++ drop (i + length ys) out)) ∧
    elements_repr T true h' ws ys L' ∧ delete l' h ⊆ h' ∧ L' ## dom h.
Proof.
  intros Hf Hl. revert h out i L. induction ys as [|y ys IH]; intros h out i L Hsub Hl' Hi He.
  { exists [], h, ∅. cbn. rewrite Nat.add_0_r, take_drop. split_and!; [done..|apply delete_subseteq|set_solver]. }
  destruct (vs !! (off + i)) as [w|] eqn:Hw; [|by rewrite drop_ge in He by (by apply lookup_ge_None)].
  rewrite (drop_S _ _ _ Hw) in He. cbn in He. destruct He as (L1&L2&Hr&He&_).
  rewrite <-Nat.add_succ_r in He.
  destruct (Hf s h w y L1) as (w'&h1&L1'&Hrun&Hr'&Hsub1&Hd1).
  { eapply repr_mono; [done|]. etrans; [done|apply delete_subseteq]. }
  assert (h1 !! l' = Some (Array out)) as Hl1 by by eapply lookup_weaken.
  assert (h !! l = Some (Array vs)) as Hl0.
  { eapply lookup_weaken; [done|]. etrans; [done|apply delete_subseteq]. }
  cbn in Hi. edestruct (IH (<[l' := Array (<[i := w']> out)]> h1) (<[i := w']> out) (S i)) as
    (ws&h'&L2'&Hrun'&Hl2&He'&Hsub2&Hd2); [|apply lookup_insert_eq|rewrite length_insert; lia|done|].
  { rewrite delete_insert_eq. etrans; [done|by apply delete_mono]. }
  rewrite delete_insert_eq in Hsub2. rewrite dom_insert in Hd2.
  assert (l' ∈ dom h) by by apply elem_of_dom_2 in Hl'.
  exists (w' :: ws), h', (L1' ∪ L2'). split_and!.
  - cbn [seq length for_each]. erewrite bind_eq; [exact Hrun'|]. unfold element_into. repeat heap_step.
    rewrite Hw. repeat heap_step. by apply store_eq with (o := Array out).
  - rewrite Hl2. f_equal. f_equal. rewrite (take_S_r _ _ w') by (apply list_lookup_insert_eq; lia).
    rewrite take_insert_ge, drop_insert_lt by lia. cbn. by rewrite <-app_assoc, Nat.add_succ_r.
  - cbn. exists L1', L2'. split_and!; [|done|].
    + eapply repr_frame; [done|]. intros k Hk. assert (k ≠ l') by set_solver.
      apply (repr_dom _ _ _ _ _ _ Hr') in Hk. apply elem_of_dom in Hk as [o Ho]. rewrite Ho.
      eapply lookup_weaken; [|done]. by rewrite lookup_delete_ne.
    + apply repr_dom in Hr'. split; set_solver.
  - etrans; [by apply delete_mono|done].
  - apply subseteq_dom in Hsub1. set_solver.
Qed.

#[export] Instance slice_into_copies T f : Copies T f → Copies (slice T) (slice_into f).
Proof.
  intros Hf s h v [ys|] L; cbn [repr slice slice_repr];
    [|intros [-> ->]; exists (Slice None), h, ∅; split_and!; set_solver].
  intros (l&off&vs&L1&->&Hl&He&_). pose proof (fresh_loc_fresh h) as Hfr.
  set (l' := fresh_loc h) in *. set (h1 := <[l' := Array (replicate (length ys) Zero)]> h).
  assert (h ⊆ delete l' h1) as Hsub.
  { subst h1. rewrite delete_insert_eq, delete_id; [done|by apply not_elem_of_dom]. }
  destruct (elements_copied T f s h h1 l off vs l' (replicate (length ys) Zero) 0 ys L1) as
    (ws&h'&L'&Hrun&Hl'&He'&Hsub'&Hd); [done..|apply lookup_insert_eq|by rewrite length_replicate|by rewrite Nat.add_0_r|].
  rewrite drop_ge, app_nil_r in Hl' by (rewrite length_replicate; lia). cbn in Hl'.
  assert (length ws = length ys) as Hlen by by eapply elements_length.
  unfold h1 in Hd. rewrite dom_insert in Hd.
  do 2 eexists. exists ({[l']} ∪ L'). split_and!.
  - unfold slice_into. heap_step. fold l'. fold h1. heap_step. reflexivity.
  - exists l', 0, ws, L'. rewrite drop_0, firstn_all2 by lia. split_and!; [done..|split; set_solver].
  - by etrans.
  - set_solver.
Qed.

Lemma set_keys l' kvs m h :
  h !! l' = Some (Table m) →
  for_each (set_key l') kvs h =
    Some (tt, <[l' := Table (fold_left (λ m kv, <[kv.1 := kv.2]> m) kvs m)]> h).
Proof.
  revert m h. induction kvs as [|[k w] kvs IH]; intros m h Hl'; cbn.
  { by rewrite insert_id. }
  assert (set_key l' (k, w) h = Some (tt, <[l' := Table (<[k := w]> m)]> h)) as Hrun.
  { unfold set_key. heap_step. by eapply store_eq. }
  rewrite (bind_eq _ _ _ _ _ Hrun), (IH (<[k := w]> m)) by apply lookup_insert_eq. by rewrite insert_insert_eq.
Qed.

(** Whatever the order of the range, the new map has the entries of the old. *)
Lemma range_rebuilds `{MapOrder} {A} (m : gmap string A) :
  fold_left (λ m kv, <[kv.1 := kv.2]> m) (range_map m) ∅ = m.
Proof.
  rewrite <-(fold_left_rev_right (λ kv m, <[kv.1 := kv.2]> m)). symmetry.
  etrans; [apply (list_to_map_flip m (rev (range_map m)))|done].
  rewrite <-Permutation_rev. symmetry. apply range_map_perm.
Qed.

#[export] Instance map_copy_copies `{MapOrder} : Copies string_map map_copy.
Proof.
  intros s h v [m|] L; cbn [repr string_map map_repr];
    [|intros [-> ->]; exists (MapRef None), h, ∅; split_and!; set_solver].
  intros (l&->&Hl&->). pose proof (fresh_loc_fresh h). do 2 eexists. exists {[fresh_loc h]}. split_and!.
  - unfold map_copy. repeat heap_step. erewrite bind_eq by (apply set_keys, lookup_insert_eq). reflexivity.
  - exists (fresh_loc h). rewrite range_rebuilds. split_and!; [done|apply lookup_insert_eq|done].
  - by apply overwrite_grows; [apply alloc_grows|].
  - set_solver.
Qed.

Lemma lookup_field_app F v pre fs : F ∉ pre.*1 → lookup_field F (pre ++ (F, v) :: fs) = Some v.
Proof.
  induction pre as [|[G w] pre IH]; cbn; [by rewrite decide_True|].
  intros [Hne Hin]%not_elem_of_cons. rewrite decide_False by done. auto.
Qed.

Lemma update_field_app F w v pre fs :
  F ∉ pre.*1 → update_field F w (pre ++ (F, v) :: fs) = pre ++ (F, w) :: fs.
Proof.
  induction pre as [|[G w'] pre IH]; cbn; [by rewrite decide_True|].
  intros [Hne Hin]%not_elem_of_cons. rewrite decide_False by done. by rewrite IH.
Qed.

#[export] Instance covers_nil : Covers [] [].
Proof.
  intros s h fs [] L names pre out [-> ->] _ _ _. exists [], h, ∅. split_and!; [done..|set_solver].
Qed.

#[export] Instance covers_statement F T f Ts body :
  Copies T f → Covers Ts body → Covers ((F, T) :: Ts) ((F, f) :: body).
Proof.
  intros Hf Hb s h fs x L names pre out (v&fs'&L1&L2&->&Hr&Hs&_) <- Hout Hnd.
  assert (F ∉ pre.*1 ∧ NoDup ((pre.*1 ++ [F]) ++ Ts.*1)) as [HF Hnd'].
  { rewrite <-app_assoc. split; [|exact Hnd]. apply NoDup_app in Hnd as (_&Hno&_).
    intros Hin. apply (Hno F Hin). by left. }
  destruct (Hf s h v x.1 L1 Hr) as (v'&h1&L1'&Hrun&Hr'&Hsub&Hd).
  destruct (Hb s h1 fs' x.2 L2 (pre.*1 ++ [F]) (pre ++ [(F, v)]) (out ++ [(F, v')])) as
    (fs2&h2&L2'&Hrun2&Hr2&Hsub2&Hd2); [by eapply fields_mono|by rewrite fmap_app|by rewrite fmap_app, Hout|done|].
  exists ((F, v') :: fs2), h2, (L1' ∪ L2'). apply subseteq_dom in Hsub as Hsd. split_and!.
  - cbn [run_statements get]. rewrite lookup_field_app by done. heap_step. heap_step. cbn [set].
    rewrite update_field_app by by rewrite Hout. heap_step. rewrite <-!app_assoc in Hrun2. exact Hrun2.
  - exists v', fs2, L1', L2'. apply repr_dom in Hr' as Hd1.
    split_and!; [done|by eapply repr_mono|done|split; set_solver].
  - by etrans.
  - set_solver.
Qed.

#[export] Instance covers_skip F T Ts body : Flat T → Covers Ts body → Covers ((F, T) :: Ts) body | 10.
Proof.
  intros HT Hb s h fs x L names pre out (v&fs'&L1&L2&->&Hr&Hs&_) Hpre Hout Hnd.
  destruct (HT _ _ _ _ _ Hr) as [-> HT'].
  destruct (Hb s h fs' x.2 L2 (names ++ [F]) (pre ++ [(F, v)]) (out ++ [(F, v)])) as
    (fs2&h2&L2'&Hrun2&Hr2&Hsub2&Hd2);
    [done|by rewrite fmap_app, Hpre|by rewrite fmap_app, Hout|by rewrite <-app_assoc|].
  exists ((F, v) :: fs2), h2, L2'. rewrite <-!app_assoc in Hrun2. split_and!; [done| |done..].
  exists v, fs2, ∅, L2'. split_and!; [done|apply HT'|done|split; set_solver].
Qed.

Lemma copy_fields_copies Ts body :
  Covers Ts body → NoDup Ts.*1 → Copies (struct Ts) (copy_fields body).
Proof.
  intros Hb Hnd s h v x L (fs&->&Hr).
  destruct (Hb s h fs x L [] [] []) as (fs'&h'&L'&Hrun&Hr'&Hsub&Hd); [done..|].
  exists (Struct fs'), h', L'. split_and!; [exact Hrun|by exists fs'|done..].
Qed.

(** The statements of a body cover its type. *)
Ltac solve_copies := apply copy_fields_copies; [apply _|by apply (bool_decide_unpack _)].
