(* ===== verification/DeepCopy.v ===== *)
(** * The generated deep copies (api/v1alpha1/zz_generated.deepcopy.go)

    Every custom resource type has a [DeepCopyInto], which writes a copy of the value
    it is called on, and a [DeepCopy], which allocates it; the four kinds and lists also
    a [DeepCopyObject]. For each type, [_type] has the fields of the declaration with their
    Go types, as in the files jellyfin*_types.go, and the three functions are
    [_DeepCopyInto], [_DeepCopy] and [_DeepCopyObject], statement by statement.

    controller-runtime hands out the objects of its cache as such copies, and the
    controllers then write into them: into the limits of a container, into annotations,
    into the status. [deep_copies_separate] says that they write into memory of their own. *)
From S2P Require Import Prelude Heap.

(** The types of other packages that the resources hold. [ext] are those with
    references, for which the generated code calls the copy of their own package (for
    [resource.Quantity], which has a [DeepCopy] only, its result is assigned);
    [plain] are structs of scalars, which it copies by assignment. *)
Class External := {
  ext : string → gotype;
  ext_DeepCopyInto : string → copier;
  ext_copies n : Copies (ext n) (ext_DeepCopyInto n);
  plain : string → gotype;
  plain_flat n : Flat (plain n);
}.
#[export] Existing Instances ext_copies plain_flat.

Section DeepCopy.
Context `{External, MapOrder}.

Definition BrandingSpec_type : gotype := struct [
   ("LoginDisclaimer", ptr scalar); ("CustomCss", ptr scalar); ("SplashscreenEnabled", ptr scalar)].
Definition BrandingSpec_DeepCopyInto : copier := copy_fields [
   ("LoginDisclaimer", new_copy); ("CustomCss", new_copy); ("SplashscreenEnabled", new_copy)].
Definition BrandingSpec_DeepCopy : copier := copy_of BrandingSpec_DeepCopyInto.

Definition GatewayReference_type : gotype := struct [
   ("Name", scalar); ("Namespace", scalar); ("SectionName", scalar)].
Definition GatewayReference_DeepCopyInto : copier := copy_fields [].
Definition GatewayReference_DeepCopy : copier := copy_of GatewayReference_DeepCopyInto.

Definition GatewaySSO_type : gotype := struct [
   ("AutoLoginRedirect", scalar); ("AuthorizePath", scalar)].
Definition GatewaySSO_DeepCopyInto : copier := copy_fields [].
Definition GatewaySSO_DeepCopy : copier := copy_of GatewaySSO_DeepCopyInto.

Definition GatewaySpec_type : gotype := struct [
   ("GatewayRef", GatewayReference_type); ("Hostname", scalar); ("Annotations", string_map);
   ("SSO", ptr GatewaySSO_type)].
Definition GatewaySpec_DeepCopyInto : copier := copy_fields [
   ("GatewayRef", copy_value); ("Annotations", map_copy); ("SSO", new_copy)].
Definition GatewaySpec_DeepCopy : copier := copy_of GatewaySpec_DeepCopyInto.

Definition GeneralSpec_type : gotype := struct [
   ("ServerName", ptr scalar); ("UICulture", ptr scalar); ("QuickConnectAvailable", ptr scalar);
   ("EnableMetrics", ptr scalar); ("EnableNormalizedItemByNameIds", ptr scalar);
   ("AllowClientLogUpload", ptr scalar); ("EnableSlowResponseWarning", ptr scalar);
   ("SlowResponseThresholdMs", ptr scalar); ("LibraryScanFanoutConcurrency", ptr scalar);
   ("LibraryMetadataRefreshConcurrency", ptr scalar); ("ParallelImageEncodingLimit", ptr scalar);
   ("ActivityLogRetentionDays", ptr scalar); ("LibraryMonitorDelay", ptr scalar);
   ("LibraryUpdateDuration", ptr scalar); ("InactiveSessionThreshold", ptr scalar);
   ("LogFileRetentionDays", ptr scalar); ("CachePath", ptr scalar); ("MetadataPath", ptr scalar);
   ("CorsHosts", slice scalar)].
Definition GeneralSpec_DeepCopyInto : copier := copy_fields [
   ("ServerName", new_copy); ("UICulture", new_copy); ("QuickConnectAvailable", new_copy);
   ("EnableMetrics", new_copy); ("EnableNormalizedItemByNameIds", new_copy);
   ("AllowClientLogUpload", new_copy); ("EnableSlowResponseWarning", new_copy);
   ("SlowResponseThresholdMs", new_copy); ("LibraryScanFanoutConcurrency", new_copy);
   ("LibraryMetadataRefreshConcurrency", new_copy); ("ParallelImageEncodingLimit", new_copy);
   ("ActivityLogRetentionDays", new_copy); ("LibraryMonitorDelay", new_copy);
   ("LibraryUpdateDuration", new_copy); ("InactiveSessionThreshold", new_copy);
   ("LogFileRetentionDays", new_copy); ("CachePath", new_copy); ("MetadataPath", new_copy);
   ("CorsHosts", slice_copy)].
Definition GeneralSpec_DeepCopy : copier := copy_of GeneralSpec_DeepCopyInto.

Definition HardwareAccel_type : gotype := struct [
   ("Type", scalar); ("DevicePath", scalar); ("DeviceResource", scalar);
   ("RenderGroupGID", ptr scalar); ("RuntimeClassName", scalar)].
Definition HardwareAccel_DeepCopyInto : copier := copy_fields [
   ("RenderGroupGID", new_copy)].
Definition HardwareAccel_DeepCopy : copier := copy_of HardwareAccel_DeepCopyInto.

Definition ImageSource_type : gotype := struct [
   ("Reference", scalar); ("PullPolicy", scalar); ("SubPath", scalar)].
Definition ImageSource_DeepCopyInto : copier := copy_fields [].
Definition ImageSource_DeepCopy : copier := copy_of ImageSource_DeepCopyInto.

Definition IngressTLS_type : gotype := struct [
   ("SecretName", scalar)].
Definition IngressTLS_DeepCopyInto : copier := copy_fields [].
Definition IngressTLS_DeepCopy : copier := copy_of IngressTLS_DeepCopyInto.

Definition IngressSpec_type : gotype := struct [
   ("ClassName", scalar); ("Host", scalar); ("TLS", ptr IngressTLS_type); ("Annotations", string_map)].
Definition IngressSpec_DeepCopyInto : copier := copy_fields [
   ("TLS", new_copy); ("Annotations", map_copy)].
Definition IngressSpec_DeepCopy : copier := copy_of IngressSpec_DeepCopyInto.

Definition InstanceEndpoints_type : gotype := struct [
   ("Service", scalar); ("Ingress", scalar)].
Definition InstanceEndpoints_DeepCopyInto : copier := copy_fields [].
Definition InstanceEndpoints_DeepCopy : copier := copy_of InstanceEndpoints_DeepCopyInto.

Definition InstanceMediaSelection_type : gotype := struct [
   ("Mode", scalar); ("Include", slice scalar); ("ReadWrite", slice scalar)].
Definition InstanceMediaSelection_DeepCopyInto : copier := copy_fields [
   ("Include", slice_copy); ("ReadWrite", slice_copy)].
Definition InstanceMediaSelection_DeepCopy : copier := copy_of InstanceMediaSelection_DeepCopyInto.

Definition PVCSpec_type : gotype := struct [
   ("ExistingClaim", scalar); ("Size", ext "resource.Quantity"); ("StorageClassName", scalar);
   ("AccessModes", slice scalar); ("MountPath", scalar)].
Definition PVCSpec_DeepCopyInto : copier := copy_fields [
   ("Size", ext_DeepCopyInto "resource.Quantity"); ("AccessModes", slice_copy)].
Definition PVCSpec_DeepCopy : copier := copy_of PVCSpec_DeepCopyInto.

Definition NFSSource_type : gotype := struct [
   ("Server", scalar); ("Path", scalar); ("ReadOnly", scalar); ("Provision", scalar);
   ("StorageClassName", scalar); ("MountOptions", slice scalar)].
Definition NFSSource_DeepCopyInto : copier := copy_fields [
   ("MountOptions", slice_copy)].
Definition NFSSource_DeepCopy : copier := copy_of NFSSource_DeepCopyInto.

Definition LibrarySpec_type : gotype := struct [
   ("Name", scalar); ("CollectionType", scalar); ("Options", ptr (ext "runtime.RawExtension"))].
Definition LibrarySpec_DeepCopyInto : copier := copy_fields [
   ("Options", new_into (ext_DeepCopyInto "runtime.RawExtension"))].
Definition LibrarySpec_DeepCopy : copier := copy_of LibrarySpec_DeepCopyInto.

Definition MediaFolder_type : gotype := struct [
   ("Name", scalar); ("MountPath", scalar); ("ReadOnly", scalar); ("NFS", ptr NFSSource_type);
   ("PVC", ptr PVCSpec_type); ("ExistingClaim", scalar); ("Library", ptr LibrarySpec_type)].
Definition MediaFolder_DeepCopyInto : copier := copy_fields [
   ("NFS", new_into NFSSource_DeepCopyInto); ("PVC", new_into PVCSpec_DeepCopyInto);
   ("Library", new_into LibrarySpec_DeepCopyInto)].
Definition MediaFolder_DeepCopy : copier := copy_of MediaFolder_DeepCopyInto.

Definition JellyfinStorage_type : gotype := struct [
   ("Config", PVCSpec_type); ("Cache", ptr PVCSpec_type); ("Trickplay", ptr PVCSpec_type);
   ("Media", slice MediaFolder_type)].
Definition JellyfinStorage_DeepCopyInto : copier := copy_fields [
   ("Config", PVCSpec_DeepCopyInto); ("Cache", new_into PVCSpec_DeepCopyInto);
   ("Trickplay", new_into PVCSpec_DeepCopyInto); ("Media", slice_into MediaFolder_DeepCopyInto)].
Definition JellyfinStorage_DeepCopy : copier := copy_of JellyfinStorage_DeepCopyInto.

Definition ServiceSpec_type : gotype := struct [
   ("Type", scalar); ("Port", scalar); ("Annotations", string_map)].
Definition ServiceSpec_DeepCopyInto : copier := copy_fields [
   ("Annotations", map_copy)].
Definition ServiceSpec_DeepCopy : copier := copy_of ServiceSpec_DeepCopyInto.

Definition WebSpec_type : gotype := struct [
   ("Image", scalar); ("Mode", scalar); ("SubPath", scalar); ("PullPolicy", scalar);
   ("Replicas", ptr scalar); ("Resources", ext "v1.ResourceRequirements");
   ("Service", ServiceSpec_type); ("PodAnnotations", string_map)].
Definition WebSpec_DeepCopyInto : copier := copy_fields [
   ("Replicas", new_copy); ("Resources", ext_DeepCopyInto "v1.ResourceRequirements");
   ("Service", ServiceSpec_DeepCopyInto); ("PodAnnotations", map_copy)].
Definition WebSpec_DeepCopy : copier := copy_of WebSpec_DeepCopyInto.

Definition PodSecuritySpec_type : gotype := struct [
   ("RunAsNonRoot", ptr scalar); ("RunAsUser", ptr scalar); ("RunAsGroup", ptr scalar);
   ("FsGroup", ptr scalar); ("SupplementalGroups", slice scalar)].
Definition PodSecuritySpec_DeepCopyInto : copier := copy_fields [
   ("RunAsNonRoot", new_copy); ("RunAsUser", new_copy); ("RunAsGroup", new_copy);
   ("FsGroup", new_copy); ("SupplementalGroups", slice_copy)].
Definition PodSecuritySpec_DeepCopy : copier := copy_of PodSecuritySpec_DeepCopyInto.

Definition JellyfinAPISpec_type : gotype := struct [
   ("Mode", scalar); ("CredentialsSecret", ptr (plain "v1.LocalObjectReference"));
   ("GeneratedSecretName", scalar); ("ManageLibraries", scalar); ("Prune", scalar);
   ("RefreshLibraryOnChange", scalar)].
Definition JellyfinAPISpec_DeepCopyInto : copier := copy_fields [
   ("CredentialsSecret", new_copy)].
Definition JellyfinAPISpec_DeepCopy : copier := copy_of JellyfinAPISpec_DeepCopyInto.

Definition ThrottleSpec_type : gotype := struct [
   ("Enabled", ptr scalar); ("DelaySeconds", ptr scalar)].
Definition ThrottleSpec_DeepCopyInto : copier := copy_fields [
   ("Enabled", new_copy); ("DelaySeconds", new_copy)].
Definition ThrottleSpec_DeepCopy : copier := copy_of ThrottleSpec_DeepCopyInto.

Definition SegmentDeletionSpec_type : gotype := struct [
   ("Enabled", ptr scalar); ("KeepSeconds", ptr scalar)].
Definition SegmentDeletionSpec_DeepCopyInto : copier := copy_fields [
   ("Enabled", new_copy); ("KeepSeconds", new_copy)].
Definition SegmentDeletionSpec_DeepCopy : copier := copy_of SegmentDeletionSpec_DeepCopyInto.

Definition TranscodingSpec_type : gotype := struct [
   ("Throttle", ptr ThrottleSpec_type); ("SegmentDeletion", ptr SegmentDeletionSpec_type)].
Definition TranscodingSpec_DeepCopyInto : copier := copy_fields [
   ("Throttle", new_into ThrottleSpec_DeepCopyInto);
   ("SegmentDeletion", new_into SegmentDeletionSpec_DeepCopyInto)].
Definition TranscodingSpec_DeepCopy : copier := copy_of TranscodingSpec_DeepCopyInto.

Definition PlaybackSpec_type : gotype := struct [
   ("MinResumePct", ptr scalar); ("MaxResumePct", ptr scalar);
   ("MinResumeDurationSeconds", ptr scalar); ("MinAudiobookResumeMinutes", ptr scalar);
   ("MaxAudiobookResumeMinutes", ptr scalar); ("RemoteClientBitrateLimit", ptr scalar)].
Definition PlaybackSpec_DeepCopyInto : copier := copy_fields [
   ("MinResumePct", new_copy); ("MaxResumePct", new_copy); ("MinResumeDurationSeconds", new_copy);
   ("MinAudiobookResumeMinutes", new_copy); ("MaxAudiobookResumeMinutes", new_copy);
   ("RemoteClientBitrateLimit", new_copy)].
Definition PlaybackSpec_DeepCopy : copier := copy_of PlaybackSpec_DeepCopyInto.

Definition JellyfinSpec_type : gotype := struct [
   ("Image", scalar); ("Replicas", ptr scalar); ("Storage", JellyfinStorage_type);
   ("Service", ServiceSpec_type); ("Ingress", ptr IngressSpec_type); ("Web", ptr WebSpec_type);
   ("Gateway", ptr GatewaySpec_type); ("Resources", ext "v1.ResourceRequirements");
   ("HardwareAcceleration", ptr HardwareAccel_type); ("PodSecurity", ptr PodSecuritySpec_type);
   ("API", ptr JellyfinAPISpec_type); ("Transcoding", ptr TranscodingSpec_type);
   ("General", ptr GeneralSpec_type); ("Branding", ptr BrandingSpec_type);
   ("Playback", ptr PlaybackSpec_type); ("PluginSelector", ptr (ext "metav1.LabelSelector"));
   ("PodAnnotations", string_map); ("ImagePullSecrets", slice (plain "v1.LocalObjectReference"))].
Definition JellyfinSpec_DeepCopyInto : copier := copy_fields [
   ("Replicas", new_copy); ("Storage", JellyfinStorage_DeepCopyInto);
   ("Service", ServiceSpec_DeepCopyInto); ("Ingress", new_into IngressSpec_DeepCopyInto);
   ("Web", new_into WebSpec_DeepCopyInto); ("Gateway", new_into GatewaySpec_DeepCopyInto);
   ("Resources", ext_DeepCopyInto "v1.ResourceRequirements");
   ("HardwareAcceleration", new_into HardwareAccel_DeepCopyInto);
   ("PodSecurity", new_into PodSecuritySpec_DeepCopyInto);
   ("API", new_into JellyfinAPISpec_DeepCopyInto);
   ("Transcoding", new_into TranscodingSpec_DeepCopyInto);
   ("General", new_into GeneralSpec_DeepCopyInto); ("Branding", new_into BrandingSpec_DeepCopyInto);
   ("Playback", new_into PlaybackSpec_DeepCopyInto);
   ("PluginSelector", new_into (ext_DeepCopyInto "metav1.LabelSelector"));
   ("PodAnnotations", map_copy); ("ImagePullSecrets", slice_copy)].
Definition JellyfinSpec_DeepCopy : copier := copy_of JellyfinSpec_DeepCopyInto.

Definition LoadedPlugin_type : gotype := struct [
   ("Name", scalar); ("PluginName", scalar); ("Version", scalar); ("GUID", scalar)].
Definition LoadedPlugin_DeepCopyInto : copier := copy_fields [].
Definition LoadedPlugin_DeepCopy : copier := copy_of LoadedPlugin_DeepCopyInto.

Definition JellyfinStatus_type : gotype := struct [
   ("Phase", scalar); ("ObservedGeneration", scalar); ("Endpoints", InstanceEndpoints_type);
   ("LoadedPlugins", slice LoadedPlugin_type); ("APICredentialsSecret", scalar);
   ("ManagedLibraries", slice scalar); ("Conditions", slice (ext "metav1.Condition"))].
Definition JellyfinStatus_DeepCopyInto : copier := copy_fields [
   ("Endpoints", copy_value); ("LoadedPlugins", slice_copy); ("ManagedLibraries", slice_copy);
   ("Conditions", slice_into (ext_DeepCopyInto "metav1.Condition"))].
Definition JellyfinStatus_DeepCopy : copier := copy_of JellyfinStatus_DeepCopyInto.

Definition Jellyfin_type : gotype := struct [
   ("TypeMeta", plain "metav1.TypeMeta"); ("ObjectMeta", ext "metav1.ObjectMeta");
   ("Spec", JellyfinSpec_type); ("Status", JellyfinStatus_type)].
Definition Jellyfin_DeepCopyInto : copier := copy_fields [
   ("TypeMeta", copy_value); ("ObjectMeta", ext_DeepCopyInto "metav1.ObjectMeta");
   ("Spec", JellyfinSpec_DeepCopyInto); ("Status", JellyfinStatus_DeepCopyInto)].
Definition Jellyfin_DeepCopy : copier := copy_of Jellyfin_DeepCopyInto.
Definition Jellyfin_DeepCopyObject : copier := object_of Jellyfin_DeepCopy.

Definition JellyfinList_type : gotype := struct [
   ("TypeMeta", plain "metav1.TypeMeta"); ("ListMeta", ext "metav1.ListMeta");
   ("Items", slice Jellyfin_type)].
Definition JellyfinList_DeepCopyInto : copier := copy_fields [
   ("TypeMeta", copy_value); ("ListMeta", ext_DeepCopyInto "metav1.ListMeta");
   ("Items", slice_into Jellyfin_DeepCopyInto)].
Definition JellyfinList_DeepCopy : copier := copy_of JellyfinList_DeepCopyInto.
Definition JellyfinList_DeepCopyObject : copier := object_of JellyfinList_DeepCopy.

Definition PluginMeta_type : gotype := struct [
   ("GUID", scalar); ("Name", scalar); ("Version", scalar); ("TargetABI", scalar); ("SubPath", scalar)].
Definition PluginMeta_DeepCopyInto : copier := copy_fields [].
Definition PluginMeta_DeepCopy : copier := copy_of PluginMeta_DeepCopyInto.

Definition PluginInstall_type : gotype := struct [
   ("Image", ptr ImageSource_type); ("Script", scalar); ("Command", slice scalar);
   ("Args", slice scalar); ("Env", slice (ext "v1.EnvVar"));
   ("VolumeMounts", slice (ext "v1.VolumeMount")); ("Resources", ext "v1.ResourceRequirements");
   ("FailurePolicy", scalar); ("TimeoutSeconds", ptr scalar); ("RunOnce", scalar)].
Definition PluginInstall_DeepCopyInto : copier := copy_fields [
   ("Image", new_copy); ("Command", slice_copy); ("Args", slice_copy);
   ("Env", slice_into (ext_DeepCopyInto "v1.EnvVar"));
   ("VolumeMounts", slice_into (ext_DeepCopyInto "v1.VolumeMount"));
   ("Resources", ext_DeepCopyInto "v1.ResourceRequirements"); ("TimeoutSeconds", new_copy)].
Definition PluginInstall_DeepCopy : copier := copy_of PluginInstall_DeepCopyInto.

Definition WorkloadAutoscaling_type : gotype := struct [
   ("MinReplicas", ptr scalar); ("MaxReplicas", scalar); ("TargetCPUUtilizationPercentage", ptr scalar)].
Definition WorkloadAutoscaling_DeepCopyInto : copier := copy_fields [
   ("MinReplicas", new_copy); ("TargetCPUUtilizationPercentage", new_copy)].
Definition WorkloadAutoscaling_DeepCopy : copier := copy_of WorkloadAutoscaling_DeepCopyInto.

Definition PluginWorkload_type : gotype := struct [
   ("Name", scalar); ("Image", ImageSource_type); ("Replicas", ptr scalar); ("Command", slice scalar);
   ("Args", slice scalar); ("Env", slice (ext "v1.EnvVar"));
   ("Ports", slice (plain "v1.ContainerPort")); ("Resources", ext "v1.ResourceRequirements");
   ("VolumeMounts", slice (ext "v1.VolumeMount")); ("Volumes", slice (ext "v1.Volume"));
   ("InstanceMedia", ptr InstanceMediaSelection_type); ("TerminationGracePeriodSeconds", ptr scalar);
   ("NodeSelector", string_map); ("Tolerations", slice (ext "v1.Toleration"));
   ("PriorityClassName", scalar); ("RuntimeClassName", scalar);
   ("PodSecurity", ptr PodSecuritySpec_type); ("ReadinessProbe", ptr (ext "v1.Probe"));
   ("LivenessProbe", ptr (ext "v1.Probe")); ("StartupProbe", ptr (ext "v1.Probe"));
   ("Autoscaling", ptr WorkloadAutoscaling_type)].
Definition PluginWorkload_DeepCopyInto : copier := copy_fields [
   ("Image", copy_value); ("Replicas", new_copy); ("Command", slice_copy); ("Args", slice_copy);
   ("Env", slice_into (ext_DeepCopyInto "v1.EnvVar")); ("Ports", slice_copy);
   ("Resources", ext_DeepCopyInto "v1.ResourceRequirements");
   ("VolumeMounts", slice_into (ext_DeepCopyInto "v1.VolumeMount"));
   ("Volumes", slice_into (ext_DeepCopyInto "v1.Volume"));
   ("InstanceMedia", new_into InstanceMediaSelection_DeepCopyInto);
   ("TerminationGracePeriodSeconds", new_copy); ("NodeSelector", map_copy);
   ("Tolerations", slice_into (ext_DeepCopyInto "v1.Toleration"));
   ("PodSecurity", new_into PodSecuritySpec_DeepCopyInto);
   ("ReadinessProbe", new_into (ext_DeepCopyInto "v1.Probe"));
   ("LivenessProbe", new_into (ext_DeepCopyInto "v1.Probe"));
   ("StartupProbe", new_into (ext_DeepCopyInto "v1.Probe"));
   ("Autoscaling", new_into WorkloadAutoscaling_DeepCopyInto)].
Definition PluginWorkload_DeepCopy : copier := copy_of PluginWorkload_DeepCopyInto.

Definition PluginService_type : gotype := struct [
   ("Name", scalar); ("Selector", scalar); ("Ports", slice (ext "v1.ServicePort")); ("Type", scalar)].
Definition PluginService_DeepCopyInto : copier := copy_fields [
   ("Ports", slice_into (ext_DeepCopyInto "v1.ServicePort"))].
Definition PluginService_DeepCopy : copier := copy_of PluginService_DeepCopyInto.

Definition JellyfinPluginSpec_type : gotype := struct [
   ("JellyfinRef", ptr (plain "v1.LocalObjectReference")); ("PluginImage", ImageSource_type);
   ("Meta", PluginMeta_type); ("Injection", scalar); ("Install", ptr PluginInstall_type);
   ("Workloads", slice PluginWorkload_type); ("Services", slice PluginService_type)].
Definition JellyfinPluginSpec_DeepCopyInto : copier := copy_fields [
   ("JellyfinRef", new_copy); ("PluginImage", copy_value); ("Meta", copy_value);
   ("Install", new_into PluginInstall_DeepCopyInto);
   ("Workloads", slice_into PluginWorkload_DeepCopyInto);
   ("Services", slice_into PluginService_DeepCopyInto)].
Definition JellyfinPluginSpec_DeepCopy : copier := copy_of JellyfinPluginSpec_DeepCopyInto.

Definition JellyfinPluginStatus_type : gotype := struct [
   ("Phase", scalar); ("ObservedGeneration", scalar); ("Injected", scalar); ("Installed", scalar);
   ("ABICompatible", scalar); ("LoadedVersion", scalar); ("WorkloadReadyReplicas", scalar);
   ("Conditions", slice (ext "metav1.Condition"))].
Definition JellyfinPluginStatus_DeepCopyInto : copier := copy_fields [
   ("Conditions", slice_into (ext_DeepCopyInto "metav1.Condition"))].
Definition JellyfinPluginStatus_DeepCopy : copier := copy_of JellyfinPluginStatus_DeepCopyInto.

Definition JellyfinPlugin_type : gotype := struct [
   ("TypeMeta", plain "metav1.TypeMeta"); ("ObjectMeta", ext "metav1.ObjectMeta");
   ("Spec", JellyfinPluginSpec_type); ("Status", JellyfinPluginStatus_type)].
Definition JellyfinPlugin_DeepCopyInto : copier := copy_fields [
   ("TypeMeta", copy_value); ("ObjectMeta", ext_DeepCopyInto "metav1.ObjectMeta");
   ("Spec", JellyfinPluginSpec_DeepCopyInto); ("Status", JellyfinPluginStatus_DeepCopyInto)].
Definition JellyfinPlugin_DeepCopy : copier := copy_of JellyfinPlugin_DeepCopyInto.
Definition JellyfinPlugin_DeepCopyObject : copier := object_of JellyfinPlugin_DeepCopy.

Definition JellyfinPluginList_type : gotype := struct [
   ("TypeMeta", plain "metav1.TypeMeta"); ("ListMeta", ext "metav1.ListMeta");
   ("Items", slice JellyfinPlugin_type)].
Definition JellyfinPluginList_DeepCopyInto : copier := copy_fields [
   ("TypeMeta", copy_value); ("ListMeta", ext_DeepCopyInto "metav1.ListMeta");
   ("Items", slice_into JellyfinPlugin_DeepCopyInto)].
Definition JellyfinPluginList_DeepCopy : copier := copy_of JellyfinPluginList_DeepCopyInto.
Definition JellyfinPluginList_DeepCopyObject : copier := object_of JellyfinPluginList_DeepCopy.

(** A type with a function that copies it behind a pointer. *)
Record entry : Type := mkEntry { entry_type : gotype; entry_copy : copier }.

Definition generated : list entry := [
   mkEntry BrandingSpec_type BrandingSpec_DeepCopy;
   mkEntry GatewayReference_type GatewayReference_DeepCopy;
   mkEntry GatewaySSO_type GatewaySSO_DeepCopy;
   mkEntry GatewaySpec_type GatewaySpec_DeepCopy;
   mkEntry GeneralSpec_type GeneralSpec_DeepCopy;
   mkEntry HardwareAccel_type HardwareAccel_DeepCopy;
   mkEntry ImageSource_type ImageSource_DeepCopy;
   mkEntry IngressSpec_type IngressSpec_DeepCopy;
   mkEntry IngressTLS_type IngressTLS_DeepCopy;
   mkEntry InstanceEndpoints_type InstanceEndpoints_DeepCopy;
   mkEntry InstanceMediaSelection_type InstanceMediaSelection_DeepCopy;
   mkEntry Jellyfin_type Jellyfin_DeepCopy;
   mkEntry JellyfinAPISpec_type JellyfinAPISpec_DeepCopy;
   mkEntry JellyfinList_type JellyfinList_DeepCopy;
   mkEntry JellyfinPlugin_type JellyfinPlugin_DeepCopy;
   mkEntry JellyfinPluginList_type JellyfinPluginList_DeepCopy;
   mkEntry JellyfinPluginSpec_type JellyfinPluginSpec_DeepCopy;
   mkEntry JellyfinPluginStatus_type JellyfinPluginStatus_DeepCopy;
   mkEntry JellyfinSpec_type JellyfinSpec_DeepCopy;
   mkEntry JellyfinStatus_type JellyfinStatus_DeepCopy;
   mkEntry JellyfinStorage_type JellyfinStorage_DeepCopy;
   mkEntry LibrarySpec_type LibrarySpec_DeepCopy;
   mkEntry LoadedPlugin_type LoadedPlugin_DeepCopy;
   mkEntry MediaFolder_type MediaFolder_DeepCopy;
   mkEntry NFSSource_type NFSSource_DeepCopy;
   mkEntry PVCSpec_type PVCSpec_DeepCopy;
   mkEntry PlaybackSpec_type PlaybackSpec_DeepCopy;
   mkEntry PluginInstall_type PluginInstall_DeepCopy;
   mkEntry PluginMeta_type PluginMeta_DeepCopy;
   mkEntry PluginService_type PluginService_DeepCopy;
   mkEntry PluginWorkload_type PluginWorkload_DeepCopy;
   mkEntry PodSecuritySpec_type PodSecuritySpec_DeepCopy;
   mkEntry SegmentDeletionSpec_type SegmentDeletionSpec_DeepCopy;
   mkEntry ServiceSpec_type ServiceSpec_DeepCopy;
   mkEntry ThrottleSpec_type ThrottleSpec_DeepCopy;
   mkEntry TranscodingSpec_type TranscodingSpec_DeepCopy;
   mkEntry WebSpec_type WebSpec_DeepCopy;
   mkEntry WorkloadAutoscaling_type WorkloadAutoscaling_DeepCopy;
   mkEntry Jellyfin_type Jellyfin_DeepCopyObject;
   mkEntry JellyfinList_type JellyfinList_DeepCopyObject;
   mkEntry JellyfinPlugin_type JellyfinPlugin_DeepCopyObject;
   mkEntry JellyfinPluginList_type JellyfinPluginList_DeepCopyObject].

(** ** Every one of them is a copy

    By the instances of [Heap]: a statement copies a field of its type, and what no
    statement copies has no references. *)
Lemma object_copies T f : Copies (ptr T) f → Copies (ptr T) (object_of f).
Proof.
  intros Hf s h v x L Hr. destruct (Hf s h v x L Hr) as (v'&h'&L'&Hrun&Hr'&Hsub&Hd).
  exists v', h', L'. split_and!; [|done..]. unfold object_of. heap_step.
  destruct x as [y|]; cbn in Hr'; [by destruct Hr' as (?&?&?&->&_)|by destruct Hr' as [-> _]].
Qed.

#[export] Instance BrandingSpec_copies : Copies BrandingSpec_type BrandingSpec_DeepCopyInto.
Proof. solve_copies. Qed.
#[export] Instance GatewayReference_copies : Copies GatewayReference_type GatewayReference_DeepCopyInto.
Proof. solve_copies. Qed.
#[export] Instance GatewaySSO_copies : Copies GatewaySSO_type GatewaySSO_DeepCopyInto.
Proof. solve_copies. Qed.
#[export] Instance GatewaySpec_copies : Copies GatewaySpec_type GatewaySpec_DeepCopyInto.
Proof. solve_copies. Qed.
#[export] Instance GeneralSpec_copies : Copies GeneralSpec_type GeneralSpec_DeepCopyInto.
Proof. solve_copies. Qed.
#[export] Instance HardwareAccel_copies : Copies HardwareAccel_type HardwareAccel_DeepCopyInto.
Proof. solve_copies. Qed.
#[export] Instance ImageSource_copies : Copies ImageSource_type ImageSource_DeepCopyInto.
Proof. solve_copies. Qed.
#[export] Instance IngressTLS_copies : Copies IngressTLS_type IngressTLS_DeepCopyInto.
Proof. solve_copies. Qed.
#[export] Instance IngressSpec_copies : Copies IngressSpec_type IngressSpec_DeepCopyInto.
Proof. solve_copies. Qed.
#[export] Instance InstanceEndpoints_copies : Copies InstanceEndpoints_type InstanceEndpoints_DeepCopyInto.
Proof. solve_copies. Qed.
#[export] Instance InstanceMediaSelection_copies : Copies InstanceMediaSelection_type InstanceMediaSelection_DeepCopyInto.
Proof. solve_copies. Qed.
#[export] Instance PVCSpec_copies : Copies PVCSpec_type PVCSpec_DeepCopyInto.
Proof. solve_copies. Qed.
#[export] Instance NFSSource_copies : Copies NFSSource_type NFSSource_DeepCopyInto.
Proof. solve_copies. Qed.
#[export] Instance LibrarySpec_copies : Copies LibrarySpec_type LibrarySpec_DeepCopyInto.
Proof. solve_copies. Qed.
#[export] Instance MediaFolder_copies : Copies MediaFolder_type MediaFolder_DeepCopyInto.
Proof. solve_copies. Qed.
#[export] Instance JellyfinStorage_copies : Copies JellyfinStorage_type JellyfinStorage_DeepCopyInto.
Proof. solve_copies. Qed.
#[export] Instance ServiceSpec_copies : Copies ServiceSpec_type ServiceSpec_DeepCopyInto.
Proof. solve_copies. Qed.
#[export] Instance WebSpec_copies : Copies WebSpec_type WebSpec_DeepCopyInto.
Proof. solve_copies. Qed.
#[export] Instance PodSecuritySpec_copies : Copies PodSecuritySpec_type PodSecuritySpec_DeepCopyInto.
Proof. solve_copies. Qed.
#[export] Instance JellyfinAPISpec_copies : Copies JellyfinAPISpec_type JellyfinAPISpec_DeepCopyInto.
Proof. solve_copies. Qed.
#[export] Instance ThrottleSpec_copies : Copies ThrottleSpec_type ThrottleSpec_DeepCopyInto.
Proof. solve_copies. Qed.
#[export] Instance SegmentDeletionSpec_copies : Copies SegmentDeletionSpec_type SegmentDeletionSpec_DeepCopyInto.
Proof. solve_copies. Qed.
#[export] Instance TranscodingSpec_copies : Copies TranscodingSpec_type TranscodingSpec_DeepCopyInto.
Proof. solve_copies. Qed.
#[export] Instance PlaybackSpec_copies : Copies PlaybackSpec_type PlaybackSpec_DeepCopyInto.
Proof. solve_copies. Qed.
#[export] Instance JellyfinSpec_copies : Copies JellyfinSpec_type JellyfinSpec_DeepCopyInto.
Proof. solve_copies. Qed.
#[export] Instance LoadedPlugin_copies : Copies LoadedPlugin_type LoadedPlugin_DeepCopyInto.
Proof. solve_copies. Qed.
#[export] Instance JellyfinStatus_copies : Copies JellyfinStatus_type JellyfinStatus_DeepCopyInto.
Proof. solve_copies. Qed.
#[export] Instance Jellyfin_copies : Copies Jellyfin_type Jellyfin_DeepCopyInto.
Proof. solve_copies. Qed.
#[export] Instance JellyfinList_copies : Copies JellyfinList_type JellyfinList_DeepCopyInto.
Proof. solve_copies. Qed.
#[export] Instance PluginMeta_copies : Copies PluginMeta_type PluginMeta_DeepCopyInto.
Proof. solve_copies. Qed.
#[export] Instance PluginInstall_copies : Copies PluginInstall_type PluginInstall_DeepCopyInto.
Proof. solve_copies. Qed.
#[export] Instance WorkloadAutoscaling_copies : Copies WorkloadAutoscaling_type WorkloadAutoscaling_DeepCopyInto.
Proof. solve_copies. Qed.
#[export] Instance PluginWorkload_copies : Copies PluginWorkload_type PluginWorkload_DeepCopyInto.
Proof. solve_copies. Qed.
#[export] Instance PluginService_copies : Copies PluginService_type PluginService_DeepCopyInto.
Proof. solve_copies. Qed.
#[export] Instance JellyfinPluginSpec_copies : Copies JellyfinPluginSpec_type JellyfinPluginSpec_DeepCopyInto.
Proof. solve_copies. Qed.
#[export] Instance JellyfinPluginStatus_copies : Copies JellyfinPluginStatus_type JellyfinPluginStatus_DeepCopyInto.
Proof. solve_copies. Qed.
#[export] Instance JellyfinPlugin_copies : Copies JellyfinPlugin_type JellyfinPlugin_DeepCopyInto.
Proof. solve_copies. Qed.
#[export] Instance JellyfinPluginList_copies : Copies JellyfinPluginList_type JellyfinPluginList_DeepCopyInto.
Proof. solve_copies. Qed.

#[local] Typeclasses Opaque
  BrandingSpec_type BrandingSpec_DeepCopyInto GatewayReference_type GatewayReference_DeepCopyInto
  GatewaySSO_type GatewaySSO_DeepCopyInto GatewaySpec_type GatewaySpec_DeepCopyInto
  GeneralSpec_type GeneralSpec_DeepCopyInto HardwareAccel_type HardwareAccel_DeepCopyInto
  ImageSource_type ImageSource_DeepCopyInto IngressSpec_type IngressSpec_DeepCopyInto
  IngressTLS_type IngressTLS_DeepCopyInto InstanceEndpoints_type InstanceEndpoints_DeepCopyInto
  InstanceMediaSelection_type InstanceMediaSelection_DeepCopyInto Jellyfin_type
  Jellyfin_DeepCopyInto JellyfinAPISpec_type JellyfinAPISpec_DeepCopyInto JellyfinList_type
  JellyfinList_DeepCopyInto JellyfinPlugin_type JellyfinPlugin_DeepCopyInto
  JellyfinPluginList_type JellyfinPluginList_DeepCopyInto JellyfinPluginSpec_type
  JellyfinPluginSpec_DeepCopyInto JellyfinPluginStatus_type JellyfinPluginStatus_DeepCopyInto
  JellyfinSpec_type JellyfinSpec_DeepCopyInto JellyfinStatus_type JellyfinStatus_DeepCopyInto
  JellyfinStorage_type JellyfinStorage_DeepCopyInto LibrarySpec_type LibrarySpec_DeepCopyInto
  LoadedPlugin_type LoadedPlugin_DeepCopyInto MediaFolder_type MediaFolder_DeepCopyInto
  NFSSource_type NFSSource_DeepCopyInto PVCSpec_type PVCSpec_DeepCopyInto PlaybackSpec_type
  PlaybackSpec_DeepCopyInto PluginInstall_type PluginInstall_DeepCopyInto PluginMeta_type
  PluginMeta_DeepCopyInto PluginService_type PluginService_DeepCopyInto PluginWorkload_type
  PluginWorkload_DeepCopyInto PodSecuritySpec_type PodSecuritySpec_DeepCopyInto
  SegmentDeletionSpec_type SegmentDeletionSpec_DeepCopyInto ServiceSpec_type
  ServiceSpec_DeepCopyInto ThrottleSpec_type ThrottleSpec_DeepCopyInto TranscodingSpec_type
  TranscodingSpec_DeepCopyInto WebSpec_type WebSpec_DeepCopyInto WorkloadAutoscaling_type
  WorkloadAutoscaling_DeepCopyInto.

Ltac solve_pointer :=
  match goal with |- Copies (ptr ?T) ?c =>
    let body := eval red in c in
    match body with
    | copy_of _ => change (Copies (ptr T) body); apply new_into_copies; exact _
    | object_of ?c' => change (Copies (ptr T) body); apply object_copies; solve_pointer
    end
  end.

Lemma generated_copies e : In e generated → Copies (ptr (entry_type e)) (entry_copy e).
Proof.
  revert e. apply (proj1 (List.Forall_forall _ generated)).
  unfold generated. repeat (apply Forall_cons; split; [cbn [entry_type entry_copy]; solve_pointer|]).
  by apply Forall_nil.
Qed.
End DeepCopy.

(** C18: every generated [DeepCopy] and [DeepCopyObject] returns, for a nil pointer nil
    and for any other a pointer to a value that means the same, field by field, nil and
    empty slices and maps kept apart. The copy reaches only memory that was not there
    before, each part of it once, even if the original shares parts. So nothing written
    through the copy, or over the memory it reaches, changes the original, and nothing
    written elsewhere changes the copy. *)
Theorem deep_copies_separate `{External, MapOrder} e s h v x L :
  In e generated → repr (ptr (entry_type e)) s h v x L →
  ∃ v' h' L', entry_copy e v h = Some (v', h') ∧
    repr (ptr (entry_type e)) true h' v' x L' ∧ L' ## dom h ∧ h ⊆ h' ∧
    (∀ h'', (∀ l, l ∉ L' → h'' !! l = h' !! l) → repr (ptr (entry_type e)) s h'' v x L) ∧
    (∀ h'', (∀ l, l ∈ L' → h'' !! l = h' !! l) → repr (ptr (entry_type e)) true h'' v' x L').
Proof.
  intros He Hr. destruct (generated_copies e He s h v x L Hr) as (v'&h'&L'&Hrun&Hr'&Hsub&Hd).
  exists v', h', L'. split_and!; [done..| |].
  - intros h'' Hsame. eapply repr_frame; [by eapply repr_mono|]. intros l Hl. apply Hsame.
    apply repr_dom in Hr. set_solver.
  - intros h'' Hsame. by eapply repr_frame.
Qed.

(** ** An example

    Two fields that share their variable, and a slice of the end of an array. *)
Module Example_copies.
#[local] Instance package : External.
Proof.
  unshelve refine {| ext _ := struct [("Labels", string_map); ("Raw", slice scalar)];
            ext_DeepCopyInto _ := copy_fields [("Labels", @map_copy reference_order); ("Raw", slice_copy)];
            plain _ := struct [("Name", scalar)] |};
    intros _; first [solve_copies|apply _].
Defined.

Definition before : heap :=
  {[ 1%positive := Cell (Struct [("RunAsNonRoot", Ptr None); ("RunAsUser", Ptr (Some 2%positive));
       ("RunAsGroup", Ptr (Some 2%positive)); ("FsGroup", Ptr None);
       ("SupplementalGroups", Slice (Some (3%positive, 1, 2)))]);
     2%positive := Cell (Scalar (LitInt 1000));
     3%positive := Array [Scalar (LitInt 5); Scalar (LitInt 44); Scalar (LitInt 109)] ]}.

Definition meaning : value (ptr PodSecuritySpec_type) :=
  Some (None, (Some (LitInt 1000), (Some (LitInt 1000), (None, (Some [LitInt 44; LitInt 109], tt))))).

Lemma before_repr : repr (ptr PodSecuritySpec_type) false before (Ptr (Some 1%positive)) meaning {[1%positive; 2%positive; 3%positive]}.
Proof.
  enough (∃ L, repr (ptr PodSecuritySpec_type) false before (Ptr (Some 1%positive)) meaning L ∧ L = {[1%positive; 2%positive; 3%positive]})
    as (L&Hr&->) by done.
  eexists. split.
  - exists 1%positive. repeat first [done|eexists|split].
  - set_solver.
Qed.

(** The copy has a variable for each, and an array of the two elements. *)
Example copied :
  (λ r, r.2 !! 4%positive) <$> PodSecuritySpec_DeepCopy (Ptr (Some 1%positive)) before =
  Some (Some (Cell (Struct [("RunAsNonRoot", Ptr None); ("RunAsUser", Ptr (Some 5%positive));
       ("RunAsGroup", Ptr (Some 6%positive)); ("FsGroup", Ptr None);
       ("SupplementalGroups", Slice (Some (7%positive, 0, 2)))]))).
Proof. reflexivity. Qed.

Lemma deep_copies_separate_witness :
  ∃ v' h' L', PodSecuritySpec_DeepCopy (Ptr (Some 1%positive)) before = Some (v', h') ∧
    repr (ptr PodSecuritySpec_type) true h' v' meaning L' ∧ L' ## dom before.
Proof.
  destruct (deep_copies_separate (mkEntry PodSecuritySpec_type PodSecuritySpec_DeepCopy) false before
    (Ptr (Some 1%positive)) meaning {[1%positive; 2%positive; 3%positive]}) as (v'&h'&L'&Hrun&Hr&Hd&_).
  - do 31 right. by left.
  - exact before_repr.
  - by exists v', h', L'.
Defined.
End Example_copies.
