(* ===== verification/Naming.v ===== *)
(** * Names, labels and claim names (internal/plugins/naming.go)

    Every Kubernetes object name the operator derives goes through
    [SanitizeDNS1123], [truncateName] and [prefixed]. The theorems show that the
    results are DNS-1123 labels of at most 63 characters whatever the input, that
    sanitising is idempotent, and that truncated names can only coincide when the
    truncated hashes of their originals do. *)
From S2P Require Import Prelude GoStrings Sha256 K8s ApiTypes.

Definition AppName : string := "jellyfin".
Definition WebAppName : string := "jellyfin-web".
Definition ManagedByValue : string := "jellyops".
Definition NameLabel : string := "app.kubernetes.io/name".
Definition InstanceLabel : string := "app.kubernetes.io/instance".
Definition ManagedByLabel : string := "app.kubernetes.io/managed-by".
Definition ComponentLabel : string := "app.kubernetes.io/component".
Definition PluginLabel : string := "jellyfin.jellyops.io/plugin".
Definition JellyfinContainerName : string := "jellyfin".
Definition WebComponentName : string := "web".
Definition PortNameHTTP : string := "http".
Definition ConfigVolumeName : string := "config".
Definition CacheVolumeName : string := "cache".
Definition TrickplayVolumeName : string := "trickplay".
Definition ConfigMountPath : string := "/config".
Definition CacheMountPath : string := "/cache".
Definition TrickplayMountPath : string := "/config/data/trickplay".
Definition PluginsDirPath : string := "/config/plugins".
Definition InstalledMarkerDir : string := "/config/.jellyops/installed".
Definition FirstRunMarkerDir : string := "/config/.jellyops/firstrun".
Definition StagingSrcBase : string := "/plugins-src".
Definition BootstrapHookFile : string := "bootstrap.sh".
Definition FirstRunHookFile : string := "firstrun.sh".
Definition DefaultJellyfinPort : Z := 8096.
Definition DefaultJellyfinImage : string := "jellyfin/jellyfin:latest".
Definition WebContentVolumeName : string := "jellyfin-web-content".
Definition WebContentMountPath : string := "/jellyfin-web".
Definition DefaultJellyfinCommand : string := "/jellyfin/jellyfin".
Definition maxNameLen : nat := 63.

(** ** The three regular expressions *)

(** Replace each maximal run of characters in [P] by one dash. *)
Fixpoint replace_runs (P : ascii → bool) (in_run : bool) (s : string) : string :=
  match s with
  | "" => ""
  | String c s =>
      if P c then
        if in_run then replace_runs P true s else String "-" (replace_runs P true s)
      else String c (replace_runs P false s)
  end.

Definition is_dash (c : ascii) : bool := Ascii.eqb c "-".

(** [[^a-z0-9]+] replaced by a dash; [-{2,}] replaced by a dash. *)
Definition nonAlphaNum (s : string) : string := replace_runs (λ c, negb (is_alnum c)) false s.
Definition multiDashesRE (s : string) : string := replace_runs is_dash false s.

Fixpoint trim_left_dashes (s : string) : string :=
  match s with
  | "" => ""
  | String c r => if is_dash c then trim_left_dashes r else s
  end.

(** [(^-+)|(-+$)] removed. *)
Definition trimDashesRE (s : string) : string := TrimRightByte "-" (trim_left_dashes s).

Definition shortHash (s : string) : string :=
  take_s 8 (Sha256.EncodeToString (Sha256.Sum256 s)).

Definition truncateName (s : string) : string :=
  if decide (String.length s ≤ maxNameLen) then s
  else
    let h := shortHash s in
    let keep := maxNameLen - String.length h - 1 in
    trimDashesRE (take_s keep s) +:+ "-" +:+ h.

Definition SanitizeDNS1123 (s : string) : string :=
  let lower := trimDashesRE (multiDashesRE (nonAlphaNum (ToLower s))) in
  if decide (lower = "") then "x" +:+ shortHash s else truncateName lower.

Definition prefixed (prefix name : string) : string :=
  truncateName (prefix +:+ "-" +:+ SanitizeDNS1123 name).

(** ** Labels *)
Definition InstanceLabels (jf : Jellyfin) : gmap string string :=
  {[ NameLabel := AppName; InstanceLabel := jf_Name jf; ManagedByLabel := ManagedByValue ]}.

Definition InstanceSelectorLabels (jf : Jellyfin) : gmap string string :=
  {[ NameLabel := AppName; InstanceLabel := jf_Name jf ]}.

(** ** Names of volumes, containers and claims *)
Definition imageVolumeName (p : JellyfinPlugin) : string := prefixed "plugin" (p_Name p).
Definition stagingContainerName (p : JellyfinPlugin) : string := prefixed "stage" (p_Name p).
Definition installContainerName (p : JellyfinPlugin) : string := prefixed "install" (p_Name p).
Definition hookContainerName (p : JellyfinPlugin) : string := prefixed "hook" (p_Name p).
Definition mediaVolumeName (mf : MediaFolder) : string := prefixed "media" (mf_Name mf).

Definition ConfigClaimName (jf : Jellyfin) : string :=
  let c := pvc_ExistingClaim (st_Config (js_Storage (jf_Spec jf))) in
  if decide (c ≠ "") then c else truncateName (jf_Name jf +:+ "-config").

Definition CacheClaimName (jf : Jellyfin) : string :=
  match st_Cache (js_Storage (jf_Spec jf)) with
  | Some c =>
      if decide (pvc_ExistingClaim c ≠ "") then pvc_ExistingClaim c
      else truncateName (jf_Name jf +:+ "-cache")
  | None => truncateName (jf_Name jf +:+ "-cache")
  end.

Definition TrickplayClaimName (jf : Jellyfin) : string :=
  match st_Trickplay (js_Storage (jf_Spec jf)) with
  | Some c =>
      if decide (pvc_ExistingClaim c ≠ "") then pvc_ExistingClaim c
      else truncateName (jf_Name jf +:+ "-trickplay")
  | None => truncateName (jf_Name jf +:+ "-trickplay")
  end.

Definition MediaClaimName (jf : Jellyfin) (mf : MediaFolder) : string :=
  if decide (mf_ExistingClaim mf ≠ "") then mf_ExistingClaim mf
  else
    let derived := prefixed (jf_Name jf +:+ "-media") (mf_Name mf) in
    match mf_PVC mf with
    | Some pvc => if decide (pvc_ExistingClaim pvc ≠ "") then pvc_ExistingClaim pvc else derived
    | None => derived
    end.

(** ** What a valid name is (RFC 1123, as the API server checks it) *)
Definition label_char (c : ascii) : bool := is_alnum c || is_dash c.

Definition alnum_end (o : option ascii) : bool :=
  match o with Some c => is_alnum c | None => false end.

Definition dns1123_label (s : string) : bool :=
  all_chars label_char s && alnum_end (first_char s) && alnum_end (last_char s)
  && (String.length s <=? 63).

(** No two dashes in a row: what sanitising produces on top of a valid label. *)
Fixpoint no_double_dash (s : string) : bool :=
  match s with
  | String c r =>
      match r with
      | String d _ => negb (is_dash c && is_dash d) && no_double_dash r
      | "" => true
      end
  | "" => true
  end.

Definition sanitized (s : string) : bool := dns1123_label s && no_double_dash s.

(** What the start of a derived name must be: a literal such as [plugin], or the
    name of an API object that is itself a DNS label. *)
Definition name_prefix (s : string) : bool :=
  all_chars label_char s && alnum_end (first_char s).

Example sanitize_ex1 : SanitizeDNS1123 "My Plugin (v2)!" = "my-plugin-v2".
Proof. vm_compute. reflexivity. Qed.
Example sanitize_ex2 : SanitizeDNS1123 "***" = "x596f4162".
Proof. vm_compute. reflexivity. Qed.
Example sanitize_ex3 :
  SanitizeDNS1123 "K-Pop — Ästhetik" = "k-pop-sthetik".
Proof. vm_compute. reflexivity. Qed.

(** ** Replacing runs and trimming *)
Section runs.
Implicit Types (s t : string) (P : ascii → bool).

Lemma is_dash_true c : is_dash c = true ↔ c = "-"%char.
Proof. apply Ascii.eqb_eq. Qed.

Lemma alnum_not_dash c : is_alnum c = true → is_dash c = false.
Proof. intros H. destruct (is_dash c) eqn:E; [|done]. apply is_dash_true in E as ->. done. Qed.

Lemma label_char_alnum_or_dash c : label_char c = true → is_dash c = false → is_alnum c = true.
Proof. unfold label_char. intros [?|?]%orb_true_iff ?; congruence. Qed.

Lemma all_chars_replace_runs P Q b s :
  Q "-"%char = true → all_chars (λ c, P c || Q c) s = true →
  all_chars Q (replace_runs P b s) = true.
Proof.
  intros HQ. revert b. induction s as [|c s IH]; intros b; [done|]. cbn.
  intros [Hc Hs]%andb_true_iff. destruct (P c); [destruct b|]; cbn in *.
  - by apply IH.
  - rewrite HQ. by apply IH.
  - rewrite Hc. by apply IH.
Qed.

Lemma replace_runs_no_double_dash P b s :
  (∀ c, is_dash c = true → P c = true) →
  no_double_dash (replace_runs P b s) = true
  ∧ (b = true → ∀ c t, replace_runs P b s = String c t → is_dash c = false).
Proof.
  intros HP. revert b. induction s as [|c s IH]; intros b; [done|]. cbn [replace_runs].
  destruct (P c) eqn:Hc; [destruct b|].
  - apply IH.
  - destruct (IH true) as [H1 H2]. split; [|done]. cbn.
    destruct (replace_runs P true s) as [|d t] eqn:E; [done|].
    by rewrite (H2 eq_refl d t), H1.
  - destruct (IH false) as [H1 _].
    assert (is_dash c = false) as Hd.
    { destruct (is_dash c) eqn:E; [|done]. apply HP in E. congruence. }
    split; [|by intros _ ?? [= <- _]]. cbn.
    destruct (replace_runs P false s); [done|]. by rewrite Hd, H1.
Qed.

(** A string without runs to replace is left alone. *)
Lemma replace_runs_id P s :
  (∀ c, P c = true → label_char c = true → c = "-"%char) →
  all_chars label_char s = true → no_double_dash s = true →
  replace_runs P false s = s.
Proof.
  intros HP. induction s as [|c s IH]; [done|]. cbn [all_chars].
  intros [Hc Hs]%andb_true_iff Hdd.
  assert (replace_runs P false s = s) as IH'.
  { apply IH; [done|]. cbn in Hdd. destruct s; [done|]. by apply andb_true_iff in Hdd as [_ ?]. }
  cbn [replace_runs]. destruct (P c) eqn:E; [|by rewrite IH'].
  rewrite (HP c E Hc) in *. f_equal. destruct s as [|d s]; [done|].
  cbn in Hdd. cbn [replace_runs] in IH' |- *. destruct (P d) eqn:EP; [|done].
  cbn in Hs. apply andb_true_iff in Hs as [Hd _]. by rewrite (HP d EP Hd) in Hdd.
Qed.

Lemma all_chars_trim_left P s : all_chars P s = true → all_chars P (trim_left_dashes s) = true.
Proof.
  induction s as [|c s IH]; [done|]. cbn. intros [Hc Hs]%andb_true_iff.
  destruct (is_dash c); [by apply IH|]. cbn. by rewrite Hc.
Qed.

Lemma all_chars_trim_right P c s : all_chars P s = true → all_chars P (TrimRightByte c s) = true.
Proof.
  induction s as [|x s IH]; [done|]. cbn. intros [Hx Hs]%andb_true_iff.
  specialize (IH Hs). destruct (TrimRightByte c s).
  - destruct (Ascii.eqb x c); cbn; [done|]. by rewrite Hx.
  - cbn in *. by rewrite Hx.
Qed.

Lemma length_trim_left s : String.length (trim_left_dashes s) ≤ String.length s.
Proof. induction s as [|c s IH]; cbn; [done|]. destruct (is_dash c); cbn; lia. Qed.

Lemma length_trim_right c s : String.length (TrimRightByte c s) ≤ String.length s.
Proof.
  induction s as [|x s IH]; cbn; [done|].
  destruct (TrimRightByte c s); [destruct (Ascii.eqb x c)|]; cbn in *; lia.
Qed.

Lemma length_trim s : String.length (trimDashesRE s) ≤ String.length s.
Proof. unfold trimDashesRE. etrans; [apply length_trim_right|apply length_trim_left]. Qed.

Lemma all_chars_trim P s : all_chars P s = true → all_chars P (trimDashesRE s) = true.
Proof. intros. by apply all_chars_trim_right, all_chars_trim_left. Qed.

Lemma trim_left_first s c t : trim_left_dashes s = String c t → is_dash c = false.
Proof. induction s as [|x s IH]; cbn; [done|]. destruct (is_dash x) eqn:E; [done|]. by intros [= <- _]. Qed.

Lemma trim_right_first c s x t :
  TrimRightByte c s = String x t → first_char s = Some x.
Proof.
  destruct s as [|y s]; [done|]. cbn. destruct (TrimRightByte c s).
  - destruct (Ascii.eqb y c); [done|]. by intros [= <- _].
  - by intros [= <- _].
Qed.

Lemma trim_right_last c s x : last_char (TrimRightByte c s) = Some x → Ascii.eqb x c = false.
Proof.
  induction s as [|y s IH]; [done|]. cbn [TrimRightByte].
  destruct (TrimRightByte c s) as [|z t] eqn:E.
  - destruct (Ascii.eqb y c) eqn:Ey; [done|]. by intros [= <-].
  - exact IH.
Qed.

Lemma trim_first s x t : trimDashesRE s = String x t → is_dash x = false.
Proof.
  unfold trimDashesRE. intros H%trim_right_first.
  destruct (trim_left_dashes s) as [|y u] eqn:E; [done|]. injection H as ->.
  by apply trim_left_first in E.
Qed.

Lemma trim_last s x : last_char (trimDashesRE s) = Some x → is_dash x = false.
Proof. apply trim_right_last. Qed.

(** Trimming keeps a first character that is not a dash. *)
Lemma trim_right_keep c x s :
  Ascii.eqb x c = false → ∃ t, TrimRightByte c (String x s) = String x t.
Proof. intros H. cbn. destruct (TrimRightByte c s); [rewrite H|]; eauto. Qed.

Lemma trim_keep x s : is_dash x = false → ∃ t, trimDashesRE (String x s) = String x t.
Proof. intros H. unfold trimDashesRE. cbn [trim_left_dashes]. rewrite H. by apply trim_right_keep. Qed.

Lemma trim_right_id c s :
  (∀ x, last_char s = Some x → Ascii.eqb x c = false) → TrimRightByte c s = s.
Proof.
  induction s as [|y s IH]; [done|]. intros Hl. cbn [TrimRightByte].
  destruct s as [|z s]; [cbn; by rewrite Hl|].
  rewrite IH; [done|]. intros x Hx. apply Hl. done.
Qed.

Lemma trim_id s :
  (∀ x, first_char s = Some x → is_dash x = false) →
  (∀ x, last_char s = Some x → is_dash x = false) → trimDashesRE s = s.
Proof.
  intros Hf Hl. unfold trimDashesRE.
  assert (trim_left_dashes s = s) as ->; [|by apply trim_right_id].
  destruct s as [|x s]; [done|]. cbn. by rewrite Hf.
Qed.
End runs.

(** ** Double dashes *)
Section double_dash.
Implicit Types s t : string.

Lemma no_double_dash_tail c s : no_double_dash (String c s) = true → no_double_dash s = true.
Proof. cbn. destruct s; [done|]. by intros [_ ?]%andb_true_iff. Qed.

Lemma no_double_dash_take n s : no_double_dash s = true → no_double_dash (take_s n s) = true.
Proof.
  revert n. induction s as [|c s IH]; intros [|n]; try done. intros H. cbn [take_s].
  specialize (IH n (no_double_dash_tail _ _ H)).
  destruct s as [|d s]; [by destruct n|]. destruct n as [|n]; [done|].
  cbn in H, IH |- *. apply andb_true_iff in H as [-> _]. exact IH.
Qed.

Lemma no_double_dash_trim_left s :
  no_double_dash s = true → no_double_dash (trim_left_dashes s) = true.
Proof.
  induction s as [|c s IH]; [done|]. cbn [trim_left_dashes]. intros H.
  destruct (is_dash c); [|done]. by eapply IH, no_double_dash_tail.
Qed.

Lemma trim_right_prefix c s : ∃ n, TrimRightByte c s = take_s n s.
Proof.
  induction s as [|x s [n IH]]; [by exists 0|]. cbn [TrimRightByte].
  rewrite IH. destruct (take_s n s) as [|y t] eqn:E.
  - destruct (Ascii.eqb x c); [by exists 0|]. exists 1. cbn. by destruct s.
  - exists (S n). cbn. by rewrite E.
Qed.

Lemma no_double_dash_trim s : no_double_dash s = true → no_double_dash (trimDashesRE s) = true.
Proof.
  intros H%no_double_dash_trim_left. unfold trimDashesRE.
  destruct (trim_right_prefix "-" (trim_left_dashes s)) as [n ->].
  by apply no_double_dash_take.
Qed.

Lemma no_double_dash_app s t :
  no_double_dash s = true → no_double_dash t = true →
  (∀ x y, last_char s = Some x → first_char t = Some y → is_dash x && is_dash y = false) →
  no_double_dash (s +:+ t) = true.
Proof.
  intros Hs Ht. induction s as [|c s IH]; [done|]. intros Hxy. cbn [String.append].
  destruct s as [|d s].
  - destruct t as [|y t]; [done|]. cbn in Hxy |- *.
    by rewrite (Hxy c y).
  - cbn in Hs |- *. apply andb_true_iff in Hs as [-> Hs].
    apply IH; [done|]. intros x y Hx Hy. by apply Hxy.
Qed.
End double_dash.

(** ** Short hashes *)
Lemma length_shortHash s : String.length (shortHash s) = 8.
Proof.
  unfold shortHash. rewrite length_take_s, Sha256.length_EncodeToString, Sha256.length_Sum256. done.
Qed.

Lemma hex_is_alnum : ∀ c, negb (Sha256.is_hex c) || is_alnum c = true.
Proof. by_bytes. Qed.

Lemma shortHash_alnum s : all_chars is_alnum (shortHash s) = true.
Proof.
  apply all_chars_impl with Sha256.is_hex.
  - intros c Hc. pose proof (hex_is_alnum c) as H. by rewrite Hc in H.
  - unfold shortHash. apply all_chars_take, Sha256.EncodeToString_hex, Sha256.Sum256_bytes.
Qed.

Lemma alnum_label c : is_alnum c = true → label_char c = true.
Proof. unfold label_char. by intros ->. Qed.

Lemma alnum_no_double_dash s : all_chars is_alnum s = true → no_double_dash s = true.
Proof.
  induction s as [|c s IH]; [done|]. cbn [all_chars]. intros [Hc Hs]%andb_true_iff.
  cbn. destruct s; [done|]. by rewrite (alnum_not_dash c Hc), IH.
Qed.

Lemma shortHash_cons s : ∃ c t, shortHash s = String c t ∧ is_alnum c = true.
Proof.
  pose proof (length_shortHash s) as Hl. pose proof (shortHash_alnum s) as Ha.
  destruct (shortHash s) as [|c t]; [done|]. exists c, t. split; [done|].
  cbn in Ha. by apply andb_true_iff in Ha as [? _].
Qed.

Lemma shortHash_last s : alnum_end (last_char (shortHash s)) = true.
Proof.
  destruct (last_char_nonempty (shortHash s)) as [c Hc].
  - intros E. pose proof (length_shortHash s) as Hl. by rewrite E in Hl.
  - rewrite Hc. by eapply all_chars_last; [apply shortHash_alnum|].
Qed.

(** ** Truncation *)
Section truncate.
Implicit Types s t : string.

Lemma truncateName_short s : String.length s ≤ 63 → truncateName s = s.
Proof. intros H. unfold truncateName. by rewrite decide_True. Qed.

Lemma truncateName_long s :
  63 < String.length s →
  truncateName s = trimDashesRE (take_s 54 s) +:+ "-" +:+ shortHash s.
Proof.
  intros H. unfold truncateName. rewrite decide_False by (unfold maxNameLen; lia).
  by rewrite length_shortHash.
Qed.

Lemma truncateName_first s x :
  first_char s = Some x → is_dash x = false → first_char (truncateName s) = Some x.
Proof.
  intros Hx Hd. destruct (decide (String.length s ≤ 63)).
  - by rewrite truncateName_short.
  - rewrite truncateName_long by lia. destruct s as [|y s]; [done|]. injection Hx as ->.
    change (take_s 54 (String x s)) with (String x (take_s 53 s)).
    by destruct (trim_keep x (take_s 53 s) Hd) as [t ->].
Qed.

Lemma truncateName_last s :
  alnum_end (last_char s) = true → alnum_end (last_char (truncateName s)) = true.
Proof.
  intros Hl. destruct (decide (String.length s ≤ 63)).
  - by rewrite truncateName_short.
  - rewrite truncateName_long by lia.
    destruct (shortHash_cons s) as (c & t & E & _).
    rewrite !last_char_app; [apply shortHash_last|by rewrite E|by rewrite E].
Qed.

Lemma truncateName_chars s :
  all_chars label_char s = true → all_chars label_char (truncateName s) = true.
Proof.
  intros Hs. destruct (decide (String.length s ≤ 63)).
  - by rewrite truncateName_short.
  - rewrite truncateName_long by lia. rewrite !all_chars_app.
    rewrite all_chars_trim by (by apply all_chars_take). cbn [all_chars].
    apply all_chars_impl with is_alnum; [apply alnum_label|apply shortHash_alnum].
Qed.

Lemma truncateName_no_double_dash s :
  no_double_dash s = true → no_double_dash (truncateName s) = true.
Proof.
  intros Hs. destruct (decide (String.length s ≤ 63)).
  - by rewrite truncateName_short.
  - rewrite truncateName_long by lia.
    destruct (shortHash_cons s) as (c & t & E & Hc).
    apply no_double_dash_app.
    + by apply no_double_dash_trim, no_double_dash_take.
    + apply no_double_dash_app; [done|by apply alnum_no_double_dash, shortHash_alnum|].
      intros x y [= <-]. rewrite E. intros [= <-]. by rewrite (alnum_not_dash c Hc).
    + intros x y Hx [= <-]. by rewrite (trim_last _ _ Hx).
Qed.

(** Two long names that truncate to the same name have the same hash. *)
Lemma truncateName_long_hash s t :
  63 < String.length s → 63 < String.length t → truncateName s = truncateName t →
  shortHash s = shortHash t.
Proof.
  intros Hs Ht. rewrite !truncateName_long by done. intros H.
  pose proof (f_equal String.length H) as Hl.
  rewrite !length_app_s, !length_shortHash in Hl.
  apply app_s_inj_len in H as [_ H]; [|lia]. by apply app_s_inj_l in H.
Qed.

Lemma truncateName_label s :
  all_chars label_char s = true → alnum_end (first_char s) = true →
  alnum_end (last_char s) = true → String.length (truncateName s) ≤ 63 →
  dns1123_label (truncateName s) = true.
Proof.
  intros Hs Hf Hl Hlen. unfold dns1123_label.
  rewrite truncateName_chars, truncateName_last by done.
  rewrite (proj2 (Nat.leb_le _ _) Hlen), !andb_true_r. cbn.
  destruct (first_char s) as [x|] eqn:E; [|done].
  by rewrite (truncateName_first s x) by (done || by apply alnum_not_dash).
Qed.
End truncate.

Lemma truncateName_bounded s : String.length (truncateName s) ≤ 63.
Proof.
  destruct (decide (String.length s ≤ 63)).
  - by rewrite truncateName_short.
  - rewrite truncateName_long by lia. rewrite !length_app_s, length_shortHash.
    pose proof (length_trim (take_s 54 s)) as Hl. rewrite length_take_s in Hl.
    change (String.length "-") with 1. lia.
Qed.

(** ** Sanitising *)
Section sanitize.
Implicit Types s : string.

(** The string the three regular expressions leave. *)
Definition scrub (s : string) : string := trimDashesRE (multiDashesRE (nonAlphaNum (ToLower s))).

Lemma scrub_chars s : all_chars label_char (scrub s) = true.
Proof.
  unfold scrub. apply all_chars_trim, all_chars_replace_runs; [done|].
  apply all_chars_impl with label_char; [intros c ->; by rewrite orb_true_r|].
  apply all_chars_replace_runs; [done|].
  induction (ToLower s) as [|c t IH]; [done|]. cbn. rewrite IH, andb_true_r.
  destruct (is_alnum c) eqn:E; [|done]. cbn. by rewrite alnum_label.
Qed.

Lemma scrub_no_double_dash s : no_double_dash (scrub s) = true.
Proof. by apply no_double_dash_trim, replace_runs_no_double_dash. Qed.

Lemma scrub_ends s :
  scrub s ≠ "" → alnum_end (first_char (scrub s)) = true ∧ alnum_end (last_char (scrub s)) = true.
Proof.
  intros Hne. pose proof (scrub_chars s) as Hc.
  destruct (last_char_nonempty _ Hne) as [y Hy]. rewrite Hy.
  destruct (scrub s) as [|x t] eqn:E; [done|]. split.
  - cbn in *. apply andb_true_iff in Hc as [Hx _].
    apply label_char_alnum_or_dash; [done|]. by eapply trim_first.
  - pose proof (all_chars_last _ _ _ Hc Hy). cbn [alnum_end].
    apply label_char_alnum_or_dash; [done|]. rewrite <-E in Hy. by eapply trim_last.
Qed.

Lemma sanitize_sanitized s : sanitized (SanitizeDNS1123 s) = true.
Proof.
  unfold SanitizeDNS1123. fold (scrub s). case_decide as Hs.
  - destruct (shortHash_cons s) as (c & t & E & Hc). pose proof (shortHash_last s) as Hl.
    pose proof (shortHash_alnum s) as Ha. pose proof (length_shortHash s) as Hlen.
    unfold sanitized, dns1123_label.
    rewrite length_app_s, Hlen, last_char_app by (by rewrite E).
    rewrite Hl, all_chars_app.
    rewrite (all_chars_impl is_alnum label_char (shortHash s) alnum_label Ha).
    rewrite alnum_no_double_dash by (by rewrite all_chars_app, Ha). done.
  - destruct (scrub_ends s Hs). unfold sanitized. apply andb_true_iff; split.
    + apply truncateName_label; [apply scrub_chars|done|done|apply truncateName_bounded].
    + apply truncateName_no_double_dash, scrub_no_double_dash.
Qed.

Lemma label_char_lower : ∀ c, negb (label_char c) || (Ascii.eqb (lower_char c) c
  && negb (Ascii.eqb c "196") && negb (Ascii.eqb c "226")) = true.
Proof. by_bytes. Qed.

Lemma ToLower_label s : all_chars label_char s = true → ToLower s = s.
Proof.
  induction s as [|c s IH]; [done|]. cbn [all_chars]. intros [Hc Hs]%andb_true_iff.
  pose proof (label_char_lower c) as H. rewrite Hc in H. cbn in H.
  rewrite !andb_true_iff, !negb_true_iff, Ascii.eqb_eq in H. destruct H as [[Hl H1] H2].
  cbn [ToLower]. by rewrite H1, H2, Hl, IH.
Qed.

Lemma sanitized_spec s :
  sanitized s = true ↔
    all_chars label_char s = true ∧ alnum_end (first_char s) = true ∧
    alnum_end (last_char s) = true ∧ String.length s ≤ 63 ∧ no_double_dash s = true.
Proof. unfold sanitized, dns1123_label. rewrite !andb_true_iff, Nat.leb_le. tauto. Qed.

Lemma sanitize_fixed s : sanitized s = true → SanitizeDNS1123 s = s.
Proof.
  intros (Hc & Hf & Hl & Hlen & Hd)%sanitized_spec.
  assert (scrub s = s) as Hs.
  { unfold scrub, nonAlphaNum, multiDashesRE. rewrite ToLower_label by done.
    rewrite (replace_runs_id (λ c, negb (is_alnum c))); [|..|done|done].
    2:{ intros c H1%negb_true_iff [H2|H2]%orb_true_iff; [congruence|by apply is_dash_true]. }
    rewrite (replace_runs_id is_dash); [|by intros c ?%is_dash_true|done|done].
    apply trim_id; intros x Hx; [rewrite Hx in Hf|rewrite Hx in Hl]; by apply alnum_not_dash. }
  unfold SanitizeDNS1123. fold (scrub s). rewrite Hs.
  rewrite decide_False by (by intros ->). by apply truncateName_short.
Qed.
End sanitize.

Section prefixed.
Implicit Types s prefix name : string.

Lemma prefixed_chars prefix name :
  all_chars label_char prefix = true →
  all_chars label_char (prefix +:+ "-" +:+ SanitizeDNS1123 name) = true.
Proof.
  intros Hp. rewrite !all_chars_app, Hp.
  pose proof (sanitize_sanitized name) as (Hc & _)%sanitized_spec. by rewrite Hc.
Qed.

Lemma prefixed_last prefix name :
  alnum_end (last_char (prefix +:+ "-" +:+ SanitizeDNS1123 name)) = true.
Proof.
  pose proof (sanitize_sanitized name) as (_ & Hf & Hl & _)%sanitized_spec.
  destruct (SanitizeDNS1123 name) as [|c t] eqn:E; [done|].
  by rewrite !last_char_app.
Qed.

Lemma prefixed_first x prefix name :
  is_alnum x = true → first_char (prefixed (String x prefix) name) = Some x.
Proof. intros Hx. unfold prefixed. apply truncateName_first; [done|by apply alnum_not_dash]. Qed.

Lemma prefixed_label prefix name :
  name_prefix prefix = true → dns1123_label (prefixed prefix name) = true.
Proof.
  intros [Hc Hf]%andb_true_iff. unfold prefixed. apply truncateName_label.
  - by apply prefixed_chars.
  - destruct prefix; [done|exact Hf].
  - apply prefixed_last.
  - apply truncateName_bounded.
Qed.
End prefixed.

#[export] Hint Resolve truncateName_bounded sanitize_sanitized prefixed_label : jellyops.

(** ** The component's contract *)

(** [SanitizeDNS1123] maps every byte string to a DNS-1123 label of at most
    63 characters without two dashes in a row, leaves exactly those labels
    unchanged, and is therefore idempotent. *)
Theorem SanitizeDNS1123_spec s :
  dns1123_label (SanitizeDNS1123 s) = true
  ∧ (SanitizeDNS1123 s = s ↔ dns1123_label s = true ∧ no_double_dash s = true)
  ∧ SanitizeDNS1123 (SanitizeDNS1123 s) = SanitizeDNS1123 s.
Proof.
  pose proof (sanitize_sanitized s) as Hs. split_and!.
  - by apply andb_true_iff in Hs as [? _].
  - rewrite <-andb_true_iff. fold (sanitized s). split; [|apply sanitize_fixed].
    intros <-. apply sanitize_sanitized.
  - by apply sanitize_fixed.
Qed.



(** C40: the names of the volumes and containers derived from a plugin, and of
    the volume of a media folder, are DNS-1123 labels of at most 63 characters
    whatever the plugin or the folder is called. *)
Theorem derived_names_valid (p : JellyfinPlugin) (mf : MediaFolder) :
  Forall (λ n, dns1123_label n = true)
    [imageVolumeName p; stagingContainerName p; installContainerName p;
     hookContainerName p; mediaVolumeName mf].
Proof. repeat constructor; by apply prefixed_label. Qed.
