(* ===== verification/Shell.v ===== *)
(** * Shell quoting (internal/plugins/shell.go)

    [shellQuote] and [shellJoin] against the token rules of POSIX (XCU 2.2
    "Quoting" and 2.3 "Token Recognition"): what the shell reads back is exactly
    the list of tokens that was joined. *)
From S2P Require Import Prelude GoStrings K8s.

Definition shellQuote (s : string) : string :=
  "'" +:+ ReplaceByte "'" "'\''" s +:+ "'".

Definition shellJoin (tokens : list string) : string :=
  Join (shellQuote <$> tokens) " ".

Definition resourceQuantityOne : Quantity := 1%Z.

(** ** The reader

    The word list of a simple command: blanks separate words, a single quote
    starts a literal section that only the next single quote ends, a backslash
    outside quotes takes the next byte (other than a newline) literally. A character with any other
    meaning to the shell (expansions, double quotes, operators, patterns) makes
    the reader give up, so that a successful reading is never an accident. *)
Definition is_blank (c : ascii) : bool := Ascii.eqb c " " || Ascii.eqb c "009".

Definition sh_plain (c : ascii) : bool :=
  is_alnum c || is_upper c || existsb (Ascii.eqb c) ["-"; "_"; "."; "/"; ":"; ","; "+"; "@"; "%"]%char.

Definition push (w : option string) (c : ascii) : option string :=
  Some (default "" w +:+ String c "").

Fixpoint sh_words (quoted : bool) (cur : option string) (s : string) : option (list string) :=
  match s with
  | "" => if quoted then None else Some (option_list cur)
  | String c r =>
      if quoted then
        if Ascii.eqb c "'" then sh_words false cur r else sh_words true (push cur c) r
      else if Ascii.eqb c "'" then sh_words true (Some (default "" cur)) r
      else if Ascii.eqb c "\" then
        match r with
        | "" => None
        | String d r => if Ascii.eqb d "010" then None else sh_words false (push cur d) r
        end
      else if is_blank c then (option_list cur ++.) <$> sh_words false None r
      else if sh_plain c then sh_words false (push cur c) r
      else None
  end.

(** ** Reading back a quoted token *)
Section quote.
Implicit Types (s r w : string).

Lemma app_s_snoc w c s : (w +:+ String c "") +:+ s = w +:+ String c s.
Proof. by rewrite app_s_assoc. Qed.

Lemma sh_words_quoted w s r :
  sh_words true (Some w) (ReplaceByte "'" "'\''" s +:+ "'" +:+ r) = sh_words false (Some (w +:+ s)) r.
Proof.
  revert w. induction s as [|c s IH]; intros w.
  - by rewrite app_s_nil_r.
  - cbn [ReplaceByte]. destruct (Ascii.eqb c "'") eqn:Hc.
    + apply Ascii.eqb_eq in Hc as ->. rewrite app_s_assoc. cbn. unfold push. cbn.
      rewrite IH. by rewrite app_s_snoc.
    + cbn [String.append sh_words]. rewrite Hc. unfold push. cbn [default].
      rewrite IH. by rewrite app_s_snoc.
Qed.

Lemma sh_words_shellQuote cur s r :
  sh_words false cur (shellQuote s +:+ r) = sh_words false (Some (default "" cur +:+ s)) r.
Proof.
  unfold shellQuote. rewrite !app_s_assoc. cbn [String.append sh_words Ascii.eqb Bool.eqb].
  apply sh_words_quoted.
Qed.
End quote.

(** C35: the shell reads the output of [shellJoin] back as exactly the tokens
    that were joined: no token is split, merged, dropped or expanded, whatever
    bytes it holds. *)
Theorem shellJoin_roundtrip (tokens : list string) :
  sh_words false None (shellJoin tokens) = Some tokens.
Proof.
  unfold shellJoin. induction tokens as [|t ts IH]; [done|].
  destruct ts as [|t' ts].
  - cbn [fmap list_fmap Join]. rewrite <-(app_s_nil_r (shellQuote t)), sh_words_shellQuote. done.
  - cbn [fmap list_fmap] in *. rewrite Join_cons, sh_words_shellQuote.
    cbn [String.append sh_words]. by rewrite IH.
Qed.
