(* ===== verification/Meta.v ===== *)
(** * Plugin metadata, versions and ABI compatibility (internal/plugins/meta.go)

    The theorems: version comparison is the lexicographic total order on four
    components; printing and parsing a version round-trip; the version found in
    an image reference is the one its tag carries; a plugin is admitted exactly
    when its target ABI is at most the server version. *)
From S2P Require Import Prelude GoStrings ApiTypes.

(** The error values of this file, one constructor per [fmt.Errorf]. *)
Inductive MetaError : Type :=
  | EmptyVersion
  | TooManyComponents (version : string)
  | InvalidComponent (version component : string)
  | NegativeComponent (version : string)
  | TargetABIError (e : MetaError)
  | ServerVersionError (e : MetaError).

Definition EffectiveMeta (p : JellyfinPlugin) : PluginMeta := pls_Meta (p_Spec p).

Definition PluginFolderName (m : PluginMeta) : string :=
  let name := or_default "plugin" (pm_Name m) in
  if decide (pm_Version m = "") then name else name +:+ "_" +:+ pm_Version m.

Definition PluginSubPath (p : JellyfinPlugin) : string :=
  if decide (pm_SubPath (pls_Meta (p_Spec p)) ≠ "") then pm_SubPath (pls_Meta (p_Spec p))
  else img_SubPath (pls_PluginImage (p_Spec p)).

(** A version is Go's [[4]int]: a list of four components. *)
Definition parse_component (s p : string) : result MetaError Z :=
  match Atoi (TrimSpace p) with
  | None => Err (InvalidComponent s p)
  | Some n => if decide (n < 0)%Z then Err (NegativeComponent s) else Ok n
  end.

Definition parseVersion (s0 : string) : result MetaError (list Z) :=
  let s := TrimSpace s0 in
  if decide (s = "") then Err EmptyVersion else
  let parts := Split "." s in
  if decide (4 < length parts) then Err (TooManyComponents s) else
  ns ← mapR (parse_component s) parts;
  Ok (ns ++ replicate (4 - length ns) 0%Z).

Fixpoint compareVersions (a b : list Z) : Z :=
  match a, b with
  | x :: a, y :: b =>
      if decide (x < y)%Z then (-1)%Z
      else if decide (x > y)%Z then 1%Z
      else compareVersions a b
  | _, _ => 0%Z
  end.

Definition DefaultServerVersion : string := "10.9.0.0".

Definition imageTag (image0 : string) : string :=
  let image := match Index "@" image0 with Some i => take_s i image0 | None => image0 end in
  let seg := match LastIndex "/" image with Some i => drop_s (S i) image | None => image end in
  match LastIndex ":" seg with Some i => drop_s (S i) seg | None => "" end.

Definition ServerVersionFromImage (image : string) : string :=
  let tag := imageTag image in
  if decide (tag = "") then "" else
  let ver := match IndexAny ["-"; "+"; "_"]%char tag with Some i => take_s i tag | None => tag end in
  let ver := TrimPrefix ver "v" in
  if is_Ok (parseVersion ver) then ver else "".

Definition ABICompatible (targetABI serverVersion : string) : result MetaError bool :=
  t ← wrap_err TargetABIError (parseVersion targetABI);
  s ← wrap_err ServerVersionError (parseVersion serverVersion);
  Ok (bool_decide (compareVersions s t >= 0)%Z).

Example version_ex1 : parseVersion " 12.0 " = Ok [12; 0; 0; 0]%Z.
Proof. vm_compute. reflexivity. Qed.
Example version_ex2 : ServerVersionFromImage "ghcr.io:443/x/jellyfin:v12.0.0-rc-jc-0.1.0@sha256:ab" = "12.0.0".
Proof. vm_compute. reflexivity. Qed.
Example version_ex3 : ABICompatible "12.0.0.0" "10.9" = Ok false.
Proof. vm_compute. reflexivity. Qed.

(** ** The order on versions *)
Fixpoint ver_le (a b : list Z) : Prop :=
  match a, b with
  | x :: a, y :: b => (x < y)%Z ∨ (x = y ∧ ver_le a b)
  | _, _ => True
  end.

(** The printed form, components joined by dots. *)
Definition format_version (v : list Z) : string := Join (pretty <$> v) ".".

Definition valid_version (v : list Z) : Prop :=
  v ≠ [] ∧ length v ≤ 4 ∧ Forall (λ n, 0 ≤ n ≤ int64_max)%Z v.

Section compare.
Implicit Types a b c : list Z.
#[local] Open Scope Z_scope.

Lemma compareVersions_ge a b :
  length a = length b → compareVersions a b >= 0 ↔ ver_le b a.
Proof.
  revert b. induction a as [|x a IH]; intros [|y b] Hl; cbn; try done.
  injection Hl as Hl. specialize (IH b Hl). repeat case_decide; lia || (rewrite IH; lia) || idtac.
  rewrite IH. assert (x = y) as -> by lia. naive_solver lia.
Qed.

Lemma compareVersions_antisym a b : compareVersions b a = - compareVersions a b.
Proof.
  revert b. induction a as [|x a IH]; intros [|y b]; cbn; try done.
  repeat case_decide; try lia. apply IH.
Qed.

Lemma compareVersions_eq a b :
  length a = length b → compareVersions a b = 0 ↔ a = b.
Proof.
  revert b. induction a as [|x a IH]; intros [|y b] Hl; cbn; try done.
  injection Hl as Hl. repeat case_decide; try (split; [lia|intros [= -> _]; lia]).
  rewrite IH by done. assert (x = y) as -> by lia. split; [by intros ->|by intros [= ->]].
Qed.

Lemma ver_le_refl a : ver_le a a.
Proof. induction a; cbn; auto. Qed.

Lemma ver_le_trans a b c : length a = length b → length b = length c →
  ver_le a b → ver_le b c → ver_le a c.
Proof.
  revert b c. induction a as [|x a IH]; intros [|y b] [|z c] H1 H2; cbn; try done.
  injection H1 as H1. injection H2 as H2.
  intros [?|[-> ?]] [?|[<- ?]]; try (left; lia). right. split; [done|]. by eapply IH.
Qed.

Lemma ver_le_total a b : length a = length b → ver_le a b ∨ ver_le b a.
Proof.
  revert b. induction a as [|x a IH]; intros [|y b] H; cbn; auto.
  injection H as H. destruct (IH b H), (Z.lt_trichotomy x y) as [?|[->|?]]; tauto.
Qed.
End compare.

Lemma parseVersion_length s v : parseVersion s = Ok v → length v = 4.
Proof.
  unfold parseVersion. case_decide; [done|]. case_decide as Hp; [done|].
  intros (ns & Hns & [= <-])%bind_Ok. apply mapR_length in Hns.
  rewrite length_app, length_replicate. lia.
Qed.

Lemma parseVersion_nonneg s v :
  parseVersion s = Ok v → Forall (λ n, 0 ≤ n ≤ int64_max)%Z v.
Proof.
  unfold parseVersion. case_decide; [done|]. case_decide; [done|].
  intros (ns & Hns & [= <-])%bind_Ok. apply Forall_app. split.
  - apply mapR_Ok in Hns. clear -Hns.
    induction Hns as [|p n ps ns Hp _ IH]; [constructor|constructor; [|done]].
    unfold parse_component in Hp. destruct (Atoi _) as [m|] eqn:E; [|done].
    apply Atoi_range in E. case_decide; [done|]. injection Hp as ->. lia.
  - apply Forall_replicate. unfold int64_max. lia.
Qed.

(** ** Trimming what needs no trimming *)
Section trim.
Implicit Types s t : string.

(** An ASCII character that is not white space. *)
Definition solid (c : ascii) : bool := between 33 126 c.

Lemma solid_no_space : ∀ c, negb (solid c) || negb (space1 c) = true.
Proof. by_bytes. Qed.

Lemma solid_no_multi : ∀ c, negb (solid c) ||
  forallb (λ n, negb (Ascii.eqb c (ascii_of_N n)))
    [128; 129; 130; 131; 132; 133; 134; 135; 136; 137; 138; 159; 160; 168; 169; 175;
     194; 225; 226; 227]%N = true.
Proof. by_bytes. Qed.

Lemma between_false_solid c : solid c = true → between 128 138 c = false.
Proof. unfold solid, between. rewrite andb_true_iff, !N.leb_le. intros [_ H].
  apply andb_false_iff. left. apply N.leb_gt. lia. Qed.

Ltac solid_facts c H :=
  let H1 := fresh in let H2 := fresh in
  pose proof (solid_no_space c) as H1; rewrite H in H1; cbn in H1; apply negb_true_iff in H1;
  pose proof (solid_no_multi c) as H2; rewrite H in H2; cbn in H2;
  rewrite !andb_true_iff, !negb_true_iff in H2; destruct_and! H2.

Lemma trim_go_solid_l c s : solid c = true →
  trim_go space1 space2 space3 (String c s) = String c s.
Proof.
  intros Hc. solid_facts c Hc. cbn [trim_go]. rewrite H.
  destruct s as [|b s]; [done|].
  assert (space2 c b = false) as ->.
  { unfold space2. by replace (Ascii.eqb c "194") with false. }
  destruct s as [|d s]; [done|].
  assert (space3 c b d = false) as ->; [|done].
  unfold space3. by replace (Ascii.eqb c "225") with false; replace (Ascii.eqb c "226") with false;
    replace (Ascii.eqb c "227") with false.
Qed.

Lemma trim_go_solid_r c s : solid c = true →
  trim_go space1 (λ a b, space2 b a) (λ a b d, space3 d b a) (String c s) = String c s.
Proof.
  intros Hc. pose proof (between_false_solid c Hc) as Hb. solid_facts c Hc. cbn [trim_go]. rewrite H.
  destruct s as [|b s]; [done|].
  assert (space2 b c = false) as ->.
  { unfold space2. replace (Ascii.eqb c "133") with false. replace (Ascii.eqb c "160") with false.
    by rewrite andb_false_r. }
  destruct s as [|d s]; [done|].
  assert (space3 d b c = false) as ->; [|done].
  unfold space3. rewrite Hb. replace (Ascii.eqb c "128") with false.
  replace (Ascii.eqb c "168") with false. replace (Ascii.eqb c "169") with false.
  replace (Ascii.eqb c "175") with false. replace (Ascii.eqb c "159") with false.
  by rewrite !andb_false_r.
Qed.

Lemma rev_app_append s t : String.rev_app s t = String.rev s +:+ t.
Proof.
  unfold String.rev. revert t. induction s as [|c s IH]; intros t; [done|]. cbn.
  rewrite IH, (IH (String c "")), app_s_assoc. done.
Qed.

Lemma rev_cons c s : String.rev (String c s) = String.rev s +:+ String c "".
Proof. unfold String.rev at 1. cbn. apply rev_app_append. Qed.

Lemma rev_app_s s t : String.rev (s +:+ t) = String.rev t +:+ String.rev s.
Proof.
  induction s as [|c s IH]; cbn [String.append]; [by rewrite app_s_nil_r|].
  by rewrite !rev_cons, IH, app_s_assoc.
Qed.

Lemma rev_involutive s : String.rev (String.rev s) = s.
Proof. induction s as [|c s IH]; [done|]. by rewrite rev_cons, rev_app_s, IH. Qed.

Lemma last_char_snoc s z : last_char s = Some z → ∃ t, s = t +:+ String z "".
Proof.
  induction s as [|c s IH]; [done|]. cbn. destruct s as [|d s].
  - intros [= ->]. by exists "".
  - intros [t Ht]%IH. exists (String c t). by rewrite Ht.
Qed.

Lemma TrimSpace_solid s :
  all_chars solid s = true → TrimSpace s = s.
Proof.
  intros Hs. destruct s as [|c s]; [done|]. unfold TrimSpace.
  pose proof Hs as Hs'. cbn in Hs'. apply andb_true_iff in Hs' as [Hc _].
  rewrite trim_go_solid_l by done.
  destruct (last_char_nonempty (String c s)) as [z Hz]; [done|].
  pose proof (all_chars_last _ _ _ Hs Hz) as Hsol.
  apply last_char_snoc in Hz as [t ->]. rewrite rev_app_s.
  change (String.rev (String z "")) with (String z ""). cbn [String.append].
  rewrite trim_go_solid_r by done. by rewrite rev_cons, rev_involutive.
Qed.
End trim.

(** ** Printing and parsing *)
Section format.
Implicit Types (n : Z) (v : list Z).

Lemma digit_chars : ∀ c, negb (is_digit c) ||
  (solid c && negb (Ascii.eqb c ".") && negb (Ascii.eqb c "-") && negb (Ascii.eqb c "+")
   && negb (Ascii.eqb c "_")) = true.
Proof. by_bytes. Qed.

Lemma digit_solid c : is_digit c = true → solid c = true.
Proof. intros H. pose proof (digit_chars c) as Hc. rewrite H in Hc. by destruct (solid c). Qed.

Lemma digit_no_dot c : is_digit c = true → negb (Ascii.eqb c ".") = true.
Proof.
  intros H. pose proof (digit_chars c) as Hc. rewrite H in Hc.
  by destruct (Ascii.eqb c "."), (solid c).
Qed.

Lemma parse_component_pretty s n :
  (0 ≤ n ≤ int64_max)%Z → parse_component s (pretty n) = Ok n.
Proof.
  intros Hn. unfold parse_component. rewrite TrimSpace_solid.
  - rewrite Atoi_pretty by done. case_decide; [lia|done].
  - eapply all_chars_impl; [apply digit_solid|]. apply pretty_digits; lia.
Qed.

(** The characters of a printed version. *)
Definition version_char (c : ascii) : bool := is_digit c || Ascii.eqb c ".".

Lemma version_char_facts : ∀ c, negb (version_char c) ||
  (solid c && negb (Ascii.eqb c "-") && negb (Ascii.eqb c "+")
   && negb (Ascii.eqb c "_") && negb (Ascii.eqb c "v")) = true.
Proof. by_bytes. Qed.

Lemma version_char_solid c : version_char c = true → solid c = true.
Proof. intros H. pose proof (version_char_facts c) as Hc. rewrite H in Hc. by destruct (solid c). Qed.

Lemma format_version_chars v :
  Forall (λ n, 0 ≤ n)%Z v → all_chars version_char (format_version v) = true.
Proof.
  assert (∀ n, (0 ≤ n)%Z → all_chars version_char (pretty n) = true) as Hp.
  { intros n Hn. eapply all_chars_impl; [|by apply pretty_digits].
    unfold version_char. by intros c ->. }
  induction 1 as [|n v Hn Hv IH]; [done|]. unfold format_version in *. cbn [fmap list_fmap].
  destruct v as [|m v]; cbn [fmap list_fmap] in *; [by apply Hp|].
  rewrite Join_cons, !all_chars_app, Hp by done. by rewrite IH.
Qed.

Lemma format_version_first v :
  v ≠ [] → Forall (λ n, 0 ≤ n)%Z v → ∃ c t, format_version v = String c t ∧ is_digit c = true.
Proof.
  intros Hne Hv. destruct Hv as [|n v Hn Hv]; [done|].
  destruct (pretty_nonneg_first n Hn) as (c & t & E & Hc).
  unfold format_version. cbn [fmap list_fmap]. destruct v as [|m v]; cbn [fmap list_fmap].
  - exists c, t. done.
  - rewrite Join_cons, E. eexists c, _. split; [reflexivity|done].
Qed.

Lemma valid_nonneg v : valid_version v → Forall (λ n, 0 ≤ n)%Z v.
Proof. intros (_ & _ & H). eapply Forall_impl; [exact H|]. intros n Hn; cbn in *; lia. Qed.

Lemma parse_format v :
  valid_version v → parseVersion (format_version v) = Ok (v ++ replicate (4 - length v) 0%Z).
Proof.
  intros Hv. pose proof (valid_nonneg _ Hv) as Hnn. destruct Hv as (Hne & Hl & Hr).
  unfold parseVersion. rewrite TrimSpace_solid.
  2:{ eapply all_chars_impl; [apply version_char_solid|]. by apply format_version_chars. }
  rewrite decide_False.
  2:{ destruct (format_version_first v Hne Hnn) as (c & t & -> & _). done. }
  assert (Split "." (format_version v) = pretty <$> v) as ->.
  { apply Split_Join; [by destruct v|]. apply Forall_fmap. eapply Forall_impl; [exact Hnn|].
    intros n Hn. cbn. eapply all_chars_impl; [apply digit_no_dot|]. by apply pretty_digits. }
  rewrite length_fmap, decide_False by lia.
  assert (mapR (parse_component (format_version v)) (pretty <$> v) = Ok v) as ->; [|done].
  apply mapR_Ok. apply Forall2_fmap_l. clear Hne Hl Hnn.
  generalize (format_version v). intros s. induction Hr as [|n v' Hn _ IH]; constructor; [|done].
  by apply parse_component_pretty.
Qed.
End format.

(** ** Image references *)
Section image.
Implicit Types s path tag : string.

Lemma last_split c s : no_byte c s = true ∨ ∃ a b, s = a +:+ String c b ∧ no_byte c b = true.
Proof.
  induction s as [|x s [IH|(a & b & -> & Hb)]]; [by left| |].
  - destruct (Ascii.eqb x c) eqn:E.
    + apply Ascii.eqb_eq in E as ->. right. by exists "", s.
    + left. unfold no_byte in *. cbn. by rewrite E.
  - right. by exists (String x a), b.
Qed.

Lemma imageTag_spec path tag rest :
  no_byte "@" (path +:+ ":" +:+ tag) = true → no_byte ":" tag = true → no_byte "/" tag = true →
  rest = "" ∨ (∃ digest, rest = "@" +:+ digest) →
  imageTag (path +:+ ":" +:+ tag +:+ rest) = tag.
Proof.
  intros Hat Hcolon Hslash Hrest. unfold imageTag.
  assert (match Index "@" (path +:+ ":" +:+ tag +:+ rest) with
          | Some i => take_s i (path +:+ ":" +:+ tag +:+ rest)
          | None => path +:+ ":" +:+ tag +:+ rest end = path +:+ ":" +:+ tag) as ->.
  { destruct Hrest as [->|[d ->]].
    - rewrite app_s_nil_r. by rewrite (proj2 (Index_None _ _) Hat).
    - replace (path +:+ ":" +:+ tag +:+ "@" +:+ d)
        with ((path +:+ ":" +:+ tag) +:+ String "@" d) by (by rewrite !app_s_assoc).
      rewrite Index_app by done. apply take_s_app. }
  destruct (last_split "/" path) as [Hno|(a & b & -> & Hb)].
  - assert (LastIndex "/" (path +:+ ":" +:+ tag) = None) as ->.
    { apply LastIndex_None. by rewrite !no_byte_app, Hno, Hslash. }
    change (":" +:+ tag) with (String ":" tag). rewrite LastIndex_app by done. apply drop_s_after.
  - rewrite app_s_assoc. change (String "/" b +:+ ":" +:+ tag) with (String "/" (b +:+ ":" +:+ tag)).
    rewrite LastIndex_app by (by rewrite !no_byte_app, Hb, Hslash).
    rewrite drop_s_after. change (":" +:+ tag) with (String ":" tag).
    rewrite LastIndex_app by done. apply drop_s_after.
Qed.

Lemma IndexAny_None chars s :
  all_chars (λ c, negb (existsb (Ascii.eqb c) chars)) s = true → IndexAny chars s = None.
Proof.
  induction s as [|c s IH]; [done|]. cbn. intros [Hc Hs]%andb_true_iff.
  apply negb_true_iff in Hc. by rewrite Hc, IH.
Qed.

Lemma IndexAny_app chars s c t :
  all_chars (λ c, negb (existsb (Ascii.eqb c) chars)) s = true →
  existsb (Ascii.eqb c) chars = true →
  IndexAny chars (s +:+ String c t) = Some (String.length s).
Proof.
  intros Hs Hc. induction s as [|x s IH]; cbn; [by rewrite Hc|].
  cbn in Hs. apply andb_true_iff in Hs as [Hx Hs]. apply negb_true_iff in Hx.
  by rewrite Hx, IH.
Qed.

Lemma version_char_cut c :
  version_char c = true → negb (existsb (Ascii.eqb c) ["-"; "+"; "_"]%char) = true.
Proof.
  intros H. pose proof (version_char_facts c) as Hc. rewrite H in Hc. cbn in Hc.
  rewrite !andb_true_iff in Hc. destruct_and! Hc. cbn.
  by destruct (Ascii.eqb c "-"), (Ascii.eqb c "+"), (Ascii.eqb c "_").
Qed.

Lemma version_char_not_v c : version_char c = true → Ascii.eqb c "v" = false.
Proof.
  intros H. pose proof (version_char_facts c) as Hc. rewrite H in Hc. cbn in Hc.
  rewrite !andb_true_iff, !negb_true_iff in Hc. by destruct_and! Hc.
Qed.
End image.

Lemma ServerVersion_printed path v suffix (pre : bool) :
  valid_version v →
  no_byte "@" (path +:+ suffix) = true → no_byte ":" suffix = true → no_byte "/" suffix = true →
  suffix = "" ∨ (∃ c t, suffix = String c t ∧ existsb (Ascii.eqb c) ["-"; "+"; "_"]%char = true) →
  ServerVersionFromImage (path +:+ ":" +:+ (if pre then "v" else "") +:+ format_version v +:+ suffix)
  = format_version v.
Proof.
  intros Hv Hat Hcolon Hslash Hsuf. pose proof (valid_nonneg _ Hv) as Hnn.
  pose proof (format_version_chars _ Hnn) as Hch.
  set (f := format_version v) in *.
  set (vf := (if pre then "v" else "") +:+ f).
  assert (∀ c, version_char c = true → existsb (Ascii.eqb c) ["@"; ":"; "/"]%char = false) as Hno.
  { intros c Hc. destruct c as [[][][][][][][][]]; try done; by cbn in Hc. }
  assert (∀ d, existsb (Ascii.eqb d) ["@"; ":"; "/"]%char = true → no_byte d vf = true) as Hvf.
  { intros d Hd. unfold vf. rewrite no_byte_app. apply andb_true_iff; split.
    - destruct pre; [|done]. cbn. by destruct d as [[][][][][][][][]].
    - eapply all_chars_impl; [|exact Hch]. intros c Hc%Hno. apply negb_true_iff.
      destruct (Ascii.eqb c d) eqn:E; [|done]. apply Ascii.eqb_eq in E as ->. congruence. }
  rewrite no_byte_app in Hat. apply andb_true_iff in Hat as [Hp Hs].
  unfold ServerVersionFromImage. rewrite <-(app_s_assoc _ f). fold vf.
  rewrite <-(app_s_nil_r (vf +:+ suffix)), imageTag_spec; [..|by left].
  2:{ rewrite !no_byte_app, Hp, Hs. cbn. by rewrite (Hvf "@"%char). }
  2:{ by rewrite no_byte_app, Hcolon, (Hvf ":"%char). }
  2:{ by rewrite no_byte_app, Hslash, (Hvf "/"%char). }
  destruct (format_version_first v) as (c0 & t0 & Ef & Hc0); [by destruct Hv|done|].
  rewrite decide_False.
  2:{ unfold vf. fold f in Ef. rewrite Ef. by destruct pre. }
  assert (all_chars (λ c, negb (existsb (Ascii.eqb c) ["-"; "+"; "_"]%char)) vf = true) as Hcut.
  { unfold vf. rewrite all_chars_app. rewrite (all_chars_impl version_char _ f version_char_cut Hch).
    by destruct pre. }
  assert (match IndexAny ["-"; "+"; "_"]%char (vf +:+ suffix) with
          | Some i => take_s i (vf +:+ suffix) | None => vf +:+ suffix end = vf) as ->.
  { destruct Hsuf as [->|(c & t & -> & Hc)].
    - rewrite app_s_nil_r. by rewrite IndexAny_None.
    - rewrite IndexAny_app by done. apply take_s_app. }
  assert (TrimPrefix vf "v" = f) as ->.
  { unfold vf. destruct pre; [apply TrimPrefix_app|]. unfold TrimPrefix, HasPrefix. fold f in Ef.
    cbn [String.append]. rewrite Ef. cbn [String.prefix].
    destruct (ascii_dec "v" c0) as [<-|]; [done|done]. }
  unfold f. by rewrite parse_format.
Qed.

(** ** The component's contract *)

(** on [[4]int] versions, [compareVersions] is a total order compatible
    with equality: zero exactly on equal versions, antisymmetric, transitive, and
    non-negative exactly when the second version is lexicographically at most the
    first. *)
Theorem compareVersions_total_order a b c :
  length a = 4 → length b = 4 → length c = 4 →
  (compareVersions a b = 0 ↔ a = b)%Z
  ∧ compareVersions b a = (- compareVersions a b)%Z
  ∧ (compareVersions a b >= 0 ↔ ver_le b a)%Z
  ∧ (compareVersions a b >= 0 → compareVersions b c >= 0 → compareVersions a c >= 0)%Z.
Proof.
  intros Ha Hb Hc. split_and!.
  - apply compareVersions_eq. congruence.
  - apply compareVersions_antisym.
  - apply compareVersions_ge. congruence.
  - rewrite !compareVersions_ge by congruence. intros H1 H2.
    by eapply ver_le_trans; [| |exact H2|exact H1]; congruence.
Qed.

Lemma compareVersions_total_order_witness :
  (compareVersions [12; 0; 0; 0] [10; 9; 0; 0] >= 0)%Z ∧ (compareVersions [12; 0; 0; 0] [10; 8; 9; 9] >= 0)%Z.
Proof.
  split; [vm_compute; done|].
  apply (compareVersions_total_order [12; 0; 0; 0]%Z [10; 9; 0; 0]%Z [10; 8; 9; 9]%Z);
    try reflexivity; vm_compute; done.
Defined.

(** parsing a printed version of one to four components, each of them an
    [int], gives those components padded with zeros. *)
Theorem parseVersion_roundtrip v :
  valid_version v → parseVersion (format_version v) = Ok (v ++ replicate (4 - length v) 0%Z).
Proof. apply parse_format. Qed.

Lemma parseVersion_roundtrip_witness :
  valid_version [10; 11]%Z ∧ parseVersion (format_version [10; 11]%Z) = Ok [10; 11; 0; 0]%Z.
Proof.
  assert (valid_version [10; 11]%Z) as H.
  { split_and!; [done|cbn; lia|]. repeat constructor; vm_compute; done. }
  split; [exact H|]. exact (parseVersion_roundtrip [10; 11]%Z H).
Defined.

(** from an image reference [path:tag] or [path:tag@digest] whose tag is a
    version, with or without the [v] prefix and a [-], [+] or [_] suffix, the
    operator derives exactly that version; a registry port in the path is not
    taken for a tag. *)
Theorem ServerVersionFromImage_spec path v suffix (pre : bool) :
  valid_version v →
  no_byte "@" (path +:+ suffix) = true → no_byte ":" suffix = true → no_byte "/" suffix = true →
  suffix = "" ∨ (∃ c t, suffix = String c t ∧ existsb (Ascii.eqb c) ["-"; "+"; "_"]%char = true) →
  ServerVersionFromImage (path +:+ ":" +:+ (if pre then "v" else "") +:+ format_version v +:+ suffix)
  = format_version v.
Proof. apply ServerVersion_printed. Qed.

Lemma ServerVersionFromImage_spec_witness :
  ServerVersionFromImage "ghcr.io:443/x/jellyfin:v12.0.0-rc-jc-0.1.0" = "12.0.0".
Proof.
  refine (ServerVersionFromImage_spec "ghcr.io:443/x/jellyfin" [12; 0; 0]%Z "-rc-jc-0.1.0" true _ _ _ _ _).
  - split_and!; [done|cbn; lia|]. repeat constructor; vm_compute; done.
  - reflexivity.
  - reflexivity.
  - reflexivity.
  - right. exists "-"%char, "rc-jc-0.1.0". split; reflexivity.
Defined.

(** [ABICompatible] answers without error exactly when both versions parse,
    and then admits the plugin exactly when its target ABI is at most the server
    version; an unparsable target is reported before an unparsable server. *)
Theorem ABICompatible_spec targetABI serverVersion :
  match ABICompatible targetABI serverVersion with
  | Ok b => ∃ t s, parseVersion targetABI = Ok t ∧ parseVersion serverVersion = Ok s
                   ∧ (b = true ↔ ver_le t s)
  | Err e => (∃ e', e = TargetABIError e' ∧ parseVersion targetABI = Err e')
             ∨ (∃ e' t, e = ServerVersionError e' ∧ parseVersion targetABI = Ok t
                        ∧ parseVersion serverVersion = Err e')
  end.
Proof.
  unfold ABICompatible. destruct (parseVersion targetABI) as [t|e] eqn:Et; cbn; [|by eauto].
  destruct (parseVersion serverVersion) as [s|e] eqn:Es; cbn; [|by eauto 10].
  exists t, s. split_and!; [done..|]. rewrite bool_decide_eq_true.
  apply compareVersions_ge. by rewrite (parseVersion_length _ _ Et), (parseVersion_length _ _ Es).
Qed.
