(* ===== verification/PodSecurity.v ===== *)
(** * Pod security defaults (internal/plugins/podsecurity.go)

    The hardened profile every managed container gets, merged with the user's
    overrides; an explicit [runAsNonRoot: false] opts out of it. *)
From S2P Require Import Prelude K8s ApiTypes.

Definition DefaultRunAsUser : Z := 1000.
Definition DefaultRunAsGroup : Z := 1000.
Definition DefaultFsGroup : Z := 1000.

(** [ps != nil && ps.RunAsNonRoot != nil && !*ps.RunAsNonRoot] *)
Definition opted_out (ps : option PodSecuritySpec) : bool :=
  match ps with
  | Some p => match psec_RunAsNonRoot p with Some b => negb b | None => false end
  | None => false
  end.

Definition deref_or {A} (get : PodSecuritySpec → option A) (d : A) (ps : option PodSecuritySpec) : A :=
  match ps with Some p => default d (get p) | None => d end.

Definition set_AllowPrivilegeEscalation (b : bool) (sc : SecurityContext) : SecurityContext :=
  mkSC (sc_RunAsNonRoot sc) (sc_RunAsUser sc) (sc_RunAsGroup sc) (Some b) (sc_CapabilitiesDrop sc).

(** [applyContainerSecurity]: the container-level part, used on init containers. *)
Definition applyContainerSecurity (container : Container) (ps : option PodSecuritySpec) : Container :=
  let sc := default SecurityContext_zero (c_SecurityContext container) in
  if opted_out ps then
    set_c_SecurityContext (Some (set_AllowPrivilegeEscalation false sc)) container
  else
    let nonRoot := deref_or psec_RunAsNonRoot true ps in
    let uid := deref_or psec_RunAsUser DefaultRunAsUser ps in
    let gid := deref_or psec_RunAsGroup DefaultRunAsGroup ps in
    set_c_SecurityContext
      (Some (mkSC (Some nonRoot) (Some uid) (Some gid) (Some false) (Some ["ALL"]))) container.

(** [applyPodSecurity]: the main container and the pod it belongs to. *)
Definition applyPodSecurity (container : Container) (pod : PodSpec) (ps : option PodSecuritySpec)
    : Container * PodSpec :=
  let sc := default SecurityContext_zero (c_SecurityContext container) in
  if opted_out ps then
    (set_c_SecurityContext (Some (set_AllowPrivilegeEscalation false sc)) container, pod)
  else
    let nonRoot := deref_or psec_RunAsNonRoot true ps in
    let uid := deref_or psec_RunAsUser DefaultRunAsUser ps in
    let gid := deref_or psec_RunAsGroup DefaultRunAsGroup ps in
    let fsGroup := deref_or psec_FsGroup DefaultFsGroup ps in
    let supplemental := match ps with Some p => psec_SupplementalGroups p | None => [] end in
    let psc := default PodSecurityContext_zero (ps_SecurityContext pod) in
    (set_c_SecurityContext
       (Some (mkSC (Some nonRoot) (Some uid) (Some gid) (Some false) (Some ["ALL"]))) container,
     set_ps_SecurityContext
       (Some (mkPSC (psc_SeccompProfile psc) (Some nonRoot) (Some uid) (Some gid) (Some fsGroup)
                    (psc_SupplementalGroups psc ++ supplemental))) pod).

(** [applyPodSecurity(&podSpec.Containers[0], &podSpec, ps)] on a pod whose only
    container is [container]. *)
Definition secure_single (container : Container) (pod : PodSpec) (ps : option PodSecuritySpec) : PodSpec :=
  let '(container, pod) := applyPodSecurity container pod ps in
  set_ps_Containers [container] pod.

(** ** What hardened means *)
Definition no_escalation (c : Container) : Prop :=
  ∃ sc, c_SecurityContext c = Some sc ∧ sc_AllowPrivilegeEscalation sc = Some false.

Definition hardened (ps : option PodSecuritySpec) (c : Container) : Prop :=
  c_SecurityContext c =
    Some (mkSC (Some true) (Some (deref_or psec_RunAsUser DefaultRunAsUser ps))
               (Some (deref_or psec_RunAsGroup DefaultRunAsGroup ps)) (Some false) (Some ["ALL"])).

(** Everything of a container but its security context. *)
Definition same_but_security (c c' : Container) : Prop :=
  set_c_SecurityContext None c = set_c_SecurityContext None c'.

Section security.
Implicit Types (c : Container) (pod : PodSpec) (ps : option PodSecuritySpec).

Lemma not_opted_out_nonroot ps : opted_out ps = false → deref_or psec_RunAsNonRoot true ps = true.
Proof. destruct ps as [p|]; [|done]. cbn. by destruct (psec_RunAsNonRoot p) as [[]|]. Qed.

Lemma c_SecurityContext_set x c : c_SecurityContext (set_c_SecurityContext x c) = x.
Proof. by destruct c. Qed.

Lemma ps_SecurityContext_set x pod : ps_SecurityContext (set_ps_SecurityContext x pod) = x.
Proof. by destruct pod. Qed.

Lemma hardened_no_escalation ps c : hardened ps c → no_escalation c.
Proof. intros H. eexists; split; [exact H|done]. Qed.

Lemma applyContainerSecurity_no_escalation c ps : no_escalation (applyContainerSecurity c ps).
Proof.
  unfold applyContainerSecurity. destruct (opted_out ps);
    (eexists; rewrite c_SecurityContext_set; split; [reflexivity|done]).
Qed.

Lemma applyContainerSecurity_hardened c ps :
  opted_out ps = false → hardened ps (applyContainerSecurity c ps).
Proof.
  intros H. unfold hardened, applyContainerSecurity.
  by rewrite H, c_SecurityContext_set, not_opted_out_nonroot.
Qed.

Lemma applyContainerSecurity_same c ps : same_but_security (applyContainerSecurity c ps) c.
Proof. unfold same_but_security, applyContainerSecurity. by destruct (opted_out ps), c. Qed.

(** On the container both functions do the same. *)
Lemma applyPodSecurity_container c pod ps :
  (applyPodSecurity c pod ps).1 = applyContainerSecurity c ps.
Proof. unfold applyPodSecurity, applyContainerSecurity. by destruct (opted_out ps). Qed.

Lemma applyPodSecurity_volumes c pod ps :
  ps_Volumes (applyPodSecurity c pod ps).2 = ps_Volumes pod.
Proof. unfold applyPodSecurity. destruct (opted_out ps); [done|by destruct pod]. Qed.

Lemma applyPodSecurity_containers c pod ps :
  ps_Containers (applyPodSecurity c pod ps).2 = ps_Containers pod.
Proof. unfold applyPodSecurity. destruct (opted_out ps); [done|by destruct pod]. Qed.

Lemma applyPodSecurity_init c pod ps :
  ps_InitContainers (applyPodSecurity c pod ps).2 = ps_InitContainers pod.
Proof. unfold applyPodSecurity. destruct (opted_out ps); [done|by destruct pod]. Qed.

(** The accessors that do not look at the security context. *)
Lemma same_but_security_mounts c c' : same_but_security c c' → c_VolumeMounts c = c_VolumeMounts c'.
Proof. unfold same_but_security. destruct c, c'; cbn. by intros [=]. Qed.

Lemma secure_single_spec c pod ps :
  let pod' := secure_single c pod ps in
  ps_Containers pod' = [applyContainerSecurity c ps] ∧
  ps_InitContainers pod' = ps_InitContainers pod ∧ ps_Volumes pod' = ps_Volumes pod ∧
  ps_RuntimeClassName pod' = ps_RuntimeClassName pod.
Proof.
  unfold secure_single. rewrite <-(applyPodSecurity_container c pod).
  unfold applyPodSecurity. by destruct (opted_out ps).
Qed.

Lemma applyContainerSecurity_fields c ps :
  let c' := applyContainerSecurity c ps in
  c_Name c' = c_Name c ∧ c_Image c' = c_Image c ∧ c_Command c' = c_Command c ∧
  c_Resources c' = c_Resources c ∧ c_Env c' = c_Env c ∧ c_VolumeMounts c' = c_VolumeMounts c.
Proof. unfold applyContainerSecurity. by destruct (opted_out ps). Qed.
End security.

#[export] Hint Resolve applyContainerSecurity_no_escalation applyContainerSecurity_hardened
  applyContainerSecurity_same hardened_no_escalation : jellyops.

(** ** The component's contract *)

(** [applyPodSecurity] always forbids privilege escalation. Unless the user
    opted out it makes the container non-root with every capability dropped under
    the requested or default identity, gives the pod the same identity, keeps the
    pod's seccomp profile and only adds supplemental groups; when the user opted
    out the pod is left alone. Nothing else of the container changes. *)
Theorem applyPodSecurity_spec c pod ps :
  let '(c', pod') := applyPodSecurity c pod ps in
  no_escalation c' ∧ same_but_security c' c ∧
  (if opted_out ps then pod' = pod
   else hardened ps c' ∧
     ∃ sc psc', c_SecurityContext c' = Some sc ∧ ps_SecurityContext pod' = Some psc' ∧
       psc_RunAsNonRoot psc' = sc_RunAsNonRoot sc ∧ psc_RunAsUser psc' = sc_RunAsUser sc ∧
       psc_RunAsGroup psc' = sc_RunAsGroup sc ∧
       psc_SeccompProfile psc' = (ps_SecurityContext pod ≫= psc_SeccompProfile) ∧
       default [] (psc_SupplementalGroups <$> ps_SecurityContext pod)
         `prefix_of` psc_SupplementalGroups psc').
Proof.
  pose proof (applyPodSecurity_container c pod ps) as Hc.
  unfold applyPodSecurity in *. destruct (opted_out ps) eqn:Hout; cbn in Hc; rewrite Hc.
  - split_and!; auto with jellyops.
  - split_and!; auto with jellyops. rewrite <-Hc. do 2 eexists.
    rewrite c_SecurityContext_set, ps_SecurityContext_set.
    split; [reflexivity|]. split; [reflexivity|]. cbn.
    split_and!; try done; destruct (ps_SecurityContext pod) as [psc|]; cbn; try done.
    + by apply prefix_app_r.
    + apply prefix_nil.
Qed.
