(* ===== verification/HwAccel.v ===== *)
(** * Hardware acceleration (internal/plugins/hwaccel.go)

    Attaching a transcoding device to the server pod. The device-plugin and
    NVIDIA paths write into the container's [Resources.Limits], a Go map that the
    container shares with the custom resource it was copied from; the model keeps
    such maps in a store, and one theorem states what the sharing does. *)
From S2P Require Import Prelude GoStrings K8s ApiTypes Naming Shell.

(** Text with double quotes, written with backquotes in their place. *)
Definition raw (s : string) : string := ReplaceByte "`" (String "034" "") s.

Definition AccelVAAPI : string := "vaapi".
Definition AccelQSV : string := "qsv".
Definition AccelNvidia : string := "nvidia".
Definition DRIDeviceVolumeName : string := "dri-device".
Definition DRIDirPath : string := "/dev/dri".
Definition RenderDeviceEnvVar : string := "JELLYOPS_RENDER_DEVICE".
Definition RenderVendorEnvVar : string := "JELLYOPS_RENDER_VENDOR".
Definition AccelTypeEnvVar : string := "JELLYOPS_ACCEL_TYPE".
Definition intelPCIVendorID : string := "0x8086".
Definition jellyfinNvenc : string := "nvenc".
Definition nvidiaGPUResource : string := "nvidia.com/gpu".

Definition renderSetupScript : string := raw
"accel=`${JELLYOPS_ACCEL_TYPE:-}`
dev=`${JELLYOPS_RENDER_DEVICE:-}`
if [ `$accel` != `nvenc` ]; then
  if [ -z `$dev` ] && [ -n `${JELLYOPS_RENDER_VENDOR:-}` ]; then
    for d in /dev/dri/renderD*; do
      [ -c `$d` ] || continue
      v=`$(cat `/sys/class/drm/$(basename `$d`)/device/vendor` 2>/dev/null || true)`
      if [ `$v` = `$JELLYOPS_RENDER_VENDOR` ]; then dev=`$d`; break; fi
    done
  fi
  if [ -z `$dev` ]; then
    for d in /dev/dri/renderD*; do
      if [ -c `$d` ]; then dev=`$d`; break; fi
    done
  fi
  if [ -z `$dev` ]; then
    echo `jellyops: no render device found under /dev/dri; leaving encoding config untouched` >&2
    accel=``
  fi
fi
if [ -n `$accel` ] || [ -n `$dev` ]; then
  cfgdir=`${JELLYFIN_CONFIG_DIR:-${JELLYFIN_DATA_DIR:-/config}/config}`
  mkdir -p `$cfgdir`
  f=`$cfgdir/encoding.xml`
  if [ ! -f `$f` ]; then
    printf '<?xml version=`1.0` encoding=`utf-8`?>\n<EncodingOptions>\n</EncodingOptions>\n' >`$f`
  fi
  set_tag() {
    if grep -q `<$1>` `$f`; then
      sed -i `s#<$1>[^<]*</$1>#<$1>$2</$1>#` `$f`
    else
      sed -i `s#</EncodingOptions>#  <$1>$2</$1>\n</EncodingOptions>#` `$f`
    fi
  }
  if [ -n `$dev` ]; then
    echo `jellyops: using render device $dev`
    set_tag VaapiDevice `$dev`
    set_tag QsvDevice `$dev`
  fi
  if [ -n `$accel` ]; then
    echo `jellyops: hardware acceleration type $accel`
    set_tag HardwareAccelerationType `$accel`
  fi
fi
".

Definition add_env (n v : string) (c : Container) : Container :=
  set_c_Env (c_Env c ++ [mkEnv n v]) c.
Definition add_mount (m : VolumeMount) (c : Container) : Container :=
  set_c_VolumeMounts (c_VolumeMounts c ++ [m]) c.
Definition add_volume (v : Volume) (p : PodSpec) : PodSpec :=
  set_ps_Volumes (ps_Volumes p ++ [v]) p.

(** [setResourceLimitOne]: allocate the map when it is nil, else write to the
    map the container holds a reference to. *)
Definition setResourceLimitOne (σ : Store) (c : Container) (name : string) : Store * Container :=
  match rr_Limits (c_Resources c) with
  | None =>
      let l := fresh (dom σ) in
      (<[l := {[name := resourceQuantityOne]}]> σ,
       set_c_Resources (mkResources (Some l) (rr_Requests (c_Resources c))) c)
  | Some l => (<[l := <[name := resourceQuantityOne]> (default ∅ (σ !! l))]> σ, c)
  end.

(** The inner switch of the vaapi/qsv case: where the device comes from. *)
Definition attachRenderDevice (σ : Store) (jellyfin : Container) (pod : PodSpec) (hw : HardwareAccel)
    : Store * Container * PodSpec :=
  if decide (hw_DeviceResource hw ≠ "") then
    let '(σ, jellyfin) := setResourceLimitOne σ jellyfin (hw_DeviceResource hw) in
    (σ, jellyfin, pod)
  else if decide (hw_DevicePath hw ≠ "") then
    (σ, add_mount (mkMount DRIDeviceVolumeName (hw_DevicePath hw) "" false) jellyfin,
     add_volume (hostpath_volume DRIDeviceVolumeName
                   (mkHostPath (hw_DevicePath hw) (Some HostPathCharDev))) pod)
  else
    (σ, add_mount (mkMount DRIDeviceVolumeName DRIDirPath "" false) jellyfin,
     add_volume (hostpath_volume DRIDeviceVolumeName
                   (mkHostPath DRIDirPath (Some HostPathDirectory))) pod).

Definition startupCommand : list string :=
  ["/bin/sh"; "-c"; renderSetupScript +:+ "exec " +:+ DefaultJellyfinCommand].

Definition add_supplemental_group (gid : Z) (p : PodSpec) : PodSpec :=
  let psc := default PodSecurityContext_zero (ps_SecurityContext p) in
  set_ps_SecurityContext
    (Some (mkPSC (psc_SeccompProfile psc) (psc_RunAsNonRoot psc) (psc_RunAsUser psc)
             (psc_RunAsGroup psc) (psc_FSGroup psc) (psc_SupplementalGroups psc ++ [gid]))) p.

(** The two cases of the outer switch, on the server container and its pod. *)
Definition applyRenderAccel (σ : Store) (jellyfin : Container) (pod : PodSpec) (hw : HardwareAccel)
    : Store * Container * PodSpec :=
  let '(σ, jellyfin, pod) := attachRenderDevice σ jellyfin pod hw in
  let jellyfin := add_env AccelTypeEnvVar (hw_Type hw) jellyfin in
  let jellyfin := if decide (hw_DevicePath hw ≠ "")
                  then add_env RenderDeviceEnvVar (hw_DevicePath hw) jellyfin else jellyfin in
  let jellyfin := if decide (hw_Type hw = AccelQSV)
                  then add_env RenderVendorEnvVar intelPCIVendorID jellyfin else jellyfin in
  let jellyfin := set_c_Command startupCommand jellyfin in
  let pod := match hw_RenderGroupGID hw with
             | Some gid => add_supplemental_group gid pod
             | None => pod
             end in
  (σ, jellyfin, pod).

Definition applyNvidiaAccel (σ : Store) (jellyfin : Container) (pod : PodSpec) (hw : HardwareAccel)
    : Store * Container * PodSpec :=
  let '(σ, jellyfin) := setResourceLimitOne σ jellyfin nvidiaGPUResource in
  let pod := if decide (hw_RuntimeClassName hw ≠ "")
             then set_ps_RuntimeClassName (Some (hw_RuntimeClassName hw)) pod else pod in
  let jellyfin := add_env AccelTypeEnvVar jellyfinNvenc jellyfin in
  let jellyfin := set_c_Command startupCommand jellyfin in
  (σ, jellyfin, pod).

(** [&pod.Containers[0]] panics on a pod without containers. *)
Definition applyHardwareAccel (σ : Store) (pod : PodSpec) (hw : option HardwareAccel)
    : result Panic (Store * PodSpec) :=
  match hw with
  | None => Ok (σ, pod)
  | Some hw =>
      match ps_Containers pod with
      | [] => Err IndexOutOfRange
      | jellyfin :: rest =>
          let '(σ, jellyfin, pod) :=
            if decide (hw_Type hw = AccelVAAPI ∨ hw_Type hw = AccelQSV) then
              applyRenderAccel σ jellyfin pod hw
            else if decide (hw_Type hw = AccelNvidia) then applyNvidiaAccel σ jellyfin pod hw
            else (σ, jellyfin, pod) in
          Ok (σ, set_ps_Containers (jellyfin :: rest) pod)
      end
  end.

(** ** What each configuration asks for *)
Definition render_type (hw : HardwareAccel) : bool :=
  bool_decide (hw_Type hw = AccelVAAPI ∨ hw_Type hw = AccelQSV).
Definition nvidia_type (hw : HardwareAccel) : bool := bool_decide (hw_Type hw = AccelNvidia).

(** The extended resource requested, if any. *)
Definition wanted_resource (hw : HardwareAccel) : option string :=
  if render_type hw then
    if decide (hw_DeviceResource hw = "") then None else Some (hw_DeviceResource hw)
  else if nvidia_type hw then Some nvidiaGPUResource else None.

(** The host path exposed, if any, with the kind of file it must be. *)
Definition wanted_path (hw : HardwareAccel) : option (string * string) :=
  if render_type hw && bool_decide (hw_DeviceResource hw = "") then
    Some (if decide (hw_DevicePath hw = "") then (DRIDirPath, HostPathDirectory)
          else (hw_DevicePath hw, HostPathCharDev))
  else None.

(** The value of Jellyfin's [HardwareAccelerationType]. *)
Definition wanted_backend (hw : HardwareAccel) : option string :=
  if render_type hw then Some (hw_Type hw)
  else if nvidia_type hw then Some jellyfinNvenc else None.

Definition limits_of (σ : Store) (c : Container) : ResourceList :=
  match rr_Limits (c_Resources c) with Some l => default ∅ (σ !! l) | None => ∅ end.

(** No dangling reference: the map a container refers to is in the store. *)
Definition limits_live (σ : Store) (c : Container) : Prop :=
  ∀ l, rr_Limits (c_Resources c) = Some l → l ∈ dom σ.

Definition path_volumes (w : option (string * string)) : list Volume :=
  match w with
  | Some (p, k) => [hostpath_volume DRIDeviceVolumeName (mkHostPath p (Some k))]
  | None => []
  end.
Definition path_mounts (w : option (string * string)) : list VolumeMount :=
  match w with Some (p, _) => [mkMount DRIDeviceVolumeName p "" false] | None => [] end.

Section hwaccel.
Implicit Types (σ : Store) (c : Container) (pod : PodSpec) (hw : HardwareAccel).

Lemma nvidia_not_render hw : nvidia_type hw = true → render_type hw = false.
Proof.
  unfold nvidia_type, render_type. rewrite bool_decide_eq_true, bool_decide_eq_false.
  intros -> [[=]|[=]].
Qed.

(** The write touches one map: the container's own, or a fresh one. *)
Lemma setResourceLimitOne_store σ c name σ' c' :
  limits_live σ c → setResourceLimitOne σ c name = (σ', c') →
  limits_of σ' c' = <[name := resourceQuantityOne]> (limits_of σ c) ∧
  (∀ l, l ∈ dom σ → rr_Limits (c_Resources c) ≠ Some l → σ' !! l = σ !! l) ∧
  (∀ l, rr_Limits (c_Resources c) = Some l → rr_Limits (c_Resources c') = Some l).
Proof.
  unfold setResourceLimitOne, limits_of. intros Hlive.
  destruct (rr_Limits (c_Resources c)) as [l|] eqn:Hl; intros [= <- <-]; cbn.
  - rewrite Hl; cbn. rewrite lookup_insert_eq. split_and!; [done| |done].
    intros l' _ Hne. apply lookup_insert_ne. congruence.
  - rewrite lookup_insert_eq. split_and!; [by rewrite insert_empty| |done].
    intros l Hin _. apply lookup_insert_ne. intros <-. by apply is_fresh in Hin.
Qed.

(** Only the resources of the container change. *)
Lemma setResourceLimitOne_shape σ c name :
  ∃ σ' r, setResourceLimitOne σ c name = (σ', set_c_Resources r c).
Proof.
  unfold setResourceLimitOne. destruct (rr_Limits (c_Resources c)); [|eauto].
  do 2 eexists. f_equal. by instantiate (1 := c_Resources c); destruct c.
Qed.

Lemma applyHardwareAccel_total σ pod (hw : option HardwareAccel) :
  ps_Containers pod ≠ [] → ∃ r, applyHardwareAccel σ pod hw = Ok r.
Proof.
  intros H. unfold applyHardwareAccel. destruct hw as [hw|]; [|eauto].
  destruct (ps_Containers pod) as [|c rest]; [done|].
  destruct (if decide _ then _ else _) as [[??]?]. eauto.
Qed.
End hwaccel.

(** The effect on the first container [c] and its pod, as one contract. *)
Record accel_effect (σ : Store) (c : Container) (pod : PodSpec) (hw : HardwareAccel)
    (σ' : Store) (c' : Container) (pod' : PodSpec) : Prop := {
  ae_init : ps_InitContainers pod' = ps_InitContainers pod;
  ae_volumes : ps_Volumes pod' = ps_Volumes pod ++ path_volumes (wanted_path hw);
  ae_mounts : c_VolumeMounts c' = c_VolumeMounts c ++ path_mounts (wanted_path hw);
  ae_security : c_SecurityContext c' = c_SecurityContext c;
  ae_identity : c_Name c' = c_Name c ∧ c_Image c' = c_Image c;
  ae_command : c_Command c' =
    match wanted_backend hw with Some _ => startupCommand | None => c_Command c end;
  ae_env : c_Env c `prefix_of` c_Env c';
  ae_backend : ∀ b, wanted_backend hw = Some b → mkEnv AccelTypeEnvVar b ∈ c_Env c';
  ae_pod_security :
    default PodSecurityContext_zero (ps_SecurityContext pod') =
      let psc := default PodSecurityContext_zero (ps_SecurityContext pod) in
      mkPSC (psc_SeccompProfile psc) (psc_RunAsNonRoot psc) (psc_RunAsUser psc)
        (psc_RunAsGroup psc) (psc_FSGroup psc)
        (psc_SupplementalGroups psc ++
         (if render_type hw then option_list (hw_RenderGroupGID hw) else []));
  ae_limits : limits_live σ c →
    limits_of σ' c' = match wanted_resource hw with
                      | Some r => <[r := resourceQuantityOne]> (limits_of σ c)
                      | None => limits_of σ c
                      end;
  ae_frame : limits_live σ c →
    ∀ l, l ∈ dom σ → rr_Limits (c_Resources c) ≠ Some l → σ' !! l = σ !! l;
  ae_alias : ∀ l, rr_Limits (c_Resources c) = Some l → rr_Limits (c_Resources c') = Some l;
  ae_own : ∀ l, rr_Limits (c_Resources c) = Some l →
    σ' !! l = match wanted_resource hw with
              | Some r => Some (<[r := resourceQuantityOne]> (default ∅ (σ !! l)))
              | None => σ !! l
              end;
}.

Lemma setResourceLimitOne_alias σ c name l :
  rr_Limits (c_Resources c) = Some l →
  rr_Limits (c_Resources (setResourceLimitOne σ c name).2) = Some l ∧
  (setResourceLimitOne σ c name).1 !! l =
    Some (<[name := resourceQuantityOne]> (default ∅ (σ !! l))).
Proof. unfold setResourceLimitOne. intros H; rewrite H; cbn. by rewrite lookup_insert_eq. Qed.

Lemma attachRenderDevice_pod σ c pod hw :
  let pod' := (attachRenderDevice σ c pod hw).2 in
  ps_SecurityContext pod' = ps_SecurityContext pod ∧ ps_Containers pod' = ps_Containers pod ∧
  ps_InitContainers pod' = ps_InitContainers pod.
Proof.
  unfold attachRenderDevice. repeat case_decide; [|done..].
  by destruct (setResourceLimitOne _ _ _).
Qed.

Ltac accel_finish A1 A2 :=
  solve [reflexivity | congruence | assumption | auto
    | intros ? Hl; apply A1 in Hl as [??]; done
    | intros ? Hl; apply A2 in Hl as [??]; done
    | intros ? [= <-]; rewrite !elem_of_app, !list_elem_of_singleton; tauto
    | rewrite <-?app_assoc; first [by apply prefix_app_r | by rewrite app_nil_r]
    | match goal with |- default _ ?o = _ => destruct o as [[]|]; cbn; by rewrite ?app_nil_r end].

Lemma applyHardwareAccel_effect σ pod hw c rest :
  ps_Containers pod = c :: rest →
  ∃ σ' pod' c', applyHardwareAccel σ pod (Some hw) = Ok (σ', pod') ∧
    ps_Containers pod' = c' :: rest ∧ accel_effect σ c pod hw σ' c' pod'.
Proof.
  intros Hc. destruct pod; cbn in Hc; subst.
  assert (Hs := λ n, setResourceLimitOne_store σ c n).
  assert (Ha := λ n l, setResourceLimitOne_alias σ c n l).
  unfold applyHardwareAccel, applyRenderAccel, applyNvidiaAccel, attachRenderDevice.
  cbn [ps_Containers].
  destruct (setResourceLimitOne_shape σ c (hw_DeviceResource hw)) as (σ1&r1&E1).
  destruct (setResourceLimitOne_shape σ c nvidiaGPUResource) as (σ2&r2&E2).
  rewrite E1, E2.
  pose proof (λ H, Hs _ _ _ H E1) as S1; pose proof (λ H, Hs _ _ _ H E2) as S2.
  pose proof (Ha (hw_DeviceResource hw)) as A1; pose proof (Ha nvidiaGPUResource) as A2.
  rewrite E1 in A1; rewrite E2 in A2. clear Hs Ha E1 E2.
  repeat case_decide; try tauto; try destruct (hw_RenderGroupGID hw) eqn:Hgid;
  do 3 eexists; (split; [reflexivity|cbn]); (split; [reflexivity|]); split;
    unfold wanted_resource, wanted_path, wanted_backend, render_type, nvidia_type,
      add_env, add_mount, limits_of in *; rewrite ?Hgid;
    repeat (case_bool_decide || case_decide); try tauto; cbn in *; try accel_finish A1 A2.
Qed.

(** attaching a device to a pod never fails, changes only the first container,
    adds exactly the host path the configuration asks for, as a volume and a mount
    of it (none at all on the device-plugin and NVIDIA paths), tells the startup
    script the backend, replaces the command exactly for the known backends and
    keeps the container's security context and the init containers. *)
Theorem applyHardwareAccel_spec σ pod hw c rest :
  ps_Containers pod = c :: rest →
  ∃ σ' pod' c', applyHardwareAccel σ pod (Some hw) = Ok (σ', pod') ∧
    ps_Containers pod' = c' :: rest ∧ ps_InitContainers pod' = ps_InitContainers pod ∧
    ps_Volumes pod' = ps_Volumes pod ++ path_volumes (wanted_path hw) ∧
    c_VolumeMounts c' = c_VolumeMounts c ++ path_mounts (wanted_path hw) ∧
    c_SecurityContext c' = c_SecurityContext c ∧
    c_Command c' = match wanted_backend hw with Some _ => startupCommand | None => c_Command c end ∧
    c_Env c `prefix_of` c_Env c' ∧
    (∀ b, wanted_backend hw = Some b → mkEnv AccelTypeEnvVar b ∈ c_Env c') ∧
    (hw_DeviceResource hw ≠ "" → wanted_path hw = None).
Proof.
  intros Hc. destruct (applyHardwareAccel_effect σ pod hw c rest Hc) as (σ'&pod'&c'&Hr&Hc'&[]).
  exists σ', pod', c'. split_and!; auto. intros Hd. unfold wanted_path.
  by rewrite (bool_decide_eq_false_2 _ Hd), andb_false_r.
Qed.

(** the resource limits after attaching a device are the old ones with one
    unit of the wanted resource. The write goes through the map the container
    shares with whoever else holds it: a container that had limits keeps the same
    reference, and every other live map is unchanged. *)
Theorem applyHardwareAccel_store σ pod hw c rest :
  ps_Containers pod = c :: rest → limits_live σ c →
  ∃ σ' pod' c', applyHardwareAccel σ pod (Some hw) = Ok (σ', pod') ∧
    ps_Containers pod' = c' :: rest ∧
    limits_of σ' c' = match wanted_resource hw with
                      | Some r => <[r := resourceQuantityOne]> (limits_of σ c)
                      | None => limits_of σ c
                      end ∧
    (∀ l, l ∈ dom σ → rr_Limits (c_Resources c) ≠ Some l → σ' !! l = σ !! l) ∧
    (∀ l, rr_Limits (c_Resources c) = Some l → rr_Limits (c_Resources c') = Some l).
Proof.
  intros Hc Hlive.
  destruct (applyHardwareAccel_effect σ pod hw c rest Hc) as (σ'&pod'&c'&?&?&[]).
  exists σ', pod', c'. auto 10.
Qed.

(** ** The theorems at a concrete pod *)
Module Example_accel.
Definition limits : Store := {[ 7%N := {[ "cpu" := 2%Z ]} ]}.
Definition server : Container :=
  mkContainer JellyfinContainerName "jellyfin/jellyfin:10.10" "" [] [] [] []
    (mkResources (Some 7%N) None) [] None None None None.
Definition pod : PodSpec := mkPodSpec [server] [] [] [] None None ∅ [] "" None.
Definition qsv : HardwareAccel := mkHardwareAccel AccelQSV "" "gpu.intel.com/i915" None "".

Lemma server_live : limits_live limits server.
Proof. intros l [= <-]. by vm_compute. Defined.
End Example_accel.

Lemma applyHardwareAccel_spec_witness :
  ∃ σ' pod' c', applyHardwareAccel Example_accel.limits Example_accel.pod (Some Example_accel.qsv)
                = Ok (σ', pod') ∧
    ps_Containers pod' = [c'] ∧ c_Command c' = startupCommand ∧ ps_Volumes pod' = [].
Proof.
  destruct (applyHardwareAccel_spec Example_accel.limits Example_accel.pod Example_accel.qsv
              Example_accel.server [] eq_refl) as (σ'&pod'&c'&?&?&_&Hv&_&_&Hcmd&_).
  exists σ', pod', c'. split_and!; [done..|by rewrite Hv].
Defined.

Lemma applyHardwareAccel_store_witness :
  ∃ σ' pod', applyHardwareAccel Example_accel.limits Example_accel.pod (Some Example_accel.qsv)
             = Ok (σ', pod') ∧
    Example_accel.limits !! 7%N ≠ σ' !! 7%N.
Proof.
  destruct (applyHardwareAccel_store Example_accel.limits Example_accel.pod Example_accel.qsv
              Example_accel.server [] eq_refl Example_accel.server_live)
    as (σ'&pod'&c'&Hr&Hc&Hl&_&Hal).
  exists σ', pod'. split; [done|]. intros Heq.
  specialize (Hal 7%N eq_refl). unfold limits_of in Hl. rewrite Hal in Hl. cbv beta iota in Hl. rewrite <-Heq in Hl.
  apply (f_equal (lookup "gpu.intel.com/i915")) in Hl. vm_compute in Hl. discriminate Hl.
Defined.
