(* ===== verification/Script.v ===== *)
(** * The shell language of the containers

    The init containers, and the server when it has an accelerator, run
    [sh -c <script>]. This file gives the fragment of the
    POSIX shell those scripts are written in a meaning: a lexer and a parser
    (XCU 2.3, 2.10) from the script's bytes to commands, and a big-step
    evaluator (XCU 2.6 to 2.9, and the special built-ins of 2.14) over the files of the
    container. The commands that are not built into the shell are parameters. A
    byte or a construct outside the fragment is refused, never guessed. *)
From S2P Require Import Prelude GoStrings K8s Shell HwAccel.

(** ** Words and tokens *)

(** A word is a list of parts: unquoted text, [*], quoted text, and expansions, which
    the fragment has inside double quotes only, so that their values are never split
    or matched against file names: ["$x"], ["$1"], ["${x:-word}"], ["$(words)"], and
    [Safe] for ["$(words 2>/dev/null || true)"]. *)
Inductive part : Type :=
  | Bare (s : string)
  | Star
  | Quoted (s : string)
  | Var (x : string)
  | Arg (n : nat)
  | Default (x : string) (w : list part)
  | Subst (ws : list (list part))
  | Safe (ws : list (list part)).
Notation word := (list part).

(** [Gt n] is [n>], [GtAnd n] is [n>&]. *)
Inductive token : Type :=
  | Word (w : word) | Newline | Semi | AndIf | OrIf | LParen | RParen | Gt (fd : nat) | GtAnd (fd : nat).

(** ** The lexer

    One character at a time. [MEnd] follows a lone bracket, which must be a word
    by itself; [MAmp], [MBar] and [MGt] wait for the second byte of an operator,
    [MDqEsc] for the byte after a backslash between double quotes, [MBrace] and
    [MColon] are inside [${]. *)
Inductive mode : Type :=
  | MBare | MSingle | MDouble | MDollar | MVar | MEsc | MEnd | MAmp | MBar
  | MGt (fd : nat) | MDqEsc | MBrace | MColon.

(** What is open around the current word: a command substitution, with the tokens
    and the word before it, or the default of a variable, with the word before it. *)
Inductive frame : Type :=
  | InSubst (toks : list token) (w : word)
  | InDefault (x : string) (w : word).

(** [lx_toks] and the parts of [lx_cur] are in reverse. *)
Record lexer := Lexer {
  lx_mode : mode;
  lx_toks : list token;
  lx_cur : option word;
  lx_stack : list frame;
}.

Definition is_name_start (c : ascii) : bool := is_lower c || is_upper c || Ascii.eqb c "_".
Definition is_name_char (c : ascii) : bool := is_name_start c || is_digit c.
Definition bare_plain (c : ascii) : bool :=
  sh_plain c || existsb (Ascii.eqb c) ["="; "!"; "{"; "}"]%char.

(** What stands for itself between double quotes, also in the default of a variable. *)
Definition dq_plain (c : ascii) : bool :=
  negb (existsb (Ascii.eqb c) ["034"; "$"; "`"; "\"; "}"]%char).

Definition add_bare (s : string) (cur : option word) : option word :=
  Some (match cur with
        | Some (Bare t :: w) => Bare (t +:+ s) :: w
        | Some w => Bare s :: w
        | None => [Bare s]
        end).

Definition add_quoted (s : string) (cur : option word) : option word :=
  Some (match cur with
        | Some (Quoted t :: w) => Quoted (t +:+ s) :: w
        | Some w => Quoted s :: w
        | None => [Quoted s]
        end).

Definition add_name (c : ascii) (cur : option word) : option word :=
  match cur with
  | Some (Var x :: w) => Some (Var (x +:+ String c "") :: w)
  | _ => cur
  end.

Definition end_word (cur : option word) (toks : list token) : list token :=
  match cur with Some w => Word (rev w) :: toks | None => toks end.

Fixpoint take_words (ts : list token) : list word * list token :=
  match ts with
  | Word w :: ts => let '(ws, rest) := take_words ts in (w :: ws, rest)
  | _ => ([], ts)
  end.

Definition substitution (ts : list token) : option part :=
  match take_words ts with
  | (ws, []) => Some (Subst ws)
  | (ws, [Gt 2; Word [Bare f]; OrIf; Word [Bare t]]) =>
      if String.eqb f "/dev/null" && String.eqb t "true" then Some (Safe ws) else None
  | _ => None
  end.

Definition lex_bare (c : ascii) (l : lexer) : option lexer :=
  let '(Lexer _ toks cur stk) := l in
  if Ascii.eqb c "'" then Some (Lexer MSingle toks (add_quoted "" cur) stk)
  else if Ascii.eqb c "034" then Some (Lexer MDouble toks (add_quoted "" cur) stk)
  else if Ascii.eqb c "\" then Some (Lexer MEsc toks cur stk)
  else if is_blank c then Some (Lexer MBare (end_word cur toks) None stk)
  else if Ascii.eqb c "010" then Some (Lexer MBare (Newline :: end_word cur toks) None stk)
  else if Ascii.eqb c ";" then Some (Lexer MBare (Semi :: end_word cur toks) None stk)
  else if Ascii.eqb c "&" then Some (Lexer MAmp (end_word cur toks) None stk)
  else if Ascii.eqb c "|" then Some (Lexer MBar (end_word cur toks) None stk)
  else if Ascii.eqb c "[" || Ascii.eqb c "]" then
    match cur with
    | None => Some (Lexer MEnd toks (Some [Bare (String c "")]) stk)
    | Some _ => None
    end
  else if Ascii.eqb c "(" then Some (Lexer MBare (LParen :: end_word cur toks) None stk)
  else if Ascii.eqb c ")" then
    match stk with
    | InSubst outer w :: stk =>
        p ← substitution (rev (end_word cur toks));
        Some (Lexer MDouble outer (Some (p :: w)) stk)
    | [] => Some (Lexer MBare (RParen :: end_word cur toks) None [])
    | _ => None
    end
  else if Ascii.eqb c ">" then
    match cur with
    | None => Some (Lexer (MGt 1) toks None stk)
    | Some [Bare n] => if String.eqb n "2" then Some (Lexer (MGt 2) toks None stk) else None
    | _ => None
    end
  else if Ascii.eqb c "*" then Some (Lexer MBare toks (Some (Star :: default [] cur)) stk)
  else if bare_plain c then Some (Lexer MBare toks (add_bare (String c "") cur) stk)
  else None.

Definition lex_double (c : ascii) (l : lexer) : option lexer :=
  let '(Lexer _ toks cur stk) := l in
  if Ascii.eqb c "034" then match stk with InDefault _ _ :: _ => None | _ => Some (Lexer MBare toks cur stk) end
  else if Ascii.eqb c "$" then Some (Lexer MDollar toks cur stk)
  else if Ascii.eqb c "\" then Some (Lexer MDqEsc toks cur stk)
  else if Ascii.eqb c "}" then
    match stk with
    | InDefault x w :: stk => Some (Lexer MDouble toks (Some (Default x (rev (default [] cur)) :: w)) stk)
    | _ => Some (Lexer MDouble toks (add_quoted "}" cur) stk)
    end
  else if dq_plain c then Some (Lexer MDouble toks (add_quoted (String c "") cur) stk)
  else None.

Definition lex_char (l : lexer) (c : ascii) : option lexer :=
  let '(Lexer m toks cur stk) := l in
  match m with
  | MBare => lex_bare c l
  | MSingle =>
      if Ascii.eqb c "'" then Some (Lexer MBare toks cur stk)
      else Some (Lexer MSingle toks (add_quoted (String c "") cur) stk)
  | MDouble => lex_double c l
  | MDollar =>
      if Ascii.eqb c "(" then Some (Lexer MBare [] None (InSubst toks (default [] cur) :: stk))
      else if Ascii.eqb c "{" then Some (Lexer MBrace toks (Some (Var "" :: default [] cur)) stk)
      else if is_digit c then
        match Z.to_nat (digit_val c) with
        | 0 => None
        | n => Some (Lexer MDouble toks (Some (Arg n :: default [] cur)) stk)
        end
      else if is_name_start c then Some (Lexer MVar toks (Some (Var (String c "") :: default [] cur)) stk)
      else None
  | MVar =>
      if is_name_char c then Some (Lexer MVar toks (add_name c cur) stk) else lex_double c l
  | MEsc =>
      if Ascii.eqb c "010" then None
      else Some (Lexer MBare toks (add_quoted (String c "") cur) stk)
  | MEnd =>
      if is_blank c || Ascii.eqb c ";" || Ascii.eqb c "010" then lex_bare c l else None
  | MAmp => if Ascii.eqb c "&" then Some (Lexer MBare (AndIf :: toks) cur stk) else None
  | MBar => if Ascii.eqb c "|" then Some (Lexer MBare (OrIf :: toks) cur stk) else None
  | MGt fd =>
      if Ascii.eqb c "&" then Some (Lexer MBare (GtAnd fd :: toks) cur stk)
      else if Ascii.eqb c ">" then None
      else lex_bare c (Lexer MBare (Gt fd :: toks) cur stk)
  | MDqEsc =>
      if existsb (Ascii.eqb c) ["034"; "$"; "`"; "\"]%char then Some (Lexer MDouble toks (add_quoted (String c "") cur) stk)
      else if Ascii.eqb c "010" || Ascii.eqb c "}" then None
      else Some (Lexer MDouble toks (add_quoted (String "\" (String c "")) cur) stk)
  | MBrace =>
      match cur with
      | Some (Var x :: w) =>
          if (if decide (x = "") then is_name_start c else is_name_char c) then Some (Lexer MBrace toks (add_name c cur) stk)
          else if decide (x = "") then None
          else if Ascii.eqb c "}" then Some (Lexer MDouble toks cur stk)
          else if Ascii.eqb c ":" then Some (Lexer MColon toks cur stk)
          else None
      | _ => None
      end
  | MColon =>
      match cur with
      | Some (Var x :: w) =>
          if Ascii.eqb c "-" then Some (Lexer MDouble toks (Some []) (InDefault x w :: stk)) else None
      | _ => None
      end
  end.

Fixpoint lex_from (l : lexer) (s : string) : option lexer :=
  match s with
  | "" => Some l
  | String c s => l' ← lex_char l c; lex_from l' s
  end.

Definition lex (s : string) : option (list token) :=
  l ← lex_from (Lexer MBare [] None []) s;
  match lx_mode l, lx_stack l with
  | (MBare | MEnd), [] => Some (rev (end_word (lx_cur l) (lx_toks l)))
  | _, _ => None
  end.

(** ** Commands and the parser *)
Inductive redirection : Type := ToFile (f : word) | ToStderr.

Inductive cmd : Type :=
  | Assign (x : string) (v : word)
  | Simple (name : word) (args : list word)
  | Redirected (name : word) (args : list word) (r : redirection)
  | And (a b : cmd)
  | Or (a b : cmd)
  | Seq (a b : cmd)
  | If (c t : cmd) (e : option cmd)
  | For (x : string) (ws : list word) (body : cmd)
  | FunDef (f : string) (body : cmd).

(** [Unexpected t] is the shell's syntax error at token [t], [None] at the end; the
    others are no errors of the shell: the script is outside the fragment. *)
Inductive ParseError : Type := Unlexable | Unsupported | Unexpected (t : option token) | OutOfFuel.

Definition reserved : list string :=
  ["if"; "then"; "else"; "elif"; "fi"; "do"; "done"; "case"; "esac"; "while"; "until"; "for"; "{"; "}"; "!"; "in"].

Definition keyword (ts : list token) : option string :=
  match ts with
  | Word [Bare s] :: _ => if existsb (String.eqb s) reserved then Some s else None
  | _ => None
  end.

Definition unexpected {A} (ts : list token) : result ParseError A := Err (Unexpected (head ts)).

Definition expect (k : string) (ts : list token) : result ParseError (list token) :=
  if decide (keyword ts = Some k) then Ok (tail ts) else unexpected ts.

Fixpoint skip_newlines (ts : list token) : list token :=
  match ts with Newline :: ts => skip_newlines ts | _ => ts end.

(** [NAME=value] *)
Definition assignment (w : word) : option (string * word) :=
  match w with
  | Bare s :: w =>
      i ← Index "=" s;
      let x := take_s i s in
      if decide (x ≠ "") then
        if all_chars is_name_char x then Some (x, Bare (drop_s (S i) s) :: w) else None
      else None
  | _ => None
  end.

(** A word that would be matched against file names. *)
Definition is_pattern (w : word) : bool :=
  existsb (λ p, match p with Star => true | _ => false end) w.

(** At most one redirection, after the words. *)
Definition p_redirection (w : word) (ws : list word) (ts : list token) : result ParseError (cmd * list token) :=
  match ts with
  | Gt 1 :: Word f :: ts => if is_pattern f then Err Unsupported else Ok (Redirected w ws (ToFile f), ts)
  | GtAnd 1 :: Word [Bare n] :: ts =>
      if String.eqb n "2" then Ok (Redirected w ws ToStderr, ts) else Err Unsupported
  | (Gt _ | GtAnd _) :: _ => Err Unsupported
  | _ => Ok (Simple w ws, ts)
  end.

Definition p_simple (ts : list token) : result ParseError (cmd * list token) :=
  match keyword ts, take_words ts with
  | None, (w :: ws, rest) =>
      if existsb is_pattern (w :: ws) then Err Unsupported
      else match assignment w, ws with
      | Some (x, v), [] =>
          match rest with (Gt _ | GtAnd _) :: _ => Err Unsupported | _ => Ok (Assign x v, rest) end
      | Some _, _ :: _ => Err Unsupported
      | None, _ =>
          '(c, rest) ← p_redirection w ws rest;
          match c, rest with
          | Redirected _ _ _, (Word _ | Gt _ | GtAnd _) :: _ => Err Unsupported
          | _, _ => Ok (c, rest)
          end
      end
  | _, _ => unexpected ts
  end.

(** Names no function of the fragment may have: the special built-ins. *)
Definition special : list string := ["exit"; "set"; "exec"; "break"; "continue"].

(** A list ends before these, and with the script. *)
Definition at_end (ts : list token) : bool :=
  match ts with
  | [] => true
  | _ => match keyword ts with
         | Some k => existsb (String.eqb k) ["then"; "else"; "fi"; "done"; "}"]
         | None => false
         end
  end.

(** [p_list] is the grammar's compound list, which is never empty. *)
Fixpoint p_list (fuel : nat) (ts : list token) : result ParseError (cmd * list token) :=
  match fuel with
  | 0 => Err OutOfFuel
  | S n =>
      '(c, ts) ← p_command n (skip_newlines ts);
      '(c, ts) ← p_and_or n c ts;
      match ts with
      | (Newline | Semi) :: ts =>
          let ts := skip_newlines ts in
          if at_end ts then Ok (c, ts)
          else '(d, ts) ← p_list n ts; Ok (Seq c d, ts)
      | _ => Ok (c, ts)
      end
  end
with p_and_or (fuel : nat) (c : cmd) (ts : list token) : result ParseError (cmd * list token) :=
  match fuel with
  | 0 => Err OutOfFuel
  | S n =>
      match ts with
      | AndIf :: ts => '(d, ts) ← p_command n (skip_newlines ts); p_and_or n (And c d) ts
      | OrIf :: ts => '(d, ts) ← p_command n (skip_newlines ts); p_and_or n (Or c d) ts
      | _ => Ok (c, ts)
      end
  end
with p_command (fuel : nat) (ts : list token) : result ParseError (cmd * list token) :=
  match fuel with
  | 0 => Err OutOfFuel
  | S n =>
      if decide (keyword ts = Some "if") then
        '(c, ts) ← p_list n (tail ts);
        ts ← expect "then" ts;
        '(t, ts) ← p_list n ts;
        if decide (keyword ts = Some "else") then
          '(e, ts) ← p_list n (tail ts);
          ts ← expect "fi" ts; Ok (If c t (Some e), ts)
        else ts ← expect "fi" ts; Ok (If c t None, ts)
      else if decide (keyword ts = Some "for") then
        match tail ts with
        | Word [Bare x] :: ts =>
            ts ← expect "in" ts;
            let '(ws, ts) := take_words ts in
            match ts with
            | (Newline | Semi) :: ts =>
                ts ← expect "do" (skip_newlines ts);
                '(body, ts) ← p_list n ts;
                ts ← expect "done" ts; Ok (For x ws body, ts)
            | _ => unexpected ts
            end
        | ts => unexpected ts
        end
      else match ts with
      | Word [Bare f] :: LParen :: RParen :: ts =>
          if existsb (String.eqb f) special then Err Unsupported
          else
            ts ← expect "{" (skip_newlines ts);
            '(body, ts) ← p_list n ts;
            ts ← expect "}" ts; Ok (FunDef f body, ts)
      | _ => p_simple ts
      end
  end.

Definition parse (s : string) : result ParseError cmd :=
  match lex s with
  | None => Err Unlexable
  | Some ts =>
      '(c, rest) ← p_list (4 * length ts + 4) ts;
      match rest with [] => Ok c | _ => unexpected rest end
  end.

(** ** Evaluation *)

(** What the script runs against: [test -f] and [test -c]; an external command,
    given as its words, run to its exit status; the text that a command substitution
    leaves; the files that match a pattern, in order; a command with its standard
    output to a file. *)
Class Runtime (W : Type) := {
  sh_isfile : W → string → bool;
  sh_ischar : W → string → bool;
  sh_exec : list string → W → W * Z;
  sh_output : list string → W → string;
  sh_glob : W → string → list string;
  sh_write : list string → string → W → W * Z;
}.

Section eval.
Context {W : Type} `{!Runtime W}.

(** The functions that are defined and the positional parameters. *)
Record scope := mkScope { sc_functions : list (string * cmd); sc_args : list string }.
Definition top_level : scope := mkScope [] [].

Record shell := mkShell {
  sh_scope : scope;
  sh_vars : gmap string string;
  sh_errexit : bool;
  sh_world : W;
}.

(** [Break] and [Continue] are on their way to the loop around them; [Stuck] is a
    use of a built-in outside the fragment. *)
Inductive outcome : Type :=
  | Done (st : shell) (status : Z)
  | Exit (w : W) (status : Z)
  | Break (st : shell)
  | Continue (st : shell)
  | Stuck.

Fixpoint expand_part (st : shell) (p : part) : string :=
  match p with
  | Bare s | Quoted s => s
  | Star => "*"
  | Var x => default "" (sh_vars st !! x)
  | Arg n => nth (pred n) (sc_args (sh_scope st)) ""
  | Default x w =>
      match sh_vars st !! x with
      | Some (String c s) => String c s
      | _ => fold_right (λ p s, expand_part st p +:+ s) "" w
      end
  | Subst ws | Safe ws =>
      sh_output (map (λ w, fold_right (λ p s, expand_part st p +:+ s) "" w) ws) (sh_world st)
  end.

Definition expand (st : shell) (w : word) : string :=
  fold_right (λ p s, expand_part st p +:+ s) "" w.

(** The items of a loop: a pattern stands for itself when nothing matches it. *)
Definition expand_items (st : shell) (w : word) : list string :=
  if is_pattern w then
    match sh_glob (sh_world st) (expand st w) with [] => [expand st w] | fs => fs end
  else [expand st w].

Definition of_bool (b : bool) : Z := if b then 0 else 1.

(** [test] on two and three operands. *)
Definition unary_test (w : W) (op a : string) : option bool :=
  if String.eqb op "-f" then Some (sh_isfile w a)
  else if String.eqb op "-c" then Some (sh_ischar w a)
  else if String.eqb op "-z" then Some (String.eqb a "")
  else if String.eqb op "-n" then Some (negb (String.eqb a ""))
  else None.

Definition test_expr (w : W) (args : list string) : option bool :=
  match args with
  | [op; a] => unary_test w op a
  | [a; op; b] =>
      if String.eqb op "=" then Some (String.eqb a b)
      else if String.eqb op "!=" then Some (negb (String.eqb a b))
      else if String.eqb a "!" then negb <$> unary_test w op b
      else None
  | _ => None
  end.

Definition bracket (st : shell) (args : list string) : outcome :=
  match rev args with
  | close :: args =>
      if String.eqb close "]" then
        match test_expr (sh_world st) (rev args) with Some b => Done st (of_bool b) | None => Stuck end
      else Stuck
  | [] => Stuck
  end.

Definition set_world (w : W) (st : shell) : shell := mkShell (sh_scope st) (sh_vars st) (sh_errexit st) w.
Definition set_scope (k : scope) (st : shell) : shell := mkShell k (sh_vars st) (sh_errexit st) (sh_world st).
Definition set_var (x v : string) (st : shell) : shell :=
  mkShell (sh_scope st) (<[x := v]> (sh_vars st)) (sh_errexit st) (sh_world st).

Definition external (st : shell) (args : list string) : outcome :=
  let '(w, s) := sh_exec args (sh_world st) in Done (set_world w st) s.

Definition run_special (st : shell) (name : string) (args : list string) : outcome :=
  if String.eqb name "exit" then
    match args with [n] => match Atoi n with Some n => Exit (sh_world st) n | None => Stuck end | _ => Stuck end
  else if String.eqb name "set" then
    match args with
    | [o] => if String.eqb o "-e" then Done (mkShell (sh_scope st) (sh_vars st) true (sh_world st)) 0 else Stuck
    | _ => Stuck
    end
  else if String.eqb name "exec" then
    match args with [] => Stuck | _ => let '(w, s) := sh_exec args (sh_world st) in Exit w s end
  else match args with
    | [] => if String.eqb name "break" then Break st else Continue st
    | _ => Stuck
    end.

(** The output of [echo] is not observed. *)
Definition run_simple (st : shell) (name : string) (args : list string) : outcome :=
  if existsb (String.eqb name) special then run_special st name args
  else if String.eqb name "[" then bracket st args
  else if String.eqb name "echo" then Done st 0
  else if String.eqb name "" then Stuck
  else external st (name :: args).

(** Only an external command or [echo] may have its output in a file. *)
Definition run_to_file (st : shell) (name : string) (args : list string) (f : string) : outcome :=
  if existsb (String.eqb name) ("[" :: "" :: special) then Stuck
  else let '(w, s) := sh_write (name :: args) f (sh_world st) in Done (set_world w st) s.

(** [tested] holds where [set -e] is ignored: in the condition of an [if] and
    left of an [&&] or [||]. *)
Definition errexit (tested : bool) (o : outcome) : outcome :=
  match o with
  | Done st s => if sh_errexit st && negb tested && bool_decide (s ≠ 0%Z) then Exit (sh_world st) s else o
  | _ => o
  end.

Fixpoint function_of (fs : list (string * cmd)) (name : string) : option cmd :=
  match fs with
  | [] => None
  | (f, body) :: fs => if String.eqb f name then Some body else function_of fs name
  end.

(** The status of an assignment is that of its substitution, which is known for a
    [Safe] one only. *)
Definition known_status (v : word) : bool := forallb (λ p, match p with Subst _ => false | _ => true end) v.

(** A loop over [items]; [run] is the body. *)
Fixpoint loop (run : shell → outcome) (x : string) (items : list string) (st : shell) (last : Z) : outcome :=
  match items with
  | [] => Done st last
  | i :: items =>
      match run (set_var x i st) with
      | Done st s => loop run x items st s
      | Continue st => loop run x items st 0
      | Break st => Done st 0
      | o => o
      end
  end.

(** A function runs with its own positional parameters; it may not leave a loop
    of its caller. *)
Definition returned (k : scope) (o : outcome) : outcome :=
  match o with
  | Done st s => Done (set_scope (mkScope (sc_functions (sh_scope st)) (sc_args k)) st) s
  | Break _ | Continue _ => Stuck
  | o => o
  end.

Fixpoint eval_with (call : bool → cmd → shell → outcome) (tested : bool) (c : cmd) (st : shell) : outcome :=
  match c with
  | Assign x v => if known_status v then Done (set_var x (expand st v) st) 0 else Stuck
  | Simple n args =>
      match function_of (sc_functions (sh_scope st)) (expand st n) with
      | Some body =>
          returned (sh_scope st)
            (call tested body (set_scope (mkScope (sc_functions (sh_scope st)) (expand st <$> args)) st))
      | None => errexit tested (run_simple st (expand st n) (expand st <$> args))
      end
  | Redirected n args r =>
      match function_of (sc_functions (sh_scope st)) (expand st n), r with
      | Some _, _ => Stuck
      | None, ToFile f => errexit tested (run_to_file st (expand st n) (expand st <$> args) (expand st f))
      | None, ToStderr => errexit tested (run_simple st (expand st n) (expand st <$> args))
      end
  | And a b =>
      match eval_with call true a st with
      | Done st s => if decide (s = 0%Z) then eval_with call tested b st else Done st s
      | o => o
      end
  | Or a b =>
      match eval_with call true a st with
      | Done st s => if decide (s = 0%Z) then Done st s else eval_with call tested b st
      | o => o
      end
  | Seq a b => match eval_with call tested a st with Done st _ => eval_with call tested b st | o => o end
  | If c t e =>
      match eval_with call true c st with
      | Done st s =>
          if decide (s = 0%Z) then eval_with call tested t st
          else match e with Some e => eval_with call tested e st | None => Done st 0 end
      | o => o
      end
  | For x ws body => loop (eval_with call tested body) x (ws ≫= expand_items st) st 0
  | FunDef f body =>
      Done (set_scope (mkScope ((f, body) :: sc_functions (sh_scope st)) (sc_args (sh_scope st))) st) 0
  end.

(** Calls may be nested [n] deep. *)
Fixpoint eval_depth (n : nat) : bool → cmd → shell → outcome :=
  eval_with (match n with 0 => λ _ _ _, Stuck | S n => eval_depth n end).

Definition max_depth : nat := 4.
Definition eval : bool → cmd → shell → outcome := eval_depth max_depth.

(** [sh -c script] in environment [env]. A shell reads a command before it runs
    it, so a script whose first command does not parse runs nothing. *)
Inductive ran : Type := SyntaxError (e : ParseError) | Ran (w : W) (status : Z) | Refused.

Definition ran_of (o : outcome) : ran :=
  match o with
  | Done st s => Ran (sh_world st) s
  | Exit w s => Ran w s
  | Break _ | Continue _ | Stuck => Refused
  end.

Definition sh_c (env : gmap string string) (script : string) (w : W) : ran :=
  match parse script with
  | Err e => SyntaxError e
  | Ok c => ran_of (eval false c (mkShell top_level env false w))
  end.
End eval.
Arguments shell : clear implicits.
Arguments outcome : clear implicits.
Arguments ran : clear implicits.

(** ** Lexing a script piece by piece *)
Section lex.
Implicit Types (s t : string) (l : lexer).

Lemma lex_from_app l s t : lex_from l (s +:+ t) = lex_from l s ≫= λ l', lex_from l' t.
Proof.
  revert l. induction s as [|c s IH]; intros l; [done|]. cbn.
  destruct (lex_char l c); cbn; [apply IH|done].
Qed.

Lemma lex_from_step l l' s t : lex_from l s = Some l' → lex_from l (s +:+ t) = lex_from l' t.
Proof. intros H. by rewrite lex_from_app, H. Qed.

Lemma add_quoted_add s t cur : add_quoted t (add_quoted s cur) = add_quoted (s +:+ t) cur.
Proof. unfold add_quoted. destruct cur as [[|[] ]|]; cbn; try rewrite app_s_assoc; done. Qed.

Lemma add_bare_add s t cur : add_bare t (add_bare s cur) = add_bare (s +:+ t) cur.
Proof. unfold add_bare. destruct cur as [[|[] ]|]; cbn; try rewrite app_s_assoc; done. Qed.

(** A quoted string is one literal part, whatever bytes it holds. *)
Lemma lex_single u toks cur stk s t :
  lex_from (Lexer MSingle toks (add_quoted u cur) stk) (ReplaceByte "'" "'\''" s +:+ "'" +:+ t)
  = lex_from (Lexer MBare toks (add_quoted (u +:+ s) cur) stk) t.
Proof.
  revert u. induction s as [|c s IH]; intros u; [by rewrite app_s_nil_r|].
  cbn [ReplaceByte]. destruct (Ascii.eqb c "'") eqn:Hc.
  - apply Ascii.eqb_eq in Hc as ->. rewrite app_s_assoc.
    erewrite lex_from_step by (cbn [lex_from lex_char]; cbn; reflexivity).
    rewrite !add_quoted_add, IH. do 2 f_equal. by rewrite !app_s_assoc.
  - cbn [String.append lex_from lex_char]. rewrite Hc. cbn.
    rewrite add_quoted_add, IH. by rewrite app_s_snoc.
Qed.

Lemma lex_shellQuote toks cur stk s t :
  lex_from (Lexer MBare toks cur stk) (shellQuote s +:+ t)
  = lex_from (Lexer MBare toks (add_quoted s cur) stk) t.
Proof.
  unfold shellQuote. rewrite !app_s_assoc. cbn [String.append lex_from].
  cbn [lex_char]. cbn [lex_bare]. cbn. apply lex_single.
Qed.

Lemma lex_double_plain toks cur stk u s t :
  all_chars dq_plain s = true →
  lex_from (Lexer MDouble toks (add_quoted u cur) stk) (s +:+ t)
  = lex_from (Lexer MDouble toks (add_quoted (u +:+ s) cur) stk) t.
Proof.
  revert u. induction s as [|c s IH]; intros u; [by rewrite app_s_nil_r|].
  cbn [all_chars]. intros [Hc Hs]%andb_true_iff. cbn [String.append lex_from lex_char].
  assert (lex_double c (Lexer MDouble toks (add_quoted u cur) stk)
          = Some (Lexer MDouble toks (add_quoted (u +:+ String c "") cur) stk)) as ->.
  { unfold lex_double. rewrite Hc, <- (add_quoted_add u (String c "")). revert Hc. unfold dq_plain. cbn [existsb].
    by destruct (Ascii.eqb c "034"), (Ascii.eqb c "$"), (Ascii.eqb c "\"), (Ascii.eqb c "}"), (Ascii.eqb c "`"). }
  cbn. rewrite IH by done. by rewrite app_s_snoc.
Qed.

Lemma lex_double_text toks w stk u s t :
  all_chars dq_plain s = true →
  lex_from (Lexer MDouble toks (Some (Quoted u :: w)) stk) (s +:+ t)
  = lex_from (Lexer MDouble toks (Some (Quoted (u +:+ s) :: w)) stk) t.
Proof.
  intros Hs. generalize (lex_double_plain toks (Some (Quoted u :: w)) stk "" s t Hs). unfold add_quoted.
  by rewrite app_s_nil_r.
Qed.

Lemma bare_plain_ordinary : ∀ c, implb (bare_plain c)
  (negb (is_blank c || existsb (Ascii.eqb c) ["'"; "034"; "\"; "010"; ";"; "&"; "|"; "["; "]"; "("; ")"; ">"; "*"]%char)) = true.
Proof. by_bytes. Qed.

Lemma lex_bare_plain_char toks cur stk c :
  bare_plain c = true →
  lex_bare c (Lexer MBare toks cur stk) = Some (Lexer MBare toks (add_bare (String c "") cur) stk).
Proof.
  intros Hc. generalize (bare_plain_ordinary c). rewrite Hc. unfold lex_bare. rewrite Hc. cbn [implb existsb].
  rewrite negb_true_iff, !orb_false_iff. by intros (->&->&->&->&->&->&->&->&->&->&->&->&->&->&_).
Qed.

(** So is a string of unquoted characters with no meaning of their own. *)
Lemma lex_bare_plain toks cur stk u s t :
  all_chars bare_plain s = true →
  lex_from (Lexer MBare toks (add_bare u cur) stk) (s +:+ t)
  = lex_from (Lexer MBare toks (add_bare (u +:+ s) cur) stk) t.
Proof.
  revert u. induction s as [|c s IH]; intros u; [by rewrite app_s_nil_r|].
  cbn [all_chars]. intros [Hc Hs]%andb_true_iff. cbn [String.append lex_from lex_char].
  rewrite lex_bare_plain_char, add_bare_add by done. cbn. rewrite IH by done. by rewrite app_s_snoc.
Qed.

Lemma lex_bare_word toks stk s t :
  all_chars bare_plain s = true → s ≠ "" →
  lex_from (Lexer MBare toks None stk) (s +:+ t) = lex_from (Lexer MBare toks (Some [Bare s]) stk) t.
Proof.
  destruct s as [|c s]; [done|]. cbn [all_chars]. intros [Hc Hs]%andb_true_iff _.
  cbn [String.append lex_from lex_char]. rewrite lex_bare_plain_char by done. cbn [mbind option_bind].
  by rewrite lex_bare_plain.
Qed.

Lemma digit_plain : ∀ c, implb (is_digit c) (bare_plain c) = true.
Proof. by_bytes. Qed.

Lemma digits_plain s : all_chars is_digit s = true → all_chars bare_plain s = true.
Proof. apply all_chars_impl. intros c Hc. generalize (digit_plain c). by rewrite Hc. Qed.

Lemma pretty_Z_plain (n : Z) : all_chars bare_plain (pretty n) = true ∧ pretty n ≠ "".
Proof.
  assert (∀ m, (0 ≤ m)%Z → all_chars bare_plain (pretty m) = true ∧ pretty m ≠ "") as Hpos.
  { intros m Hm. split; [by apply digits_plain, pretty_digits|].
    by destruct (pretty_nonneg_first m Hm) as (c & t & -> & _). }
  destruct n as [|p|p]; [by apply Hpos|by apply Hpos|].
  change (pretty (Z.neg p)) with ("-" +:+ pretty (Z.pos p)). by split; [apply Hpos|].
Qed.
End lex.
