(* ===== verification/Builder.v ===== *)
(** * The instance Deployment (internal/plugins/builder.go)

    The pod template of a Jellyfin server and its plugins: storage and media
    volumes, plugin image volumes, the staging, install and hook init containers
    with their shell wrappers, security and device settings. *)
From S2P Require Import Prelude GoStrings K8s ApiTypes Naming Shell Meta PodSecurity HwAccel.

(** The newline the wrappers are written with. *)
Definition nl : string := String "010" "".

Definition installScriptEnvVar : string := "JELLYOPS_INSTALL_SCRIPT".

Inductive InstallError : Type := ScriptAndCommand | ScriptOrCommandRequired.
Inductive BuildError : Type :=
  | PluginError (plugin : string) (e : InstallError)
  | BuildPanic (p : Panic).

Definition pull_or_default (pull : string) : string := or_default PullIfNotPresent pull.

(** ** Volumes *)
Definition configVolume (jf : Jellyfin) : Volume :=
  pvc_volume ConfigVolumeName (mkPVCSource (ConfigClaimName jf) false).

Definition mediaReadOnly (mf : MediaFolder) : bool :=
  if mf_ReadOnly mf then true
  else match mf_NFS mf with
       | Some n => if nfs_ReadOnly n then true else false
       | None => false
       end.

(** [mf.NFS != nil && !mf.NFS.Provision && len(mf.NFS.MountOptions) == 0] *)
Definition inline_nfs (mf : MediaFolder) : option NFSSource :=
  match mf_NFS mf with
  | Some n => if negb (nfs_Provision n) && bool_decide (nfs_MountOptions n = []) then Some n else None
  | None => None
  end.

Definition mediaVolumeAndMount (jf : Jellyfin) (mf : MediaFolder) : Volume * VolumeMount :=
  let ro := mediaReadOnly mf in
  let vol := match inline_nfs mf with
             | Some n => nfs_volume (mediaVolumeName mf) (mkNFSSource (nfs_Server n) (nfs_Path n) ro)
             | None => pvc_volume (mediaVolumeName mf) (mkPVCSource (MediaClaimName jf mf) ro)
             end in
  (vol, mkMount (vol_Name vol) (mf_MountPath mf) "" ro).

Definition imageVolume (p : JellyfinPlugin) : Volume :=
  let img := pls_PluginImage (p_Spec p) in
  image_volume (imageVolumeName p)
    (mkImageSource (img_Reference img) (pull_or_default (img_PullPolicy img))).

Definition webContentVolume (web : WebSpec) : Volume :=
  image_volume WebContentVolumeName
    (mkImageSource (web_Image web) (pull_or_default (web_PullPolicy web))).

(** ** Init containers *)
Definition new_container (name image pull : string) (command : list string) (env : list EnvVar)
    (resources : ResourceRequirements) (mounts : list VolumeMount) : Container :=
  mkContainer name image pull command [] env [] resources mounts None None None None.

Definition config_mount : VolumeMount := mkMount ConfigVolumeName ConfigMountPath "" false.

Definition stagingContainer (defaultImage : string) (p : JellyfinPlugin) : Container :=
  let folder := PluginFolderName (EffectiveMeta p) in
  let src := path_Join StagingSrcBase (p_Name p) in
  let sub := PluginSubPath p in
  let from := if decide (sub ≠ "") then path_Join src sub else src in
  let dest := path_Join PluginsDirPath folder in
  let pull := pull_or_default (img_PullPolicy (pls_PluginImage (p_Spec p))) in
  let cmd := "set -e" +:+ nl +:+ "mkdir -p " +:+ shellQuote dest +:+ nl +:+
             "cp -r " +:+ shellQuote from +:+ "/. " +:+ shellQuote dest +:+ "/" in
  new_container (stagingContainerName p) defaultImage pull ["sh"; "-c"; cmd] []
    ResourceRequirements_zero
    [mkMount (imageVolumeName p) src "" true; config_mount].

Definition indent (s : string) : string :=
  if decide (s = "") then ""
  else Join ((λ l, "  " +:+ l) <$> Split "010" (TrimRightByte "010" s)) nl +:+ nl.

Definition touch_marker : string :=
  raw "mkdir -p `$(dirname `$MARKER`)`" +:+ nl +:+ raw "touch `$MARKER`" +:+ nl.

Definition install_run (inst : PluginInstall) : string :=
  let run := raw "sh -c `$" +:+ installScriptEnvVar +:+ raw "`" in
  match ins_TimeoutSeconds inst with
  | Some t => "timeout " +:+ pretty t +:+ " " +:+ run
  | None => run
  end.

Definition buildInstallWrapper (folder pluginName : string) (inst : PluginInstall) : string :=
  let marker := path_Join InstalledMarkerDir folder in
  let run := install_run inst in
  let guard := if ins_RunOnce inst then
                 "MARKER=" +:+ shellQuote marker +:+ nl +:+
                 raw "if [ -f `$MARKER` ]; then exit 0; fi" +:+ nl
               else "" in
  let touch := if ins_RunOnce inst then touch_marker else "" in
  if decide (ins_FailurePolicy inst = FailurePolicyFail) then
    guard +:+ "set -e" +:+ nl +:+ run +:+ nl +:+ touch
  else
    guard +:+ "if " +:+ run +:+ "; then" +:+ nl +:+ indent touch +:+
    "else" +:+ nl +:+ raw "  echo `jellyops: install for " +:+ pluginName +:+
    raw " failed (failurePolicy=Ignore)`" +:+ nl +:+ "fi" +:+ nl +:+ "exit 0" +:+ nl.

(** [inst] is the plugin's non-nil [spec.install]. *)
Definition installContainer (defaultImage : string) (p : JellyfinPlugin) (inst : PluginInstall)
    : result InstallError Container :=
  if decide (ins_Script inst ≠ "" ∧ ins_Command inst ≠ []) then Err ScriptAndCommand
  else if decide (ins_Script inst = "" ∧ ins_Command inst = []) then Err ScriptOrCommandRequired
  else
    let body := if decide (ins_Script inst = "") then shellJoin (ins_Command inst ++ ins_Args inst)
                else ins_Script inst in
    let '(image, pull) := match ins_Image inst with
                          | Some i => (img_Reference i, img_PullPolicy i)
                          | None => (defaultImage, "")
                          end in
    let folder := PluginFolderName (EffectiveMeta p) in
    let wrapper := buildInstallWrapper folder (p_Name p) inst in
    Ok (new_container (installContainerName p) image pull ["sh"; "-c"; wrapper]
          (mkEnv installScriptEnvVar body :: ins_Env inst) (ins_Resources inst)
          (config_mount :: ins_VolumeMounts inst)).

Definition fail_closed (inst : option PluginInstall) : bool :=
  match inst with Some i => bool_decide (ins_FailurePolicy i = FailurePolicyFail) | None => false end.

Definition timeout_prefix (inst : option PluginInstall) : string :=
  match inst ≫= ins_TimeoutSeconds with
  | Some t => "timeout " +:+ pretty t +:+ " "
  | None => ""
  end.

Definition buildHookWrapper (folder pluginName : string) (inst : option PluginInstall) : string :=
  let stage := path_Join PluginsDirPath folder in
  let marker := path_Join FirstRunMarkerDir folder in
  let failClosed := fail_closed inst in
  let timeoutPrefix := timeout_prefix inst in
  let b :=
    "STAGE=" +:+ shellQuote stage +:+ nl +:+ "MARKER=" +:+ shellQuote marker +:+ nl +:+
    raw "if [ -f `$STAGE/firstrun.sh` ] && [ ! -f `$MARKER` ]; then" +:+ nl +:+
    (if failClosed then
       "  " +:+ timeoutPrefix +:+ raw "sh `$STAGE/firstrun.sh`" +:+ nl +:+
       raw "  mkdir -p `$(dirname `$MARKER`)`" +:+ nl +:+ raw "  touch `$MARKER`" +:+ nl
     else
       "  if " +:+ timeoutPrefix +:+ raw "sh `$STAGE/firstrun.sh`; then" +:+ nl +:+
       raw "    mkdir -p `$(dirname `$MARKER`)`" +:+ nl +:+ raw "    touch `$MARKER`" +:+ nl +:+
       "  else" +:+ nl +:+ raw "    echo `jellyops: firstrun for " +:+ pluginName +:+
       raw " failed (failurePolicy=Ignore)`" +:+ nl +:+ "  fi" +:+ nl) +:+
    "fi" +:+ nl +:+
    raw "if [ -f `$STAGE/bootstrap.sh` ]; then" +:+ nl +:+
    (if failClosed then
       "  " +:+ timeoutPrefix +:+ raw "sh `$STAGE/bootstrap.sh`" +:+ nl
     else
       "  " +:+ timeoutPrefix +:+ raw "sh `$STAGE/bootstrap.sh` || echo `jellyops: bootstrap for "
       +:+ pluginName +:+ raw " failed (failurePolicy=Ignore)`" +:+ nl) +:+
    "fi" +:+ nl in
  if failClosed then "set -e" +:+ nl +:+ b else b +:+ "exit 0" +:+ nl.

Definition hookContainer (defaultImage : string) (p : JellyfinPlugin) : Container :=
  let inst := pls_Install (p_Spec p) in
  let '(image, pull) := match inst ≫= ins_Image with
                        | Some i => (img_Reference i, img_PullPolicy i)
                        | None => (defaultImage, "")
                        end in
  let '(mounts, env, resources) :=
    match inst with
    | Some i => (config_mount :: ins_VolumeMounts i, ins_Env i, ins_Resources i)
    | None => ([config_mount], [], ResourceRequirements_zero)
    end in
  let folder := PluginFolderName (EffectiveMeta p) in
  let wrapper := buildHookWrapper folder (p_Name p) inst in
  new_container (hookContainerName p) image pull ["sh"; "-c"; wrapper] env resources mounts.

(** ** The pod template

    What [BuildPodTemplateSpec] accumulates: the server container, the volumes
    and the init containers. *)
Record PodParts := mkParts {
  bp_Jellyfin : Container;
  bp_Volumes : list Volume;
  bp_Init : list Container;
}.

Definition baseParts (jf : Jellyfin) (image : string) : PodParts :=
  mkParts
    (mkContainer JellyfinContainerName image "" [] [] []
       [mkPort PortNameHTTP DefaultJellyfinPort ProtocolTCP] (js_Resources (jf_Spec jf))
       [config_mount] None None None None)
    [configVolume jf] [].

Definition add_pvc (name claim mountPath : string) (s : PodParts) : PodParts :=
  mkParts (add_mount (mkMount name mountPath "" false) (bp_Jellyfin s))
    (bp_Volumes s ++ [pvc_volume name (mkPVCSource claim false)]) (bp_Init s).

Definition addCache (jf : Jellyfin) (s : PodParts) : PodParts :=
  match st_Cache (js_Storage (jf_Spec jf)) with
  | Some c =>
      let cachePath := or_default CacheMountPath (pvc_MountPath c) in
      let s := add_pvc CacheVolumeName (CacheClaimName jf) cachePath s in
      mkParts (add_env "JELLYFIN_CACHE_DIR" cachePath (bp_Jellyfin s)) (bp_Volumes s) (bp_Init s)
  | None => s
  end.

Definition addTrickplay (jf : Jellyfin) (s : PodParts) : PodParts :=
  match st_Trickplay (js_Storage (jf_Spec jf)) with
  | Some t =>
      add_pvc TrickplayVolumeName (TrickplayClaimName jf)
        (or_default TrickplayMountPath (pvc_MountPath t)) s
  | None => s
  end.

Definition addMedia (jf : Jellyfin) (s : PodParts) (mf : MediaFolder) : PodParts :=
  let '(vol, mount) := mediaVolumeAndMount jf mf in
  mkParts (add_mount mount (bp_Jellyfin s)) (bp_Volumes s ++ [vol]) (bp_Init s).

Definition addWebVolume (jf : Jellyfin) (s : PodParts) : PodParts :=
  match js_Web (jf_Spec jf) with
  | Some web =>
      if decide (EffectiveMode (Some web) = WebModeVolume) then
        let c := add_mount (mkMount WebContentVolumeName WebContentMountPath (web_SubPath web) true)
                   (bp_Jellyfin s) in
        let c := set_c_Command [DefaultJellyfinCommand] c in
        let c := add_env "JELLYFIN_WEB_DIR" WebContentMountPath c in
        mkParts c (bp_Volumes s ++ [webContentVolume web]) (bp_Init s)
      else s
  | None => s
  end.

(** The read-only mount of an [imageVolume] plugin in the server container. *)
Definition plugin_mount (p : JellyfinPlugin) : VolumeMount :=
  mkMount (imageVolumeName p) (path_Join PluginsDirPath (PluginFolderName (EffectiveMeta p)))
    (PluginSubPath p) true.

Definition copies (p : JellyfinPlugin) : bool :=
  bool_decide (pls_Injection (p_Spec p) = InjectionImageVolumeCopy).

(** The plugin's legacy inline install, when one is set. *)
Definition inline_install (p : JellyfinPlugin) : option PluginInstall :=
  match pls_Install (p_Spec p) with
  | Some i => if decide (ins_Script i ≠ "" ∨ ins_Command i ≠ []) then Some i else None
  | None => None
  end.

(** One turn of the loop over the sorted plugins. *)
Definition addPlugin (image : string) (s : PodParts) (p : JellyfinPlugin)
    : result BuildError PodParts :=
  let volumes := bp_Volumes s ++ [imageVolume p] in
  let '(jellyfin, init) :=
    if copies p then (bp_Jellyfin s, bp_Init s ++ [stagingContainer image p])
    else (add_mount (plugin_mount p) (bp_Jellyfin s), bp_Init s) in
  init ← match inline_install p with
         | Some i =>
             match installContainer image p i with
             | Ok c => Ok (init ++ [c])
             | Err e => Err (PluginError (p_Name p) e)
             end
         | None => Ok init
         end;
  Ok (mkParts jellyfin volumes (if copies p then init ++ [hookContainer image p] else init)).

Fixpoint addPlugins (image : string) (s : PodParts) (ps : list JellyfinPlugin)
    : result BuildError PodParts :=
  match ps with
  | [] => Ok s
  | p :: ps => s' ← addPlugin image s p; addPlugins image s' ps
  end.

(** Everything before the plugins. *)
Definition serverParts (jf : Jellyfin) (image : string) : PodParts :=
  addWebVolume jf
    (fold_left (addMedia jf) (st_Media (js_Storage (jf_Spec jf)))
       (addTrickplay jf (addCache jf (baseParts jf image)))).

Definition initialPodSpec (jf : Jellyfin) (s : PodParts) : PodSpec :=
  mkPodSpec [bp_Jellyfin s] (bp_Init s) (bp_Volumes s) (js_ImagePullSecrets (jf_Spec jf))
    (Some (mkPSC (Some SeccompProfileTypeRuntimeDefault) None None None None []))
    None ∅ [] "" None.

(** Security of the server container, its pod and the init containers. *)
Definition securePodSpec (jf : Jellyfin) (s : PodParts) : PodSpec :=
  let podSpec := initialPodSpec jf s in
  let security := js_PodSecurity (jf_Spec jf) in
  let podSpec := secure_single (bp_Jellyfin s) podSpec security in
  set_ps_InitContainers
    ((λ c, applyContainerSecurity c security) <$> ps_InitContainers podSpec) podSpec.

#[global] Arguments securePodSpec : simpl never.

Definition instance_image (jf : Jellyfin) : string :=
  or_default DefaultJellyfinImage (js_Image (jf_Spec jf)).

Definition BuildPodTemplateSpec (σ : Store) (jf : Jellyfin) (plugins : list JellyfinPlugin)
    : result BuildError (Store * PodTemplateSpec) :=
  let sorted := sort_by p_Name plugins in
  let image := instance_image jf in
  parts ← addPlugins image (serverParts jf image) sorted;
  '(σ', podSpec) ← wrap_err BuildPanic
                     (applyHardwareAccel σ (securePodSpec jf parts)
                        (js_HardwareAcceleration (jf_Spec jf)));
  Ok (σ', mkPodTemplate (InstanceSelectorLabels jf) (js_PodAnnotations (jf_Spec jf)) podSpec).

Definition BuildDeployment (σ : Store) (jf : Jellyfin) (plugins : list JellyfinPlugin)
    : result BuildError (Store * Deployment) :=
  '(σ', pod) ← BuildPodTemplateSpec σ jf plugins;
  Ok (σ', {| dep_Meta := meta_lit (jf_Name jf) (jf_Namespace jf) (InstanceLabels jf) ∅;
             dep_Replicas := Some (default 1%Z (js_Replicas (jf_Spec jf)));
             dep_Selector := InstanceSelectorLabels jf;
             dep_Strategy := RecreateDeploymentStrategyType;
             dep_Template := pod;
             dep_Status := DeploymentStatus_zero |}).

(** ** What the pod is made of

    The same pod in declarative form: one list per field, read off the resource. *)
Definition conflicting (p : JellyfinPlugin) : bool :=
  match pls_Install (p_Spec p) with
  | Some i => bool_decide (ins_Script i ≠ "" ∧ ins_Command i ≠ [])
  | None => false
  end.

Definition install_steps (image : string) (p : JellyfinPlugin) : list Container :=
  match inline_install p with
  | Some i => match installContainer image p i with Ok c => [c] | Err _ => [] end
  | None => []
  end.

Definition plugin_init (image : string) (p : JellyfinPlugin) : list Container :=
  (if copies p then [stagingContainer image p] else []) ++ install_steps image p ++
  (if copies p then [hookContainer image p] else []).

Definition direct_mounts (ps : list JellyfinPlugin) : list VolumeMount :=
  plugin_mount <$> filter (λ p, copies p = false) ps.

Definition opt_list {A B} (f : A → B) (o : option A) : list B :=
  match o with Some a => [f a] | None => [] end.

Definition volume_web (jf : Jellyfin) : option WebSpec :=
  w ← js_Web (jf_Spec jf);
  if decide (EffectiveMode (Some w) = WebModeVolume) then Some w else None.

Definition server_volumes (jf : Jellyfin) : list Volume :=
  let st := js_Storage (jf_Spec jf) in
  [configVolume jf]
  ++ opt_list (λ _, pvc_volume CacheVolumeName (mkPVCSource (CacheClaimName jf) false)) (st_Cache st)
  ++ opt_list (λ _, pvc_volume TrickplayVolumeName (mkPVCSource (TrickplayClaimName jf) false))
       (st_Trickplay st)
  ++ ((λ mf, (mediaVolumeAndMount jf mf).1) <$> st_Media st)
  ++ opt_list webContentVolume (volume_web jf).

Definition server_mounts (jf : Jellyfin) : list VolumeMount :=
  let st := js_Storage (jf_Spec jf) in
  [config_mount]
  ++ opt_list (λ c, mkMount CacheVolumeName (or_default CacheMountPath (pvc_MountPath c)) "" false)
       (st_Cache st)
  ++ opt_list (λ t, mkMount TrickplayVolumeName (or_default TrickplayMountPath (pvc_MountPath t)) "" false)
       (st_Trickplay st)
  ++ ((λ mf, (mediaVolumeAndMount jf mf).2) <$> st_Media st)
  ++ opt_list (λ w, mkMount WebContentVolumeName WebContentMountPath (web_SubPath w) true)
       (volume_web jf).

Definition accel_path (jf : Jellyfin) : option (string * string) :=
  js_HardwareAcceleration (jf_Spec jf) ≫= wanted_path.

Definition pod_security (jf : Jellyfin) (c : Container) : Container :=
  applyContainerSecurity c (js_PodSecurity (jf_Spec jf)).

Definition accel_resource (jf : Jellyfin) : option string :=
  js_HardwareAcceleration (jf_Spec jf) ≫= wanted_resource.

(** The pod [pod] and its server container [c], built from the resource and the
    name-sorted plugins. *)
Record built_pod (σ : Store) (jf : Jellyfin) (sorted : list JellyfinPlugin)
    (σ' : Store) (pod : PodSpec) (c : Container) : Prop := {
  bt_containers : ps_Containers pod = [c];
  bt_init : ps_InitContainers pod =
    pod_security jf <$> (sorted ≫= plugin_init (instance_image jf));
  bt_volumes : ps_Volumes pod =
    server_volumes jf ++ (imageVolume <$> sorted) ++ path_volumes (accel_path jf);
  bt_mounts : c_VolumeMounts c =
    server_mounts jf ++ direct_mounts sorted ++ path_mounts (accel_path jf);
  bt_identity : c_Name c = JellyfinContainerName ∧ c_Image c = instance_image jf;
  bt_no_escalation : no_escalation c;
  bt_hardened : opted_out (js_PodSecurity (jf_Spec jf)) = false →
    hardened (js_PodSecurity (jf_Spec jf)) c;
  bt_seccomp : ∃ psc, ps_SecurityContext pod = Some psc ∧
    psc_SeccompProfile psc = Some SeccompProfileTypeRuntimeDefault;
  bt_frame : (∀ l, rr_Limits (js_Resources (jf_Spec jf)) = Some l → l ∈ dom σ) →
    ∀ l, l ∈ dom σ → rr_Limits (js_Resources (jf_Spec jf)) ≠ Some l ∨ accel_resource jf = None →
    σ' !! l = σ !! l;
  bt_alias : ∀ l r, rr_Limits (js_Resources (jf_Spec jf)) = Some l → l ∈ dom σ →
    accel_resource jf = Some r →
    σ' !! l = Some (<[r := resourceQuantityOne]> (default ∅ (σ !! l)));
}.

Section builder.
Implicit Types (jf : Jellyfin) (p : JellyfinPlugin) (ps : list JellyfinPlugin) (σ : Store)
  (c : Container) (s : PodParts) (image : string).

(** *** Installs *)
Lemma inline_install_Some p i :
  inline_install p = Some i ↔
  pls_Install (p_Spec p) = Some i ∧ (ins_Script i ≠ "" ∨ ins_Command i ≠ []).
Proof. unfold inline_install. case_match; [|naive_solver]. case_decide; naive_solver. Qed.

Lemma installContainer_inline image p i :
  inline_install p = Some i →
  if conflicting p then installContainer image p i = Err ScriptAndCommand
  else ∃ c, installContainer image p i = Ok c.
Proof.
  intros [Hi Hone]%inline_install_Some. unfold conflicting, installContainer. rewrite Hi.
  case_bool_decide; case_decide; try done.
  case_decide; [tauto|]. destruct (ins_Image i); eauto.
Qed.

Lemma conflicting_inline p : conflicting p = true → ∃ i, inline_install p = Some i.
Proof.
  unfold conflicting, inline_install. case_match; [|done]. intros [??]%bool_decide_eq_true.
  rewrite decide_True by tauto. eauto.
Qed.

(** *** The loop over the plugins *)
Lemma addPlugin_ok image s p :
  conflicting p = false →
  addPlugin image s p =
    Ok (mkParts (if copies p then bp_Jellyfin s else add_mount (plugin_mount p) (bp_Jellyfin s))
          (bp_Volumes s ++ [imageVolume p]) (bp_Init s ++ plugin_init image p)).
Proof.
  intros Hc. unfold addPlugin, plugin_init, install_steps.
  destruct (inline_install p) as [i|] eqn:Hi.
  - pose proof (installContainer_inline image p i Hi) as H. rewrite Hc in H. destruct H as [c ->].
    destruct (copies p); cbn; by rewrite ?app_nil_r, <-?app_assoc.
  - destruct (copies p); cbn; by rewrite ?app_nil_r, <-?app_assoc.
Qed.

Lemma addPlugin_err image s p :
  conflicting p = true → addPlugin image s p = Err (PluginError (p_Name p) ScriptAndCommand).
Proof.
  intros Hc. destruct (conflicting_inline p Hc) as [i Hi].
  pose proof (installContainer_inline image p i Hi) as H. rewrite Hc in H.
  unfold addPlugin. rewrite Hi, H. by destruct (copies p).
Qed.

Definition with_mounts (ms : list VolumeMount) (c : Container) : Container :=
  set_c_VolumeMounts (c_VolumeMounts c ++ ms) c.

Lemma with_mounts_nil c : with_mounts [] c = c.
Proof. destruct c; unfold with_mounts; cbn. by rewrite app_nil_r. Qed.

Lemma direct_mounts_cons p ps :
  direct_mounts (p :: ps) = (if copies p then [] else [plugin_mount p]) ++ direct_mounts ps.
Proof.
  unfold direct_mounts. rewrite filter_cons.
  destruct (copies p); [by rewrite decide_False|by rewrite decide_True].
Qed.

Lemma addPlugins_ok image s ps :
  Forall (λ p, conflicting p = false) ps →
  addPlugins image s ps =
    Ok (mkParts (with_mounts (direct_mounts ps) (bp_Jellyfin s))
          (bp_Volumes s ++ (imageVolume <$> ps)) (bp_Init s ++ (ps ≫= plugin_init image))).
Proof.
  intros H. revert s. induction H as [|p ps Hp _ IH]; intros s; cbn [addPlugins].
  - destruct s; cbn. by rewrite with_mounts_nil, !app_nil_r.
  - rewrite (addPlugin_ok _ _ _ Hp). cbn [mbind result_bind]. rewrite IH, direct_mounts_cons.
    cbn [bp_Jellyfin bp_Volumes bp_Init]. rewrite <-!app_assoc. do 2 f_equal.
    destruct (copies p); [done|]. by unfold with_mounts, add_mount; cbn; rewrite <-app_assoc.
Qed.

Lemma addPlugins_err image s ps1 p ps2 :
  Forall (λ p, conflicting p = false) ps1 → conflicting p = true →
  addPlugins image s (ps1 ++ p :: ps2) = Err (PluginError (p_Name p) ScriptAndCommand).
Proof.
  intros H Hp. revert s. induction H as [|q ps Hq _ IH]; intros s; cbn [addPlugins app].
  - by rewrite (addPlugin_err _ _ _ Hp).
  - rewrite (addPlugin_ok _ _ _ Hq). apply IH.
Qed.

(** The first plugin of a list that sets both a script and a command. *)
Lemma conflicting_split ps :
  Forall (λ p, conflicting p = false) ps ∨
  ∃ ps1 p ps2, ps = ps1 ++ p :: ps2 ∧ Forall (λ p, conflicting p = false) ps1 ∧ conflicting p = true.
Proof.
  induction ps as [|p ps [IH|(ps1&q&ps2&->&H1&Hq)]]; [by left|..];
    destruct (conflicting p) eqn:Hp.
  - right. exists [], p, ps. auto.
  - left. by constructor.
  - right. exists [], p, (ps1 ++ q :: ps2). auto.
  - right. exists (p :: ps1), q, ps2. auto.
Qed.

(** *** The server container before the plugins *)
Lemma addMedia_fold jf mfs s :
  fold_left (addMedia jf) mfs s =
    mkParts (with_mounts ((λ mf, (mediaVolumeAndMount jf mf).2) <$> mfs) (bp_Jellyfin s))
      (bp_Volumes s ++ ((λ mf, (mediaVolumeAndMount jf mf).1) <$> mfs)) (bp_Init s).
Proof.
  revert s. induction mfs as [|mf mfs IH]; intros s; cbn [fold_left].
  - destruct s; cbn. by rewrite with_mounts_nil, app_nil_r.
  - rewrite IH, !fmap_cons. unfold addMedia, with_mounts, add_mount.
    destruct (mediaVolumeAndMount jf mf) as [v mt]; cbn. by rewrite <-!app_assoc.
Qed.

Lemma serverParts_spec jf image :
  let s := serverParts jf image in
  bp_Volumes s = server_volumes jf ∧ c_VolumeMounts (bp_Jellyfin s) = server_mounts jf ∧
  bp_Init s = [] ∧ c_SecurityContext (bp_Jellyfin s) = None ∧
  c_Resources (bp_Jellyfin s) = js_Resources (jf_Spec jf) ∧ c_Image (bp_Jellyfin s) = image ∧
  c_Name (bp_Jellyfin s) = JellyfinContainerName.
Proof.
  cbv zeta. unfold serverParts. rewrite addMedia_fold.
  unfold server_volumes, server_mounts, volume_web, addWebVolume, addTrickplay, addCache.
  destruct (st_Cache _), (st_Trickplay _), (js_Web _) as [w|]; cbn [mbind option_bind];
    try destruct (decide (EffectiveMode (Some w) = WebModeVolume)); cbn;
    rewrite ?app_nil_r, <-?app_assoc; auto 10.
Qed.

(** *** Security *)
Lemma securePodSpec_spec jf s :
  let pod := securePodSpec jf s in
  ps_Containers pod = [pod_security jf (bp_Jellyfin s)] ∧
  ps_InitContainers pod = pod_security jf <$> bp_Init s ∧
  ps_Volumes pod = bp_Volumes s ∧
  ∃ psc, ps_SecurityContext pod = Some psc ∧
    psc_SeccompProfile psc = Some SeccompProfileTypeRuntimeDefault.
Proof.
  cbv zeta. unfold securePodSpec, secure_single, pod_security.
  rewrite <-(applyPodSecurity_container (bp_Jellyfin s) (initialPodSpec jf s)).
  unfold applyPodSecurity. destruct (opted_out _); cbn; eauto 10.
Qed.

Lemma pod_security_no_escalation jf c : no_escalation (pod_security jf c).
Proof. unfold pod_security. auto with jellyops. Qed.

Lemma pod_security_mounts jf c : c_VolumeMounts (pod_security jf c) = c_VolumeMounts c.
Proof. apply same_but_security_mounts. unfold pod_security. auto with jellyops. Qed.

Lemma pod_security_fields jf c :
  c_Name (pod_security jf c) = c_Name c ∧ c_Image (pod_security jf c) = c_Image c ∧
  c_Command (pod_security jf c) = c_Command c ∧ c_Resources (pod_security jf c) = c_Resources c ∧
  c_Env (pod_security jf c) = c_Env c.
Proof. unfold pod_security, applyContainerSecurity. by destruct (opted_out _). Qed.


(** *** The whole pod *)
Lemma BuildPodTemplateSpec_built σ jf ps :
  Forall (λ p, conflicting p = false) ps →
  ∃ σ' t c, BuildPodTemplateSpec σ jf ps = Ok (σ', t) ∧
    pt_Labels t = InstanceSelectorLabels jf ∧ pt_Annotations t = js_PodAnnotations (jf_Spec jf) ∧
    built_pod σ jf (sort_by p_Name ps) σ' (pt_Spec t) c.
Proof.
  intros Hps. rewrite <-(sort_by_Permutation p_Name ps) in Hps.
  unfold BuildPodTemplateSpec. rewrite (addPlugins_ok _ _ _ Hps). cbn [mbind result_bind].
  destruct (serverParts_spec jf (instance_image jf)) as (Hv&Hm&Hi&Hsc&Hr&Him&Hn).
  set (s := mkParts _ _ _). destruct (securePodSpec_spec jf s) as (HC&HI&HV&HP).
  set (c0 := pod_security jf (bp_Jellyfin s)) in *.
  destruct (pod_security_fields jf (bp_Jellyfin s)) as (F1&F2&_&F4&_).
  pose proof (pod_security_mounts jf (bp_Jellyfin s)) as F6. fold c0 in F1, F2, F4, F6.
  assert (Hno : no_escalation c0) by apply pod_security_no_escalation.
  assert (Hh : opted_out (js_PodSecurity (jf_Spec jf)) = false → hardened (js_PodSecurity (jf_Spec jf)) c0)
    by (intros; by apply applyContainerSecurity_hardened).
  cbn in F1, F2, F4, F6, HV, HI.
  rewrite Hm in F6; rewrite Hv in HV; rewrite Hi in HI; rewrite Hn in F1; rewrite Him in F2;
    rewrite Hr in F4.
  destruct (js_HardwareAcceleration (jf_Spec jf)) as [hw|] eqn:Hhw.
  - destruct (applyHardwareAccel_effect σ _ hw _ _ HC) as (σ'&pod'&c'&->&HC'&E).
    destruct E as [Ainit Avolumes Amounts Asecurity [Aname Aimage] _ _ _ Apod _ Aframe _ Aown].
    cbn. do 3 eexists. split; [reflexivity|]. do 2 (split; [reflexivity|]).
    split; cbn; unfold accel_path, accel_resource; rewrite ?Hhw; cbn.
    + done.
    + by rewrite Ainit, HI.
    + by rewrite Avolumes, HV, <-app_assoc.
    + by rewrite Amounts, F6, <-app_assoc.
    + by rewrite Aname, Aimage.
    + unfold no_escalation. by rewrite Asecurity.
    + unfold hardened. by rewrite Asecurity.
    + destruct HP as (psc&Hpsc&Hse). rewrite Hpsc in Apod. cbn in Apod.
      destruct (ps_SecurityContext pod') as [psc'|]; cbn in Apod.
      * eexists; split; [done|]. by rewrite Apod.
      * exfalso. apply (f_equal psc_SeccompProfile) in Apod. cbn in *. congruence.
    + intros Hlive l Hl Hor. destruct (decide (rr_Limits (js_Resources (jf_Spec jf)) = Some l)) as [He|Hne].
      * destruct Hor as [|Hnone]; [done|]. rewrite Aown by (rewrite F4; done).
        by rewrite Hnone.
      * apply Aframe; [|done|by rewrite F4]. intros l' Hl'. apply Hlive. by rewrite <-F4.
    + intros l r Hl Hin Hwr. rewrite Aown by (by rewrite F4). by rewrite Hwr.
  - cbn. do 3 eexists. split; [reflexivity|]. do 2 (split; [reflexivity|]).
    split; cbn; unfold accel_path, accel_resource; rewrite ?Hhw; cbn; rewrite ?app_nil_r; auto; done.
Qed.
End builder.

(** ** Names and mounts *)
Definition named_with (x : ascii) (names : list string) : Prop :=
  Forall (λ n, first_char n = Some x) names.

Section pod_names.
Implicit Types (jf : Jellyfin) (p : JellyfinPlugin) (ps : list JellyfinPlugin).

Definition media_names jf : list string := mediaVolumeName <$> st_Media (js_Storage (jf_Spec jf)).

Lemma mediaVolumeAndMount_names jf mf :
  vol_Name (mediaVolumeAndMount jf mf).1 = mediaVolumeName mf ∧
  vm_Name (mediaVolumeAndMount jf mf).2 = mediaVolumeName mf.
Proof. unfold mediaVolumeAndMount. by destruct (inline_nfs mf). Qed.

Definition optional_names {A} (n : string) (o : option A) : list string := opt_list (λ _, n) o.

Lemma server_volume_names jf :
  vol_Name <$> server_volumes jf =
    (ConfigVolumeName :: optional_names CacheVolumeName (st_Cache (js_Storage (jf_Spec jf))))
    ++ optional_names TrickplayVolumeName (st_Trickplay (js_Storage (jf_Spec jf)))
    ++ media_names jf ++ optional_names WebContentVolumeName (volume_web jf).
Proof.
  unfold server_volumes, media_names. rewrite !fmap_app, <-list_fmap_compose.
  rewrite (list_fmap_ext _ mediaVolumeName) by (intros; apply mediaVolumeAndMount_names).
  by destruct (st_Cache _), (st_Trickplay _), (volume_web jf).
Qed.

Lemma server_mount_names jf : vm_Name <$> server_mounts jf = vol_Name <$> server_volumes jf.
Proof.
  rewrite server_volume_names. unfold server_mounts, media_names.
  rewrite !fmap_app, <-list_fmap_compose.
  rewrite (list_fmap_ext _ mediaVolumeName) by (intros; apply mediaVolumeAndMount_names).
  by destruct (st_Cache _), (st_Trickplay _), (volume_web jf).
Qed.

Lemma path_names w : vm_Name <$> path_mounts w = vol_Name <$> path_volumes w.
Proof. by destruct w as [[]|]. Qed.

Lemma named_with_optional {A} x n (o : option A) :
  first_char n = Some x → named_with x (optional_names n o).
Proof. intros. destruct o; repeat constructor; done. Qed.

Lemma NoDup_optional {A} n (o : option A) : NoDup (optional_names n o).
Proof. destruct o; cbn; [apply NoDup_singleton|constructor]. Qed.

Lemma named_with_map {A} x (f : A → string) l :
  (∀ a, first_char (f a) = Some x) → named_with x (f <$> l).
Proof. intros H. apply Forall_fmap, Forall_forall. intros a _. apply H. Qed.

(** A list of names that all avoid a first byte is disjoint from one that has it. *)
Definition avoids (x : ascii) (names : list string) : Prop :=
  Forall (λ n, first_char n ≠ Some x) names.

Lemma named_with_avoids x y l : x ≠ y → named_with x l → avoids y l.
Proof. intros Hne H. eapply Forall_impl; [exact H|]. cbn. congruence. Qed.

Lemma NoDup_tagged x l1 l2 :
  named_with x l1 → NoDup l1 → avoids x l2 → NoDup l2 → NoDup (l1 ++ l2).
Proof.
  intros H1 N1 H2 N2. apply NoDup_app. split_and!; [done| |done].
  intros n Hn Hn'. unfold named_with, avoids in *. rewrite Forall_forall in H1, H2.
  by apply (H2 _ Hn'), H1.
Qed.

Lemma avoids_app x l1 l2 : avoids x l1 → avoids x l2 → avoids x (l1 ++ l2).
Proof. intros. by apply Forall_app. Qed.

Ltac avoid_tag :=
  repeat apply avoids_app; (eapply named_with_avoids; [|eassumption]; done).

Lemma pod_volume_names_NoDup jf ps w :
  NoDup (media_names jf) → NoDup (imageVolumeName <$> ps) →
  NoDup (vol_Name <$> server_volumes jf ++ (imageVolume <$> ps) ++ path_volumes w).
Proof.
  intros Hm Hp. rewrite !fmap_app, server_volume_names, <-!app_assoc, <-list_fmap_compose.
  change (vol_Name ∘ imageVolume) with imageVolumeName.
  set (dri := vol_Name <$> path_volumes w).
  assert (Hdri : named_with "d" dri) by (destruct w as [[]|]; repeat constructor).
  assert (Ndri : NoDup dri)
    by (destruct w as [[]|]; cbn; [apply NoDup_singleton|constructor]).
  assert (Hweb : named_with "j" (optional_names WebContentVolumeName (volume_web jf)))
    by by apply named_with_optional.
  assert (Htp : named_with "t" (optional_names TrickplayVolumeName (st_Trickplay (js_Storage (jf_Spec jf)))))
    by by apply named_with_optional.
  assert (Hmed : named_with "m" (media_names jf)) by (apply named_with_map; intros; by apply prefixed_first).
  assert (Hpl : named_with "p" (imageVolumeName <$> ps)) by (apply named_with_map; intros; by apply prefixed_first).
  apply (NoDup_tagged "c"); [repeat constructor; by apply named_with_optional| | |].
  { destruct (st_Cache _); cbn; repeat constructor; rewrite ?list_elem_of_singleton;
      (apply not_elem_of_nil || done). }
  { avoid_tag. }
  apply (NoDup_tagged "t"); [done|apply NoDup_optional| |].
  { avoid_tag. }
  apply (NoDup_tagged "m"); [done|done| |].
  { avoid_tag. }
  apply (NoDup_tagged "j"); [done|apply NoDup_optional| |].
  { avoid_tag. }
  apply (NoDup_tagged "p"); [done|done| |done].
  avoid_tag.
Qed.
End pod_names.

(** *** Consequences of the pod's shape *)
Section built.
Implicit Types (jf : Jellyfin) (p : JellyfinPlugin) (ps : list JellyfinPlugin) (σ : Store).

(** The mounts of an init container: the plugin's image, the config volume, or
    one the plugin's install block lists itself. *)
Lemma plugin_init_mounts image p c m :
  c ∈ plugin_init image p → m ∈ c_VolumeMounts c →
  vm_Name m = imageVolumeName p ∨ m = config_mount ∨
  ∃ i, pls_Install (p_Spec p) = Some i ∧ m ∈ ins_VolumeMounts i.
Proof.
  unfold plugin_init, install_steps. rewrite !elem_of_app. intros [Hc|[Hc|Hc]] Hm.
  - destruct (copies p); [|by apply elem_of_nil in Hc].
    apply list_elem_of_singleton in Hc as ->. cbn in Hm.
    rewrite !elem_of_cons in Hm. destruct Hm as [->|[->|[]%elem_of_nil]]; auto.
  - destruct (inline_install p) as [i|] eqn:Hi; [|by apply elem_of_nil in Hc].
    apply inline_install_Some in Hi as [Hi _].
    unfold installContainer in Hc. repeat (case_decide; [by apply elem_of_nil in Hc|]).
    destruct (ins_Image i); apply list_elem_of_singleton in Hc as ->; cbn in Hm;
      apply elem_of_cons in Hm as [->|Hm]; eauto.
  - destruct (copies p); [|by apply elem_of_nil in Hc].
    apply list_elem_of_singleton in Hc as ->. unfold hookContainer in Hm.
    destruct (pls_Install (p_Spec p)) as [i|]; cbn in Hm.
    + destruct (ins_Image i); cbn in Hm; apply elem_of_cons in Hm as [->|Hm]; eauto.
    + apply list_elem_of_singleton in Hm as ->; auto.
Qed.

Lemma config_volume_in jf : ConfigVolumeName ∈ vol_Name <$> server_volumes jf.
Proof. rewrite server_volume_names. cbn. apply elem_of_cons; auto. Qed.

Lemma direct_mounts_names ps m :
  m ∈ direct_mounts ps → vm_Name m ∈ imageVolumeName <$> ps.
Proof.
  intros (p&->&[_ Hp]%list_elem_of_filter)%list_elem_of_fmap.
  apply list_elem_of_fmap. by exists p.
Qed.
End built.

Lemma BuildDeployment_Ok_built σ jf ps σ' d :
  BuildDeployment σ jf ps = Ok (σ', d) →
  ∃ c, built_pod σ jf (sort_by p_Name ps) σ' (pt_Spec (dep_Template d)) c ∧
    pt_Labels (dep_Template d) = InstanceSelectorLabels jf ∧
    dep_Selector d = InstanceSelectorLabels jf ∧ dep_Strategy d = RecreateDeploymentStrategyType ∧
    om_Name (dep_Meta d) = jf_Name jf ∧ om_Namespace (dep_Meta d) = jf_Namespace jf ∧
    dep_Replicas d = Some (default 1%Z (js_Replicas (jf_Spec jf))).
Proof.
  unfold BuildDeployment. intros ([σ1 t]&Ht&[= <- <-])%bind_Ok.
  destruct (conflicting_split (sort_by p_Name ps)) as [Hall|(ps1&p&ps2&Hs&H1&Hp)].
  - rewrite (sort_by_Permutation p_Name ps) in Hall.
    destruct (BuildPodTemplateSpec_built σ jf ps Hall) as (σ2&t'&c&Ht'&Hl&_&Hb).
    rewrite Ht in Ht'. injection Ht' as <- <-. exists c. done.
  - exfalso. unfold BuildPodTemplateSpec in Ht. rewrite Hs, (addPlugins_err _ _ _ _ _ H1 Hp) in Ht.
    discriminate Ht.
Qed.

(** ** The component's contract *)

(** building the Deployment never panics, and fails exactly when some plugin
    sets both a script and a command, naming the first such plugin by name. *)
Theorem BuildDeployment_outcome σ jf ps :
  match BuildDeployment σ jf ps with
  | Ok _ => Forall (λ p, conflicting p = false) ps
  | Err e => ∃ p, p ∈ ps ∧ conflicting p = true ∧ e = PluginError (p_Name p) ScriptAndCommand ∧
               ∀ q, q ∈ ps → conflicting q = true → String.le (p_Name p) (p_Name q)
  end.
Proof.
  pose proof (sort_by_Permutation p_Name ps) as Hperm.
  pose proof (sort_by_sorted p_Name ps) as Hsorted.
  destruct (conflicting_split (sort_by p_Name ps)) as [Hall|(ps1&p&ps2&Hs&H1&Hp)].
  - rewrite Hperm in Hall. unfold BuildDeployment.
    by destruct (BuildPodTemplateSpec_built σ jf ps Hall) as (σ2&t'&c&->&_).
  - unfold BuildDeployment, BuildPodTemplateSpec.
    rewrite Hs, (addPlugins_err _ _ _ _ _ H1 Hp). cbn. exists p.
    split_and!; [rewrite <-Hperm, Hs; apply elem_of_app; right; by left|done..|].
    intros q Hq Hcq. rewrite <-Hperm, Hs, elem_of_app, elem_of_cons in Hq.
    rewrite Hs in Hsorted. apply StronglySorted_app in Hsorted as (_&_&Hsorted).
    destruct Hq as [Hq|[->|Hq]].
    + rewrite Forall_forall in H1. apply H1 in Hq. congruence.
    + done.
    + apply StronglySorted_inv in Hsorted as [_ Hsorted]. rewrite Forall_forall in Hsorted. auto.
Qed.

(** C26: the output is a function of the set of plugins: whatever order the
    plugins are listed in, the same Deployment comes out. *)
Theorem BuildDeployment_order_independent σ jf ps1 ps2 :
  NoDup (p_Name <$> ps1) → ps1 ≡ₚ ps2 → BuildDeployment σ jf ps1 = BuildDeployment σ jf ps2.
Proof.
  intros Hnd Hp. unfold BuildDeployment, BuildPodTemplateSpec.
  by rewrite (sort_by_Permutation_eq p_Name _ _ Hnd Hp).
Qed.

(** C19: the layout of the pod. The volumes are the server's, one image volume
    per plugin in name order and the device; the server mounts the config volume
    first, so that mounts nested below it work, then the storage and media, then
    the plugins that are not copied; each plugin contributes its staging, install
    and hook containers in this order. *)
Theorem BuildDeployment_layout σ jf ps σ' d :
  BuildDeployment σ jf ps = Ok (σ', d) →
  let pod := pt_Spec (dep_Template d) in
  let sorted := sort_by p_Name ps in
  ∃ c, ps_Containers pod = [c] ∧ head (c_VolumeMounts c) = Some config_mount ∧
    ps_Volumes pod = server_volumes jf ++ (imageVolume <$> sorted) ++ path_volumes (accel_path jf) ∧
    c_VolumeMounts c = server_mounts jf ++ direct_mounts sorted ++ path_mounts (accel_path jf) ∧
    ps_InitContainers pod = pod_security jf <$> (sorted ≫= plugin_init (instance_image jf)) ∧
    (∀ p, p ∈ ps → copies p = true →
       pod_security jf (stagingContainer (instance_image jf) p) ∈ ps_InitContainers pod ∧
       pod_security jf (hookContainer (instance_image jf) p) ∈ ps_InitContainers pod).
Proof.
  intros (c&[]&_)%BuildDeployment_Ok_built. cbv zeta. exists c. split_and!; try done.
  - by rewrite bt_mounts0.
  - intros p Hp Hc. rewrite bt_init0. split; apply list_elem_of_fmap_2, list_elem_of_bind;
      exists p; rewrite elem_of_sort_by; (split; [|done]); unfold plugin_init; rewrite Hc.
    + by left.
    + rewrite !elem_of_app, !list_elem_of_singleton. auto.
Qed.

(** C37: no dangling mount. Every volume mount of the server, and every mount an
    init container has besides those its install block lists itself, names a
    volume of the pod. *)
Theorem BuildDeployment_mounts_resolve σ jf ps σ' d :
  BuildDeployment σ jf ps = Ok (σ', d) →
  let pod := pt_Spec (dep_Template d) in
  (∀ c m, c ∈ ps_Containers pod → m ∈ c_VolumeMounts c → vm_Name m ∈ vol_Name <$> ps_Volumes pod) ∧
  (∀ c m, c ∈ ps_InitContainers pod → m ∈ c_VolumeMounts c →
     vm_Name m ∈ vol_Name <$> ps_Volumes pod ∨
     ∃ p i, p ∈ ps ∧ pls_Install (p_Spec p) = Some i ∧ m ∈ ins_VolumeMounts i).
Proof.
  intros (c&[]&_)%BuildDeployment_Ok_built. cbv zeta.
  rewrite bt_containers0, bt_init0, bt_volumes0, !fmap_app, <-list_fmap_compose.
  change (vol_Name ∘ imageVolume) with imageVolumeName. split.
  - intros c' m ->%list_elem_of_singleton. rewrite bt_mounts0, !elem_of_app.
    intros [Hm|[Hm|Hm]].
    + left. rewrite <-server_mount_names. by apply list_elem_of_fmap_2.
    + right; left. by apply direct_mounts_names.
    + right; right. rewrite <-path_names. by apply list_elem_of_fmap_2.
  - intros c' m (c0&->&(p&Hc&Hp)%list_elem_of_bind)%list_elem_of_fmap.
    rewrite pod_security_mounts. intros Hm. rewrite elem_of_sort_by in Hp.
    destruct (plugin_init_mounts _ _ _ _ Hc Hm) as [Hn|[->|(i&Hi&Hin)]]; [| |by right; eauto].
    + left. rewrite !elem_of_app. right; left. rewrite Hn.
      apply list_elem_of_fmap_2. by rewrite elem_of_sort_by.
    + left. rewrite !elem_of_app. left. apply config_volume_in.
Qed.

(** the volume names of the pod are distinct, provided the sanitized names
    of the media folders are, and those of the plugins are. *)
Theorem BuildDeployment_volume_names σ jf ps σ' d :
  BuildDeployment σ jf ps = Ok (σ', d) →
  NoDup (media_names jf) → NoDup (imageVolumeName <$> ps) →
  NoDup (vol_Name <$> ps_Volumes (pt_Spec (dep_Template d))).
Proof.
  intros (c&[]&_)%BuildDeployment_Ok_built Hm Hp. rewrite bt_volumes0.
  apply pod_volume_names_NoDup; [done|]. by rewrite sort_by_Permutation.
Qed.

(** C25: every container of the pod, init containers included, forbids privilege
    escalation and, unless the user opted out, runs hardened under the one
    identity of the security block; the pod always has the runtime's default
    seccomp profile. *)
Theorem BuildDeployment_hardened σ jf ps σ' d :
  BuildDeployment σ jf ps = Ok (σ', d) →
  let pod := pt_Spec (dep_Template d) in
  let security := js_PodSecurity (jf_Spec jf) in
  Forall (λ c, no_escalation c ∧ (opted_out security = false → hardened security c))
    (ps_Containers pod ++ ps_InitContainers pod) ∧
  (ps_SecurityContext pod ≫= psc_SeccompProfile) = Some SeccompProfileTypeRuntimeDefault.
Proof.
  intros (c&[]&_)%BuildDeployment_Ok_built. cbv zeta.
  rewrite bt_containers0, bt_init0. split; [apply Forall_app; split|].
  - by repeat constructor.
  - apply Forall_fmap, Forall_forall. intros c' _. cbn. unfold pod_security. auto with jellyops.
  - destruct bt_seccomp0 as (psc&->&?). done.
Qed.

(** building is not free of side effects: when the resource's own limits map
    is set and an accelerator asks for a resource, that map itself, which the
    custom resource still refers to, gains the entry. Every other map is as it was. *)
Theorem BuildDeployment_writes_limits σ jf ps σ' d l r :
  BuildDeployment σ jf ps = Ok (σ', d) →
  rr_Limits (js_Resources (jf_Spec jf)) = Some l → l ∈ dom σ → accel_resource jf = Some r →
  σ' !! l = Some (<[r := resourceQuantityOne]> (default ∅ (σ !! l))) ∧
  (∀ l', l' ∈ dom σ → l' ≠ l → σ' !! l' = σ !! l').
Proof.
  intros (c&[]&_)%BuildDeployment_Ok_built Hl Hin Hr. split; [by apply bt_alias0|].
  intros l' Hin' Hne. apply bt_frame0; [|done|left; congruence].
  intros l'' Hl''. congruence.
Qed.

(** the staging script is three lines; whatever bytes the plugin's name,
    folder and sub-path hold, the shell reads the second as [mkdir -p] of the
    destination and the third as a recursive copy of the source's content into it. *)
Theorem stagingContainer_script image p :
  let dest := path_Join PluginsDirPath (PluginFolderName (EffectiveMeta p)) in
  let src := path_Join StagingSrcBase (p_Name p) in
  let from := if decide (PluginSubPath p ≠ "") then path_Join src (PluginSubPath p) else src in
  ∃ line1 line2,
    c_Command (stagingContainer image p) =
      ["sh"; "-c"; "set -e" +:+ nl +:+ line1 +:+ nl +:+ line2] ∧
    sh_words false None line1 = Some ["mkdir"; "-p"; dest] ∧
    sh_words false None line2 = Some ["cp"; "-r"; from +:+ "/."; dest +:+ "/"] ∧
    c_VolumeMounts (stagingContainer image p) = [mkMount (imageVolumeName p) src "" true; config_mount].
Proof.
  intros dest src from.
  exists ("mkdir -p " +:+ shellQuote dest),
         ("cp -r " +:+ shellQuote from +:+ "/. " +:+ shellQuote dest +:+ "/").
  split_and!; [|..|done].
  - unfold stagingContainer. cbn [c_Command new_container]. by rewrite !app_s_assoc.
  - pose proof (λ cur r, sh_words_shellQuote cur dest r) as Hd.
    revert Hd. generalize (shellQuote dest). intros qd Hd. cbn.
    by rewrite <-(app_s_nil_r qd), Hd.
  - pose proof (λ cur r, sh_words_shellQuote cur dest r) as Hd.
    pose proof (λ cur r, sh_words_shellQuote cur from r) as Hf.
    revert Hd Hf. generalize (shellQuote dest), (shellQuote from). intros qd qf Hd Hf. cbn.
    rewrite Hf. cbn. rewrite Hd. cbn. unfold push. cbn. by rewrite app_s_assoc.
Qed.

(** a plugin whose folder name is a single path component is mounted in its
    own directory under the plugins directory, read-only. *)
Theorem plugin_mount_confined p :
  plain_component (PluginFolderName (EffectiveMeta p)) = true →
  vm_MountPath (plugin_mount p) = PluginsDirPath +:+ "/" +:+ PluginFolderName (EffectiveMeta p) ∧
  vm_ReadOnly (plugin_mount p) = true.
Proof.
  intros H. split; [|done]. apply (path_Join_plain PluginsDirPath ["config"; "plugins"]); [|done].
  split_and!; [done..|]. repeat constructor; done.
Qed.

(** ** The theorems at a concrete instance *)
Module Example_builder.
Definition limits : Store := {[ 3%N := {[ "memory" := 4%Z ]} ]}.
Definition media : MediaFolder := mkMediaFolder "Movies" "/media/movies" false None None "" None.
Definition storage : JellyfinStorage :=
  mkStorage (mkPVCSpec "" 5%Z "" [] "") (Some (mkPVCSpec "" 1%Z "" [] "")) None [media].
Definition spec : JellyfinSpec :=
  mkJellyfinSpec "jellyfin/jellyfin:10.10.3" None storage (mkServiceSpec "" 0 ∅) None None None
    (mkResources (Some 3%N) None) (Some (mkHardwareAccel AccelVAAPI "" "gpu.intel.com/i915" None ""))
    None None None None None None None ∅ [].
Definition jf : Jellyfin :=
  mkJellyfin (meta_lit "home" "media" ∅ ∅) spec (mkJellyfinStatus "" 0 (mkEndpoints "" "") [] "" [] []).
Definition pstatus : JellyfinPluginStatus := mkPluginStatus "" 0 false false false "" 0 [].
Definition install : PluginInstall :=
  mkInstall None "echo hi" [] [] [] [] ResourceRequirements_zero FailurePolicyFail (Some 30%Z) true.
Definition plugin (name injection : string) (i : option PluginInstall) : JellyfinPlugin :=
  mkPlugin (meta_lit name "media" ∅ ∅)
    (mkPluginSpec None (mkImageSrc "reg/p:1" "" "") (mkPluginMeta "" name "1.0.0.0" "10.9.0.0" "")
       injection i [] []) pstatus.
Definition plugins : list JellyfinPlugin :=
  [plugin "shoko" InjectionImageVolumeCopy (Some install); plugin "anime" "" None].
Definition built := BuildDeployment limits jf plugins.
Definition nothing : Store * Deployment :=
  (∅, mkDeployment (jf_Meta jf) None ∅ "" (mkPodTemplate ∅ ∅ (initialPodSpec jf (baseParts jf "")))
        DeploymentStatus_zero).
Definition deployment : Deployment := (result_or nothing built).2.
Definition store_after : Store := (result_or nothing built).1.
Lemma built_ok : BuildDeployment limits jf plugins = Ok (store_after, deployment).
Proof.
  unfold store_after, deployment, built. rewrite <-surjective_pairing.
  apply result_or_Ok. vm_compute. reflexivity.
Defined.
End Example_builder.

Lemma BuildDeployment_order_independent_witness :
  BuildDeployment Example_builder.limits Example_builder.jf Example_builder.plugins =
  BuildDeployment Example_builder.limits Example_builder.jf (reverse Example_builder.plugins).
Proof.
  apply BuildDeployment_order_independent; [|apply perm_swap].
  by apply (bool_decide_unpack _); vm_compute.
Defined.

Lemma BuildDeployment_layout_witness :
  length (ps_InitContainers (pt_Spec (dep_Template Example_builder.deployment))) = 3%nat.
Proof.
  destruct (BuildDeployment_layout _ _ _ _ _ Example_builder.built_ok) as (c&_&_&_&_&->&_).
  reflexivity.
Defined.

Lemma BuildDeployment_mounts_resolve_witness :
  Forall (λ c, Forall (λ m, vm_Name m ∈ vol_Name <$> ps_Volumes (pt_Spec (dep_Template Example_builder.deployment)))
                 (c_VolumeMounts c))
    (ps_Containers (pt_Spec (dep_Template Example_builder.deployment))).
Proof.
  destruct (BuildDeployment_mounts_resolve _ _ _ _ _ Example_builder.built_ok) as [H _].
  apply Forall_forall. intros c Hc. apply Forall_forall. intros m. by apply H.
Defined.

Lemma BuildDeployment_volume_names_witness :
  NoDup (vol_Name <$> ps_Volumes (pt_Spec (dep_Template Example_builder.deployment))).
Proof.
  apply (BuildDeployment_volume_names _ _ _ _ _ Example_builder.built_ok);
    by apply (bool_decide_unpack _); vm_compute.
Defined.

Lemma BuildDeployment_hardened_witness :
  Forall no_escalation (ps_InitContainers (pt_Spec (dep_Template Example_builder.deployment))).
Proof.
  destruct (BuildDeployment_hardened _ _ _ _ _ Example_builder.built_ok) as [[_ H]%Forall_app _].
  eapply Forall_impl; [exact H|]. by intros c [? _].
Defined.

Lemma BuildDeployment_writes_limits_witness :
  (Example_builder.store_after !! 3%N ≫= lookup "gpu.intel.com/i915") = Some 1%Z.
Proof.
  destruct (BuildDeployment_writes_limits _ _ _ _ _ 3%N "gpu.intel.com/i915" Example_builder.built_ok)
    as [-> _]; [done..|]. apply lookup_insert_eq.
Defined.

Lemma plugin_mount_confined_witness :
  vm_MountPath (plugin_mount (Example_builder.plugin "anime" "" None)) = "/config/plugins/anime_1.0.0.0".
Proof. destruct (plugin_mount_confined (Example_builder.plugin "anime" "" None)); [done|]. done. Defined.

(** ** What the hypotheses exclude *)

(** Distinct plugin names can have the same volume name: sanitizing merges them. *)
Lemma plugin_volume_names_collide :
  let a := Example_builder.plugin "a.b" "" None in
  let b := Example_builder.plugin "a-b" "" None in
  ∃ σ' d, BuildDeployment ∅ Example_builder.jf [a; b] = Ok (σ', d) ∧
    NoDup (p_Name <$> [a; b]) ∧ ¬ NoDup (vol_Name <$> ps_Volumes (pt_Spec (dep_Template d))).
Proof.
  intros a b.
  destruct (BuildPodTemplateSpec_built ∅ Example_builder.jf [a; b]) as (σ'&t&c&Ht&_&_&[]);
    [by repeat constructor|].
  do 2 eexists. split; [unfold BuildDeployment; rewrite Ht; reflexivity|]. split.
  - by apply (bool_decide_unpack _); vm_compute.
  - cbn [dep_Template]. rewrite bt_volumes0. intros H. apply (bool_decide_pack _) in H.
    vm_compute in H. exact H.
Qed.

(** A folder name that is not a plain component leaves the plugins directory. *)
Lemma plugin_mount_escapes :
  let p := mkPlugin (meta_lit "x" "media" ∅ ∅)
             (mkPluginSpec None (mkImageSrc "reg/p:1" "" "") (mkPluginMeta "" ".." "" "" "") "" None [] [])
             Example_builder.pstatus in
  vm_MountPath (plugin_mount p) = "/config".
Proof. by vm_compute. Qed.

(** NFS media with mount options but without [provision] is mounted from a claim. *)
Lemma nfs_mount_options_use_claim jf mf n :
  mf_NFS mf = Some n → nfs_MountOptions n ≠ [] →
  vol_PersistentVolumeClaim (mediaVolumeAndMount jf mf).1 =
    Some (mkPVCSource (MediaClaimName jf mf) (mediaReadOnly mf)).
Proof.
  intros Hn Ho. unfold mediaVolumeAndMount, inline_nfs. rewrite Hn.
  by rewrite (bool_decide_eq_false_2 _ Ho), andb_false_r.
Qed.
