(* ===== verification/Wrapper.v ===== *)
(** * What the init containers' scripts do (internal/plugins/builder.go)

    The scripts of the staging, install and hook containers, read by the shell of
    [Script]: each is parsed, and running it is shown to do what a short
    specification says, for every container it may run in. *)
From S2P Require Import Prelude GoStrings K8s ApiTypes Naming Shell Meta HwAccel Script Builder.

(** ** The commands of the wrappers *)
Definition var (x : string) : word := [Quoted ""; Var x].

(** [timeout t name args], the seconds in decimal. *)
Definition timed (t : option string) (name : string) (args : list word) : cmd :=
  match t with
  | Some t => Simple [Bare "timeout"] ([Bare t] :: [Bare name] :: args)
  | None => Simple [Bare name] args
  end.

Definition mkdir_marker : cmd :=
  Simple [Bare "mkdir"] [[Bare "-p"]; [Quoted ""; Subst [[Bare "dirname"]; var "MARKER"]]].
Definition touch_cmd : cmd := Simple [Bare "touch"] [var "MARKER"].
Definition exit0 : cmd := Simple [Bare "exit"] [[Bare "0"]].
Definition set_e : cmd := Simple [Bare "set"] [[Bare "-e"]].
Definition is_file (w : word) : cmd := Simple [Bare "["] [[Bare "-f"]; w; [Bare "]"]].
Definition no_file (w : word) : cmd := Simple [Bare "["] [[Bare "!"]; [Bare "-f"]; w; [Bare "]"]].
Definition report (s : string) : cmd := Simple [Bare "echo"] [[Quoted s]].

Definition run_body (inst : PluginInstall) : cmd :=
  timed (pretty <$> ins_TimeoutSeconds inst) "sh" [[Bare "-c"]; var installScriptEnvVar].

(** ** The install wrapper *)
Definition once_guard (marker : string) (rest : cmd) : cmd :=
  Seq (Assign "MARKER" [Bare ""; Quoted marker]) (Seq (If (is_file (var "MARKER")) exit0 None) rest).

Definition install_closed (marker : string) (inst : PluginInstall) : cmd :=
  if ins_RunOnce inst then
    once_guard marker (Seq set_e (Seq (run_body inst) (Seq mkdir_marker touch_cmd)))
  else Seq set_e (run_body inst).

Definition install_failed (name : string) : string :=
  "jellyops: install for " +:+ name +:+ " failed (failurePolicy=Ignore)".

Definition install_open (marker name : string) (inst : PluginInstall) : cmd :=
  once_guard marker
    (Seq (If (run_body inst) (Seq mkdir_marker touch_cmd) (Some (report (install_failed name)))) exit0).

(** ** The hook wrapper *)
Definition stage_file (f : string) : word := [Quoted ""; Var "STAGE"; Quoted f].

Definition hook_failed (hook name : string) : string :=
  "jellyops: " +:+ hook +:+ " for " +:+ name +:+ " failed (failurePolicy=Ignore)".

Definition hook_time (inst : option PluginInstall) : option string := pretty <$> (inst ≫= ins_TimeoutSeconds).

Definition firstrun (t : option string) (mark : cmd → cmd) : cmd :=
  If (And (is_file (stage_file "/firstrun.sh")) (no_file (var "MARKER")))
    (mark (timed t "sh" [stage_file "/firstrun.sh"])) None.

Definition mark_closed (run : cmd) : cmd := Seq run (Seq mkdir_marker touch_cmd).
Definition mark_open (name : string) (run : cmd) : cmd :=
  If run (Seq mkdir_marker touch_cmd) (Some (report (hook_failed "firstrun" name))).

Definition bootstrap (wrap : cmd → cmd) (t : option string) : cmd :=
  If (is_file (stage_file "/bootstrap.sh")) (wrap (timed t "sh" [stage_file "/bootstrap.sh"])) None.

Definition hook_vars (stage marker : string) (rest : cmd) : cmd :=
  Seq (Assign "STAGE" [Bare ""; Quoted stage]) (Seq (Assign "MARKER" [Bare ""; Quoted marker]) rest).

Definition hook_closed (stage marker : string) (t : option string) : cmd :=
  Seq set_e (hook_vars stage marker (Seq (firstrun t mark_closed) (bootstrap id t))).

Definition hook_open (stage marker name : string) (t : option string) : cmd :=
  hook_vars stage marker
    (Seq (firstrun t (mark_open name))
      (Seq (bootstrap (λ run, Or run (report (hook_failed "bootstrap" name))) t) exit0)).

(** ** The staging script *)
Definition staging (from dest : string) : cmd :=
  Seq set_e (Seq (Simple [Bare "mkdir"] [[Bare "-p"]; [Quoted dest]])
    (Simple [Bare "cp"] [[Bare "-r"]; [Quoted from; Bare "/."]; [Quoted dest; Bare "/"]])).

(** ** Reading the scripts *)

(** The scripts are concatenations of literal pieces with quoted paths, numbers
    and names in between; these tactics read the next literal piece, quoted path
    or number. *)
Ltac lex_piece := erewrite lex_from_step by (vm_compute; reflexivity).
Ltac lex_start := unfold parse, lex; rewrite ?app_s_assoc.
Ltac lex_number := rewrite lex_bare_word by apply pretty_Z_plain.

Definition timed_toks (t : option string) : list token :=
  match t with Some t => [Word [Bare t]; Word [Bare "timeout"]] | None => [] end.

Lemma lex_run_body inst toks rest :
  lex_from (Lexer MBare toks None []) (install_run inst +:+ rest)
  = lex_from (Lexer MBare
      ([Word [Bare "-c"]; Word [Bare "sh"]] ++ timed_toks (pretty <$> ins_TimeoutSeconds inst) ++ toks)
      (Some [Var installScriptEnvVar; Quoted ""]) []) rest.
Proof.
  unfold install_run. destruct (ins_TimeoutSeconds inst) as [t|]; rewrite ?app_s_assoc.
  - lex_piece. lex_number. do 4 lex_piece. done.
  - do 3 lex_piece. done.
Qed.

(** The end of a failure report: [echo "... <name> failed (failurePolicy=Ignore)"]. *)
Lemma lex_failed toks w u name rest :
  all_chars dq_plain name = true →
  lex_from (Lexer MDouble toks (Some (Quoted u :: w)) [])
    (name +:+ raw " failed (failurePolicy=Ignore)`" +:+ rest)
  = lex_from (Lexer MBare toks (Some (Quoted (u +:+ name +:+ " failed (failurePolicy=Ignore)") :: w)) []) rest.
Proof.
  intros Hn. rewrite lex_double_text by done.
  change (raw " failed (failurePolicy=Ignore)`") with (" failed (failurePolicy=Ignore)" +:+ raw "`").
  by rewrite app_s_assoc, lex_double_text, app_s_assoc by done.
Qed.

Section parse.
Implicit Types (folder name : string) (inst : PluginInstall).

Lemma parse_install_closed folder name inst :
  ins_FailurePolicy inst = FailurePolicyFail →
  parse (buildInstallWrapper folder name inst)
  = Ok (install_closed (path_Join InstalledMarkerDir folder) inst).
Proof.
  intros Hf. unfold buildInstallWrapper, install_closed, run_body. rewrite decide_True by done.
  generalize (path_Join InstalledMarkerDir folder). intros marker.
  destruct (ins_RunOnce inst); lex_start.
  - lex_piece. rewrite lex_shellQuote. do 5 lex_piece. rewrite lex_run_body.
    by destruct (pretty <$> ins_TimeoutSeconds inst).
  - do 3 lex_piece. rewrite lex_run_body. by destruct (pretty <$> ins_TimeoutSeconds inst).
Qed.

Lemma parse_install_open folder name inst :
  ins_FailurePolicy inst ≠ FailurePolicyFail → ins_RunOnce inst = true → all_chars dq_plain name = true →
  parse (buildInstallWrapper folder name inst)
  = Ok (install_open (path_Join InstalledMarkerDir folder) name inst).
Proof.
  intros Hf Ho Hn. unfold buildInstallWrapper, install_open, run_body. rewrite decide_False, Ho by done.
  generalize (path_Join InstalledMarkerDir folder). intros marker. lex_start.
  lex_piece. rewrite lex_shellQuote. do 4 lex_piece. rewrite lex_run_body.
  generalize (pretty <$> ins_TimeoutSeconds inst). intros t.
  destruct t as [t|]; do 6 lex_piece; by rewrite lex_failed by done.
Qed.

(** Without a marker to write, the wrapper's [then] is followed by [else]. *)
Lemma parse_install_empty_then folder name inst :
  ins_FailurePolicy inst ≠ FailurePolicyFail → ins_RunOnce inst = false → all_chars dq_plain name = true →
  parse (buildInstallWrapper folder name inst) = Err (Unexpected (Some (Word [Bare "else"]))).
Proof.
  intros Hf Ho Hn. unfold buildInstallWrapper. rewrite decide_False, Ho by done. lex_start.
  do 2 lex_piece. rewrite lex_run_body. generalize (pretty <$> ins_TimeoutSeconds inst). intros t.
  destruct t as [t|]; do 6 lex_piece; by rewrite lex_failed by done.
Qed.

Lemma lex_timeout_prefix (inst : option PluginInstall) toks rest :
  lex_from (Lexer MBare toks None []) (timeout_prefix inst +:+ rest)
  = lex_from (Lexer MBare (timed_toks (hook_time inst) ++ toks) None []) rest.
Proof.
  unfold timeout_prefix, hook_time. destruct (inst ≫= ins_TimeoutSeconds) as [t|]; [|done].
  rewrite ?app_s_assoc. lex_piece. lex_number. by lex_piece.
Qed.

Lemma parse_hook_closed folder name (inst : option PluginInstall) :
  fail_closed inst = true →
  parse (buildHookWrapper folder name inst)
  = Ok (hook_closed (path_Join PluginsDirPath folder) (path_Join FirstRunMarkerDir folder) (hook_time inst)).
Proof.
  intros Hf. unfold buildHookWrapper. rewrite Hf.
  generalize (path_Join PluginsDirPath folder) (path_Join FirstRunMarkerDir folder). intros stage marker.
  remember (hook_time inst) as t eqn:Ht. lex_start.
  do 3 lex_piece. rewrite lex_shellQuote. do 2 lex_piece. rewrite lex_shellQuote.
  do 4 lex_piece. rewrite lex_timeout_prefix, <-Ht.
  destruct t as [t|]; do 11 lex_piece; by rewrite lex_timeout_prefix, <-Ht.
Qed.

Lemma parse_hook_open folder name (inst : option PluginInstall) :
  fail_closed inst = false → all_chars dq_plain name = true →
  parse (buildHookWrapper folder name inst)
  = Ok (hook_open (path_Join PluginsDirPath folder) (path_Join FirstRunMarkerDir folder) name (hook_time inst)).
Proof.
  intros Hf Hn. unfold buildHookWrapper. rewrite Hf.
  generalize (path_Join PluginsDirPath folder) (path_Join FirstRunMarkerDir folder). intros stage marker.
  remember (hook_time inst) as t eqn:Ht. lex_start.
  lex_piece. rewrite lex_shellQuote. do 2 lex_piece. rewrite lex_shellQuote.
  do 4 lex_piece. rewrite lex_timeout_prefix, <-Ht.
  destruct t as [t|]; do 9 lex_piece; rewrite lex_failed by done; do 8 lex_piece;
    rewrite lex_timeout_prefix, <-Ht; lex_piece; by rewrite lex_failed by done.
Qed.

Lemma parse_staging from dest :
  parse ("set -e" +:+ nl +:+ "mkdir -p " +:+ shellQuote dest +:+ nl +:+
         "cp -r " +:+ shellQuote from +:+ "/. " +:+ shellQuote dest +:+ "/") = Ok (staging from dest).
Proof.
  lex_start. do 3 lex_piece. rewrite lex_shellQuote. do 2 lex_piece. rewrite lex_shellQuote.
  lex_piece. by rewrite lex_shellQuote.
Qed.
End parse.

(** ** What running them does *)

(** The wrappers define no functions. *)
#[local] Notation Shell := (mkShell top_level).

Section run.
Context {W : Type} `{!Runtime W}.
Implicit Types (w : W) (e : gmap string string) (env : gmap string string) (marker body : string).

Definition timed_words (t : option string) (args : list string) : list string :=
  match t with Some t => "timeout" :: t :: args | None => args end.

(** [mkdir -p] of the marker's directory and [touch], with and without [set -e]. *)
Definition mkdir_parent (marker : string) (w : W) : W * Z :=
  sh_exec ["mkdir"; "-p"; sh_output ["dirname"; marker] w] w.

Definition mark_strict (marker : string) (w : W) : W * Z :=
  let '(w, s) := mkdir_parent marker w in
  if decide (s = 0%Z) then sh_exec ["touch"; marker] w else (w, s).

Definition mark_lenient (marker : string) (w : W) : W :=
  (sh_exec ["touch"; marker] (mkdir_parent marker w).1).1.

(** The contract of [failurePolicy], over the command [run] and the marker file. *)
Definition closed_spec (once : bool) (marker : string) (run : list string) (w : W) : W * Z :=
  let '(w, s) := sh_exec run w in
  if decide (s = 0%Z) then if once then mark_strict marker w else (w, 0%Z) else (w, s).

Definition open_spec (marker : string) (run : list string) (w : W) : W :=
  let '(w, s) := sh_exec run w in
  if decide (s = 0%Z) then mark_lenient marker w else w.

Lemma eval_sh tested t args e b w :
  eval tested (timed t "sh" args) (Shell e b w)
  = let '(w', s) := sh_exec (timed_words t ("sh" :: (expand (Shell e b w) <$> args))) w in
    errexit tested (Done (Shell e b w') s).
Proof. by destruct t; cbn; rewrite ?app_s_nil_r; unfold external; cbn; destruct (sh_exec _ _). Qed.

Lemma expand_var x v (st : shell W) : sh_vars st !! x = Some v → expand st (var x) = v.
Proof. intros H. cbn. rewrite H. cbn. by rewrite app_s_nil_r. Qed.

(** With [set -e] the first failure ends the script. *)
Lemma errexit_strict e w s :
  errexit false (Done (Shell e true w) s)
  = if decide (s = 0%Z) then Done (Shell e true w) 0 else Exit w s.
Proof. cbn. destruct (decide (s = 0%Z)) as [->|]; [done|]. by rewrite bool_decide_true. Qed.

Lemma errexit_lenient tested e w s :
  errexit tested (Done (Shell e false w) s) = Done (Shell e false w) s.
Proof. done. Qed.

Lemma eval_mkdir tested e b marker w :
  e !! "MARKER" = Some marker →
  eval tested mkdir_marker (Shell e b w)
  = let '(w, s) := mkdir_parent marker w in errexit tested (Done (Shell e b w) s).
Proof.
  intros Hm. unfold mkdir_parent. cbn. rewrite Hm. unfold external. cbn. rewrite !app_s_nil_r. by destruct (sh_exec _ _).
Qed.

Lemma eval_touch tested e b marker w :
  e !! "MARKER" = Some marker →
  eval tested touch_cmd (Shell e b w)
  = let '(w, s) := sh_exec ["touch"; marker] w in errexit tested (Done (Shell e b w) s).
Proof. intros Hm. cbn. rewrite Hm. unfold external. cbn. rewrite !app_s_nil_r. by destruct (sh_exec _ _). Qed.

Lemma eval_Seq tested a b (st : shell W) :
  eval tested (Seq a b) st = match eval tested a st with Done st _ => eval tested b st | o => o end.
Proof. done. Qed.

Lemma eval_And tested a b (st : shell W) :
  eval tested (And a b) st
  = match eval true a st with
    | Done st s => if decide (s = 0%Z) then eval tested b st else Done st s
    | o => o
    end.
Proof. done. Qed.

Lemma eval_Or tested a b (st : shell W) :
  eval tested (Or a b) st
  = match eval true a st with
    | Done st s => if decide (s = 0%Z) then Done st s else eval tested b st
    | o => o
    end.
Proof. done. Qed.

Lemma eval_If tested c t (e : option cmd) (st : shell W) :
  eval tested (If c t e) st
  = match eval true c st with
    | Done st s =>
        if decide (s = 0%Z) then eval tested t st
        else match e with Some e => eval tested e st | None => Done st 0 end
    | o => o
    end.
Proof. done. Qed.

Lemma eval_mark_strict e marker w :
  e !! "MARKER" = Some marker →
  eval false (Seq mkdir_marker touch_cmd) (Shell e true w)
  = let '(w, s) := mark_strict marker w in
    if decide (s = 0%Z) then Done (Shell e true w) 0 else Exit w s.
Proof.
  intros Hm. rewrite eval_Seq, (eval_mkdir _ _ _ marker) by done. unfold mark_strict.
  destruct (mkdir_parent marker w) as [w1 s1]. rewrite errexit_strict.
  destruct (decide (s1 = 0%Z)); [|by rewrite decide_False].
  rewrite (eval_touch _ _ _ marker) by done. destruct (sh_exec _ w1). by rewrite errexit_strict.
Qed.

Lemma eval_mark_lenient tested e marker w :
  e !! "MARKER" = Some marker →
  ∃ s, eval tested (Seq mkdir_marker touch_cmd) (Shell e false w)
       = Done (Shell e false (mark_lenient marker w)) s.
Proof.
  intros Hm. rewrite eval_Seq, (eval_mkdir _ _ _ marker) by done. unfold mark_lenient.
  destruct (mkdir_parent marker w) as [w1 s1]. rewrite errexit_lenient, (eval_touch _ _ _ marker) by done. cbn.
  destruct (sh_exec _ w1) as [w2 s2]. by exists s2.
Qed.

Lemma eval_is_file x e b w :
  eval true (is_file x) (Shell e b w) = Done (Shell e b w) (of_bool (sh_isfile w (expand (Shell e b w) x))).
Proof. cbn. by destruct b. Qed.

Lemma eval_no_file x e b w :
  eval true (no_file x) (Shell e b w) = Done (Shell e b w) (of_bool (negb (sh_isfile w (expand (Shell e b w) x)))).
Proof. cbn. by destruct b. Qed.

Lemma eval_report tested s e b w : eval tested (report s) (Shell e b w) = Done (Shell e b w) 0.
Proof. cbn. by rewrite ?andb_false_r. Qed.

Lemma eval_exit0 tested e b w : eval tested exit0 (Shell e b w) = Exit w 0.
Proof. done. Qed.

Lemma eval_set_e e b w : eval false set_e (Shell e b w) = Done (Shell e true w) 0.
Proof. done. Qed.

Lemma eval_assign tested x v e b w :
  eval tested (Assign x [Bare ""; Quoted v]) (Shell e b w) = Done (Shell (<[x := v]> e) b w) 0.
Proof. cbn. by rewrite app_s_nil_r. Qed.

Lemma eval_once_guard e marker rest w :
  ran_of (eval false (once_guard marker rest) (Shell e false w))
  = if sh_isfile w marker then Ran w 0
    else ran_of (eval false rest (Shell (<["MARKER" := marker]> e) false w)).
Proof.
  unfold once_guard. rewrite eval_Seq, eval_assign, eval_Seq, eval_If, eval_is_file.
  rewrite (expand_var _ marker) by apply lookup_insert_eq. cbn [sh_world].
  by destruct (sh_isfile w marker).
Qed.

Definition script_command (t : option string) (body : string) : list string :=
  timed_words t ["sh"; "-c"; body].

Lemma eval_run_body tested inst e b body w :
  e !! installScriptEnvVar = Some body →
  eval tested (run_body inst) (Shell e b w)
  = let '(w, s) := sh_exec (script_command (pretty <$> ins_TimeoutSeconds inst) body) w in
    errexit tested (Done (Shell e b w) s).
Proof.
  intros Hb. unfold run_body. rewrite eval_sh. cbn [fmap list_fmap].
  by rewrite (expand_var _ body).
Qed.

Lemma eval_install_closed env marker body inst w :
  env !! installScriptEnvVar = Some body →
  let cmd := script_command (pretty <$> ins_TimeoutSeconds inst) body in
  ran_of (eval false (install_closed marker inst) (Shell env false w))
  = if ins_RunOnce inst && sh_isfile w marker then Ran w 0
    else let '(w, s) := closed_spec (ins_RunOnce inst) marker cmd w in Ran w s.
Proof.
  intros Hb cmd. unfold install_closed, closed_spec. destruct (ins_RunOnce inst).
  - rewrite eval_once_guard. destruct (sh_isfile w marker); [done|]. cbn [andb].
    rewrite eval_Seq, eval_set_e, eval_Seq, (eval_run_body _ _ _ _ body) by (by rewrite lookup_insert_ne).
    fold cmd. destruct (sh_exec cmd w) as [w1 s1]. rewrite errexit_strict.
    destruct (decide (s1 = 0%Z)); [|done]. rewrite (eval_mark_strict _ marker) by apply lookup_insert_eq.
    destruct (mark_strict marker w1) as [w2 s2]. by destruct (decide (s2 = 0%Z)) as [->|].
  - cbn [andb]. rewrite eval_Seq, eval_set_e, (eval_run_body _ _ _ _ body) by done. fold cmd.
    destruct (sh_exec cmd w) as [w1 s1]. rewrite errexit_strict. by destruct (decide (s1 = 0%Z)).
Qed.

Lemma eval_install_open env marker name body inst w :
  env !! installScriptEnvVar = Some body →
  let cmd := script_command (pretty <$> ins_TimeoutSeconds inst) body in
  ran_of (eval false (install_open marker name inst) (Shell env false w))
  = if sh_isfile w marker then Ran w 0 else Ran (open_spec marker cmd w) 0.
Proof.
  intros Hb cmd. unfold install_open, open_spec. rewrite eval_once_guard.
  destruct (sh_isfile w marker); [done|].
  rewrite eval_Seq, eval_If, (eval_run_body _ _ _ _ body) by (by rewrite lookup_insert_ne).
  fold cmd. destruct (sh_exec cmd w) as [w1 s1]. rewrite errexit_lenient. cbn iota beta.
  destruct (decide (s1 = 0%Z)); [|by rewrite eval_report].
  edestruct (eval_mark_lenient false (<["MARKER" := marker]> env) marker w1) as [s ->]; [apply lookup_insert_eq|].
  done.
Qed.

(** What a [spec.install] promises: [once] is runOnce, [closed] is failurePolicy
    Fail. The last case is the shell's refusal of an empty [then]. *)
Definition install_contract (once closed : bool) (marker : string) (cmd : list string) (w : W) : ran W :=
  if once && sh_isfile w marker then Ran w 0
  else if closed then let '(w, s) := closed_spec once marker cmd w in Ran w s
  else if once then Ran (open_spec marker cmd w) 0
  else SyntaxError (Unexpected (Some (Word [Bare "else"]))).

Lemma install_wrapper_always folder name inst env body w :
  all_chars dq_plain name = true → env !! installScriptEnvVar = Some body →
  sh_c env (buildInstallWrapper folder name inst) w
  = install_contract (ins_RunOnce inst) (bool_decide (ins_FailurePolicy inst = FailurePolicyFail))
      (path_Join InstalledMarkerDir folder)
      (script_command (pretty <$> ins_TimeoutSeconds inst) body) w.
Proof.
  intros Hn Hb. unfold sh_c, install_contract.
  destruct (decide (ins_FailurePolicy inst = FailurePolicyFail)) as [Hf|Hf].
  - rewrite parse_install_closed, bool_decide_true by done. by apply eval_install_closed.
  - rewrite bool_decide_false by done. destruct (ins_RunOnce inst) eqn:Ho.
    + rewrite parse_install_open by done. by apply eval_install_open.
    + by rewrite parse_install_empty_then.
Qed.

(** ** Hooks *)
Definition hook_command (t : option string) (stage hook : string) : list string :=
  timed_words t ["sh"; stage +:+ hook].

(** [firstrun.sh] runs when it exists and the marker does not. *)
Definition firstrun_due (stage marker : string) (w : W) : bool :=
  sh_isfile w (stage +:+ "/firstrun.sh") && negb (sh_isfile w marker).

Definition hook_contract_closed (t : option string) (stage marker : string) (w : W) : W * Z :=
  let '(w, s) := if firstrun_due stage marker w
                 then closed_spec true marker (hook_command t stage "/firstrun.sh") w else (w, 0%Z) in
  if decide (s = 0%Z) then
    if sh_isfile w (stage +:+ "/bootstrap.sh") then sh_exec (hook_command t stage "/bootstrap.sh") w
    else (w, 0%Z)
  else (w, s).

Definition hook_contract_open (t : option string) (stage marker : string) (w : W) : W :=
  let w := if firstrun_due stage marker w
           then open_spec marker (hook_command t stage "/firstrun.sh") w else w in
  if sh_isfile w (stage +:+ "/bootstrap.sh") then (sh_exec (hook_command t stage "/bootstrap.sh") w).1 else w.

Lemma expand_stage stage e b f w :
  e !! "STAGE" = Some stage → expand (Shell e b w) (stage_file f) = stage +:+ f.
Proof. intros H. cbn. rewrite H. cbn. by rewrite app_s_nil_r. Qed.

Lemma eval_firstrun e b stage marker t mark w :
  e !! "STAGE" = Some stage → e !! "MARKER" = Some marker →
  eval false (firstrun t mark) (Shell e b w)
  = if firstrun_due stage marker w
    then eval false (mark (timed t "sh" [stage_file "/firstrun.sh"])) (Shell e b w)
    else Done (Shell e b w) 0.
Proof.
  intros Hs Hm. unfold firstrun, firstrun_due.
  rewrite eval_If, eval_And, eval_is_file, (expand_stage stage) by done. cbn [sh_world].
  destruct (sh_isfile w (stage +:+ "/firstrun.sh")); cbn [of_bool andb]; [|done].
  rewrite decide_True, eval_no_file, (expand_var _ marker) by done. cbn [sh_world].
  by destruct (sh_isfile w marker).
Qed.

Lemma eval_bootstrap e b stage t wrap w :
  e !! "STAGE" = Some stage →
  eval false (bootstrap wrap t) (Shell e b w)
  = if sh_isfile w (stage +:+ "/bootstrap.sh")
    then eval false (wrap (timed t "sh" [stage_file "/bootstrap.sh"])) (Shell e b w)
    else Done (Shell e b w) 0.
Proof.
  intros Hs. unfold bootstrap. rewrite eval_If, eval_is_file, (expand_stage stage) by done. cbn [sh_world].
  by destruct (sh_isfile w (stage +:+ "/bootstrap.sh")).
Qed.

Lemma eval_hook tested e b stage t f w :
  e !! "STAGE" = Some stage →
  eval tested (timed t "sh" [stage_file f]) (Shell e b w)
  = let '(w, s) := sh_exec (hook_command t stage f) w in errexit tested (Done (Shell e b w) s).
Proof. intros Hs. rewrite eval_sh. cbn [fmap list_fmap]. by rewrite (expand_stage stage). Qed.

Lemma eval_hook_vars stage marker rest e b w :
  eval false (hook_vars stage marker rest) (Shell e b w)
  = eval false rest (Shell (<["MARKER" := marker]> (<["STAGE" := stage]> e)) b w).
Proof. unfold hook_vars. by rewrite eval_Seq, eval_assign, eval_Seq, eval_assign. Qed.

Lemma eval_hook_closed stage marker t e w :
  ran_of (eval false (hook_closed stage marker t) (Shell e false w))
  = let '(w, s) := hook_contract_closed t stage marker w in Ran w s.
Proof.
  unfold hook_closed, hook_contract_closed. rewrite eval_Seq, eval_set_e, eval_hook_vars.
  set (e' := <["MARKER" := marker]> _).
  assert (e' !! "STAGE" = Some stage ∧ e' !! "MARKER" = Some marker) as [Hs Hm].
  { unfold e'. split; [by rewrite lookup_insert_ne, lookup_insert_eq|apply lookup_insert_eq]. }
  clearbody e'. rewrite eval_Seq, (eval_firstrun _ _ stage marker) by done.
  assert (∀ w, ran_of (eval false (bootstrap id t) (Shell e' true w))
    = let '(w, s) := if sh_isfile w (stage +:+ "/bootstrap.sh")
        then sh_exec (hook_command t stage "/bootstrap.sh") w else (w, 0%Z) in Ran w s) as Hboot.
  { intros v. rewrite (eval_bootstrap _ _ stage) by done.
    destruct (sh_isfile v _); [|done]. unfold id. rewrite (eval_hook _ _ _ stage) by done.
    destruct (sh_exec _ v) as [v1 s1]. rewrite errexit_strict. by destruct (decide (s1 = 0%Z)) as [->|]. }
  destruct (firstrun_due stage marker w); [|by rewrite Hboot].
  unfold closed_spec, mark_closed. rewrite eval_Seq, (eval_hook _ _ _ stage) by done.
  destruct (sh_exec _ w) as [w1 s1]. rewrite errexit_strict.
  destruct (decide (s1 = 0%Z)); [|by rewrite decide_False].
  rewrite (eval_mark_strict _ marker) by done. destruct (mark_strict marker w1) as [w2 s2].
  destruct (decide (s2 = 0%Z)); [|done]. by rewrite Hboot.
Qed.

Lemma eval_hook_open stage marker name t e w :
  ran_of (eval false (hook_open stage marker name t) (Shell e false w))
  = Ran (hook_contract_open t stage marker w) 0.
Proof.
  unfold hook_open, hook_contract_open. rewrite eval_hook_vars.
  set (e' := <["MARKER" := marker]> _).
  assert (e' !! "STAGE" = Some stage ∧ e' !! "MARKER" = Some marker) as [Hs Hm].
  { unfold e'. split; [by rewrite lookup_insert_ne, lookup_insert_eq|apply lookup_insert_eq]. }
  clearbody e'. rewrite eval_Seq, (eval_firstrun _ _ stage marker) by done.
  assert (∀ w, ran_of (eval false (Seq (bootstrap (λ run, Or run (report (hook_failed "bootstrap" name))) t) exit0)
      (Shell e' false w))
    = Ran (if sh_isfile w (stage +:+ "/bootstrap.sh")
           then (sh_exec (hook_command t stage "/bootstrap.sh") w).1 else w) 0) as Hboot.
  { intros v. rewrite eval_Seq, (eval_bootstrap _ _ stage) by done.
    destruct (sh_isfile v _); [|done]. rewrite eval_Or, (eval_hook _ _ _ stage) by done.
    destruct (sh_exec _ v) as [v1 s1]. rewrite errexit_lenient.
    destruct (decide (s1 = 0%Z)); [done|]. by rewrite eval_report. }
  destruct (firstrun_due stage marker w); [|by rewrite Hboot].
  unfold open_spec, mark_open. rewrite eval_If, (eval_hook _ _ _ stage) by done.
  destruct (sh_exec _ w) as [w1 s1]. rewrite errexit_lenient.
  destruct (decide (s1 = 0%Z)); [|by rewrite eval_report, Hboot].
  destruct (eval_mark_lenient false e' marker w1 Hm) as [s ->]. by rewrite Hboot.
Qed.

Lemma hook_wrapper_always folder name (inst : option PluginInstall) env w :
  all_chars dq_plain name = true →
  let t := hook_time inst in
  let stage := path_Join PluginsDirPath folder in
  let marker := path_Join FirstRunMarkerDir folder in
  sh_c env (buildHookWrapper folder name inst) w
  = if fail_closed inst then let '(w, s) := hook_contract_closed t stage marker w in Ran w s
    else Ran (hook_contract_open t stage marker w) 0.
Proof.
  intros Hn t stage marker. unfold sh_c. destruct (fail_closed inst) eqn:Hf.
  - rewrite parse_hook_closed by done. apply eval_hook_closed.
  - rewrite parse_hook_open by done. apply eval_hook_open.
Qed.

(** ** Containers *)

(** Running a container: its command is [sh -c script], in the environment [env]
    the kubelet builds from the container's list. *)
Definition run_container (env : gmap string string) (c : Container) (w : W) : ran W :=
  match c_Command c with
  | ["sh"; "-c"; script] => sh_c env script w
  | _ => Refused
  end.

Definition env_has (env : gmap string string) (e : EnvVar) : Prop := env !! ev_Name e = Some (ev_Value e).

(** The name of an API object: lower-case letters, digits, dashes and dots. *)
Definition object_name (s : string) : bool := all_chars (λ c, label_char c || Ascii.eqb c ".") s.

Lemma object_name_chars : ∀ c, implb (label_char c || Ascii.eqb c ".") (dq_plain c) = true.
Proof. by_bytes. Qed.

Lemma object_name_plain s : object_name s = true → all_chars dq_plain s = true.
Proof. apply all_chars_impl. intros c Hc. generalize (object_name_chars c). by rewrite Hc. Qed.

Definition install_marker (p : JellyfinPlugin) : string :=
  path_Join InstalledMarkerDir (PluginFolderName (EffectiveMeta p)).

Definition firstrun_marker (p : JellyfinPlugin) : string :=
  path_Join FirstRunMarkerDir (PluginFolderName (EffectiveMeta p)).

Definition plugin_dir (p : JellyfinPlugin) : string :=
  path_Join PluginsDirPath (PluginFolderName (EffectiveMeta p)).

Definition fails_closed (inst : PluginInstall) : bool :=
  bool_decide (ins_FailurePolicy inst = FailurePolicyFail).

Definition install_command (inst : PluginInstall) (body : string) : list string :=
  script_command (pretty <$> ins_TimeoutSeconds inst) body.

Definition install_body (inst : PluginInstall) : string :=
  if decide (ins_Script inst = "") then shellJoin (ins_Command inst ++ ins_Args inst) else ins_Script inst.

Lemma install_container_always dflt p inst c :
  installContainer dflt p inst = Ok c → object_name (p_Name p) = true →
  head (c_Env c) = Some (mkEnv installScriptEnvVar (install_body inst)) ∧
  ∀ env w, env_has env (mkEnv installScriptEnvVar (install_body inst)) →
    run_container env c w
    = install_contract (ins_RunOnce inst) (fails_closed inst) (install_marker p)
        (install_command inst (install_body inst)) w.
Proof.
  intros Hc Hn%object_name_plain. unfold installContainer in Hc. fold (install_body inst) in Hc.
  repeat (case_decide; [done|]). destruct (match ins_Image inst with Some _ => _ | _ => _ end) as [image pull].
  injection Hc as <-. split; [done|]. intros env w He.
  unfold run_container. cbn [c_Command new_container]. by apply install_wrapper_always.
Qed.

Lemma hook_container_always dflt p env w :
  object_name (p_Name p) = true →
  let inst := pls_Install (p_Spec p) in
  run_container env (hookContainer dflt p) w
  = if fail_closed inst then
      let '(w, s) := hook_contract_closed (hook_time inst) (plugin_dir p) (firstrun_marker p) w in Ran w s
    else Ran (hook_contract_open (hook_time inst) (plugin_dir p) (firstrun_marker p) w) 0.
Proof.
  intros Hn%object_name_plain inst. unfold run_container, hookContainer.
  destruct (match pls_Install (p_Spec p) ≫= ins_Image with Some _ => _ | _ => _ end) as [image pull].
  destruct (match pls_Install (p_Spec p) with Some _ => _ | _ => _ end) as [[mounts env'] res].
  cbn [c_Command new_container]. by apply hook_wrapper_always.
Qed.
End run.


(** C33: with the default policy and no runOnce (an install that sets neither
    field) the wrapper is a syntax error, since the [then] branch is left empty: the
    container fails without running the body, and the pod never starts, although
    the policy is documented to let the server boot whatever the install does. *)
Theorem default_install_never_runs {W} `{!Runtime W} dflt p inst c env w :
  installContainer dflt p inst = Ok c → object_name (p_Name p) = true →
  ins_RunOnce inst = false → fails_closed inst = false →
  env_has env (mkEnv installScriptEnvVar (install_body inst)) →
  run_container env c w = SyntaxError (Unexpected (Some (Word [Bare "else"]))).
Proof.
  intros Hc Hn Ho Hf He. edestruct install_container_always as [_ Hr]; [done..|].
  rewrite Hr by done. unfold install_contract. by rewrite Ho, Hf.
Qed.

(** an install with runOnce and failurePolicy Fail that succeeded once has
    left its marker, and no later start of the pod runs anything while the marker is
    there, provided [touch] creates the file it is given. *)
Theorem install_runs_once {W} `{!Runtime W} dflt p inst c env w w1 :
  (∀ f v v', sh_exec ["touch"; f] v = (v', 0%Z) → sh_isfile v' f = true) →
  installContainer dflt p inst = Ok c → object_name (p_Name p) = true →
  ins_RunOnce inst = true → fails_closed inst = true →
  env_has env (mkEnv installScriptEnvVar (install_body inst)) →
  run_container env c w = Ran w1 0 →
  sh_isfile w1 (install_marker p) = true ∧
  ∀ v, sh_isfile v (install_marker p) = true → run_container env c v = Ran v 0.
Proof.
  intros Htouch Hc Hn Ho Hf He. edestruct install_container_always as [_ Hr]; [done..|].
  rewrite Hr by done. unfold install_contract. rewrite Ho, Hf. cbn [andb]. intros Hrun. split.
  - destruct (sh_isfile w (install_marker p)) eqn:Hw; [by injection Hrun as <-|]. revert Hrun.
    unfold closed_spec. destruct (sh_exec _ w) as [w2 s2]. destruct (decide (s2 = 0%Z)); [|congruence].
    unfold mark_strict. destruct (mkdir_parent _ w2) as [w3 s3]. destruct (decide (s3 = 0%Z)); [|congruence].
    destruct (sh_exec _ w3) as [w4 s4] eqn:Ht. intros [= <- ->]. by eapply Htouch.
  - intros v Hv. rewrite Hr by done. unfold install_contract. by rewrite Ho, Hv.
Qed.

(** C13: the hook container runs the baked [firstrun.sh] of the staged plugin when
    it is there and has not succeeded before, then [bootstrap.sh] on every start;
    fail-closed, the first failure ends it with that status, and otherwise it always
    exits with 0. *)
Theorem hook_container_contract {W} `{!Runtime W} dflt p env w :
  object_name (p_Name p) = true →
  let inst := pls_Install (p_Spec p) in
  run_container env (hookContainer dflt p) w
  = if fail_closed inst then
      let '(w, s) := hook_contract_closed (hook_time inst) (plugin_dir p) (firstrun_marker p) w in Ran w s
    else Ran (hook_contract_open (hook_time inst) (plugin_dir p) (firstrun_marker p) w) 0.
Proof. apply hook_container_always. Qed.

(** the staging container copies the plugin's files from the read-only image
    mount into the writable plugin directory, and exits with the status of the first
    of its two commands that fails, so that a partial copy keeps the server from
    starting. The paths reach [mkdir] and [cp] unchanged, whatever bytes they hold. *)
Theorem staging_container_copies {W} `{!Runtime W} dflt p env w :
  let src := path_Join StagingSrcBase (p_Name p) in
  let from := if decide (PluginSubPath p ≠ "") then path_Join src (PluginSubPath p) else src in
  run_container env (stagingContainer dflt p) w
  = let '(w, s) := sh_exec ["mkdir"; "-p"; plugin_dir p] w in
    let '(w, s) := if decide (s = 0%Z)
                   then sh_exec ["cp"; "-r"; from +:+ "/."; plugin_dir p +:+ "/"] w else (w, s) in
    Ran w s.
Proof.
  intros src from. unfold run_container, stagingContainer. cbn [c_Command new_container].
  unfold sh_c. rewrite parse_staging. fold src. fold from. fold (plugin_dir p).
  unfold staging. rewrite eval_Seq, eval_set_e, eval_Seq.
  generalize from, (plugin_dir p). intros f d.
  assert (∀ e w, eval false (Simple [Bare "mkdir"] [[Bare "-p"]; [Quoted d]]) (Shell e true w)
    = let '(w, s) := sh_exec ["mkdir"; "-p"; d] w in errexit false (Done (Shell e true w) s)) as ->.
  { intros e v. cbn. rewrite app_s_nil_r. unfold external. cbn. by destruct (sh_exec _ v). }
  destruct (sh_exec _ w) as [w1 s1]. rewrite errexit_strict.
  destruct (decide (s1 = 0%Z)); [|done]. cbn. unfold external. cbn. rewrite ?app_s_nil_r.
  destruct (sh_exec _ w1) as [w2 s2]. cbn. by destruct (bool_decide (s2 ≠ 0%Z)).
Qed.

(** ** The theorems at a concrete container *)
Module Example_wrapper.
(** The files that exist and the commands that ran, latest first; [touch] creates
    its file, and a [sh -c] of [false] fails. *)
Definition world : Type := list string * list (list string).
#[export] Instance runtime : Runtime world := {
  sh_isfile w f := existsb (String.eqb f) w.1;
  sh_ischar w f := false;
  sh_exec args w :=
    match args with
    | ["touch"; f] => ((f :: w.1, args :: w.2), 0%Z)
    | _ => ((w.1, args :: w.2), if existsb (String.eqb "false") args then 1%Z else 0%Z)
    end;
  sh_output args w := "/config/.jellyops/installed";
  sh_glob w pattern := [];
  sh_write args f w := (w, 1%Z);
}.
Definition once (policy body : string) : PluginInstall :=
  mkInstall None body [] [] [] [] ResourceRequirements_zero policy (Some 30%Z) true.
Definition plain (body : string) : PluginInstall :=
  mkInstall None body [] [] [] [] ResourceRequirements_zero "" None false.
Definition plugin (inst : PluginInstall) : JellyfinPlugin := Example_builder.plugin "shoko" "" (Some inst).
Definition container (inst : PluginInstall) : Container :=
  result_or (stagingContainer "" (plugin inst)) (installContainer "sh:1" (plugin inst) inst).
Definition env (inst : PluginInstall) : gmap string string := {[ installScriptEnvVar := ins_Script inst ]}.
Definition empty : world := ([], []).
End Example_wrapper.
Import Example_wrapper.


Lemma default_install_never_runs_witness :
  run_container (env (plain "true")) (container (plain "true")) empty
  = SyntaxError (Unexpected (Some (Word [Bare "else"]))).
Proof.
  by apply (default_install_never_runs "sh:1" (plugin (plain "true")) (plain "true")).
Defined.

Lemma install_runs_once_witness :
  ∃ w1, run_container (env (once "Fail" "true")) (container (once "Fail" "true")) empty = Ran w1 0 ∧
        run_container (env (once "Fail" "true")) (container (once "Fail" "true")) w1 = Ran w1 0.
Proof.
  assert (∃ w1, run_container (env (once "Fail" "true")) (container (once "Fail" "true")) empty = Ran w1 0)
    as [w1 H1] by (eexists; vm_compute; reflexivity).
  exists w1. split; [done|].
  edestruct (install_runs_once "sh:1" (plugin (once "Fail" "true")) (once "Fail" "true")) as [H2 H3];
    [..|exact (H3 _ H2)]; try done.
  intros f v v' [= <-]. cbn. by rewrite String.eqb_refl.
Defined.

Lemma hook_container_contract_witness :
  run_container ∅ (hookContainer "sh:1" (plugin (plain "")))
    (["/config/plugins/shoko_1.0.0.0/bootstrap.sh"], [])
  = Ran (["/config/plugins/shoko_1.0.0.0/bootstrap.sh"],
         [["sh"; "/config/plugins/shoko_1.0.0.0/bootstrap.sh"]]) 0.
Proof. rewrite hook_container_contract by reflexivity. vm_compute. reflexivity. Defined.
