(* ===== verification/Setup.v ===== *)
(** * What the server's start-up script does (internal/plugins/hwaccel.go)

    With an accelerator the server container runs [renderSetupScript] before it
    becomes the server: the script looks for a render device and writes the choice
    into Jellyfin's encoding.xml. It is read here by the shell of [Script] and shown to
    compute a short reference function, whatever is in the container. *)
From S2P Require Import Prelude GoStrings K8s ApiTypes Naming Shell HwAccel Script Builder Wrapper.

(** ** The commands of the script *)
Definition test1 (op : string) (w : word) : cmd := Simple [Bare "["] [[Bare op]; w; [Bare "]"]].
Definition test2 (a : word) (op : string) (b : word) : cmd := Simple [Bare "["] [a; [Bare op]; b; [Bare "]"]].
Definition or_empty (x : string) : word := [Quoted ""; Default x []].
Definition assign (x : string) (w : word) : cmd := Assign x (Bare "" :: w).
Definition seq (cs : list cmd) (last : cmd) : cmd := fold_right Seq last cs.

Definition render_glob : word := [Bare "/dev/dri/renderD"; Star].
Definition vendor_file : word :=
  [Quoted "/sys/class/drm/"; Subst [[Bare "basename"]; var "d"]; Quoted "/device/vendor"].

(** The first loop: a device of the wanted vendor. *)
Definition vendor_body : cmd :=
  seq [Or (test1 "-c" (var "d")) (Simple [Bare "continue"] []);
       assign "v" [Quoted ""; Safe [[Bare "cat"]; vendor_file]]]
    (If (test2 (var "v") "=" (var RenderVendorEnvVar))
       (Seq (assign "dev" (var "d")) (Simple [Bare "break"] [])) None).

(** The second: any device. *)
Definition any_body : cmd :=
  If (test1 "-c" (var "d")) (Seq (assign "dev" (var "d")) (Simple [Bare "break"] [])) None.

Definition no_device_text : string :=
  "jellyops: no render device found under /dev/dri; leaving encoding config untouched".

Definition find_device : cmd :=
  seq [If (And (test1 "-z" (var "dev")) (test1 "-n" (or_empty RenderVendorEnvVar)))
         (For "d" [render_glob] vendor_body) None;
       If (test1 "-z" (var "dev")) (For "d" [render_glob] any_body) None]
    (If (test1 "-z" (var "dev"))
       (Seq (Redirected [Bare "echo"] [[Quoted no_device_text]] ToStderr) (assign "accel" [Quoted ""])) None).

Definition encoding_template : string :=
  raw "<?xml version=`1.0` encoding=`utf-8`?>\n<EncodingOptions>\n</EncodingOptions>\n".

Definition tag_body : cmd :=
  If (Simple [Bare "grep"] [[Bare "-q"]; [Quoted "<"; Arg 1; Quoted ">"]; var "f"])
    (Simple [Bare "sed"]
       [[Bare "-i"];
        [Quoted "s#<"; Arg 1; Quoted ">[^<]*</"; Arg 1; Quoted ">#<"; Arg 1; Quoted ">"; Arg 2; Quoted "</"; Arg 1;
         Quoted ">#"]; var "f"])
    (Some (Simple [Bare "sed"]
       [[Bare "-i"];
        [Quoted "s#</EncodingOptions>#  <"; Arg 1; Quoted ">"; Arg 2; Quoted "</"; Arg 1;
         Quoted ">\n</EncodingOptions>#"]; var "f"])).

Definition set_tag (tag : string) (x : string) : cmd := Simple [Bare "set_tag"] [[Bare tag]; var x].

Definition write_config : cmd :=
  seq [assign "cfgdir" [Quoted ""; Default "JELLYFIN_CONFIG_DIR"
         [Default "JELLYFIN_DATA_DIR" [Quoted "/config"]; Quoted "/config"]];
       Simple [Bare "mkdir"] [[Bare "-p"]; var "cfgdir"];
       assign "f" [Quoted ""; Var "cfgdir"; Quoted "/encoding.xml"];
       If (no_file (var "f")) (Redirected [Bare "printf"] [[Quoted encoding_template]] (ToFile (var "f"))) None;
       FunDef "set_tag" tag_body;
       If (test1 "-n" (var "dev"))
         (seq [Simple [Bare "echo"] [[Quoted "jellyops: using render device "; Var "dev"]];
               set_tag "VaapiDevice" "dev"] (set_tag "QsvDevice" "dev")) None]
    (If (test1 "-n" (var "accel"))
       (Seq (Simple [Bare "echo"] [[Quoted "jellyops: hardware acceleration type "; Var "accel"]])
          (set_tag "HardwareAccelerationType" "accel")) None).

Definition startup : cmd :=
  seq [assign "accel" (or_empty AccelTypeEnvVar);
       assign "dev" (or_empty RenderDeviceEnvVar);
       If (test2 (var "accel") "!=" [Quoted jellyfinNvenc]) find_device None;
       If (Or (test1 "-n" (var "accel")) (test1 "-n" (var "dev"))) write_config None]
    (Simple [Bare "exec"] [[Bare DefaultJellyfinCommand]]).

Lemma parse_startup : parse (renderSetupScript +:+ "exec " +:+ DefaultJellyfinCommand) = Ok startup.
Proof. vm_compute. reflexivity. Qed.

(** ** The reference *)
Section setup.
Context {W : Type} `{!Runtime W}.
Implicit Types (w : W) (e env : gmap string string) (k : scope).

Definition value env (x : string) : string := default "" (env !! x).

(** The paths that may be render devices: the pattern itself when there are none. *)
Definition candidates w : list string :=
  match sh_glob w "/dev/dri/renderD*" with [] => ["/dev/dri/renderD*"] | ds => ds end.

Definition vendor_of w (d : string) : string :=
  sh_output ["cat"; "/sys/class/drm/" +:+ sh_output ["basename"; d] w +:+ "/device/vendor"] w.

Definition first (p : string → bool) (ds : list string) : option string := List.find p ds.

Lemma first_spec (p : string → bool) ds :
  (∃ d, first p ds = Some d ∧ d ∈ ds ∧ p d = true) ∨ (first p ds = None ∧ ∀ d, d ∈ ds → p d = false).
Proof.
  unfold first. destruct (List.find p ds) as [d|] eqn:Hf.
  - apply find_some in Hf as [Hin Hp]. left. exists d. by rewrite list_elem_of_In.
  - right. split; [done|]. intros d Hd%list_elem_of_In. by apply (find_none _ _ Hf).
Qed.

(** The device: the configured one, else the first of the wanted vendor, else the first. *)
Definition search_device w (dev vendor : string) : string :=
  if decide (dev = "") then
    or_default (default "" (first (sh_ischar w) (candidates w)))
      (if decide (vendor = "") then ""
       else default "" (first (λ d, sh_ischar w d && String.eqb (vendor_of w d) vendor) (candidates w)))
  else dev.

Definition device env w : string :=
  search_device w (value env RenderDeviceEnvVar) (value env RenderVendorEnvVar).

(** The acceleration type and the device to configure. *)
Definition choice env w : string * string :=
  let accel := value env AccelTypeEnvVar in
  if decide (accel = jellyfinNvenc) then (accel, value env RenderDeviceEnvVar)
  else if decide (device env w = "") then ("", "") else (accel, device env w).

Definition or_value env (x d : string) : string := or_default d (value env x).

Definition config_dir env : string :=
  or_value env "JELLYFIN_CONFIG_DIR" (or_value env "JELLYFIN_DATA_DIR" "/config" +:+ "/config").

(** An element of the file [f] is replaced where there is one, else added. *)
Definition put_tag (f tag v : string) w : W :=
  let '(w, s) := sh_exec ["grep"; "-q"; "<" +:+ tag +:+ ">"; f] w in
  if decide (s = 0%Z) then
    (sh_exec ["sed"; "-i"; "s#<" +:+ tag +:+ ">[^<]*</" +:+ tag +:+ ">#<" +:+ tag +:+ ">" +:+ v +:+ "</" +:+ tag +:+ ">#"; f] w).1
  else
    (sh_exec ["sed"; "-i"; "s#</EncodingOptions>#  <" +:+ tag +:+ ">" +:+ v +:+ "</" +:+ tag +:+ ">\n</EncodingOptions>#"; f] w).1.

Definition configure (dir accel dev : string) w : W :=
  let f := dir +:+ "/encoding.xml" in
  let w := (sh_exec ["mkdir"; "-p"; dir] w).1 in
  let w := if sh_isfile w f then w else (sh_write ["printf"; encoding_template] f w).1 in
  let w := if decide (dev = "") then w else put_tag f "QsvDevice" dev (put_tag f "VaapiDevice" dev w) in
  if decide (accel = "") then w else put_tag f "HardwareAccelerationType" accel w.

Definition setup env w : W :=
  let '(accel, dev) := choice env w in
  if decide (accel = "" ∧ dev = "") then w else configure (config_dir env) accel dev w.

(** ** Single commands *)
#[local] Arguments unary_test : simpl never.
#[local] Notation Sh k e w := (mkShell k e false w).

Definition plain_scope k : Prop :=
  ∀ n, n ∈ ["["; "echo"; "mkdir"; "printf"; "grep"; "sed"; "exec"; "break"; "continue"] →
    function_of (sc_functions k) n = None.

Lemma top_plain : plain_scope top_level.
Proof. done. Qed.

Lemma expand_or_empty st x : expand st (or_empty x) = value (sh_vars st) x.
Proof. unfold value. cbn. destruct (sh_vars st !! x) as [[|c s]|]; cbn; by rewrite ?app_s_nil_r. Qed.

Lemma expand_value (st : shell W) x : expand st (var x) = value (sh_vars st) x.
Proof. unfold value. cbn. by rewrite app_s_nil_r. Qed.

Lemma eval_assign_to call tested x v k e w :
  known_status v = true →
  eval_with call tested (assign x v) (Sh k e w) = Done (Sh k (<[x := expand (Sh k e w) v]> e) w) 0.
Proof. intros Hv. unfold assign. cbn. unfold known_status in Hv. by rewrite Hv. Qed.

Lemma eval_test1 call tested op x k e w :
  plain_scope k →
  eval_with call tested (test1 op x) (Sh k e w)
  = match unary_test w op (expand (Sh k e w) x) with
    | Some b => Done (Sh k e w) (of_bool b)
    | None => Stuck
    end.
Proof.
  intros Hk. cbn. rewrite (Hk "[") by set_solver. cbn. rewrite app_s_nil_r.
  by destruct (unary_test _ _ _).
Qed.

Lemma eval_test2 call tested a op b k e w :
  plain_scope k → op ∈ ["="; "!="] →
  eval_with call tested (test2 a op b) (Sh k e w)
  = Done (Sh k e w) (of_bool (if String.eqb op "=" then String.eqb (expand (Sh k e w) a) (expand (Sh k e w) b)
                              else negb (String.eqb (expand (Sh k e w) a) (expand (Sh k e w) b)))).
Proof.
  intros Hk Hop. cbn. rewrite (Hk "[") by set_solver. cbn. rewrite ?app_s_nil_r.
  rewrite !elem_of_cons, elem_of_nil in Hop. by destruct Hop as [-> | [-> | []]].
Qed.

(** A command in a test sees the status only. *)
Lemma with_Seq call tested a b (st : shell W) :
  eval_with call tested (Seq a b) st
  = match eval_with call tested a st with Done st _ => eval_with call tested b st | o => o end.
Proof. done. Qed.

Lemma with_Or call tested a b (st : shell W) :
  eval_with call tested (Or a b) st
  = match eval_with call true a st with
    | Done st s => if decide (s = 0%Z) then Done st s else eval_with call tested b st
    | o => o
    end.
Proof. done. Qed.

Lemma with_And call tested a b (st : shell W) :
  eval_with call tested (And a b) st
  = match eval_with call true a st with
    | Done st s => if decide (s = 0%Z) then eval_with call tested b st else Done st s
    | o => o
    end.
Proof. done. Qed.

Lemma with_If call tested c t (o : option cmd) (st : shell W) :
  eval_with call tested (If c t o) st
  = match eval_with call true c st with
    | Done st s =>
        if decide (s = 0%Z) then eval_with call tested t st
        else match o with Some c => eval_with call tested c st | None => Done st 0 end
    | o => o
    end.
Proof. done. Qed.

Lemma if_status {A} (b : bool) (x y : A) : (if decide (of_bool b = 0%Z) then x else y) = if b then x else y.
Proof. by destruct b. Qed.

Lemma value_insert e x v : value (<[x := v]> e) x = v.
Proof. unfold value. by rewrite lookup_insert_eq. Qed.

Lemma value_insert_ne e x y v : x ≠ y → value (<[x := v]> e) y = value e y.
Proof. intros. unfold value. by rewrite lookup_insert_ne. Qed.

Lemma eval_break call tested k e w :
  plain_scope k → eval_with call tested (Simple [Bare "break"] []) (Sh k e w) = Break (Sh k e w).
Proof. intros Hk. cbn. by rewrite (Hk "break") by set_solver. Qed.

Lemma eval_continue call tested k e w :
  plain_scope k → eval_with call tested (Simple [Bare "continue"] []) (Sh k e w) = Continue (Sh k e w).
Proof. intros Hk. cbn. by rewrite (Hk "continue") by set_solver. Qed.

(** ** The search *)
Definition is_vendor w (vendor d : string) : bool := sh_ischar w d && String.eqb (vendor_of w d) vendor.

Lemma vendor_step call tested k e w d :
  plain_scope k →
  eval_with call tested vendor_body (Sh k (<["d" := d]> e) w)
  = if sh_ischar w d then
      let e' := <["v" := vendor_of w d]> (<["d" := d]> e) in
      if String.eqb (vendor_of w d) (value e RenderVendorEnvVar) then Break (Sh k (<["dev" := d]> e') w)
      else Done (Sh k e' w) 0
    else Continue (Sh k (<["d" := d]> e) w).
Proof.
  intros Hk. unfold vendor_body, seq. cbn [fold_right].
  rewrite with_Seq, with_Or, eval_test1, expand_value by done. cbn [sh_vars]. rewrite value_insert.
  change (unary_test w "-c" d) with (Some (sh_ischar w d)). cbv beta iota. rewrite if_status.
  destruct (sh_ischar w d); [|by rewrite eval_continue].
  rewrite with_Seq, eval_assign_to by done. rewrite with_If, eval_test2 by (done || set_solver).
  rewrite !expand_value. cbn [sh_vars]. rewrite if_status.
  assert (expand (Sh k (<["d" := d]> e) w) [Quoted ""; Safe [[Bare "cat"]; vendor_file]] = vendor_of w d) as ->.
  { unfold vendor_of. cbn. by rewrite !lookup_insert_eq, !app_s_nil_r. }
  rewrite value_insert, !value_insert_ne by done. cbn [String.eqb Ascii.eqb Bool.eqb].
  destruct (String.eqb (vendor_of w d) (value e RenderVendorEnvVar)); [|done].
  rewrite with_Seq, eval_assign_to by done. rewrite eval_break by done.
  rewrite expand_value. cbn [sh_vars]. by rewrite value_insert_ne, value_insert by done.
Qed.

Lemma any_step call tested k e w d :
  plain_scope k →
  eval_with call tested any_body (Sh k (<["d" := d]> e) w)
  = if sh_ischar w d then Break (Sh k (<["dev" := d]> (<["d" := d]> e)) w) else Done (Sh k (<["d" := d]> e) w) 0.
Proof.
  intros Hk. unfold any_body.
  rewrite with_If, eval_test1, expand_value by done. cbn [sh_vars]. rewrite value_insert.
  change (unary_test w "-c" d) with (Some (sh_ischar w d)). cbv beta iota. rewrite if_status.
  destruct (sh_ischar w d); [|done].
  rewrite with_Seq, eval_assign_to by done. rewrite eval_break by done.
  rewrite expand_value. cbn [sh_vars]. by rewrite value_insert by done.
Qed.

(** The search changes its own variables only. *)
Definition agree e e' : Prop := ∀ x, x ∉ ["d"; "v"; "dev"] → value e' x = value e x.

Lemma agree_refl e : agree e e.
Proof. done. Qed.

Lemma agree_insert e e' x v : x ∈ ["d"; "v"; "dev"] → agree e e' → agree e (<[x := v]> e').
Proof. intros Hx Ha y Hy. rewrite value_insert_ne by (intros ->; done). by apply Ha. Qed.

(** A body that stops at the items of [p], noting the item in [dev]. *)
Definition searches (run : shell W → outcome W) k w e0 (p : string → bool) : Prop :=
  ∀ e d, agree e0 e → ∃ e', agree e0 e' ∧
    if p d then run (Sh k (<["d" := d]> e) w) = Break (Sh k e' w) ∧ value e' "dev" = d
    else (run (Sh k (<["d" := d]> e) w) = Continue (Sh k e' w) ∨ ∃ s, run (Sh k (<["d" := d]> e) w) = Done (Sh k e' w) s) ∧
         value e' "dev" = value e "dev".

Lemma search_loop run k w e0 p items e last :
  searches run k w e0 p → agree e0 e →
  ∃ e' s, loop run "d" items (Sh k e w) last = Done (Sh k e' w) s ∧ agree e0 e' ∧
    value e' "dev" = default (value e "dev") (first p items).
Proof.
  intros Hrun. revert e last. induction items as [|d items IH]; intros e last Ha; [by exists e, last|].
  destruct (Hrun e d Ha) as (e' & Ha' & Hd). cbn [loop].
  change (set_var "d" d (Sh k e w)) with (Sh k (<["d" := d]> e) w).
  unfold first. cbn [List.find]. destruct (p d).
  - destruct Hd as [-> Hdev]. by exists e', 0%Z.
  - destruct Hd as [Hstep Hdev]. rewrite <- Hdev. destruct Hstep as [->|[s ->]]; by apply IH.
Qed.

Lemma vendor_searches call tested k w e0 :
  plain_scope k → searches (eval_with call tested vendor_body) k w e0 (is_vendor w (value e0 RenderVendorEnvVar)).
Proof.
  intros Hk e d Ha. rewrite vendor_step by done.
  assert (value e RenderVendorEnvVar = value e0 RenderVendorEnvVar) as -> by (apply Ha; set_solver).
  unfold is_vendor. cbv zeta. destruct (sh_ischar w d); cbn [andb];
    [destruct (String.eqb (vendor_of w d) _)|]; eexists; (split; [|split; [eauto|]]);
    repeat (apply agree_insert; [set_solver|]); try done; rewrite ?value_insert; try done;
    by rewrite !value_insert_ne by done.
Qed.

Lemma any_searches call tested k w e0 :
  plain_scope k → searches (eval_with call tested any_body) k w e0 (sh_ischar w).
Proof.
  intros Hk e d Ha. rewrite any_step by done.
  destruct (sh_ischar w d); eexists; (split; [|split; [eauto|]]);
    repeat (apply agree_insert; [set_solver|]); try done; rewrite ?value_insert; try done;
    by rewrite !value_insert_ne by done.
Qed.

Lemma items_candidates k e w : [render_glob] ≫= expand_items (Sh k e w) = candidates w.
Proof. cbn. rewrite app_nil_r. unfold candidates, expand_items. cbn. by destruct (sh_glob w _). Qed.

Lemma eval_for call tested k e w body p :
  plain_scope k → searches (eval_with call tested body) k w e p →
  ∃ e' s, eval_with call tested (For "d" [render_glob] body) (Sh k e w) = Done (Sh k e' w) s ∧ agree e e' ∧
    value e' "dev" = default (value e "dev") (first p (candidates w)).
Proof.
  intros Hk Hs. cbn [eval_with]. rewrite items_candidates. by apply search_loop.
Qed.

(** A conditional search that is due when [due] holds. *)
Lemma eval_test_var call tested op x k e w :
  plain_scope k →
  eval_with call tested (test1 op (var x)) (Sh k e w)
  = match unary_test w op (value e x) with
    | Some b => Done (Sh k e w) (of_bool b)
    | None => Stuck
    end.
Proof. intros Hk. by rewrite eval_test1, expand_value by done. Qed.

Lemma unary_z w s : unary_test w "-z" s = Some (String.eqb s "").
Proof. done. Qed.
Lemma unary_n w s : unary_test w "-n" s = Some (negb (String.eqb s "")).
Proof. done. Qed.

Lemma vendor_search call tested k e w :
  plain_scope k →
  ∃ e' s, eval_with call tested (If (And (test1 "-z" (var "dev")) (test1 "-n" (or_empty RenderVendorEnvVar)))
            (For "d" [render_glob] vendor_body) None) (Sh k e w) = Done (Sh k e' w) s ∧ agree e e' ∧
    value e' "dev" =
      if decide (value e "dev" = "") then
        if decide (value e RenderVendorEnvVar = "") then ""
        else default "" (first (is_vendor w (value e RenderVendorEnvVar)) (candidates w))
      else value e "dev".
Proof.
  intros Hk. rewrite with_If, with_And, eval_test_var, unary_z by done. cbv beta iota. rewrite if_status.
  destruct (String.eqb_spec (value e "dev") "") as [Hd|Hd].
  - rewrite eval_test1, expand_or_empty, unary_n by done. cbv beta iota. rewrite if_status. cbn [sh_vars].
    rewrite decide_True by done.
    destruct (String.eqb_spec (value e RenderVendorEnvVar) "") as [Hv|Hv]; cbn [negb].
    + exists e, 0%Z. split_and!; [done..|]. by rewrite decide_True.
    + destruct (eval_for call tested k e w vendor_body _ Hk (vendor_searches call tested k w e Hk)) as (e' & s & Hr & Ha & Hdev).
      exists e', s. split_and!; [done..|]. by rewrite Hdev, Hd, decide_False.
  - exists e, 0%Z. split_and!; [done..|]. by rewrite decide_False.
Qed.

Lemma any_search call tested k e w :
  plain_scope k →
  ∃ e' s, eval_with call tested (If (test1 "-z" (var "dev")) (For "d" [render_glob] any_body) None) (Sh k e w)
          = Done (Sh k e' w) s ∧ agree e e' ∧
    value e' "dev" = or_default (default "" (first (sh_ischar w) (candidates w))) (value e "dev").
Proof.
  intros Hk. rewrite with_If, eval_test_var, unary_z by done. cbv beta iota. rewrite if_status. unfold or_default.
  destruct (String.eqb_spec (value e "dev") "") as [Hd|Hd].
  - destruct (eval_for call tested k e w any_body _ Hk (any_searches call tested k w e Hk)) as (e' & s & Hr & Ha & Hdev).
    exists e', s. split_and!; [done..|]. by rewrite Hdev, Hd, decide_True.
  - exists e, 0%Z. split_and!; [done..|]. by rewrite decide_False.
Qed.

(** [find_device] as a whole also gives up the acceleration type without a device. *)
Lemma eval_find_device call k e w :
  plain_scope k →
  let dev := search_device w (value e "dev") (value e RenderVendorEnvVar) in
  ∃ e' s, eval_with call false find_device (Sh k e w) = Done (Sh k e' w) s ∧
    value e' "dev" = dev ∧ value e' "accel" = (if decide (dev = "") then "" else value e "accel") ∧
    ∀ x, x ∉ ["d"; "v"; "dev"; "accel"] → value e' x = value e x.
Proof.
  intros Hk dev. unfold find_device, seq. cbn [fold_right].
  destruct (vendor_search call false k e w Hk) as (e1 & s1 & H1 & A1 & D1). rewrite with_Seq, H1.
  destruct (any_search call false k e1 w Hk) as (e2 & s2 & H2 & A2 & D2). rewrite with_Seq, H2.
  assert (value e2 "dev" = dev) as Hdev.
  { rewrite D2, D1. unfold dev, search_device. case_decide; [done|]. unfold or_default. by rewrite decide_False. }
  assert (∀ x, x ∉ ["d"; "v"; "dev"] → value e2 x = value e x) as Ha by (intros; rewrite A2, A1; done).
  rewrite with_If, eval_test_var, unary_z, Hdev by done. cbv beta iota. rewrite if_status.
  destruct (String.eqb_spec dev "") as [Hd|Hd].
  - rewrite with_Seq.
    assert (eval_with call false (Redirected [Bare "echo"] [[Quoted no_device_text]] ToStderr) (Sh k e2 w)
            = Done (Sh k e2 w) 0) as ->.
    { cbn. by rewrite (Hk "echo") by set_solver. }
    rewrite eval_assign_to by done. eexists _, 0%Z. split; [reflexivity|].
    rewrite value_insert_ne, value_insert, decide_True by done. split_and!; [done..|].
    intros x Hx. rewrite value_insert_ne by (intros <-; set_solver). apply Ha. set_solver.
  - exists e2, 0%Z. rewrite decide_False by done. split_and!; [done..| |]; [apply Ha; set_solver|].
    intros x Hx. apply Ha. set_solver.
Qed.

(** ** Writing the choice *)
Definition tagged : scope := mkScope [("set_tag", tag_body)] [].

Lemma tagged_plain : plain_scope tagged.
Proof.
  intros n Hn. rewrite !elem_of_cons, elem_of_nil in Hn. cbn.
  by destruct Hn as [-> | [-> | [-> | [-> | [-> | [-> | [-> | [-> | [-> | []]]]]]]]]].
Qed.

Lemma eval_external call tested k e w name args :
  function_of (sc_functions k) name = None → existsb (String.eqb name) special = false →
  String.eqb name "[" = false → String.eqb name "echo" = false → String.eqb name "" = false →
  eval_with call tested (Simple [Bare name] args) (Sh k e w)
  = let '(w', s) := sh_exec (name :: (expand (Sh k e w) <$> args)) w in Done (Sh k e w') s.
Proof.
  intros Hf H1 H2 H3 H4. cbn [eval_with]. cbn [expand fold_right expand_part sh_scope]. rewrite app_s_nil_r, Hf.
  unfold run_simple. rewrite H1, H2, H3, H4. unfold external. cbn [sh_world].
  by destruct (sh_exec _ w).
Qed.

Lemma eval_tag_body call tested e w tag v :
  let k := mkScope [("set_tag", tag_body)] [tag; v] in
  ∃ s, eval_with call tested tag_body (Sh k e w) = Done (Sh k e (put_tag (value e "f") tag v w)) s.
Proof.
  intros k. unfold tag_body at 1, put_tag. rewrite with_If, eval_external by done.
  cbn [fmap list_fmap]. rewrite expand_value. cbn [sh_vars].
  change (expand (Sh k e w) [Quoted "<"; Arg 1; Quoted ">"]) with ("<" +:+ tag +:+ ">").
  change (expand (Sh k e w) [Bare "-q"]) with "-q".
  destruct (sh_exec _ w) as [w1 s1]. case_decide; rewrite eval_external by done; cbn [fmap list_fmap];
    rewrite expand_value; cbn [sh_vars];
    match goal with |- context [let '(_, _) := sh_exec ?a ?b in _] => destruct (sh_exec a b) as [w2 s2] eqn:He end;
    exists s2; do 2 f_equal; exact (eq_sym (f_equal fst He)).
Qed.

(** Function calls are nested once. *)
Definition calling : bool → cmd → shell W → outcome W := eval_depth 3.

Lemma eval_set_tag e w tag x :
  ∃ s, eval_with calling false (set_tag tag x) (Sh tagged e w)
       = Done (Sh tagged e (put_tag (value e "f") tag (value e x) w)) s.
Proof.
  unfold set_tag. cbn [eval_with]. cbn [expand fold_right expand_part sh_scope tagged sc_functions function_of].
  rewrite app_s_nil_r. change (String.eqb "set_tag" "set_tag") with true. cbv iota.
  cbn [fmap list_fmap]. rewrite expand_value. cbn [sh_vars].
  change (expand (Sh tagged e w) [Bare tag]) with (tag +:+ ""). rewrite app_s_nil_r.
  unfold calling, set_scope. cbn [sh_scope sh_vars sh_errexit sh_world tagged sc_functions].
  change (eval_depth 3) with (eval_with (eval_depth 2)).
  destruct (eval_tag_body (eval_depth 2) false e w tag (value e x)) as [s ->]. by exists s.
Qed.

Lemma eval_echo call tested k e w text :
  plain_scope k → eval_with call tested (Simple [Bare "echo"] [text]) (Sh k e w) = Done (Sh k e w) 0.
Proof. intros Hk. cbn. rewrite (Hk "echo") by set_solver. cbn. by destruct tested. Qed.

(** The two conditional steps at the end. *)
Lemma eval_tag_device e w :
  ∃ s, eval_with calling false
         (If (test1 "-n" (var "dev"))
           (seq [Simple [Bare "echo"] [[Quoted "jellyops: using render device "; Var "dev"]];
                 set_tag "VaapiDevice" "dev"] (set_tag "QsvDevice" "dev")) None) (Sh tagged e w)
       = Done (Sh tagged e (if decide (value e "dev" = "") then w
                            else put_tag (value e "f") "QsvDevice" (value e "dev")
                                   (put_tag (value e "f") "VaapiDevice" (value e "dev") w))) s.
Proof.
  rewrite with_If, eval_test_var, unary_n by apply tagged_plain. cbv beta iota. rewrite if_status.
  destruct (String.eqb_spec (value e "dev") "") as [Hd|Hd]; cbn [negb].
  - exists 0%Z. by rewrite decide_True.
  - unfold seq. cbn [fold_right]. rewrite with_Seq, eval_echo by apply tagged_plain.
    rewrite with_Seq. destruct (eval_set_tag e w "VaapiDevice" "dev") as [s1 ->].
    destruct (eval_set_tag e (put_tag (value e "f") "VaapiDevice" (value e "dev") w) "QsvDevice" "dev") as [s2 ->].
    exists s2. by rewrite decide_False.
Qed.

Lemma eval_tag_accel e w :
  ∃ s, eval_with calling false
         (If (test1 "-n" (var "accel"))
           (Seq (Simple [Bare "echo"] [[Quoted "jellyops: hardware acceleration type "; Var "accel"]])
             (set_tag "HardwareAccelerationType" "accel")) None) (Sh tagged e w)
       = Done (Sh tagged e (if decide (value e "accel" = "") then w
                            else put_tag (value e "f") "HardwareAccelerationType" (value e "accel") w)) s.
Proof.
  rewrite with_If, eval_test_var, unary_n by apply tagged_plain. cbv beta iota. rewrite if_status.
  destruct (String.eqb_spec (value e "accel") "") as [Hd|Hd]; cbn [negb].
  - exists 0%Z. by rewrite decide_True.
  - rewrite with_Seq, eval_echo by apply tagged_plain.
    destruct (eval_set_tag e w "HardwareAccelerationType" "accel") as [s1 ->].
    exists s1. by rewrite decide_False.
Qed.

Lemma expand_config_dir k e w :
  expand (Sh k e w) [Quoted ""; Default "JELLYFIN_CONFIG_DIR"
    [Default "JELLYFIN_DATA_DIR" [Quoted "/config"]; Quoted "/config"]] = config_dir e.
Proof.
  unfold config_dir, or_value, value. cbn.
  destruct (e !! "JELLYFIN_CONFIG_DIR") as [[|c s]|], (e !! "JELLYFIN_DATA_DIR") as [[|c' s']|]; cbn;
    by rewrite ?app_s_nil_r.
Qed.

Lemma eval_template call e w :
  ∃ s, eval_with call false
         (If (no_file (var "f")) (Redirected [Bare "printf"] [[Quoted encoding_template]] (ToFile (var "f"))) None)
         (Sh top_level e w)
       = Done (Sh top_level e (if sh_isfile w (value e "f") then w
                               else (sh_write ["printf"; encoding_template] (value e "f") w).1)) s.
Proof.
  assert (eval_with call true (no_file (var "f")) (Sh top_level e w)
          = Done (Sh top_level e w) (of_bool (negb (sh_isfile w (value e "f"))))) as Ht.
  { unfold value. cbn. by rewrite app_s_nil_r. }
  rewrite with_If, Ht, if_status. destruct (sh_isfile w (value e "f")); cbn [negb]; [by exists 0%Z|].
  assert (eval_with call false (Redirected [Bare "printf"] [[Quoted encoding_template]] (ToFile (var "f"))) (Sh top_level e w)
          = let '(w', s) := sh_write ["printf"; encoding_template] (value e "f") w in Done (Sh top_level e w') s) as ->.
  { unfold value. cbn -[encoding_template]. rewrite !app_s_nil_r. unfold run_to_file. cbn -[encoding_template].
    by destruct (sh_write _ _ w). }
  destruct (sh_write _ _ w) as [w' s]. by exists s.
Qed.

Lemma with_seq call tested c cs last (st : shell W) :
  eval_with call tested (seq (c :: cs) last) st
  = match eval_with call tested c st with Done st _ => eval_with call tested (seq cs last) st | o => o end.
Proof. done. Qed.

Lemma eval_write_config e w :
  ∃ e' s, eval_with calling false write_config (Sh top_level e w)
          = Done (Sh tagged e' (configure (config_dir e) (value e "accel") (value e "dev") w)) s.
Proof.
  unfold write_config, configure.
  rewrite with_seq, eval_assign_to, expand_config_dir by done. set (dir := config_dir e).
  rewrite with_seq, eval_external by done. cbn [fmap list_fmap]. rewrite expand_value. cbn [sh_vars].
  rewrite value_insert. change (expand _ [Bare "-p"]) with "-p".
  destruct (sh_exec ["mkdir"; "-p"; dir] w) as [w1 s1]. cbn [fst].
  rewrite with_seq, eval_assign_to by done.
  assert (expand (Sh top_level (<["cfgdir" := dir]> e) w1) [Quoted ""; Var "cfgdir"; Quoted "/encoding.xml"]
          = dir +:+ "/encoding.xml") as ->.
  { cbn. by rewrite lookup_insert_eq. }
  set (f := dir +:+ "/encoding.xml"). set (e2 := <["f" := f]> (<["cfgdir" := dir]> e)).
  assert (value e2 "f" = f) as Hf by apply value_insert.
  assert (value e2 "accel" = value e "accel") as Ha by (unfold e2; by rewrite !value_insert_ne by done).
  assert (value e2 "dev" = value e "dev") as Hd by (unfold e2; by rewrite !value_insert_ne by done).
  rewrite with_seq. destruct (eval_template calling e2 w1) as [s2 ->]. rewrite Hf.
  set (w2 := if sh_isfile w1 f then w1 else _). rewrite with_seq.
  change (eval_with calling false (FunDef "set_tag" tag_body) (Sh top_level e2 w2)) with (Done (Sh tagged e2 w2) 0).
  cbv iota. rewrite with_seq. destruct (eval_tag_device e2 w2) as [s3 ->]. rewrite Hf, Hd.
  set (w3 := if decide (value e "dev" = "") then w2 else _).
  change (seq [] ?c) with c. destruct (eval_tag_accel e2 w3) as [s4 ->]. rewrite Hf, Ha. by exists e2, s4.
Qed.

Lemma eval_either call e w :
  eval_with call true (Or (test1 "-n" (var "accel")) (test1 "-n" (var "dev"))) (Sh top_level e w)
  = Done (Sh top_level e w) (of_bool (bool_decide (¬ (value e "accel" = "" ∧ value e "dev" = "")))).
Proof.
  rewrite with_Or, eval_test_var, unary_n by apply top_plain. cbv beta iota.
  rewrite eval_test_var, unary_n by apply top_plain. cbv beta iota.
  destruct (String.eqb_spec (value e "accel") "") as [Ha|Ha], (String.eqb_spec (value e "dev") "") as [Hd|Hd];
    first [rewrite bool_decide_false by tauto|rewrite bool_decide_true by tauto]; done.
Qed.

(** ** The whole script *)
(** The search is skipped for NVENC. *)
Lemma eval_choice env e w :
  value e "accel" = value env AccelTypeEnvVar → value e "dev" = value env RenderDeviceEnvVar →
  value e RenderVendorEnvVar = value env RenderVendorEnvVar →
  ∃ e' s, eval_with calling false (If (test2 (var "accel") "!=" [Quoted jellyfinNvenc]) find_device None)
            (Sh top_level e w) = Done (Sh top_level e' w) s ∧
    (value e' "accel", value e' "dev") = choice env w ∧
    ∀ x, x ∉ ["d"; "v"; "dev"; "accel"] → value e' x = value e x.
Proof.
  intros Hacc Hdev Hven. rewrite with_If, eval_test2 by (apply top_plain || set_solver).
  rewrite if_status, expand_value. cbn [sh_vars]. rewrite Hacc.
  change (expand _ [Quoted jellyfinNvenc]) with jellyfinNvenc. cbn [String.eqb Ascii.eqb Bool.eqb]. unfold choice.
  destruct (String.eqb_spec (value env AccelTypeEnvVar) jellyfinNvenc) as [Hn|Hn]; cbn [negb].
  - exists e, 0%Z. rewrite decide_True by done. split_and!; [done|by rewrite Hacc, Hdev|done].
  - rewrite decide_False by done.
    destruct (eval_find_device calling top_level e w top_plain) as (e2 & s2 & -> & Hd2 & Ha2 & Hs2).
    rewrite Hdev, Hven in Hd2, Ha2.
    change (search_device w _ (value env RenderVendorEnvVar)) with (device env w) in Hd2, Ha2.
    exists e2, s2. split_and!; [done| |done].
    rewrite Hd2, Ha2, Hacc. by destruct (decide (device env w = "")) as [->|].
Qed.

Lemma eval_config env e w :
  (value e "accel", value e "dev") = choice env w → config_dir e = config_dir env →
  ∃ k e' s, plain_scope k ∧
    eval_with calling false (If (Or (test1 "-n" (var "accel")) (test1 "-n" (var "dev"))) write_config None)
      (Sh top_level e w) = Done (Sh k e' (setup env w)) s.
Proof.
  intros Hch Hdir. unfold setup. rewrite <- Hch. cbn iota beta.
  rewrite with_If, eval_either. destruct (eval_write_config e w) as (e3 & s3 & Hw). rewrite Hdir in Hw.
  rewrite if_status. destruct (decide (value e "accel" = "" ∧ value e "dev" = "")) as [Hn|Hn].
  - exists top_level, e, 0%Z. by rewrite bool_decide_false by tauto.
  - exists tagged, e3, s3. split; [apply tagged_plain|]. by rewrite bool_decide_true by done.
Qed.

Lemma eval_exec call k e w :
  plain_scope k →
  eval_with call false (Simple [Bare "exec"] [[Bare DefaultJellyfinCommand]]) (Sh k e w)
  = let '(w', s) := sh_exec [DefaultJellyfinCommand] w in Exit w' s.
Proof.
  intros Hk. cbn -[DefaultJellyfinCommand]. rewrite (Hk "exec") by set_solver.
  rewrite app_s_nil_r. unfold run_simple. cbn. by destruct (sh_exec _ _).
Qed.

Lemma eval_startup env w :
  ran_of (eval false startup (Sh top_level env w))
  = let '(w', s) := sh_exec [DefaultJellyfinCommand] (setup env w) in Ran w' s.
Proof.
  change (eval false startup) with (eval_with calling false startup). unfold startup.
  rewrite with_seq, eval_assign_to, expand_or_empty by done. cbn [sh_vars].
  rewrite with_seq, eval_assign_to, expand_or_empty by done. cbn [sh_vars]. rewrite value_insert_ne by done.
  set (e1 := <["dev" := _]> _).
  assert (∀ x, x ∉ ["dev"; "accel"] → value e1 x = value env x) as H1.
  { intros x Hx. unfold e1. rewrite !value_insert_ne by (intros <-; set_solver). done. }
  destruct (eval_choice env e1 w) as (e2 & s2 & H2 & Hch & Hsame);
    [unfold e1; by rewrite value_insert_ne, value_insert by done|apply value_insert|apply H1; set_solver|].
  rewrite with_seq, H2.
  destruct (eval_config env e2 w Hch) as (k & e3 & s3 & Hk & H3);
    [unfold config_dir, or_value; by rewrite !Hsame, !H1 by set_solver|].
  rewrite with_seq, H3. change (seq [] ?c) with c. rewrite eval_exec by done. by destruct (sh_exec _ _).
Qed.
End setup.

(** ** The server container *)

(** What the builder puts in the environment for the script. *)
Definition accel_env (hw : HardwareAccel) : list EnvVar :=
  if render_type hw then
    [mkEnv AccelTypeEnvVar (hw_Type hw)]
    ++ (if decide (hw_DevicePath hw ≠ "") then [mkEnv RenderDeviceEnvVar (hw_DevicePath hw)] else [])
    ++ (if decide (hw_Type hw = AccelQSV) then [mkEnv RenderVendorEnvVar intelPCIVendorID] else [])
  else if nvidia_type hw then [mkEnv AccelTypeEnvVar jellyfinNvenc] else [].

Lemma setResourceLimitOne_keeps σ c n :
  c_Env (setResourceLimitOne σ c n).2 = c_Env c ∧ c_Command (setResourceLimitOne σ c n).2 = c_Command c.
Proof. unfold setResourceLimitOne. by destruct (rr_Limits _). Qed.

Lemma applyHardwareAccel_env σ pod hw c rest σ' pod' :
  ps_Containers pod = c :: rest → applyHardwareAccel σ pod (Some hw) = Ok (σ', pod') →
  ∃ c', ps_Containers pod' = c' :: rest ∧ c_Env c' = c_Env c ++ accel_env hw ∧
    (is_Some (wanted_backend hw) → c_Command c' = startupCommand).
Proof.
  intros Hc. unfold applyHardwareAccel. rewrite Hc.
  unfold applyRenderAccel, applyNvidiaAccel, attachRenderDevice, accel_env, wanted_backend.
  destruct (setResourceLimitOne_keeps σ c (hw_DeviceResource hw)) as [E1 _].
  destruct (setResourceLimitOne_keeps σ c nvidiaGPUResource) as [E2 _].
  destruct (setResourceLimitOne σ c (hw_DeviceResource hw)) as [σ1 c1].
  destruct (setResourceLimitOne σ c nvidiaGPUResource) as [σ2 c2]. cbn [snd] in *.
  unfold render_type, nvidia_type.
  repeat (case_decide || case_bool_decide); try tauto; intros [= <- <-]; eexists;
    (split; [destruct (hw_RenderGroupGID hw); reflexivity|]); cbn; rewrite ?E1, ?E2, <- ?app_assoc, ?app_nil_r;
    split; try done; by intros [].
Qed.

Definition server_env (jf : Jellyfin) : list EnvVar := c_Env (bp_Jellyfin (serverParts jf (instance_image jf))).

Lemma server_env_names jf e : e ∈ server_env jf → ev_Name e ∈ ["JELLYFIN_CACHE_DIR"; "JELLYFIN_WEB_DIR"].
Proof.
  unfold server_env, serverParts.
  assert (∀ s l, c_Env (bp_Jellyfin (fold_left (addMedia jf) l s)) = c_Env (bp_Jellyfin s)) as Hm.
  { intros s l. revert s. induction l as [|mf l IH]; intros s; [done|]. cbn [fold_left]. rewrite IH.
    unfold addMedia. by destruct (mediaVolumeAndMount jf mf). }
  assert (∀ s, c_Env (bp_Jellyfin (addTrickplay jf s)) = c_Env (bp_Jellyfin s)) as Ht.
  { intros s. unfold addTrickplay. by destruct (st_Trickplay _). }
  unfold addWebVolume. destruct (js_Web (jf_Spec jf)) as [web|];
    [case_decide|]; cbn [bp_Jellyfin]; unfold add_env, set_c_Command, add_mount; cbn;
    rewrite Hm, Ht; unfold addCache; destruct (st_Cache _); cbn; set_solver.
Qed.

Lemma addPlugins_env image s ps s' :
  addPlugins image s ps = Ok s' → c_Env (bp_Jellyfin s') = c_Env (bp_Jellyfin s).
Proof.
  revert s. induction ps as [|p ps IH]; intros s; cbn [addPlugins]; [by intros [= ->]|].
  destruct (addPlugin image s p) as [s1|] eqn:Hp; [|done]. cbn [mbind result_bind]. intros ->%IH.
  unfold addPlugin in Hp. destruct (copies p), (inline_install p) as [i|]; cbn in Hp;
    try destruct (installContainer image p i); cbn in Hp; try done; by injection Hp as <-.
Qed.

Lemma BuildDeployment_server_env σ jf ps σ' d hw :
  BuildDeployment σ jf ps = Ok (σ', d) → js_HardwareAcceleration (jf_Spec jf) = Some hw →
  ∃ c, ps_Containers (pt_Spec (dep_Template d)) = [c] ∧ c_Env c = server_env jf ++ accel_env hw ∧
    (is_Some (wanted_backend hw) → c_Command c = startupCommand).
Proof.
  intros Hb Hhw. unfold BuildDeployment, BuildPodTemplateSpec in Hb. rewrite Hhw in Hb.
  destruct (addPlugins _ _ _) as [s|] eqn:Hs; [|done]. cbn [mbind result_bind] in Hb.
  destruct (securePodSpec_spec jf s) as (HC & _).
  destruct (applyHardwareAccel σ (securePodSpec jf s) (Some hw)) as [[σ1 pod]|] eqn:Ha; [|done].
  cbn in Hb. injection Hb as <- <-. cbn.
  destruct (applyHardwareAccel_env _ _ _ _ _ _ _ HC Ha) as (c & Hc & He & Hcmd).
  exists c. split_and!; [done| |done]. rewrite He. f_equal. unfold server_env.
  rewrite <- (addPlugins_env _ _ _ _ Hs). apply pod_security_fields.
Qed.

(** The environment of a container over that of its image: a later entry wins. *)
Definition environment (image : gmap string string) (es : list EnvVar) : gmap string string :=
  foldl (λ m e, <[ev_Name e := ev_Value e]> m) image es.

Definition runtime_vars : list string := [AccelTypeEnvVar; RenderDeviceEnvVar; RenderVendorEnvVar].

Lemma environment_other image es x :
  (∀ e, e ∈ es → ev_Name e ≠ x) → environment image es !! x = image !! x.
Proof.
  revert image. induction es as [|e es IH]; intros image Hx; [done|]. cbn. rewrite IH by set_solver.
  apply lookup_insert_ne. apply Hx. by left.
Qed.

Lemma environment_app image es es' : environment image (es ++ es') = environment (environment image es) es'.
Proof. apply foldl_app. Qed.

Section container.
Context {W : Type} `{!Runtime W}.
Implicit Types (w : W) (image : gmap string string) (hw : HardwareAccel).

Definition run_server (env : gmap string string) (c : Container) w : ran W :=
  match c_Command c with
  | ["/bin/sh"; "-c"; script] => sh_c env script w
  | _ => Refused
  end.

(** The device a configuration comes to use in [w], and what becomes of [w]. *)
Definition wanted_device hw w : string :=
  search_device w (hw_DevicePath hw) (if decide (hw_Type hw = AccelQSV) then intelPCIVendorID else "").

Definition accelerated hw (dir : string) w : W :=
  if nvidia_type hw then configure dir jellyfinNvenc "" w
  else if decide (wanted_device hw w = "") then w else configure dir (hw_Type hw) (wanted_device hw w) w.

(** What the script reads of the environment. *)
Lemma accel_env_values jf image hw :
  (∀ x, x ∈ runtime_vars → image !! x = None) → is_Some (wanted_backend hw) →
  let env := environment image (server_env jf ++ accel_env hw) in
  value env AccelTypeEnvVar = (if nvidia_type hw then jellyfinNvenc else hw_Type hw) ∧
  value env RenderDeviceEnvVar = (if nvidia_type hw then "" else hw_DevicePath hw) ∧
  value env RenderVendorEnvVar =
    (if nvidia_type hw then "" else if decide (hw_Type hw = AccelQSV) then intelPCIVendorID else "") ∧
  config_dir env = config_dir image.
Proof.
  intros Himg Hb env.
  assert (∀ x, x ∉ ["JELLYFIN_CACHE_DIR"; "JELLYFIN_WEB_DIR"] → environment image (server_env jf) !! x = image !! x) as H1.
  { intros x Hx. apply environment_other. intros e He <-. by apply Hx, (server_env_names jf). }
  assert (∀ x, x ∈ runtime_vars → environment image (server_env jf) !! x = None) as H0.
  { intros x Hx. rewrite H1; [by apply Himg|]. unfold runtime_vars in Hx. set_solver. }
  assert (∀ x, x ∉ runtime_vars → env !! x = environment image (server_env jf) !! x) as H2.
  { intros x Hx. unfold env. rewrite environment_app. apply environment_other. intros e He <-. apply Hx.
    unfold accel_env in He. unfold runtime_vars. repeat case_match; set_solver. }
  assert (config_dir env = config_dir image) as Hdir.
  { unfold config_dir, or_value, value. by rewrite !H2, !H1 by (unfold runtime_vars; set_solver). }
  split_and!; [| | |done]; unfold env, value; rewrite environment_app.
  all: unfold wanted_backend, accel_env, nvidia_type, render_type in *.
  all: repeat (case_bool_decide || case_decide); try tauto; try (by destruct Hb).
  all: cbn; rewrite ?lookup_insert_eq; try done.
  all: rewrite ?lookup_insert_ne by done; rewrite ?lookup_insert_eq, ?H0 by (unfold runtime_vars; set_solver); cbn.
  all: try done.
  all: match goal with
       | H : _ ∨ _, Hn : hw_Type _ = AccelNvidia |- _ => exfalso; rewrite Hn in H; by destruct H
       | _ => by apply dec_stable
       end.
Qed.

Lemma device_choice env hw w :
  is_Some (wanted_backend hw) →
  value env AccelTypeEnvVar = (if nvidia_type hw then jellyfinNvenc else hw_Type hw) →
  value env RenderDeviceEnvVar = (if nvidia_type hw then "" else hw_DevicePath hw) →
  value env RenderVendorEnvVar =
    (if nvidia_type hw then "" else if decide (hw_Type hw = AccelQSV) then intelPCIVendorID else "") →
  setup env w = accelerated hw (config_dir env) w.
Proof.
  intros Hb Ha Hd Hv. unfold setup, choice, device, accelerated, wanted_device. rewrite Ha, Hd, Hv.
  destruct (nvidia_type hw) eqn:Hn; [by rewrite decide_True, decide_False by (done || by intros [])|].
  assert (hw_Type hw ≠ jellyfinNvenc ∧ hw_Type hw ≠ "") as [Ht Ht'].
  { unfold wanted_backend in Hb. rewrite Hn in Hb. destruct (render_type hw) eqn:Hr; [|by destruct Hb].
    unfold render_type in Hr. apply bool_decide_eq_true in Hr. by destruct Hr as [->| ->]. }
  rewrite (decide_False (P := hw_Type hw = jellyfinNvenc)) by done.
  destruct (decide (search_device _ _ _ = "")); [by rewrite decide_True|]. by rewrite decide_False by tauto.
Qed.
End container.

(** C14: the server starts with the acceleration it was given: for an instance with
    a known accelerator and an image that does not set the script's own variables, the
    server container, whatever its files, devices and tools are and whatever of them
    fails, ends in executing the server, after exactly the changes of [accelerated]:
    NVENC without a device, or the backend with the device that was found, or nothing
    when there is none. *)
Theorem accelerated_server_starts {W} `{!Runtime W} σ jf ps σ' d hw image :
  BuildDeployment σ jf ps = Ok (σ', d) → js_HardwareAcceleration (jf_Spec jf) = Some hw →
  is_Some (wanted_backend hw) → (∀ x, x ∈ runtime_vars → image !! x = None) →
  ∃ c, ps_Containers (pt_Spec (dep_Template d)) = [c] ∧ ∀ w : W,
    run_server (environment image (c_Env c)) c w
    = let '(w', s) := sh_exec [DefaultJellyfinCommand] (accelerated hw (config_dir image) w) in Ran w' s.
Proof.
  intros Hb Hhw Hbk Himg. destruct (BuildDeployment_server_env _ _ _ _ _ _ Hb Hhw) as (c & Hc & He & Hcmd).
  exists c. split; [done|]. intros w. unfold run_server. rewrite Hcmd by done. unfold startupCommand, sh_c.
  rewrite parse_startup, eval_startup, He.
  destruct (accel_env_values jf image hw Himg Hbk) as (Ha & Hd & Hv & Hdir).
  rewrite (device_choice _ hw) by done. by rewrite Hdir.
Qed.

(** the device that is used: the configured one, if any; otherwise a character
    device among the paths of /dev/dri; for Quick Sync one of Intel's, if there is
    any; and none is used only when there is none. *)
Theorem wanted_device_spec {W} `{!Runtime W} hw (w : W) :
  let d := wanted_device hw w in
  (hw_DevicePath hw ≠ "" → d = hw_DevicePath hw) ∧
  (hw_DevicePath hw = "" → d ≠ "" → d ∈ candidates w ∧ sh_ischar w d = true) ∧
  (hw_DevicePath hw = "" → "" ∉ candidates w → d = "" → ∀ c, c ∈ candidates w → sh_ischar w c = false) ∧
  (hw_DevicePath hw = "" → "" ∉ candidates w → hw_Type hw = AccelQSV →
     ∀ c, c ∈ candidates w → sh_ischar w c = true → vendor_of w c = intelPCIVendorID →
     vendor_of w d = intelPCIVendorID).
Proof.
  intros d. unfold d, wanted_device, search_device.
  set (vendor := if decide (hw_Type hw = AccelQSV) then intelPCIVendorID else "").
  set (of_vendor := if decide (vendor = "") then "" else _).
  split_and!.
  - intros Hp. by rewrite decide_False.
  - intros ->. rewrite decide_True by done. unfold or_default. case_decide as Hv; intros Hd.
    + destruct (first_spec (sh_ischar w) (candidates w)) as [(c & Hf & ? & ?)|[Hf _]];
        rewrite Hf in Hd |- *; [done|by destruct Hd].
    + unfold of_vendor in Hv |- *. destruct (decide (vendor = "")); [done|].
      destruct (first_spec (is_vendor w vendor) (candidates w)) as [(c & Hc & ? & Hp)|[Hc _]];
        unfold is_vendor in Hc; rewrite Hc in Hv |- *; [|done]. apply andb_true_iff in Hp as [? _]. done.
  - intros -> Hne. rewrite decide_True by done. unfold or_default. case_decide as Hv; intros Hd.
    + destruct (first_spec (sh_ischar w) (candidates w)) as [(c & Hc & ? & ?)|[_ Hn]]; [|done].
      rewrite Hc in Hd. cbn in Hd. by subst.
    + done.
  - intros -> Hne Hq c Hc Hch Hvd. rewrite decide_True by done. unfold or_default, of_vendor, vendor.
    rewrite Hq, (decide_True (P := AccelQSV = AccelQSV)), (decide_False (P := intelPCIVendorID = "")) by done.
    destruct (first_spec (is_vendor w intelPCIVendorID) (candidates w)) as [(c' & Hc' & Hin & Hp)|[_ Hn]].
    + unfold is_vendor in Hc'. rewrite Hc'. cbn. rewrite decide_False by (intros ->; done).
      apply andb_true_iff in Hp as [_ Hp]. by apply String.eqb_eq in Hp.
    + specialize (Hn c Hc). unfold is_vendor in Hn. by rewrite Hch, Hvd in Hn.
Qed.

(** ** A node with two graphics cards *)
Module Example_setup.
(** The commands that ran, latest first; the cards are AMD's and Intel's, no tag is
    in the file yet, which does not exist before [printf] writes it. *)
Definition world : Type := list (list string).
#[export] Instance node : Runtime world := {
  sh_isfile w f := existsb (λ args, bool_decide (head args = Some "printf")) w;
  sh_ischar w f := bool_decide (f ∈ ["/dev/dri/renderD128"; "/dev/dri/renderD129"]);
  sh_exec args w := (args :: w, if decide (head args = Some "grep") then 1%Z else 0%Z);
  sh_output args w :=
    match args with
    | [c; f] =>
        if String.eqb c "basename" then drop_s 9 f
        else if String.eqb f "/sys/class/drm/renderD129/device/vendor" then intelPCIVendorID else "0x1002"
    | _ => ""
    end;
  sh_glob w pattern := ["/dev/dri/renderD128"; "/dev/dri/renderD129"];
  sh_write args f w := ((args ++ [">"; f]) :: w, 0%Z);
}.
Definition accel : HardwareAccel := mkHardwareAccel AccelQSV "" "" None "".
Definition spec : JellyfinSpec :=
  mkJellyfinSpec "" None Example_builder.storage (mkServiceSpec "" 0 ∅) None None None
    ResourceRequirements_zero (Some accel) None None None None None None None ∅ [].
Definition jf : Jellyfin := mkJellyfin (jf_Meta Example_builder.jf) spec (jf_Status Example_builder.jf).
Definition built := result_or Example_builder.nothing (BuildDeployment ∅ jf Example_builder.plugins).
Lemma node_built : BuildDeployment ∅ jf Example_builder.plugins = Ok (built.1, built.2).
Proof. unfold built. rewrite <- surjective_pairing. apply result_or_Ok. vm_compute. reflexivity. Defined.

Definition encoding : string := "/config/config/encoding.xml".
Definition adds (tag v : string) : list (list string) :=
  [["sed"; "-i"; "s#</EncodingOptions>#  <" +:+ tag +:+ ">" +:+ v +:+ "</" +:+ tag +:+ ">\n</EncodingOptions>#"; encoding];
   ["grep"; "-q"; "<" +:+ tag +:+ ">"; encoding]].

(** Intel's card is the second. *)
Definition log : world :=
  [DefaultJellyfinCommand] :: adds "HardwareAccelerationType" "qsv" ++ adds "QsvDevice" "/dev/dri/renderD129"
  ++ adds "VaapiDevice" "/dev/dri/renderD129"
  ++ [["printf"; encoding_template; ">"; encoding]; ["mkdir"; "-p"; "/config/config"]].
End Example_setup.
Import (hints) Example_setup.

Lemma accelerated_server_starts_witness :
  ∃ c, ps_Containers (pt_Spec (dep_Template Example_setup.built.2)) = [c] ∧
    run_server (environment ∅ (c_Env c)) c ([] : Example_setup.world) = Ran Example_setup.log 0.
Proof.
  destruct (accelerated_server_starts (W := Example_setup.world) _ _ _ _ _ _ ∅ Example_setup.node_built eq_refl)
    as (c & Hc & Hrun).
  - by eexists.
  - done.
  - exists c. split; [exact Hc|]. rewrite Hrun. vm_compute. reflexivity.
Defined.

Lemma wanted_device_spec_witness :
  vendor_of ([] : Example_setup.world) (wanted_device Example_setup.accel []) = intelPCIVendorID.
Proof.
  apply (proj2 (proj2 (proj2 (wanted_device_spec Example_setup.accel ([] : Example_setup.world)))) eq_refl)
    with (c := "/dev/dri/renderD129"); [|done| |done|done].
  - by apply (bool_decide_unpack _).
  - by apply (bool_decide_unpack _).
Defined.
