(* ===== verification/Web.v ===== *)
(** * The web tier (internal/plugins/web.go)

    The nginx Deployment and Service that serve the web client in split mode. *)
From S2P Require Import Prelude K8s ApiTypes Naming PodSecurity.

Definition DefaultWebPort : Z := 80.
Definition webHealthPath : string := "/health".

Definition WebDeploymentName (jf : Jellyfin) : string := truncateName (jf_Name jf +:+ "-web").
Definition WebServiceName (jf : Jellyfin) : string := truncateName (jf_Name jf +:+ "-web").

Definition WebLabels (jf : Jellyfin) : gmap string string :=
  {[ NameLabel := WebAppName; InstanceLabel := jf_Name jf; ManagedByLabel := ManagedByValue;
     ComponentLabel := WebComponentName ]}.

Definition WebSelectorLabels (jf : Jellyfin) : gmap string string :=
  {[ NameLabel := WebAppName; InstanceLabel := jf_Name jf; ComponentLabel := WebComponentName ]}.

Definition health_probe (initialDelay period : Z) : Probe :=
  mkProbe (Some (mkHTTPGet webHealthPath DefaultWebPort)) initialDelay period.

Definition single_container_pod : PodSpec :=
  mkPodSpec [] [] [] [] (Some (mkPSC (Some SeccompProfileTypeRuntimeDefault) None None None None []))
    None ∅ [] "" None.

(** [web := jf.Spec.Web] is dereferenced without a check. *)
Definition BuildWebDeployment (jf : Jellyfin) : result Panic Deployment :=
  web ← deref (js_Web (jf_Spec jf));
  let container :=
    mkContainer WebComponentName (web_Image web) "" [] [] []
      [mkPort PortNameHTTP DefaultWebPort ProtocolTCP] (web_Resources web) []
      (Some (health_probe 5 10)) (Some (health_probe 15 20)) None None in
  let podSpec := secure_single container single_container_pod (js_PodSecurity (jf_Spec jf)) in
  Ok {| dep_Meta := meta_lit (WebDeploymentName jf) (jf_Namespace jf) (WebLabels jf) ∅;
        dep_Replicas := Some (default 1%Z (web_Replicas web));
        dep_Selector := WebSelectorLabels jf;
        dep_Strategy := "";
        dep_Template := mkPodTemplate (WebSelectorLabels jf) (web_PodAnnotations web) podSpec;
        dep_Status := DeploymentStatus_zero |}.

Definition BuildWebService (jf : Jellyfin) : Service :=
  {| svc_Meta := meta_lit (WebServiceName jf) (jf_Namespace jf) (WebLabels jf) ∅;
     svc_Type := ServiceTypeClusterIP;
     svc_Selector := WebSelectorLabels jf;
     svc_Ports := [mkSvcPort PortNameHTTP DefaultWebPort DefaultWebPort ProtocolTCP] |}.
