(* ===== verification/Workloads.v ===== *)
(** * Companion workloads (internal/plugins/workloads.go)

    The Deployments and Services a plugin declares besides the server, with the
    instance's media folders mounted at the same paths. *)
From S2P Require Import Prelude GoStrings K8s ApiTypes Naming PodSecurity Builder Web.

Definition WorkloadLabel : string := "jellyfin.jellyops.io/workload".

Definition WorkloadName (p : JellyfinPlugin) (w : PluginWorkload) : string :=
  prefixed (p_Name p) (wl_Name w).

Definition workloadSelectorLabels (p : JellyfinPlugin) (w : PluginWorkload) : gmap string string :=
  {[ NameLabel := wl_Name w; PluginLabel := p_Name p; WorkloadLabel := wl_Name w ]}.

(** ** Media of the bound instance *)

(** A [map[string]bool] used as a set; the nil map is empty. *)
Definition toSet (items : list string) : gset string := list_to_set items.

Definition set_media_readonly (ro : bool) (v : Volume) : Volume :=
  mkVolume (vol_Name v)
    ((λ s, mkPVCSource (pvcs_ClaimName s) ro) <$> vol_PersistentVolumeClaim v)
    ((λ s, mkNFSSource (nfss_Server s) (nfss_Path s) ro) <$> vol_NFS v)
    (vol_Image v) (vol_HostPath v).

(** What the loop carries: the volumes, the mounts, and the names and paths taken. *)
Record MediaState := mkMediaState {
  md_Volumes : list Volume;
  md_Mounts : list VolumeMount;
  md_HaveVol : gset string;
  md_HavePath : gset string;
}.

(** One turn of the loop over the media folders. *)
Definition appendFolder (jf : Jellyfin) (mode : string) (include readWrite : gset string)
    (s : MediaState) (mf : MediaFolder) : MediaState :=
  if decide (mode = InstanceMediaSelected ∧ mf_Name mf ∉ include) then s
  else
    let '(vol, mount) := mediaVolumeAndMount jf mf in
    if decide (vol_Name vol ∈ md_HaveVol s ∨ vm_MountPath mount ∈ md_HavePath s) then s
    else
      let ro := negb (bool_decide (mf_Name mf ∈ readWrite)) in
      let mount := mkMount (vm_Name mount) (vm_MountPath mount) (vm_SubPath mount) ro in
      let vol := set_media_readonly ro vol in
      mkMediaState (md_Volumes s ++ [vol]) (md_Mounts s ++ [mount])
        ({[vol_Name vol]} ∪ md_HaveVol s) ({[vm_MountPath mount]} ∪ md_HavePath s).

Definition media_mode (sel : option InstanceMediaSelection) : string :=
  match sel with
  | Some s => or_default InstanceMediaAll (im_Mode s)
  | None => InstanceMediaAll
  end.
Definition media_include (sel : option InstanceMediaSelection) : gset string :=
  match sel with Some s => toSet (im_Include s) | None => ∅ end.
Definition media_readWrite (sel : option InstanceMediaSelection) : gset string :=
  match sel with Some s => toSet (im_ReadWrite s) | None => ∅ end.

Definition appendInstanceMedia (jf : option Jellyfin) (sel : option InstanceMediaSelection)
    (volumes : list Volume) (mounts : list VolumeMount) : list Volume * list VolumeMount :=
  match jf with
  | None => (volumes, mounts)
  | Some jf =>
      let mode := media_mode sel in
      if decide (mode = InstanceMediaNone) then (volumes, mounts)
      else
        let s := fold_left (appendFolder jf mode (media_include sel) (media_readWrite sel))
                   (st_Media (js_Storage (jf_Spec jf)))
                   (mkMediaState volumes mounts
                      (toSet (vol_Name <$> volumes)) (toSet (vm_MountPath <$> mounts))) in
        (md_Volumes s, md_Mounts s)
  end.

(** ** The workload's Deployment *)
Definition effective_security (jf : option Jellyfin) (w : PluginWorkload) : option PodSecuritySpec :=
  match wl_PodSecurity w with
  | Some ps => Some ps
  | None => jf ← jf; js_PodSecurity (jf_Spec jf)
  end.

Definition BuildWorkloadDeployment (jf : option Jellyfin) (p : JellyfinPlugin) (w : PluginWorkload)
    : Deployment :=
  let labels := <[ManagedByLabel := ManagedByValue]> (workloadSelectorLabels p w) in
  let '(volumes, mounts) := appendInstanceMedia jf (wl_InstanceMedia w) (wl_Volumes w) (wl_VolumeMounts w) in
  let container :=
    mkContainer (wl_Name w) (img_Reference (wl_Image w)) (img_PullPolicy (wl_Image w))
      (wl_Command w) (wl_Args w) (wl_Env w) (wl_Ports w) (wl_Resources w) mounts
      (wl_ReadinessProbe w) (wl_LivenessProbe w) (wl_StartupProbe w) None in
  let podSpec :=
    mkPodSpec [] [] volumes [] (Some (mkPSC (Some SeccompProfileTypeRuntimeDefault) None None None None []))
      None (wl_NodeSelector w) (wl_Tolerations w) (wl_PriorityClassName w)
      (wl_TerminationGracePeriodSeconds w) in
  let podSpec := secure_single container podSpec (effective_security jf w) in
  let podSpec := if decide (wl_RuntimeClassName w ≠ "")
                 then set_ps_RuntimeClassName (Some (wl_RuntimeClassName w)) podSpec else podSpec in
  {| dep_Meta := meta_lit (WorkloadName p w) (p_Namespace p) labels ∅;
     dep_Replicas := Some (default 1%Z (wl_Replicas w));
     dep_Selector := workloadSelectorLabels p w;
     dep_Strategy := "";
     dep_Template := mkPodTemplate (workloadSelectorLabels p w) ∅ podSpec;
     dep_Status := DeploymentStatus_zero |}.

(** ** Services of a plugin *)
Inductive ServiceError : Type :=
  | NotBound (service : string)
  | EmptyWorkloadSelector (service : string)
  | UnknownSelector (service selector : string).

Definition resolveServiceSelector (p : JellyfinPlugin) (s : PluginService) (instanceName : string)
    : result ServiceError (gmap string string) :=
  if decide (psv_Selector s = ServiceTargetInstance) then
    if decide (instanceName = "") then Err (NotBound (psv_Name s))
    else Ok {[ NameLabel := AppName; InstanceLabel := instanceName ]}
  else if HasPrefix (psv_Selector s) "workload:" then
    let wl := TrimPrefix (psv_Selector s) "workload:" in
    if decide (wl = "") then Err (EmptyWorkloadSelector (psv_Name s))
    else Ok {[ NameLabel := wl; PluginLabel := p_Name p; WorkloadLabel := wl ]}
  else Err (UnknownSelector (psv_Name s) (psv_Selector s)).

Definition BuildPluginService (p : JellyfinPlugin) (s : PluginService) (instanceName : string)
    : result ServiceError Service :=
  selector ← resolveServiceSelector p s instanceName;
  Ok {| svc_Meta := meta_lit (psv_Name s) (p_Namespace p)
                      {[ PluginLabel := p_Name p; ManagedByLabel := ManagedByValue ]} ∅;
        svc_Type := or_default ServiceTypeClusterIP (psv_Type s);
        svc_Selector := selector;
        svc_Ports := psv_Ports s |}.

(** ** The media loop *)
Definition media_ro (readWrite : gset string) (mf : MediaFolder) : bool :=
  negb (bool_decide (mf_Name mf ∈ readWrite)).

Definition media_selected (mode : string) (include : gset string) (mf : MediaFolder) : Prop :=
  mode = InstanceMediaSelected → mf_Name mf ∈ include.

(** A folder's volume and mount, with the workload's own read-only flag. *)
Definition folder_volume (jf : Jellyfin) (readWrite : gset string) (mf : MediaFolder) : Volume :=
  set_media_readonly (media_ro readWrite mf) (mediaVolumeAndMount jf mf).1.
Definition folder_mount (readWrite : gset string) (mf : MediaFolder) : VolumeMount :=
  mkMount (mediaVolumeName mf) (mf_MountPath mf) "" (media_ro readWrite mf).

Section media.
Context (jf : Jellyfin) (mode : string) (include readWrite : gset string).
Context (volumes : list Volume) (mounts : list VolumeMount).
Implicit Types (mf : MediaFolder) (mfs kept : list MediaFolder) (s : MediaState).

(** What holds after the folders [mfs]: [kept] are those that were mounted. *)
Record media_inv (mfs kept : list MediaFolder) (s : MediaState) : Prop := {
  mi_kept : kept `sublist_of` mfs;
  mi_selected : Forall (media_selected mode include) kept;
  mi_volumes : md_Volumes s = volumes ++ (folder_volume jf readWrite <$> kept);
  mi_mounts : md_Mounts s = mounts ++ (folder_mount readWrite <$> kept);
  mi_have_vol : ∀ n, n ∈ md_HaveVol s ↔ n ∈ vol_Name <$> md_Volumes s;
  mi_have_path : ∀ q, q ∈ md_HavePath s ↔ q ∈ vm_MountPath <$> md_Mounts s;
  mi_vol_nodup : NoDup (vol_Name <$> volumes) → NoDup (vol_Name <$> md_Volumes s);
  mi_path_nodup : NoDup (vm_MountPath <$> mounts) → NoDup (vm_MountPath <$> md_Mounts s);
  mi_complete : ∀ mf, mf ∈ mfs → media_selected mode include mf →
    mediaVolumeName mf ∈ vol_Name <$> md_Volumes s ∨ mf_MountPath mf ∈ vm_MountPath <$> md_Mounts s;
}.

Lemma folder_volume_name mf : vol_Name (folder_volume jf readWrite mf) = mediaVolumeName mf.
Proof. apply mediaVolumeAndMount_names. Qed.

Lemma mediaVolumeAndMount_path mf :
  vm_MountPath (mediaVolumeAndMount jf mf).2 = mf_MountPath mf ∧
  vm_SubPath (mediaVolumeAndMount jf mf).2 = "".
Proof. unfold mediaVolumeAndMount. by destruct (inline_nfs mf). Qed.

Definition media_start : MediaState :=
  mkMediaState volumes mounts (toSet (vol_Name <$> volumes)) (toSet (vm_MountPath <$> mounts)).

Lemma media_inv_start : media_inv [] [] media_start.
Proof.
  split; cbn; rewrite ?app_nil_r; auto using sublist_nil_l.
  - intros n. apply elem_of_list_to_set.
  - intros q. apply elem_of_list_to_set.
  - by intros mf ?%elem_of_nil.
Qed.

(** Skipping a folder that is not selected, or whose name or path is taken. *)
Lemma media_inv_skip mfs kept s mf :
  media_inv mfs kept s →
  (media_selected mode include mf →
     mediaVolumeName mf ∈ vol_Name <$> md_Volumes s ∨ mf_MountPath mf ∈ vm_MountPath <$> md_Mounts s) →
  media_inv (mfs ++ [mf]) kept s.
Proof.
  intros [] Hmf. split; try done.
  - by apply sublist_inserts_r.
  - intros mf' [Hin| ->%list_elem_of_singleton]%elem_of_app; auto.
Qed.

Lemma media_inv_add mfs kept s mf :
  media_inv mfs kept s → media_selected mode include mf →
  mediaVolumeName mf ∉ md_HaveVol s → mf_MountPath mf ∉ md_HavePath s →
  media_inv (mfs ++ [mf]) (kept ++ [mf])
    (mkMediaState (md_Volumes s ++ [folder_volume jf readWrite mf])
       (md_Mounts s ++ [folder_mount readWrite mf])
       ({[mediaVolumeName mf]} ∪ md_HaveVol s) ({[mf_MountPath mf]} ∪ md_HavePath s)).
Proof.
  intros [] Hsel Hv Hp. rewrite mi_have_vol0 in Hv. rewrite mi_have_path0 in Hp.
  split; cbn [md_Volumes md_Mounts md_HaveVol md_HavePath]; rewrite ?fmap_app; cbn [fmap list_fmap];
    rewrite ?folder_volume_name; cbn [vm_MountPath folder_mount].
  - by apply sublist_app.
  - apply Forall_app; auto.
  - by rewrite mi_volumes0, app_assoc.
  - by rewrite mi_mounts0, app_assoc.
  - intros n. rewrite elem_of_union, elem_of_singleton, mi_have_vol0, elem_of_app, list_elem_of_singleton. tauto.
  - intros q. rewrite elem_of_union, elem_of_singleton, mi_have_path0, elem_of_app, list_elem_of_singleton. tauto.
  - intros Hnd. apply NoDup_app. split_and!; [auto| |apply NoDup_singleton].
    by intros n Hn ->%list_elem_of_singleton.
  - intros Hnd. apply NoDup_app. split_and!; [auto| |apply NoDup_singleton].
    by intros q Hq ->%list_elem_of_singleton.
  - intros mf' [Hin| ->%list_elem_of_singleton]%elem_of_app Hs; rewrite !elem_of_app, !list_elem_of_singleton;
      [|auto]. destruct (mi_complete0 _ Hin Hs); auto.
Qed.

Lemma appendFolder_inv mfs kept s mf :
  media_inv mfs kept s →
  ∃ kept', media_inv (mfs ++ [mf]) kept' (appendFolder jf mode include readWrite s mf).
Proof.
  intros Hinv. unfold appendFolder. case_decide as Hsel.
  { exists kept. apply media_inv_skip; [done|]. intros Hs. destruct Hsel as [Hmode Hout]. by destruct Hout; apply Hs. }
  destruct (mediaVolumeAndMount_names jf mf) as [Hn Hm].
  destruct (mediaVolumeAndMount_path mf) as [Hp Hsub].
  destruct (mediaVolumeAndMount jf mf) as [vol mount] eqn:Hvm. cbn in Hn, Hm, Hp, Hsub.
  case_decide as Hhave.
  - exists kept. apply media_inv_skip; [done|]. intros _. destruct Hinv.
    by rewrite <-mi_have_vol0, <-mi_have_path0, <-Hn, <-Hp.
  - exists (kept ++ [mf]). apply Decidable.not_or in Hhave as [Hv Hq]. rewrite Hn in Hv. rewrite Hp in Hq.
    pose proof (media_inv_add _ _ _ mf Hinv) as Hadd.
    unfold folder_volume, folder_mount, media_ro in Hadd. rewrite Hvm in Hadd. cbn in Hadd.
    cbn [vm_MountPath]. rewrite Hm, Hp, Hsub. cbn [vol_Name set_media_readonly]. rewrite Hn.
    apply Hadd; [|done..]. intros Hmode. destruct (decide (mf_Name mf ∈ include)); tauto.
Qed.

Lemma media_fold_inv l mfs kept s :
  media_inv mfs kept s →
  ∃ kept', media_inv (mfs ++ l) kept' (fold_left (appendFolder jf mode include readWrite) l s).
Proof.
  revert mfs kept s. induction l as [|mf l IH]; intros mfs kept s Hinv; cbn.
  - exists kept. by rewrite app_nil_r.
  - destruct (appendFolder_inv _ _ _ mf Hinv) as [kept' H].
    destruct (IH _ _ _ H) as [kept'' H']. exists kept''. by rewrite <-app_assoc in H'.
Qed.
End media.

Lemma selects_lookup sel labels k v : selects sel labels → sel !! k = Some v → labels !! k = Some v.
Proof. intros H. by apply (proj1 (map_subseteq_spec _ _) H). Qed.

Lemma selects_refl labels : selects labels labels.
Proof. by apply map_subseteq_spec. Qed.

(** Refute [selects s l] by a key the selector has and the labels lack or bind otherwise. *)
Ltac not_selected k :=
  let H := fresh in
  intros H; eapply (selects_lookup _ _ k) in H; [|vm_compute; reflexivity]; vm_compute in H; discriminate H.

Ltac selected_value H k :=
  let E := fresh "E" in
  pose proof (selects_lookup _ _ k _ H eq_refl) as E; vm_compute in E; injection E as E.

(** ** The component's contract *)

(** C38: selectors tell the pods apart. A server selector matches exactly the
    server pods of instances of the same name, never a web or workload pod; a web
    selector exactly the web pods of that name; a workload selector exactly the pods
    of the same workload of the same plugin. *)
Theorem selectors_separate jf jf' p w p' w' :
  (selects (InstanceSelectorLabels jf) (InstanceSelectorLabels jf') ↔ jf_Name jf = jf_Name jf') ∧
  ¬ selects (InstanceSelectorLabels jf) (WebSelectorLabels jf') ∧
  ¬ selects (InstanceSelectorLabels jf) (workloadSelectorLabels p w) ∧
  (selects (WebSelectorLabels jf) (WebSelectorLabels jf') ↔ jf_Name jf = jf_Name jf') ∧
  ¬ selects (WebSelectorLabels jf) (InstanceSelectorLabels jf') ∧
  ¬ selects (WebSelectorLabels jf) (workloadSelectorLabels p w) ∧
  (selects (workloadSelectorLabels p w) (workloadSelectorLabels p' w') ↔
     p_Name p = p_Name p' ∧ wl_Name w = wl_Name w') ∧
  ¬ selects (workloadSelectorLabels p w) (InstanceSelectorLabels jf) ∧
  ¬ selects (workloadSelectorLabels p w) (WebSelectorLabels jf).
Proof.
  unfold InstanceSelectorLabels, WebSelectorLabels, workloadSelectorLabels.
  split_and!; try (not_selected NameLabel || not_selected InstanceLabel || not_selected WorkloadLabel
                   || not_selected ComponentLabel).
  - split; [intros H; selected_value H InstanceLabel; done|intros ->; apply selects_refl].
  - split; [intros H; selected_value H InstanceLabel; done|intros ->; apply selects_refl].
  - split; [|intros [-> ->]; apply selects_refl].
    intros H. selected_value H PluginLabel. selected_value H WorkloadLabel. done.
Qed.

(** mounting the instance's media into a workload. What the workload declares
    itself comes first and unchanged; mode [None] adds nothing. Otherwise the
    folders that are mounted are a sublist of the instance's, all of them selected,
    each under the instance's own volume name and path and read-only unless named
    in [readWrite]; none clashes with a declared name or path or with another; and
    every selected folder ends up mounted or has its name or path taken. *)
Theorem appendInstanceMedia_spec jf sel volumes mounts :
  let '(volumes', mounts') := appendInstanceMedia (Some jf) sel volumes mounts in
  let rw := media_readWrite sel in
  let selected := media_selected (media_mode sel) (media_include sel) in
  if decide (media_mode sel = InstanceMediaNone) then volumes' = volumes ∧ mounts' = mounts
  else ∃ kept, kept `sublist_of` st_Media (js_Storage (jf_Spec jf)) ∧ Forall selected kept ∧
    volumes' = volumes ++ (folder_volume jf rw <$> kept) ∧
    mounts' = mounts ++ (folder_mount rw <$> kept) ∧
    (NoDup (vol_Name <$> volumes) → NoDup (vol_Name <$> volumes')) ∧
    (NoDup (vm_MountPath <$> mounts) → NoDup (vm_MountPath <$> mounts')) ∧
    ∀ mf, mf ∈ st_Media (js_Storage (jf_Spec jf)) → selected mf →
      mediaVolumeName mf ∈ vol_Name <$> volumes' ∨ mf_MountPath mf ∈ vm_MountPath <$> mounts'.
Proof.
  unfold appendInstanceMedia. cbv zeta. case_decide; [done|].
  destruct (media_fold_inv jf (media_mode sel) (media_include sel) (media_readWrite sel) volumes mounts
              (st_Media (js_Storage (jf_Spec jf))) [] [] _ (media_inv_start _ _ _ _ _ _)) as [kept []].
  exists kept. auto 10.
Qed.

(** a plugin service's selector. It is resolved exactly for a bound
    ["instance"] target, giving the selector of the server pods, and for
    ["workload:<name>"] with a name, giving that of the plugin's workload; every
    other selector is the error that names the service. *)
Theorem resolveServiceSelector_spec p s instanceName :
  match resolveServiceSelector p s instanceName with
  | Ok sel =>
      (psv_Selector s = ServiceTargetInstance ∧ instanceName ≠ "" ∧
       ∀ jf, jf_Name jf = instanceName → sel = InstanceSelectorLabels jf) ∨
      (∃ name, psv_Selector s = "workload:" +:+ name ∧ name ≠ "" ∧
       ∀ w, wl_Name w = name → sel = workloadSelectorLabels p w)
  | Err (NotBound n) => psv_Selector s = ServiceTargetInstance ∧ instanceName = "" ∧ n = psv_Name s
  | Err (EmptyWorkloadSelector n) => psv_Selector s = "workload:" ∧ n = psv_Name s
  | Err (UnknownSelector n sel) =>
      sel = psv_Selector s ∧ n = psv_Name s ∧ psv_Selector s ≠ ServiceTargetInstance ∧
      ∀ name, psv_Selector s ≠ "workload:" +:+ name
  end.
Proof.
  unfold resolveServiceSelector. case_decide as Hi; [case_decide as Hn; [done|]|].
  - left. split_and!; [done..|]. by intros jf <-.
  - destruct (HasPrefix _ _) eqn:Hp.
    + apply HasPrefix_spec in Hp as [wl Hwl]. rewrite Hwl, TrimPrefix_app. case_decide as He.
      * subst wl. by rewrite app_s_nil_r in Hwl.
      * right. exists wl. split_and!; [done..|]. by intros w <-.
    + split_and!; [done..|]. intros name Hname. rewrite Hname, HasPrefix_app in Hp. done.
Qed.

(** the Deployment of a workload is well formed and hardened: its selector
    matches its own pods, its single container mounts what the media rules give
    under the effective security block (the workload's, else the instance's), and
    it asks for the declared number of replicas, one by default. *)
Theorem BuildWorkloadDeployment_spec jf p w :
  let d := BuildWorkloadDeployment jf p w in
  let pod := pt_Spec (dep_Template d) in
  let media := appendInstanceMedia jf (wl_InstanceMedia w) (wl_Volumes w) (wl_VolumeMounts w) in
  let security := effective_security jf w in
  selects (dep_Selector d) (pt_Labels (dep_Template d)) ∧
  om_Name (dep_Meta d) = WorkloadName p w ∧ om_Namespace (dep_Meta d) = p_Namespace p ∧
  dep_Replicas d = Some (default 1%Z (wl_Replicas w)) ∧
  ps_Volumes pod = media.1 ∧
  ∃ c, ps_Containers pod = [c] ∧ ps_InitContainers pod = [] ∧ c_VolumeMounts c = media.2 ∧
    c_Image c = img_Reference (wl_Image w) ∧ c_Command c = wl_Command w ∧
    no_escalation c ∧ (opted_out security = false → hardened security c).
Proof.
  cbv zeta. unfold BuildWorkloadDeployment. destruct (appendInstanceMedia _ _ _ _) as [vs ms].
  set (c := mkContainer _ _ _ _ _ _ _ _ ms _ _ _ _). set (ps := mkPodSpec _ _ vs _ _ _ _ _ _ _).
  destruct (secure_single_spec c ps (effective_security jf w)) as (Hc&Hi&Hv&_).
  destruct (applyContainerSecurity_fields c (effective_security jf w)) as (_&Fi&Fc&_&_&Fm).
  cbn [dep_Selector dep_Meta dep_Replicas dep_Template pt_Labels pt_Spec fst snd].
  split; [apply selects_refl|]. do 3 (split; [done|]).
  case_decide; (split; [exact Hv|]); eexists; (split; [exact Hc|]); (split; [exact Hi|]);
    rewrite Fi, Fc, Fm; auto 10 with jellyops.
Qed.

(** ** Concrete workloads *)
Module Example_workload.
Definition workload (name : string) : PluginWorkload :=
  mkWorkload name (mkImageSrc "reg/worker:1" "" "") None [] [] [] [] ResourceRequirements_zero [] [] None
    None ∅ [] "" "" None None None None None.
Definition plugin (name : string) : JellyfinPlugin := Example_builder.plugin name "" None.
End Example_workload.

(** Workload names are not injective in (plugin, workload), and can be the name of
    an instance's own Deployment or of its web tier. *)
Lemma workload_names_collide :
  WorkloadName (Example_workload.plugin "a") (Example_workload.workload "b-c") =
    WorkloadName (Example_workload.plugin "a-b") (Example_workload.workload "c") ∧
  WorkloadName (Example_workload.plugin "home") (Example_workload.workload "web") =
    WebDeploymentName Example_builder.jf.
Proof. by vm_compute. Qed.
