(* ===== verification/Gateway.v ===== *)
(** * The gateway route (internal/plugins/gateway.go)

    The HTTPRoute of an instance, and what it routes where. The gateway that
    executes the route is not part of the program: it appears as a parameter, with
    the matching and precedence rules the Gateway API documents as its laws. *)
From S2P Require Import Prelude GoStrings K8s ApiTypes Naming PodSecurity Builder Workloads Web.

(** ** The Gateway API objects *)
Inductive PathMatchType : Type := PathMatchExact | PathMatchPathPrefix.
Record HTTPHeaderMatch := mkHeaderMatch { hm_Name : string; hm_Value : string }.
Record HTTPRouteMatch := mkRouteMatch {
  rm_PathType : PathMatchType; rm_PathValue : string; rm_Headers : list HTTPHeaderMatch }.
Record RequestRedirect := mkRedirect { rr_StatusCode : Z; rr_ReplaceFullPath : string }.
Record BackendRef := mkBackend { be_Name : string; be_Port : Z }.
Record HTTPRouteRule := mkRule {
  rule_Matches : list HTTPRouteMatch;
  rule_Redirect : option RequestRedirect;
  rule_BackendRefs : list BackendRef;
}.
Record ParentReference := mkParent {
  pr_Group : string; pr_Kind : string; pr_Name : string;
  pr_Namespace : option string; pr_SectionName : option string }.
Record HTTPRoute := mkHTTPRoute {
  hr_Meta : ObjectMeta;
  hr_ParentRefs : list ParentReference;
  hr_Hostnames : list string;
  hr_Rules : list HTTPRouteRule;
}.

(** ** The builder *)
Definition webBasePath : string := "/web/".
Definition defaultAuthorizePath : string := "/sso/authorize".
Definition headerSecFetchMode : string := "Sec-Fetch-Mode".
Definition secFetchNavigate : string := "navigate".

Definition HTTPRouteName (jf : Jellyfin) : string := truncateName (jf_Name jf).

Definition rootRedirectTarget (gw : GatewaySpec) : string :=
  match gw_SSO gw with
  | Some sso =>
      if sso_AutoLoginRedirect sso then
        if decide (sso_AuthorizePath sso ≠ "") then sso_AuthorizePath sso else defaultAuthorizePath
      else webBasePath
  | None => webBasePath
  end.

Definition non_empty (s : string) : option string := if decide (s ≠ "") then Some s else None.

Definition gateway_parent (gw : GatewaySpec) : ParentReference :=
  let ref := gw_GatewayRef gw in
  mkParent "gateway.networking.k8s.io" "Gateway" (gr_Name ref)
    (non_empty (gr_Namespace ref)) (non_empty (gr_SectionName ref)).

Definition prefix_match (path : string) : HTTPRouteMatch := mkRouteMatch PathMatchPathPrefix path [].
Definition navigation_match (path : string) : HTTPRouteMatch :=
  mkRouteMatch PathMatchPathPrefix path [mkHeaderMatch headerSecFetchMode secFetchNavigate].

Definition rootRedirectRule (gw : GatewaySpec) : HTTPRouteRule :=
  mkRule [mkRouteMatch PathMatchExact "/" []] (Some (mkRedirect 302 (rootRedirectTarget gw))) [].

Definition server_backend (jf : Jellyfin) : BackendRef := mkBackend (jf_Name jf) DefaultJellyfinPort.
Definition web_backend (jf : Jellyfin) : BackendRef := mkBackend (WebServiceName jf) DefaultWebPort.

Definition defaultServerRule (jf : Jellyfin) : HTTPRouteRule :=
  mkRule [prefix_match "/"] None [server_backend jf].

Definition split_rules (jf : Jellyfin) (gw : GatewaySpec) : list HTTPRouteRule :=
  [rootRedirectRule gw;
   mkRule [navigation_match "/web/configurationpage"; navigation_match "/web/ConfigurationPage"]
     None [web_backend jf];
   mkRule [prefix_match "/web/ConfigurationPages"; prefix_match "/web/configurationpages";
           prefix_match "/web/ConfigurationPage"; prefix_match "/web/configurationpage"]
     None [server_backend jf];
   mkRule [prefix_match "/web"] None [web_backend jf];
   defaultServerRule jf].

(** [jf.Spec.Web != nil && jf.Spec.Web.EffectiveMode() == WebModeDeployment] *)
Definition split_mode (jf : Jellyfin) : bool :=
  match js_Web (jf_Spec jf) with
  | Some web => bool_decide (EffectiveMode (Some web) = WebModeDeployment)
  | None => false
  end.

(** [gw := jf.Spec.Gateway] is dereferenced without a check. *)
(** Without a split everything but the root goes to the server. *)
Definition server_rules (jf : Jellyfin) (gw : GatewaySpec) : list HTTPRouteRule :=
  [rootRedirectRule gw; defaultServerRule jf].

Definition route_object (jf : Jellyfin) (gw : GatewaySpec) (rules : list HTTPRouteRule) : HTTPRoute :=
  mkHTTPRoute (meta_lit (HTTPRouteName jf) (jf_Namespace jf) (InstanceLabels jf) (gw_Annotations gw))
    [gateway_parent gw] [gw_Hostname gw] rules.

Definition BuildHTTPRoute (jf : Jellyfin) : result Panic HTTPRoute :=
  gw ← deref (js_Gateway (jf_Spec jf));
  let rules := if split_mode jf then split_rules jf gw else server_rules jf gw in
  Ok (route_object jf gw rules).

(** ** The documented behaviour of a gateway

    A path prefix matches element by element, a trailing slash in it being
    ignored; header names ignore case. Of the matches a request satisfies, an
    exact path beats a prefix, a longer path a shorter one, more headers fewer. *)
Record Request := mkRequest { rq_Path : string; rq_Headers : list (string * string) }.

Definition path_prefix (pfx path : string) : bool :=
  let pt := TrimRightByte "/" pfx in
  bool_decide (path = pt) || HasPrefix path (pt +:+ "/").

Definition header_holds (hs : list (string * string)) (h : HTTPHeaderMatch) : bool :=
  existsb (λ '(n, v), bool_decide (ToLower n = ToLower (hm_Name h)) && bool_decide (v = hm_Value h)) hs.

Definition satisfies (rq : Request) (m : HTTPRouteMatch) : bool :=
  match rm_PathType m with
  | PathMatchExact => bool_decide (rq_Path rq = rm_PathValue m)
  | PathMatchPathPrefix => path_prefix (rm_PathValue m) (rq_Path rq)
  end && forallb (header_holds (rq_Headers rq)) (rm_Headers m).

Definition rank (m : HTTPRouteMatch) : nat * nat * nat :=
  (match rm_PathType m with PathMatchExact => 1 | PathMatchPathPrefix => 0 end,
   String.length (rm_PathValue m), length (rm_Headers m)).

Definition outranks (a b : nat * nat * nat) : Prop :=
  let '(x, y, z) := a in let '(x', y', z') := b in
  x' < x ∨ (x = x' ∧ (y' < y ∨ (y = y' ∧ z' < z))).

#[export] Instance outranks_dec a b : Decision (outranks a b).
Proof. destruct a as [[x y] z], b as [[x' y'] z']. unfold outranks. apply _. Defined.

#[global] Arguments outranks : simpl never.
#[global] Arguments rank : simpl never.

(** [r] has a match that [rq] satisfies and that no other satisfied match outranks. *)
Definition chosen (rules : list HTTPRouteRule) (rq : Request) (r : HTTPRouteRule) : Prop :=
  r ∈ rules ∧ ∃ m, m ∈ rule_Matches r ∧ satisfies rq m = true ∧
    ∀ r' m', r' ∈ rules → m' ∈ rule_Matches r' → satisfies rq m' = true → ¬ outranks (rank m') (rank m).

Class Router : Type := {
  route : list HTTPRouteRule → Request → option HTTPRouteRule;
  route_chosen : ∀ rules rq r, route rules rq = Some r → chosen rules rq r;
  route_none : ∀ rules rq, route rules rq = None →
    ∀ r m, r ∈ rules → m ∈ rule_Matches r → satisfies rq m = false;
}.

(** ** A reference gateway *)
Definition candidates (rules : list HTTPRouteRule) (rq : Request) : list (HTTPRouteRule * HTTPRouteMatch) :=
  rules ≫= λ r, (λ m, (r, m)) <$> filter (λ m, satisfies rq m = true) (rule_Matches r).

(** The first candidate that no later one outranks. *)
Fixpoint best (l : list (HTTPRouteRule * HTTPRouteMatch)) : option (HTTPRouteRule * HTTPRouteMatch) :=
  match l with
  | [] => None
  | rm :: l =>
      match best l with
      | Some rm' => if decide (outranks (rank rm'.2) (rank rm.2)) then Some rm' else Some rm
      | None => Some rm
      end
  end.

Section reference.
Implicit Types (rules : list HTTPRouteRule) (rq : Request).

Lemma outranks_irrefl a : ¬ outranks a a.
Proof. destruct a as [[]]. unfold outranks. lia. Qed.
Lemma outranks_trans a b c : outranks a b → outranks b c → outranks a c.
Proof. destruct a as [[]], b as [[]], c as [[]]. unfold outranks. lia. Qed.
Lemma outranks_total a b c : outranks a b → ¬ outranks a c → outranks c b.
Proof. destruct a as [[]], b as [[]], c as [[]]. unfold outranks. lia. Qed.

Lemma best_None l : best l = None → l = [].
Proof. destruct l as [|rm l]; cbn; [done|]. case_match; [case_decide|]; done. Qed.

Lemma best_Some l rm :
  best l = Some rm → rm ∈ l ∧ ∀ rm', rm' ∈ l → ¬ outranks (rank rm'.2) (rank rm.2).
Proof.
  revert rm. induction l as [|rm0 l IH]; intros rm; cbn; [done|].
  destruct (best l) as [rm1|] eqn:Hb.
  - destruct (IH _ eq_refl) as [Hin Hmax].
    case_decide as Ho; intros [= <-].
    + split; [by right|]. intros rm' [->|Hrm']%elem_of_cons; [|by apply Hmax].
      intros Ho'. exact (outranks_irrefl _ (outranks_trans _ _ _ Ho Ho')).
    + split; [by left|]. intros rm' [->|Hrm']%elem_of_cons; [apply outranks_irrefl|].
      intros Ho'. exact (Ho (outranks_total _ _ _ Ho' (Hmax _ Hrm'))).
  - apply best_None in Hb as ->. intros [= <-]. split; [by constructor|].
    intros rm' ->%list_elem_of_singleton. apply outranks_irrefl.
Qed.

Lemma elem_of_candidates rules rq r m :
  (r, m) ∈ candidates rules rq ↔ r ∈ rules ∧ m ∈ rule_Matches r ∧ satisfies rq m = true.
Proof.
  unfold candidates. rewrite list_elem_of_bind. split.
  - intros (r'&(m'&[= -> ->]&[Hs Hm]%list_elem_of_filter)%list_elem_of_fmap&Hr). done.
  - intros (Hr&Hm&Hs). exists r. split; [|done].
    apply list_elem_of_fmap. exists m. by rewrite list_elem_of_filter.
Qed.
End reference.

Definition reference_route (rules : list HTTPRouteRule) (rq : Request) : option HTTPRouteRule :=
  fst <$> best (candidates rules rq).

Lemma reference_route_chosen rules rq r : reference_route rules rq = Some r → chosen rules rq r.
Proof.
  unfold reference_route. intros ([r' m]&[Hin Hmax]%best_Some&->)%fmap_Some.
  apply elem_of_candidates in Hin as (Hr&Hm&Hs). split; [done|]. exists m. split_and!; [done..|].
  intros r2 m2 Hr2 Hm2 Hs2. apply (Hmax (r2, m2)). by apply elem_of_candidates.
Qed.

Lemma reference_route_none rules rq :
  reference_route rules rq = None → ∀ r m, r ∈ rules → m ∈ rule_Matches r → satisfies rq m = false.
Proof.
  unfold reference_route. intros Hb%fmap_None%best_None r m Hr Hm.
  destruct (satisfies rq m) eqn:Hs; [|done]. exfalso.
  apply (not_elem_of_nil (r, m)). rewrite <-Hb. by apply elem_of_candidates.
Qed.

#[export] Instance reference_router : Router :=
  {| route := reference_route; route_chosen := reference_route_chosen;
     route_none := reference_route_none |}.

(** ** Where each request goes *)
Inductive Action : Type :=
  | RedirectTo (target : string)
  | ForwardTo (b : BackendRef).

Definition rule_action (r : HTTPRouteRule) : option Action :=
  match rule_Redirect r, rule_BackendRefs r with
  | Some rd, [] => Some (RedirectTo (rr_ReplaceFullPath rd))
  | None, [b] => Some (ForwardTo b)
  | _, _ => None
  end.

Definition navigation (rq : Request) : bool :=
  header_holds (rq_Headers rq) (mkHeaderMatch headerSecFetchMode secFetchNavigate).

(** The routing table the route is meant to implement. *)
Definition intended (jf : Jellyfin) (gw : GatewaySpec) (rq : Request) : Action :=
  let under := λ p, path_prefix p (rq_Path rq) in
  if decide (rq_Path rq = "/") then RedirectTo (rootRedirectTarget gw)
  else if split_mode jf then
    if under "/web/ConfigurationPages" || under "/web/configurationpages" then ForwardTo (server_backend jf)
    else if under "/web/ConfigurationPage" || under "/web/configurationpage" then
      if navigation rq then ForwardTo (web_backend jf) else ForwardTo (server_backend jf)
    else if under "/web" then ForwardTo (web_backend jf) else ForwardTo (server_backend jf)
  else ForwardTo (server_backend jf).

Section routing.
Context `{Router}.
Implicit Types (jf : Jellyfin) (gw : GatewaySpec) (rq : Request).

Lemma satisfies_prefix rq p : satisfies rq (prefix_match p) = path_prefix p (rq_Path rq).
Proof. unfold satisfies. cbn. by rewrite andb_true_r. Qed.
Lemma satisfies_navigation rq p :
  satisfies rq (navigation_match p) = path_prefix p (rq_Path rq) && navigation rq.
Proof. unfold satisfies, navigation. cbn. by rewrite andb_true_r. Qed.
Lemma satisfies_root rq : satisfies rq (mkRouteMatch PathMatchExact "/" []) = bool_decide (rq_Path rq = "/").
Proof. unfold satisfies. cbn. by rewrite andb_true_r. Qed.

Lemma path_prefix_slash path : HasPrefix path "/" = true → path_prefix "/" path = true.
Proof. intros Hp. unfold path_prefix. cbn. by rewrite Hp, orb_true_r. Qed.

(** A request for an absolute path always has the catch-all rule. *)
Lemma route_total rules rq m r :
  r ∈ rules → m ∈ rule_Matches r → satisfies rq m = true → ∃ r', route rules rq = Some r'.
Proof.
  intros Hr Hm Hs. destruct (route rules rq) as [r'|] eqn:Hroute; [eauto|].
  pose proof (route_none _ _ Hroute _ _ Hr Hm). congruence.
Qed.

(** A match that the chosen one does not beat is not satisfied. *)
Lemma chosen_max rules rq m :
  (∀ r' m', r' ∈ rules → m' ∈ rule_Matches r' → satisfies rq m' = true → ¬ outranks (rank m') (rank m)) →
  Forall (λ m', outranks (rank m') (rank m) → satisfies rq m' = false) (rules ≫= rule_Matches).
Proof.
  intros H'. apply Forall_forall. intros m' (r'&Hm'&Hr')%list_elem_of_bind Ho.
  destruct (satisfies rq m') eqn:Hs; [|done]. by edestruct H'.
Qed.

Ltac list_cases H :=
  repeat (rewrite elem_of_cons in H || rewrite elem_of_nil in H);
  repeat destruct H as [H|H]; try done.

(** Use every conclusion of [chosen_max] whose premise holds. *)
Ltac use_max :=
  repeat match goal with
  | H : outranks ?a ?b → _ |- _ =>
      first [specialize (H ltac:(unfold outranks, rank; cbn; lia)) | clear H]
  end.

Lemma split_rules_route jf gw rq r :
  split_mode jf = true → chosen (split_rules jf gw) rq r → rule_action r = Some (intended jf gw rq).
Proof.
  intros Hsplit (Hr&m&Hm&Hs&Hmax%chosen_max).
  unfold split_rules in Hr, Hmax. cbn [mbind list_bind rule_Matches rootRedirectRule defaultServerRule app] in Hmax.
  rewrite !Forall_cons in Hmax. destruct_and?. unfold intended. rewrite Hsplit.
  list_cases Hr; subst r; cbn [rule_Matches rootRedirectRule defaultServerRule] in Hm; list_cases Hm; subst m;
    use_max;
    rewrite ?satisfies_prefix, ?satisfies_navigation, ?satisfies_root in *;
    rewrite ?bool_decide_eq_true, ?bool_decide_eq_false, ?andb_true_iff in *;
    destruct_and?; try (rewrite decide_True by done; done); rewrite decide_False by done;
    repeat match goal with H : path_prefix _ _ = _ |- _ => rewrite H in *; clear H end; cbn in *;
    rewrite ?orb_true_r; by destruct (navigation rq).
Qed.

Lemma plain_rules_route jf gw rq r :
  split_mode jf = false → chosen [rootRedirectRule gw; defaultServerRule jf] rq r →
  rule_action r = Some (intended jf gw rq).
Proof.
  intros Hsplit (Hr&m&Hm&Hs&Hmax%chosen_max).
  cbn [mbind list_bind rule_Matches rootRedirectRule defaultServerRule app] in Hmax.
  rewrite !Forall_cons in Hmax. destruct_and?. unfold intended. rewrite Hsplit.
  list_cases Hr; subst r; cbn [rule_Matches rootRedirectRule defaultServerRule] in Hm; list_cases Hm; subst m;
    use_max; rewrite ?satisfies_root, ?bool_decide_eq_true, ?bool_decide_eq_false in *;
    by first [rewrite decide_True by done|rewrite decide_False by done].
Qed.
End routing.

(** ** The component's contract *)

(** C27: through any gateway that follows the documented matching and precedence
    rules, the route sends every request where it is meant to go: the bare root to
    the redirect target; in split mode the plugin-configuration API to the server,
    except full-page navigations to its page route, which go with the rest of
    [/web] to the web tier; everything else to the server. *)
Theorem BuildHTTPRoute_routes `{Router} jf gw hr rq :
  js_Gateway (jf_Spec jf) = Some gw → BuildHTTPRoute jf = Ok hr → HasPrefix (rq_Path rq) "/" = true →
  (route (hr_Rules hr) rq ≫= rule_action) = Some (intended jf gw rq).
Proof.
  intros Hgw Hb Hp. unfold BuildHTTPRoute in Hb. rewrite Hgw in Hb. injection Hb as <-. unfold server_rules. cbn [hr_Rules route_object].
  assert (Hs : satisfies rq (prefix_match "/") = true) by by rewrite satisfies_prefix, path_prefix_slash.
  destruct (split_mode jf) eqn:Hsplit.
  - destruct (route_total (split_rules jf gw) rq (prefix_match "/") (defaultServerRule jf)) as [r Hr];
      [repeat constructor|repeat constructor|done|].
    rewrite Hr. apply split_rules_route; [done|]. by apply route_chosen.
  - destruct (route_total [rootRedirectRule gw; defaultServerRule jf] rq (prefix_match "/")
                (defaultServerRule jf)) as [r Hr]; [repeat constructor|repeat constructor|done|].
    rewrite Hr. apply plain_rules_route; [done|]. by apply route_chosen.
Qed.

(** the web tier hangs together. It can be built exactly when a web block is
    set; its Deployment and its Service select the Deployment's own pods; the route's
    web backend names that Service and its port, which targets the container's
    port; and the container is hardened like the server's. *)
Theorem BuildWebDeployment_spec jf :
  match BuildWebDeployment jf with
  | Ok d =>
      let svc := BuildWebService jf in
      let security := js_PodSecurity (jf_Spec jf) in
      js_Web (jf_Spec jf) ≠ None ∧
      selects (dep_Selector d) (pt_Labels (dep_Template d)) ∧
      selects (svc_Selector svc) (pt_Labels (dep_Template d)) ∧
      om_Namespace (svc_Meta svc) = om_Namespace (dep_Meta d) ∧
      be_Name (web_backend jf) = om_Name (svc_Meta svc) ∧
      (∃ sp c cp, svc_Ports svc = [sp] ∧ be_Port (web_backend jf) = sp_Port sp ∧
         ps_Containers (pt_Spec (dep_Template d)) = [c] ∧ c_Ports c = [cp] ∧
         sp_TargetPort sp = cp_ContainerPort cp ∧
         no_escalation c ∧ (opted_out security = false → hardened security c))
  | Err e => e = NilDereference ∧ js_Web (jf_Spec jf) = None
  end.
Proof.
  unfold BuildWebDeployment. destruct (js_Web (jf_Spec jf)) as [web|]; cbn [deref mbind result_bind]; [|done].
  set (c := mkContainer _ _ _ _ _ _ _ _ _ _ _ _ _). set (sec := js_PodSecurity (jf_Spec jf)).
  destruct (secure_single_spec c single_container_pod sec) as (Hc&_&_&_).
  cbn [dep_Selector dep_Meta dep_Template pt_Labels pt_Spec].
  split; [done|]. do 2 (split; [apply selects_refl|]). do 2 (split; [done|]).
  do 3 eexists. split; [done|]. split; [done|]. split; [exact Hc|].
  split; [unfold applyContainerSecurity; by destruct (opted_out sec)|]. auto with jellyops.
Qed.

(** ** A concrete route *)
Module Example_gateway.
Definition web : WebSpec :=
  mkWebSpec "reg/web:1" "" "" "" None ResourceRequirements_zero (mkServiceSpec "" 0 ∅) ∅.
Definition gw : GatewaySpec := mkGatewaySpec (mkGatewayReference "public" "infra" "https") "tv.example.org" ∅ None.
Definition spec : JellyfinSpec :=
  mkJellyfinSpec "" None Example_builder.storage (mkServiceSpec "" 0 ∅) None (Some web) (Some gw)
    ResourceRequirements_zero None None None None None None None None ∅ [].
Definition jf : Jellyfin := mkJellyfin (meta_lit "home" "media" ∅ ∅) spec (jf_Status Example_builder.jf).
Definition httproute : HTTPRoute :=
  mkHTTPRoute (meta_lit (HTTPRouteName jf) "media" (InstanceLabels jf) ∅) [gateway_parent gw]
    ["tv.example.org"] (split_rules jf gw).
Definition refresh : Request :=
  mkRequest "/web/configurationpage" [("sec-fetch-mode", "navigate")].
Definition fetch : Request := mkRequest "/web/configurationpage" [("sec-fetch-mode", "cors")].
End Example_gateway.

Lemma BuildHTTPRoute_routes_witness :
  (route (hr_Rules Example_gateway.httproute) Example_gateway.refresh ≫= rule_action) =
    Some (ForwardTo (mkBackend "home-web" 80)) ∧
  (route (hr_Rules Example_gateway.httproute) Example_gateway.fetch ≫= rule_action) =
    Some (ForwardTo (mkBackend "home" 8096)).
Proof.
  split.
  - rewrite (BuildHTTPRoute_routes Example_gateway.jf Example_gateway.gw Example_gateway.httproute
               Example_gateway.refresh eq_refl eq_refl eq_refl). vm_compute. reflexivity.
  - rewrite (BuildHTTPRoute_routes Example_gateway.jf Example_gateway.gw Example_gateway.httproute
               Example_gateway.fetch eq_refl eq_refl eq_refl). vm_compute. reflexivity.
Defined.
