(* ===== verification/Kube.v ===== *)
(** * The Kubernetes client and the libraries the controllers call

    A controller is a program of API calls. The API server is not part of the
    repository: a program is a tree that branches on the answer to each call, and a
    theorem about it holds for every answer. The library functions the controllers
    use (conditions, finalizers, owner references, label selectors) are the
    operations of a class, with their documented behaviour as its laws. *)
From S2P Require Import Prelude Http K8s ApiTypes Builder Workloads Gateway.

(** ** Errors *)
Inductive ApiError : Type :=
  | NotFound | Conflict | AlreadyExists | Forbidden | Invalid | OtherApiError.
#[export] Instance ApiError_eq_dec : EqDecision ApiError.
Proof. solve_decision. Defined.

Inductive Error : Type :=
  | Api (e : ApiError)
  | Wrapped (context : string) (e : Error)
  | Build (e : BuildError)
  | BadService (e : ServiceError)
  | AlreadyOwned
  | Panicked (p : Panic)
  | VolumeInUse (pv drift : string)
  | ReplacingVolume (pv drift : string)
  (** [jellyfinapi.APIError] *)
  | StatusError (method path : string) (code : Z) (body : string)
  (** No response: the request could not be made, sent or read. *)
  | Transport (message : string)
  | DecodeBody (method path : string)
  | MarshalBody
  | BadOptions
  | Message (text : string).

(** ** The libraries *)
Class KubeLib : Type := {
  (** [metav1.LabelSelectorAsSelector]: the predicate, or an error for an invalid
      selector. *)
  LabelSelectorAsSelector : LabelSelector → option (gmap string string → bool);
  selector_labels_only : ∀ ls f, LabelSelectorAsSelector ls = Some f →
    ls_MatchExpressions ls = [] → ∀ l, f l = bool_decide (ls_MatchLabels ls ⊆ l);

  (** [apimeta.FindStatusCondition] and [apimeta.SetStatusCondition]. *)
  FindStatusCondition : list Condition → string → option Condition;
  SetStatusCondition : list Condition → Condition → list Condition;
  find_condition : ∀ cs t c, FindStatusCondition cs t = Some c → c ∈ cs ∧ cond_Type c = t;
  find_set_same : ∀ cs c, FindStatusCondition (SetStatusCondition cs c) (cond_Type c) = Some c;
  find_set_other : ∀ cs c t, t ≠ cond_Type c →
    FindStatusCondition (SetStatusCondition cs c) t = FindStatusCondition cs t;

  (** The finalizer functions of [controllerutil]. *)
  ContainsFinalizer : ObjectMeta → string → bool;
  AddFinalizer : ObjectMeta → string → ObjectMeta;
  RemoveFinalizer : ObjectMeta → string → ObjectMeta;
  contains_finalizer : ∀ m f, ContainsFinalizer m f = true ↔ f ∈ om_Finalizers m;
  add_finalizer : ∀ m f, ∃ fs, AddFinalizer m f = set_om_Finalizers fs m ∧
    ∀ g, g ∈ fs ↔ g = f ∨ g ∈ om_Finalizers m;
  remove_finalizer : ∀ m f, ∃ fs, RemoveFinalizer m f = set_om_Finalizers fs m ∧
    ∀ g, g ∈ fs ↔ g ≠ f ∧ g ∈ om_Finalizers m;

  (** [controllerutil.SetControllerReference] for an owner of the given kind: fails
      when an object of another kind or name controls [obj], and otherwise, in the
      owner's namespace, makes [owner] its controller; doing it again finds nothing to change. *)
  SetControllerReference : string → ObjectMeta → ObjectMeta → option ObjectMeta;
  controller_reference : ∀ kind owner m m', SetControllerReference kind owner m = Some m' →
    ∃ refs, m' = set_om_OwnerReferences refs m ∧
      mkOwnerRef kind (om_Name owner) (om_UID owner) true ∈ refs;
  controller_reference_other : ∀ kind owner m r,
    head (filter (λ r, or_Controller r = true) (om_OwnerReferences m)) = Some r →
    or_Kind r ≠ kind ∨ or_Name r ≠ om_Name owner → SetControllerReference kind owner m = None;
  controller_reference_free : ∀ kind owner m, om_Namespace m = om_Namespace owner →
    (∀ r, head (filter (λ r, or_Controller r = true) (om_OwnerReferences m)) = Some r →
       or_Kind r = kind ∧ or_Name r = om_Name owner) →
    is_Some (SetControllerReference kind owner m);
  controller_reference_again : ∀ kind owner m m' m'', SetControllerReference kind owner m = Some m' →
    om_Namespace m'' = om_Namespace m' → om_OwnerReferences m'' = om_OwnerReferences m' →
    SetControllerReference kind owner m'' = Some m'';
}.

(** ** The calls the controllers make

    A call that reads or writes an object answers the object as the server has it
    afterwards. [Upsert...] is [controllerutil.CreateOrUpdate]: the mutation is
    applied to the current object, or to one with only its name and namespace. *)
Inductive call : Type → Type :=
  | GetJellyfin (ns name : string) : call (result ApiError Jellyfin)
  | GetPlugin (ns name : string) : call (result ApiError JellyfinPlugin)
  | GetDeployment (ns name : string) : call (result ApiError Deployment)
  | GetPersistentVolume (name : string) : call (result ApiError PersistentVolume)
  | ListJellyfins (ns : string) : call (result ApiError (list Jellyfin))
  | ListPlugins (ns : string) : call (result ApiError (list JellyfinPlugin))
  | ListDeployments (ns : string) (labels : gmap string string) : call (result ApiError (list Deployment))
  | UpdatePlugin (p : JellyfinPlugin) : call (result ApiError JellyfinPlugin)
  | UpdateDeployment (d : Deployment) : call (result ApiError Deployment)
  | StatusUpdatePlugin (p : JellyfinPlugin) : call (result ApiError JellyfinPlugin)
  | StatusUpdateJellyfin (jf : Jellyfin) : call (result ApiError Jellyfin)
  | DeleteDeployment (ns name : string) : call (result ApiError unit)
  | DeleteService (ns name : string) : call (result ApiError unit)
  | DeleteIngress (ns name : string) : call (result ApiError unit)
  | DeleteHTTPRoute (ns name : string) : call (result ApiError unit)
  | DeletePersistentVolume (name : string) : call (result ApiError unit)
  | UpsertDeployment (ns name : string) (f : Deployment → result Error Deployment)
      : call (result Error Deployment)
  | UpsertService (ns name : string) (f : Service → result Error Service) : call (result Error Service)
  | UpsertIngress (ns name : string) (f : Ingress → result Error Ingress) : call (result Error Ingress)
  | UpsertHTTPRoute (ns name : string) (f : HTTPRoute → result Error HTTPRoute)
      : call (result Error HTTPRoute)
  | UpsertPVC (ns name : string) (f : PersistentVolumeClaim → result Error PersistentVolumeClaim)
      : call (result Error PersistentVolumeClaim)
  | UpsertPersistentVolume (name : string) (f : PersistentVolume → result Error PersistentVolume)
      : call (result Error PersistentVolume)
  | PatchPVC (old new : PersistentVolumeClaim) : call (result ApiError PersistentVolumeClaim)
  | GetSecret (ns name : string) : call (result ApiError Secret)
  | UpsertSecret (ns name : string) (f : Secret → result Error Secret) : call (result Error Secret)
  (** An HTTP exchange with the Jellyfin server, and [rand.Read] of some bytes. *)
  | Http (r : HttpRequest) : call (result string HttpResponse)
  | RandRead (bytes : nat) : call (option (list N)).

(** ** Programs *)
Inductive prog (A : Type) : Type :=
  | Ret (a : A)
  | Call {R : Type} (c : call R) (k : R → prog A).
Arguments Ret {A} a.
Arguments Call {A R} c k.

Fixpoint prog_bind {A B} (f : A → prog B) (p : prog A) : prog B :=
  match p with
  | Ret a => f a
  | Call c k => Call c (λ r, prog_bind f (k r))
  end.
#[export] Instance prog_mret : MRet prog := λ A a, Ret a.
#[export] Instance prog_mbind : MBind prog := λ A B f p, prog_bind f p.

Definition ask {R} (c : call R) : prog R := Call c Ret.

(** A Go function that calls the API and returns [(T, error)]. *)
Notation M A := (prog (result Error A)).

Definition try {A B} (m : M A) (k : A → M B) : M B :=
  m ≫= λ r, match r with Ok a => k a | Err e => Ret (Err e) end.
Notation "x ←! m ; k" := (try m (λ x : _, k))
  (at level 20, m at level 100, k at level 200, only parsing) : go_scope.
Open Scope go_scope.

Definition ok {A} (a : A) : M A := Ret (Ok a).
Definition throw {A} (e : Error) : M A := Ret (Err e).

(** A call whose error is returned as it is. *)
Definition api {R} (c : call (result ApiError R)) : M R :=
  r ← ask c; Ret (wrap_err Api r).

(** [err != nil && !apierrors.IsNotFound(err)] *)
Definition ignore_not_found (r : result ApiError unit) : result Error unit :=
  match r with
  | Ok _ | Err NotFound => Ok tt
  | Err e => Err (Api e)
  end.
Definition delete_if_present (c : call (result ApiError unit)) : M unit :=
  r ← ask c; Ret (ignore_not_found r).

(** [fmt.Errorf("<context>: %w", err)] *)
Definition in_context {A} (context : string) (m : M A) : M A :=
  r ← m; Ret (wrap_err (Wrapped context) r).

Fixpoint for_each {A} (f : A → M unit) (l : list A) : M unit :=
  match l with
  | [] => ok tt
  | a :: l => _ ←! f a; for_each f l
  end.

Fixpoint fold_each {A S} (f : S → A → M S) (s : S) (l : list A) : M S :=
  match l with
  | [] => ok s
  | a :: l => s ←! f s a; fold_each f s l
  end.

(** [retry.RetryOnConflict] runs a function again while it fails with a conflict, a
    bounded number of times. *)
Fixpoint attempts (retries : nat) (m : M unit) : M unit :=
  r ← m;
  match r, retries with
  | Err (Api Conflict), S n => attempts n m
  | _, _ => Ret r
  end.

Class RetryLib : Type := {
  RetryOnConflict : M unit → M unit;
  retry_on_conflict : ∃ n, ∀ m, RetryOnConflict m = attempts n m;
}.

(** The client library's default is five attempts. *)
#[export] Instance reference_retry : RetryLib.
Proof. refine {| RetryOnConflict := attempts 4 |}. by exists 4. Defined.

(** ** What holds of every run

    [always I Q tr p]: whatever the server answers, each call of [p] satisfies [I]
    after the events so far, and the result satisfies [Q]. *)
Inductive event : Type := | Ev {R : Type} (c : call R) (r : R).

Definition call_inv : Type := ∀ R : Type, list event → call R → Prop.

Fixpoint always {A} (I : call_inv) (Q : list event → A → Prop) (tr : list event) (p : prog A) : Prop :=
  match p with
  | Ret a => Q tr a
  | Call c k => I _ tr c ∧ ∀ r, always I Q (tr ++ [Ev c r]) (k r)
  end.

(** A server: a state and the answer to each call. *)
Record server := mkServer { sv_State : Type; sv_answer : ∀ R : Type, call R → sv_State → R * sv_State }.

Fixpoint run {A} (sv : server) (w : sv_State sv) (tr : list event) (p : prog A) : A * list event * sv_State sv :=
  match p with
  | Ret a => (a, tr, w)
  | Call c k => let '(r, w) := sv_answer sv _ c w in run sv w (tr ++ [Ev c r]) (k r)
  end.

(** ** Reasoning about programs *)

(** A postcondition by outcome. *)
Definition post {A} (ok_post : list event → A → Prop) (err_post : list event → Error → Prop)
    (tr : list event) (r : result Error A) : Prop :=
  match r with Ok a => ok_post tr a | Err e => err_post tr e end.

Definition on_ok {A} (Q : list event → A → Prop) : list event → result Error A → Prop :=
  post Q (λ _ _, True).

Definition anything {A} (_ : list event) (_ : A) : Prop := True.

Section always.
Context (I : call_inv).

Lemma always_bind {A B} (Q : list event → B → Prop) tr (p : prog A) (f : A → prog B) :
  always I (λ tr a, always I Q tr (f a)) tr p → always I Q tr (p ≫= f).
Proof.
  revert tr. induction p as [a|R c k IH]; intros tr; [done|].
  intros [Hc Hk]. split; [done|]. intros r. by apply IH.
Qed.

Lemma always_mono {A} (Q Q' : list event → A → Prop) tr (p : prog A) :
  always I Q tr p → (∀ tr a, Q tr a → Q' tr a) → always I Q' tr p.
Proof.
  revert tr. induction p as [a|R c k IH]; intros tr H HQ; cbn in *; [auto|].
  destruct H as [Hc Hk]. split; [done|]. intros r. by apply IH.
Qed.

(** The trace only grows. *)
Lemma always_prefix {A} (Q : list event → A → Prop) tr (p : prog A) :
  always I Q tr p → always I (λ tr' a, Q tr' a ∧ tr `prefix_of` tr') tr p.
Proof.
  revert tr. induction p as [a|R c k IH]; intros tr H; cbn in *; [done|].
  destruct H as [Hc Hk]. split; [done|]. intros r.
  eapply always_mono; [by apply IH, Hk|]. intros tr' a [HQ Hpre]. split; [done|].
  etrans; [|exact Hpre]. by apply prefix_app_r.
Qed.

Lemma always_on_ok_prefix {A} (Q : list event → A → Prop) tr (m : M A) :
  always I (on_ok Q) tr m → always I (on_ok (λ tr' a, Q tr' a ∧ tr `prefix_of` tr')) tr m.
Proof.
  intros H. eapply always_mono; [by apply always_prefix|]. intros tr' [a|e] [HQ Hp]; done.
Qed.

Lemma always_ask {R} (Q : list event → R → Prop) tr (c : call R) :
  I _ tr c → (∀ r, Q (tr ++ [Ev c r]) r) → always I Q tr (ask c).
Proof. intros Hc HQ. by split. Qed.

Lemma always_try {A B} (Qok : list event → B → Prop) Qerr tr (m : M A) (k : A → M B) :
  always I (post (λ tr a, always I (post Qok Qerr) tr (k a)) Qerr) tr m →
  always I (post Qok Qerr) tr (try m k).
Proof.
  intros H. apply always_bind. eapply always_mono; [exact H|].
  intros tr' [a|e]; cbn; auto.
Qed.

Lemma always_seq {A B} (Q : list event → B → Prop) (P : list event → A → Prop) tr (m : M A) (k : A → M B) :
  always I (on_ok P) tr m →
  (∀ tr' a, P tr' a → tr `prefix_of` tr' → always I (on_ok Q) tr' (k a)) →
  always I (on_ok Q) tr (try m k).
Proof.
  intros Hm Hk. apply always_try. eapply always_mono; [by apply always_on_ok_prefix|].
  intros tr' [a|e]; [|done]. intros [HP Hpre]. by apply Hk.
Qed.

Lemma always_api {R} (Qok : list event → R → Prop) Qerr tr (c : call (result ApiError R)) :
  I _ tr c → (∀ a, Qok (tr ++ [Ev c (Ok a)]) a) → (∀ e, Qerr (tr ++ [Ev c (Err e)]) (Api e)) →
  always I (post Qok Qerr) tr (api c).
Proof. intros Hc Hok Herr. split; [done|]. intros [a|e]; cbn; auto. Qed.

Lemma always_api_all {R} (Q : list event → result Error R → Prop) tr (c : call (result ApiError R)) :
  I _ tr c → (∀ r, Q (tr ++ [Ev c r]) (wrap_err Api r)) → always I Q tr (api c).
Proof. by split. Qed.

Lemma always_delete (Qok : list event → unit → Prop) Qerr tr (c : call (result ApiError unit)) :
  I _ tr c →
  (∀ r, r = Ok tt ∨ r = Err NotFound → Qok (tr ++ [Ev c r]) tt) →
  (∀ e, e ≠ NotFound → Qerr (tr ++ [Ev c (Err e)]) (Api e)) →
  always I (post Qok Qerr) tr (delete_if_present c).
Proof.
  intros Hc Hok Herr. split; [done|]. intros [[]|e]; cbn; [auto|].
  destruct (decide (e = NotFound)) as [->|Hne]; [apply Hok; auto|].
  destruct e; cbn; try done; by apply Herr.
Qed.

Lemma always_in_context {A} (Qok : list event → A → Prop) Qerr tr ctx (m : M A) :
  always I (post Qok (λ tr e, Qerr tr (Wrapped ctx e))) tr m →
  always I (post Qok Qerr) tr (in_context ctx m).
Proof.
  intros H. apply always_bind. eapply always_mono; [exact H|]. intros tr' [a|e]; cbn; auto.
Qed.

(** Loops, by an invariant on the items done so far. *)
Lemma always_for_each {A} (J : list A → list event → Prop) Qerr (f : A → M unit) l tr :
  J [] tr →
  (∀ pre a rest tr, l = pre ++ a :: rest → J pre tr →
     always I (post (λ tr _, J (pre ++ [a]) tr) Qerr) tr (f a)) →
  always I (post (λ tr _, J l tr) Qerr) tr (for_each f l).
Proof.
  intros HJ Hf.
  assert (∀ suf pre tr, l = pre ++ suf → J pre tr →
            always I (post (λ tr _, J l tr) Qerr) tr (for_each f suf)) as H.
  { clear tr HJ. intros suf. induction suf as [|a suf IH]; intros pre tr Hl HJ; cbn.
    - rewrite app_nil_r in Hl. by subst.
    - apply always_try. eapply always_mono; [by eapply Hf|].
      intros tr' [[]|e]; cbn; [|done]. apply (IH (pre ++ [a])); by rewrite <-app_assoc. }
  by apply (H l []).
Qed.

Lemma always_fold_each {A S} (J : list A → S → list event → Prop) Qerr (f : S → A → M S) s l tr :
  J [] s tr →
  (∀ pre a rest s tr, l = pre ++ a :: rest → J pre s tr →
     always I (post (λ tr s', J (pre ++ [a]) s' tr) Qerr) tr (f s a)) →
  always I (post (λ tr s', J l s' tr) Qerr) tr (fold_each f s l).
Proof.
  intros HJ Hf.
  assert (∀ suf pre s tr, l = pre ++ suf → J pre s tr →
            always I (post (λ tr s', J l s' tr) Qerr) tr (fold_each f s suf)) as H.
  { clear tr s HJ. intros suf. induction suf as [|a suf IH]; intros pre s tr Hl HJ; cbn.
    - rewrite app_nil_r in Hl. by subst.
    - apply always_try. eapply always_mono; [by eapply Hf|].
      intros tr' [s'|e]; cbn; [|done]. apply (IH (pre ++ [a])); by rewrite <-app_assoc. }
  by apply (H l []).
Qed.
End always.

(** A retried function that keeps an invariant keeps it through the retries. *)
Lemma always_attempts I (J : list event → Prop) (Qok : list event → unit → Prop) Qerr n tr (m : M unit) :
  (∀ tr, J tr → always I (post Qok (λ tr e, J tr ∧ Qerr tr e)) tr m) →
  J tr → always I (post Qok Qerr) tr (attempts n m).
Proof.
  intros Hm. revert tr. induction n as [|n IH]; intros tr HJ; apply always_bind;
    (eapply always_mono; [by apply Hm|]); intros tr' [[]|e]; cbn; [done| |done|].
  - intros [? ?]. by destruct e; try case_match.
  - intros [? ?]. destruct e; try done. case_match; try done. by apply IH.
Qed.

Lemma always_inv_mono {A} (I I' : call_inv) (Q : list event → A → Prop) tr (p : prog A) :
  (∀ R tr (c : call R), I R tr c → I' R tr c) → always I Q tr p → always I' Q tr p.
Proof.
  intros HI. revert tr. induction p as [a|R c k IH]; intros tr H; cbn in *; [done|].
  destruct H as [Hc Hk]. split; [by apply HI|]. intros r. by apply IH.
Qed.

Lemma always_inv_prefix {A} (I : call_inv) (Q : list event → A → Prop) tr (p : prog A) :
  always I Q tr p → always (λ R tr' c, tr `prefix_of` tr' ∧ I R tr' c) Q tr p.
Proof.
  revert tr. induction p as [a|R c k IH]; intros tr H; cbn in *; [done|].
  destruct H as [Hc Hk]. split; [done|]. intros r.
  eapply always_inv_mono; [|by apply IH]. intros R' tr' c' [Hp HI']. split; [|done].
  etrans; [|exact Hp]. by apply prefix_app_r.
Qed.

(** *** Soundness: [always] speaks of every run against every server *)
Definition event_inv (I : call_inv) (tr : list event) (ev : event) : Prop :=
  match ev with Ev c _ => I _ tr c end.

(** The events of a program satisfy its invariant. *)
Definition follows (I : call_inv) (m : nat) (tr : list event) : Prop :=
  ∀ n ev, m ≤ n → tr !! n = Some ev → event_inv I (take n tr) ev.

Lemma always_follows {A} (I : call_inv) (Q : list event → A → Prop) tr (p : prog A) :
  always I Q tr p → always I (λ tr' a, Q tr' a ∧ tr `prefix_of` tr' ∧ follows I (length tr) tr') tr p.
Proof.
  revert tr. induction p as [a|R c k IH]; intros tr H; cbn in *.
  - split_and!; [done|done|]. intros n ev Hn Hev. apply lookup_lt_Some in Hev. lia.
  - destruct H as [Hc Hk]. split; [done|]. intros r. eapply always_mono; [by apply IH, Hk|].
    intros tr' a (HQ & [suf ->] & Hf). rewrite <-app_assoc in *. split_and!; [done|by eexists|].
    intros n ev Hn Hev. destruct (decide (n = length tr)) as [->|Hne].
    + rewrite take_app_length. cbn in Hev. rewrite list_lookup_middle in Hev by done. by injection Hev as <-.
    + apply Hf; [|done]. rewrite length_app. cbn. lia.
Qed.

Lemma run_extends {A} sv w tr (p : prog A) : tr `prefix_of` (run sv w tr p).1.2.
Proof.
  revert w tr. induction p as [a|R c k IH]; intros w tr; cbn; [done|].
  destruct (sv_answer sv _ c w) as [r w']. etrans; [|apply IH]. by apply prefix_app_r.
Qed.

Lemma always_run {A} (I : call_inv) (Q : list event → A → Prop) sv w tr (p : prog A) :
  always I Q tr p →
  Q (run sv w tr p).1.2 (run sv w tr p).1.1 ∧
  ∀ n ev, (length tr ≤ n)%nat → (run sv w tr p).1.2 !! n = Some ev →
    event_inv I (take n (run sv w tr p).1.2) ev.
Proof.
  revert w tr. induction p as [a|R c k IH]; intros w tr H; cbn in *.
  - split; [done|]. intros n ev Hn Hev. apply lookup_lt_Some in Hev. lia.
  - destruct H as [Hc Hk]. destruct (sv_answer sv _ c w) as [r w'].
    specialize (IH r w' (tr ++ [Ev c r]) (Hk r)) as [HQ Hev]. split; [done|].
    intros n ev Hn Hlookup. destruct (decide (n = length tr)) as [->|Hne].
    + destruct (run_extends sv w' (tr ++ [Ev c r]) (k r)) as [suf Hsuf].
      rewrite Hsuf in Hlookup |- *. rewrite <-app_assoc in Hlookup |- *.
      cbn [app] in Hlookup |- *.
      rewrite take_app_length. rewrite list_lookup_middle in Hlookup by done.
      by injection Hlookup as <-.
    + apply Hev; [|done]. rewrite length_app. cbn. lia.
Qed.

(** ** A reference implementation of the libraries *)
Module RefLib.
Definition requirement_holds (l : gmap string string) (r : LabelSelectorRequirement) : option bool :=
  let v := l !! lsr_Key r in
  if decide (lsr_Operator r = "In") then
    Some (match v with Some x => bool_decide (x ∈ lsr_Values r) | None => false end)
  else if decide (lsr_Operator r = "NotIn") then
    Some (match v with Some x => bool_decide (x ∉ lsr_Values r) | None => true end)
  else if decide (lsr_Operator r = "Exists") then Some (bool_decide (is_Some v))
  else if decide (lsr_Operator r = "DoesNotExist") then Some (bool_decide (v = None))
  else None.

Definition as_selector (ls : LabelSelector) : option (gmap string string → bool) :=
  if decide (Forall (λ r, is_Some (requirement_holds ∅ r)) (ls_MatchExpressions ls)) then
    Some (λ l, bool_decide (ls_MatchLabels ls ⊆ l) &&
               forallb (λ r, default false (requirement_holds l r)) (ls_MatchExpressions ls))
  else None.

Fixpoint find_cond (cs : list Condition) (t : string) : option Condition :=
  match cs with
  | [] => None
  | c :: cs => if decide (cond_Type c = t) then Some c else find_cond cs t
  end.
Fixpoint set_cond (cs : list Condition) (c : Condition) : list Condition :=
  match cs with
  | [] => [c]
  | c' :: cs => if decide (cond_Type c' = cond_Type c) then c :: cs else c' :: set_cond cs c
  end.

Definition contains (m : ObjectMeta) (f : string) : bool := bool_decide (f ∈ om_Finalizers m).
Definition add (m : ObjectMeta) (f : string) : ObjectMeta :=
  set_om_Finalizers (if contains m f then om_Finalizers m else om_Finalizers m ++ [f]) m.
Definition remove (m : ObjectMeta) (f : string) : ObjectMeta :=
  set_om_Finalizers (filter (λ g, g ≠ f) (om_Finalizers m)) m.

Definition controller_of (m : ObjectMeta) : option OwnerReference :=
  head (filter (λ r, or_Controller r = true) (om_OwnerReferences m)).
Definition set_controller (kind : string) (owner m : ObjectMeta) : option ObjectMeta :=
  let mine := λ r, or_Kind r = kind ∧ or_Name r = om_Name owner in
  let ref := mkOwnerRef kind (om_Name owner) (om_UID owner) true in
  let others := filter (λ r, ¬ mine r) (om_OwnerReferences m) in
  match controller_of m with
  | Some r => if decide (mine r) then Some (set_om_OwnerReferences (ref :: others) m) else None
  | None => Some (set_om_OwnerReferences (ref :: others) m)
  end.

Lemma as_selector_labels ls f :
  as_selector ls = Some f → ls_MatchExpressions ls = [] → ∀ l, f l = bool_decide (ls_MatchLabels ls ⊆ l).
Proof.
  unfold as_selector. case_decide; [|done]. intros [= <-] He l. by rewrite He, andb_true_r.
Qed.

Lemma find_cond_spec cs t c : find_cond cs t = Some c → c ∈ cs ∧ cond_Type c = t.
Proof.
  induction cs as [|c' cs IH]; cbn; [done|]. case_decide.
  - intros [= <-]. split; [by left|done].
  - intros H'%IH. destruct H'. split; [by right|done].
Qed.

Lemma find_set_same_cond cs c : find_cond (set_cond cs c) (cond_Type c) = Some c.
Proof.
  induction cs as [|c' cs IH]; cbn; [by rewrite decide_True|]. case_decide; cbn; case_decide; done.
Qed.

Lemma find_set_other_cond cs c t :
  t ≠ cond_Type c → find_cond (set_cond cs c) t = find_cond cs t.
Proof.
  intros Ht. induction cs as [|c' cs IH]; cbn; [by rewrite decide_False|].
  case_decide; cbn; [|case_decide; congruence].
  rewrite decide_False by done. rewrite decide_False; congruence.
Qed.

Lemma contains_spec m f : contains m f = true ↔ f ∈ om_Finalizers m.
Proof. apply bool_decide_eq_true. Qed.

Lemma add_spec m f :
  ∃ fs, add m f = set_om_Finalizers fs m ∧ ∀ g, g ∈ fs ↔ g = f ∨ g ∈ om_Finalizers m.
Proof.
  eexists; split; [reflexivity|]. intros g. destruct (contains m f) eqn:Hc.
  - apply contains_spec in Hc. split; [by right|]. by intros [->|?].
  - rewrite elem_of_app, list_elem_of_singleton. tauto.
Qed.

Lemma remove_spec m f :
  ∃ fs, remove m f = set_om_Finalizers fs m ∧ ∀ g, g ∈ fs ↔ g ≠ f ∧ g ∈ om_Finalizers m.
Proof. eexists; split; [reflexivity|]. intros g. by rewrite list_elem_of_filter. Qed.

Lemma set_controller_spec kind owner m m' :
  set_controller kind owner m = Some m' →
  ∃ refs, m' = set_om_OwnerReferences refs m ∧ mkOwnerRef kind (om_Name owner) (om_UID owner) true ∈ refs.
Proof.
  unfold set_controller. case_match; [case_decide; [|done]|]; intros [= <-];
    (eexists; split; [reflexivity|by left]).
Qed.

Lemma set_controller_other kind owner m r :
  head (filter (λ r, or_Controller r = true) (om_OwnerReferences m)) = Some r →
  or_Kind r ≠ kind ∨ or_Name r ≠ om_Name owner → set_controller kind owner m = None.
Proof. unfold set_controller, controller_of. intros -> Hne. rewrite decide_False; [done|tauto]. Qed.

Lemma set_controller_free kind owner m :
  om_Namespace m = om_Namespace owner →
  (∀ r, head (filter (λ r, or_Controller r = true) (om_OwnerReferences m)) = Some r →
     or_Kind r = kind ∧ or_Name r = om_Name owner) → is_Some (set_controller kind owner m).
Proof.
  intros _ Hfree. unfold set_controller, controller_of.
  destruct (head _) as [r|]; [rewrite decide_True by auto|]; by eexists.
Qed.

Lemma set_controller_again kind owner m m' m'' :
  set_controller kind owner m = Some m' →
  om_Namespace m'' = om_Namespace m' → om_OwnerReferences m'' = om_OwnerReferences m' →
  set_controller kind owner m'' = Some m''.
Proof.
  set (mine := λ r, or_Kind r = kind ∧ or_Name r = om_Name owner).
  set (ref := mkOwnerRef kind (om_Name owner) (om_UID owner) true).
  intros Hm _ Hr. assert (om_OwnerReferences m'' = ref :: filter (λ r, ¬ mine r) (om_OwnerReferences m)) as Hrefs.
  { rewrite Hr. unfold set_controller in Hm. case_match; [case_decide; [|done]|]; by injection Hm as <-. }
  unfold set_controller, controller_of. rewrite Hrefs, !filter_cons, decide_True by done. cbn.
  rewrite decide_True by done. rewrite decide_False by tauto.
  rewrite list_filter_filter. destruct m''. cbn in *. f_equal. unfold set_om_OwnerReferences. cbn. f_equal.
  rewrite Hrefs. f_equal. apply list_filter_iff. intros r. fold (mine r). tauto.
Qed.
End RefLib.

#[export] Instance reference_lib : KubeLib :=
  {| LabelSelectorAsSelector := RefLib.as_selector; selector_labels_only := RefLib.as_selector_labels;
     FindStatusCondition := RefLib.find_cond; SetStatusCondition := RefLib.set_cond;
     find_condition := RefLib.find_cond_spec; find_set_same := RefLib.find_set_same_cond;
     find_set_other := RefLib.find_set_other_cond;
     ContainsFinalizer := RefLib.contains; AddFinalizer := RefLib.add; RemoveFinalizer := RefLib.remove;
     contains_finalizer := RefLib.contains_spec; add_finalizer := RefLib.add_spec;
     remove_finalizer := RefLib.remove_spec;
     SetControllerReference := RefLib.set_controller; controller_reference := RefLib.set_controller_spec;
     controller_reference_other := RefLib.set_controller_other;
     controller_reference_free := RefLib.set_controller_free;
     controller_reference_again := RefLib.set_controller_again |}.
