(* ===== verification/Programs.v ===== *)
(** * Two more views of a program of calls

    [exec]: its result and final state against a server; [only]: the calls it can
    make, whatever the answers. *)
From S2P Require Import Prelude Http K8s ApiTypes Kube.

(** ** Running a program for its result and final state *)
Definition exec {A} (sv : server) (w : sv_State sv) (p : prog A) : A * sv_State sv :=
  let '(a, _, w) := run sv w [] p in (a, w).

Lemma run_any_trace {A} sv w tr tr' (p : prog A) :
  (run sv w tr p).1.1 = (run sv w tr' p).1.1 ∧ (run sv w tr p).2 = (run sv w tr' p).2.
Proof.
  revert w tr tr'. induction p as [a|R c k IH]; intros w tr tr'; cbn; [done|].
  destruct (sv_answer sv _ c w) as [r w']. apply IH.
Qed.

Lemma exec_Call {A R} sv w (c : call R) (k : R → prog A) :
  exec sv w (Call c k) = let '(r, w) := sv_answer sv _ c w in exec sv w (k r).
Proof.
  unfold exec. cbn. destruct (sv_answer sv _ c w) as [r w'].
  destruct (run_any_trace sv w' [Ev c r] [] (k r)) as [H1 H2].
  destruct (run sv w' [Ev c r] (k r)) as [[a t] v], (run sv w' [] (k r)) as [[a' t'] v']. cbn in *. congruence.
Qed.

Lemma exec_bind {A B} sv w (p : prog A) (f : A → prog B) :
  exec sv w (p ≫= f) = let '(a, w) := exec sv w p in exec sv w (f a).
Proof.
  revert w. induction p as [a|R c k IH]; intros w; [done|].
  change (Call c k ≫= f) with (Call c (λ r, k r ≫= f)). rewrite !exec_Call.
  destruct (sv_answer sv _ c w) as [r w']. apply IH.
Qed.

Lemma exec_try {A B} sv w (m : M A) (k : A → M B) :
  exec sv w (try m k)
  = match exec sv w m with (Ok a, w) => exec sv w (k a) | (Err e, w) => (Err e, w) end.
Proof. unfold try. rewrite exec_bind. by destruct (exec sv w m) as [[a|e] w']. Qed.

Lemma exec_ask {R} sv w (c : call R) : exec sv w (ask c) = sv_answer sv _ c w.
Proof. unfold ask. rewrite exec_Call. by destruct (sv_answer sv _ c w). Qed.

Lemma exec_api {R} sv w (c : call (result ApiError R)) :
  exec sv w (api c) = let '(r, w) := sv_answer sv _ c w in (wrap_err Api r, w).
Proof. unfold api. rewrite exec_bind, exec_ask. by destruct (sv_answer sv _ c w). Qed.

(** Calls that all fail. *)
Definition refuse (R : Type) (c : call R) : R :=
  match c in call R return R with
  | GetJellyfin _ _ | StatusUpdateJellyfin _ => Err OtherApiError
  | GetPlugin _ _ | UpdatePlugin _ | StatusUpdatePlugin _ => Err OtherApiError
  | GetDeployment _ _ | UpdateDeployment _ => Err OtherApiError
  | ListJellyfins _ => Err OtherApiError
  | ListPlugins _ => Err OtherApiError
  | ListDeployments _ _ => Err OtherApiError
  | GetPersistentVolume _ => Err OtherApiError
  | DeleteDeployment _ _ | DeleteService _ _ | DeleteIngress _ _ | DeleteHTTPRoute _ _
  | DeletePersistentVolume _ => Err OtherApiError
  | UpsertDeployment _ _ _ => Err (Api OtherApiError)
  | UpsertService _ _ _ => Err (Api OtherApiError)
  | UpsertIngress _ _ _ => Err (Api OtherApiError)
  | UpsertHTTPRoute _ _ _ => Err (Api OtherApiError)
  | UpsertPVC _ _ _ => Err (Api OtherApiError)
  | UpsertPersistentVolume _ _ => Err (Api OtherApiError)
  | PatchPVC _ _ => Err OtherApiError
  | GetSecret _ _ => Err OtherApiError
  | UpsertSecret _ _ _ => Err (Api OtherApiError)
  | Http _ => Err ""
  | RandRead _ => None
  end.

(** ** Programs that only make some calls *)
Definition call_pred : Type := ∀ R : Type, call R → Prop.

Fixpoint only {A} (P : call_pred) (p : prog A) : Prop :=
  match p with
  | Ret _ => True
  | Call c k => P _ c ∧ ∀ r, only P (k r)
  end.

(** As an invariant of a run, whatever came before. *)
Definition within (P : call_pred) : call_inv := λ R _ c, P R c.

Lemma only_always {A} P tr (p : prog A) : only P p → always (within P) anything tr p.
Proof.
  revert tr. induction p as [a|R c k IH]; intros tr; [done|]. intros [Hc Hk]. split; [done|]. intros r. by apply IH.
Qed.

Lemma only_impl {A} (P Q : call_pred) (p : prog A) : only P p → (∀ R c, P R c → Q R c) → only Q p.
Proof. intros Hp HPQ. induction p as [a|R c k IH]; [done|]. destruct Hp as [Hc Hk]. split; auto. Qed.

Section only.
Context (P : call_pred).

Lemma only_bind {A B} (p : prog A) (f : A → prog B) : only P p → (∀ a, only P (f a)) → only P (p ≫= f).
Proof. intros Hp Hf. induction p as [a|R c k IH]; [apply Hf|]. destruct Hp as [Hc Hk]. split; [done|]. intros r. by apply IH. Qed.

Lemma only_ask {R} (c : call R) : P R c → only P (ask c).
Proof. by split. Qed.

Lemma only_ret {A} (a : A) : only P (Ret a).
Proof. done. Qed.

Lemma only_try {A B} (m : M A) (k : A → M B) : only P m → (∀ a, only P (k a)) → only P (try m k).
Proof. intros Hm Hk. apply only_bind; [done|]. by intros [a|e]. Qed.

Lemma only_api {R} (c : call (result ApiError R)) : P _ c → only P (api c).
Proof. intros Hc. apply only_bind; [by apply only_ask|done]. Qed.

Lemma only_delete (c : call (result ApiError unit)) : P _ c → only P (delete_if_present c).
Proof. intros Hc. apply only_bind; [by apply only_ask|done]. Qed.

Lemma only_in_context {A} ctx (m : M A) : only P m → only P (in_context ctx m).
Proof. intros Hm. by apply only_bind. Qed.

Lemma only_for_each {A} (f : A → M unit) l : (∀ a, only P (f a)) → only P (for_each f l).
Proof. intros Hf. induction l as [|a l IH]; [done|]. apply only_try; [done|]. by intros []. Qed.

Lemma only_fold_each {A S} (f : S → A → M S) s l : (∀ s a, only P (f s a)) → only P (fold_each f s l).
Proof. intros Hf. revert s. induction l as [|a l IH]; intros s; [done|]. by apply only_try. Qed.

Lemma only_attempts n (m : M unit) : only P m → only P (attempts n m).
Proof.
  intros Hm. induction n as [|n IH]; (apply only_bind; [done|]); intros [[]|e]; try done.
  - by destruct e; try case_match.
  - destruct e; try done. by case_match.
Qed.

Lemma only_retry `{RetryLib} (m : M unit) : only P m → only P (RetryOnConflict m).
Proof. intros Hm. destruct retry_on_conflict as [n ->]. by apply only_attempts. Qed.
End only.

#[export] Hint Resolve only_bind only_ask only_ret only_try only_api only_delete only_in_context only_for_each
  only_fold_each only_retry : only.

(** Walk through a program down to its calls, which [tac] must justify. *)
Ltac walk tac :=
  repeat (intros; cbv beta zeta;
    lazymatch goal with
    | |- only _ (Ret _) => exact I
    | |- only _ (mret _) => exact I
    | |- only _ (ok _) => exact I
    | |- only _ (throw _) => exact I
    | |- only _ (ask _) => apply only_ask; tac
    | |- only _ (api _) => apply only_api; tac
    | |- only _ (delete_if_present _) => apply only_delete; tac
    | |- only _ (try _ _) => apply only_try
    | |- only _ (in_context _ _) => apply only_in_context
    | |- only _ (for_each _ _) => apply only_for_each
    | |- only _ (fold_each _ _ _) => apply only_fold_each
    | |- only _ (RetryOnConflict _) => apply only_retry
    | |- only _ (mbind _ _) => apply only_bind
    | |- only _ (match ?x with _ => _ end) => destruct x
    end).
