(* ===== verification/Client.v ===== *)
(** * The Jellyfin HTTP client
    (internal/jellyfinapi/client.go, startup.go, types.go, and the requests of
    libraries.go, configuration.go and encoding.go) *)
From S2P Require Import Prelude GoStrings Json Http Kube Options Libraries.

(** ** Reading answers into structs

    [json.Unmarshal] into a struct visits the document's fields in order; a field
    goes to the struct's field of that name, or of that name up to the case of
    letters; null changes nothing; a value of another type is an error. *)
Definition field_is (name : string) (key : string) : bool :=
  String.eqb (ToLower key) (ToLower name).

Fixpoint set_struct_field {T} (spec : list (string * (Json → T → option T))) (key : string) (v : Json) (t : T)
    : option T :=
  match spec with
  | [] => Some t
  | (name, set) :: spec => if field_is name key then set v t else set_struct_field spec key v t
  end.

Fixpoint set_struct {T} (spec : list (string * (Json → T → option T))) (fs : list (string * Json)) (t : T)
    : option T :=
  match fs with
  | [] => Some t
  | (k, v) :: fs => t ← set_struct_field spec k v t; set_struct spec fs t
  end.

Definition read_struct {T} (spec : list (string * (Json → T → option T))) (zero : T) (j : Json) : option T :=
  match j with JNull => Some zero | JObject fs => set_struct spec fs zero | _ => None end.

Definition read_string (j : Json) (old : string) : option string :=
  match j with JNull => Some old | JString s => Some s | _ => None end.
Definition read_list {T} (read : Json → option T) (j : Json) : option (list T) :=
  match j with JNull => Some [] | JArray l => mapM read l | _ => None end.

Definition read_VirtualFolder : Json → option VirtualFolder :=
  read_struct
    [("Name", λ j f, s ← read_string j (vf_Name f);
        Some (mkVF s (vf_CollectionType f) (vf_Locations f) (vf_ItemID f) (vf_LibraryOptions f)));
     ("CollectionType", λ j f, s ← read_string j (vf_CollectionType f);
        Some (mkVF (vf_Name f) s (vf_Locations f) (vf_ItemID f) (vf_LibraryOptions f)));
     ("Locations", λ j f, l ← read_list (λ j, read_string j "") j;
        Some (mkVF (vf_Name f) (vf_CollectionType f) l (vf_ItemID f) (vf_LibraryOptions f)));
     ("ItemId", λ j f, s ← read_string j (vf_ItemID f);
        Some (mkVF (vf_Name f) (vf_CollectionType f) (vf_Locations f) s (vf_LibraryOptions f)));
     ("LibraryOptions", λ j f,
        Some (mkVF (vf_Name f) (vf_CollectionType f) (vf_Locations f) (vf_ItemID f) (Text j)))]
    (mkVF "" "" [] "" Empty).

Record StartupConfiguration := mkStartup {
  su_UICulture : string; su_MetadataCountry : string; su_PreferredLanguage : string }.
Definition read_StartupConfiguration : Json → option StartupConfiguration :=
  read_struct
    [("UICulture", λ j c, s ← read_string j (su_UICulture c);
        Some (mkStartup s (su_MetadataCountry c) (su_PreferredLanguage c)));
     ("MetadataCountryCode", λ j c, s ← read_string j (su_MetadataCountry c);
        Some (mkStartup (su_UICulture c) s (su_PreferredLanguage c)));
     ("PreferredMetadataLanguage", λ j c, s ← read_string j (su_PreferredLanguage c);
        Some (mkStartup (su_UICulture c) (su_MetadataCountry c) s))]
    (mkStartup "" "" "").
(** [omitempty]: an empty field is not written. *)
Definition write_StartupConfiguration (c : StartupConfiguration) : Json :=
  JObject (omap (λ kv : string * string, if decide (kv.2 = "") then None else Some (kv.1, JString kv.2))
    [("UICulture", su_UICulture c); ("MetadataCountryCode", su_MetadataCountry c);
     ("PreferredMetadataLanguage", su_PreferredLanguage c)]).

Record AuthenticationResult := mkAuth {
  au_AccessToken : string; au_ServerID : string; au_UserID : string; au_UserName : string }.
Definition read_AuthenticationResult : Json → option AuthenticationResult :=
  read_struct
    [("AccessToken", λ j a, s ← read_string j (au_AccessToken a);
        Some (mkAuth s (au_ServerID a) (au_UserID a) (au_UserName a)));
     ("ServerId", λ j a, s ← read_string j (au_ServerID a);
        Some (mkAuth (au_AccessToken a) s (au_UserID a) (au_UserName a)));
     ("User", λ j a,
        read_struct
          [("Id", λ j a, s ← read_string j (au_UserID a);
              Some (mkAuth (au_AccessToken a) (au_ServerID a) s (au_UserName a)));
           ("Name", λ j a, s ← read_string j (au_UserName a);
              Some (mkAuth (au_AccessToken a) (au_ServerID a) (au_UserID a) s))] a j)]
    (mkAuth "" "" "" "").

Record AuthKey := mkKey { ak_AccessToken : string; ak_AppName : string }.
Definition read_AuthKey : Json → option AuthKey :=
  read_struct
    [("AccessToken", λ j k, s ← read_string j (ak_AccessToken k); Some (mkKey s (ak_AppName k)));
     ("AppName", λ j k, s ← read_string j (ak_AppName k); Some (mkKey (ak_AccessToken k) s))]
    (mkKey "" "").
(** [authKeysResult], by its only field. *)
Definition read_authKeysResult : Json → option (list AuthKey) :=
  read_struct [("Items", λ j _, read_list read_AuthKey j)] [].

(** ** client.go *)
Definition OperatorClientName : string := "JellyOps".

Record Client := mkClient {
  cl_base : URL;
  cl_token : string;
  cl_clientName : string;
  cl_device : string;
  cl_deviceID : string;
  cl_version : string;
}.

Definition New `{NetUrl} (baseURL deviceID : string) : result Error Client :=
  match url_Parse baseURL with
  | Err e => Err (Wrapped "parse base url" (Message e))
  | Ok u => Ok (mkClient u "" OperatorClientName "operator" deviceID "0.1.0")
  end.

Definition SetToken (c : Client) (t : string) : Client :=
  mkClient (cl_base c) t (cl_clientName c) (cl_device c) (cl_deviceID c) (cl_version c).

Definition Token (c : Client) : string := cl_token c.

(** [quote] is [%q]. *)
Definition authHeader (quote : string → string) (c : Client) : string :=
  let parts := ["Client=" +:+ quote (cl_clientName c); "Device=" +:+ quote (cl_device c);
                "DeviceId=" +:+ quote (cl_deviceID c); "Version=" +:+ quote (cl_version c)] in
  let parts := if decide (cl_token c = "") then parts else parts ++ ["Token=" +:+ quote (cl_token c)] in
  "MediaBrowser " +:+ Join parts ", ".

(** The request [do] makes. *)
Definition request (quote : string → string) (c : Client) (method path : string) (query : option Values)
    (body : option Json) : HttpRequest :=
  let u := cl_base c in
  let u := mkURL (u_Scheme u) (u_Host u) (TrimRightByte "/" (u_Path u) +:+ path)
             (default (u_Query u) query) in
  let header := [("Authorization", authHeader quote c); ("Accept", "application/json")] in
  mkHttpRequest method u
    (match body with Some _ => header ++ [("Content-Type", "application/json")] | None => header end) body.

Section client.
Context (quote : string → string).

(** [do] up to the status check: the body of a 2xx answer. *)
Definition exchange (c : Client) (method path : string) (query : option Values) (body : option Json)
    : M RawMessage :=
  r ← ask (Http (request quote c method path query body));
  match r with
  | Err e => throw (Transport e)
  | Ok resp =>
      if (rs_StatusCode resp <? 200)%Z || (300 <=? rs_StatusCode resp)%Z then
        throw (StatusError method path (rs_StatusCode resp) (rs_Snippet resp))
      else ok (rs_Body resp)
  end.

(** [do] with no [out], and with an [out] that starts as [zero]. *)
Definition do (c : Client) (method path : string) (query : option Values) (body : option Json) : M unit :=
  _ ←! exchange c method path query body; ok tt.

Definition do_out {T} (read : Json → option T) (zero : T)
    (c : Client) (method path : string) (query : option Values) (body : option Json) : M T :=
  data ←! exchange c method path query body;
  match data with
  | Empty => ok zero
  | Malformed => throw (DecodeBody method path)
  | Text j => match read j with Some t => ok t | None => throw (DecodeBody method path) end
  end.

(** [do] with a raw message as body or out. *)
Definition marshal_raw (r : RawMessage) : option Json :=
  match r with Empty => Some JNull | Malformed => None | Text j => Some j end.
Definition do_raw (c : Client) (method path : string) (body : RawMessage) (wrap : Json → Json) : M unit :=
  match marshal_raw body with
  | None => throw MarshalBody
  | Some j => do c method path None (Some (wrap j))
  end.
Definition get_raw (c : Client) (path : string) : M RawMessage :=
  do_out (λ j, Some (Text j)) Empty c MethodGet path None None.

Definition IsStatus (err : Error) (code : Z) : bool :=
  match err with StatusError _ _ c _ => bool_decide (c = code) | _ => false end.

(** ** The requests of libraries.go *)
Definition refreshLibraryParam : string := "refreshLibrary".
Definition boolStr (b : bool) : string := if b then "true" else "false".

Definition ListVirtualFolders (c : Client) : M (list VirtualFolder) :=
  do_out (read_list read_VirtualFolder) [] c MethodGet "/Library/VirtualFolders" None None.

Definition AddVirtualFolder (c : Client) (lib : DesiredLibrary) (refresh : bool) : M unit :=
  let q : Values := {[ "name" := [dl_Name lib] ]} in
  let q := if decide (dl_CollectionType lib = "") then q else <["collectionType" := [dl_CollectionType lib]]> q in
  let q := if decide (dl_Paths lib = []) then q else <["paths" := dl_Paths lib]> q in
  let q := <[refreshLibraryParam := [boolStr refresh]]> q in
  match dl_Options lib with
  | Empty => do c MethodPost "/Library/VirtualFolders" (Some q) None
  | Malformed => throw MarshalBody
  | Text j => do c MethodPost "/Library/VirtualFolders" (Some q) (Some (JObject [("LibraryOptions", j)]))
  end.

Definition RemoveVirtualFolder (c : Client) (name : string) (refresh : bool) : M unit :=
  do c MethodDelete "/Library/VirtualFolders"
    (Some {[ "name" := [name]; refreshLibraryParam := [boolStr refresh] ]}) None.

Definition AddMediaPath (c : Client) (name path : string) (refresh : bool) : M unit :=
  do c MethodPost "/Library/VirtualFolders/Paths" (Some {[ refreshLibraryParam := [boolStr refresh] ]})
    (Some (JObject [("Name", JString name); ("PathInfo", JObject [("Path", JString path)])])).

Definition RemoveMediaPath (c : Client) (name path : string) (refresh : bool) : M unit :=
  do c MethodDelete "/Library/VirtualFolders/Paths"
    (Some {[ "name" := [name]; "path" := [path]; refreshLibraryParam := [boolStr refresh] ]}) None.

Definition UpdateLibraryOptions (c : Client) (id : string) (options : RawMessage) : M unit :=
  do_raw c MethodPost "/Library/VirtualFolders/LibraryOptions" options
    (λ j, JObject [("Id", JString id); ("LibraryOptions", j)]).

Definition RefreshLibraries (c : Client) : M unit :=
  do c MethodPost "/Library/Refresh" None None.

(** ** The requests of configuration.go and encoding.go *)
Definition serverConfigPath : string := "/System/Configuration".
Definition brandingConfigPath : string := "/System/Configuration/branding".
Definition encodingConfigPath : string := "/System/Configuration/encoding".

Definition GetServerConfig (c : Client) : M RawMessage := get_raw c serverConfigPath.
Definition UpdateServerConfig (c : Client) (cfg : RawMessage) : M unit :=
  do_raw c MethodPost serverConfigPath cfg id.
Definition GetBrandingConfig (c : Client) : M RawMessage := get_raw c brandingConfigPath.
Definition UpdateBrandingConfig (c : Client) (cfg : RawMessage) : M unit :=
  do_raw c MethodPost brandingConfigPath cfg id.
Definition GetEncodingConfig (c : Client) : M RawMessage := get_raw c encodingConfigPath.
Definition UpdateEncodingConfig (c : Client) (cfg : RawMessage) : M unit :=
  do_raw c MethodPost encodingConfigPath cfg id.

(** ** startup.go *)
Definition GetStartupConfiguration (c : Client) : M StartupConfiguration :=
  do_out read_StartupConfiguration (mkStartup "" "" "") c MethodGet "/Startup/Configuration" None None.

Definition SetStartupConfiguration (c : Client) (cfg : StartupConfiguration) : M unit :=
  let cfg := mkStartup
    (if decide (su_UICulture cfg = "") then "en-US" else su_UICulture cfg)
    (if decide (su_MetadataCountry cfg = "") then "US" else su_MetadataCountry cfg)
    (if decide (su_PreferredLanguage cfg = "") then "en" else su_PreferredLanguage cfg) in
  do c MethodPost "/Startup/Configuration" None (Some (write_StartupConfiguration cfg)).

Definition GetStartupUser (c : Client) : M unit := do c MethodGet "/Startup/User" None None.

Definition CreateStartupUser (c : Client) (name password : string) : M unit :=
  do c MethodPost "/Startup/User" None
    (Some (JObject [("Name", JString name); ("Password", JString password)])).

Definition SetStartupRemoteAccess (c : Client) : M unit :=
  do c MethodPost "/Startup/RemoteAccess" None
    (Some (JObject [("EnableAutomaticPortMapping", JBool false); ("EnableRemoteAccess", JBool true)])).

Definition CompleteStartup (c : Client) : M unit := do c MethodPost "/Startup/Complete" None None.

(** Returns the token, and the client that carries it from now on. *)
Definition AuthenticateByName (c : Client) (username password : string) : M (string * Client) :=
  res ←! do_out read_AuthenticationResult (mkAuth "" "" "" "") c MethodPost "/Users/AuthenticateByName" None
           (Some (JObject [("Pw", JString password); ("Username", JString username)]));
  if decide (au_AccessToken res = "") then throw (Message "authenticate: empty access token")
  else ok (au_AccessToken res, SetToken c (au_AccessToken res)).

Definition CreateAPIKey (c : Client) (app : string) : M string :=
  _ ←! do c MethodPost "/Auth/Keys" (Some {[ "App" := [app] ]}) None;
  keys ←! do_out read_authKeysResult [] c MethodGet "/Auth/Keys" None None;
  match filter (λ k, ak_AppName k = app ∧ ak_AccessToken k ≠ "") keys with
  | k :: _ => ok (ak_AccessToken k)
  | [] => throw (Message ("created API key for " +:+ quote app +:+ " not found in key list"))
  end.

(** [err != nil && !IsStatus(err, http.StatusBadRequest)] is returned, in context. *)
Definition wizard_step (context : string) (m : M unit) : M unit :=
  r ← m;
  match r with
  | Err e => if IsStatus e StatusBadRequest then ok tt else throw (Wrapped context e)
  | Ok _ => ok tt
  end.

Definition Bootstrap (c : Client) (username password app : string) : M string :=
  r ← GetStartupConfiguration c;
  _ ←! match r with
       | Ok _ =>
           _ ←! wizard_step "set startup configuration" (SetStartupConfiguration c (mkStartup "" "" ""));
           _ ←! wizard_step "get startup user" (GetStartupUser c);
           _ ←! wizard_step "create startup user" (CreateStartupUser c username password);
           _ ←! wizard_step "set startup remote access" (SetStartupRemoteAccess c);
           wizard_step "complete startup" (CompleteStartup c)
       | Err _ => ok tt
       end;
  auth ←! in_context "authenticate" (AuthenticateByName c username password);
  CreateAPIKey (snd auth) app.
End client.

(** ** What an answer means *)
Definition success (r : result string HttpResponse) : option RawMessage :=
  match r with
  | Ok resp => if ((200 <=? rs_StatusCode resp) && (rs_StatusCode resp <? 300))%Z then Some (rs_Body resp) else None
  | Err _ => None
  end.
Definition read_answer {T} (read : Json → option T) (zero : T) (r : result string HttpResponse) : option T :=
  body ← success r;
  match body with Empty => Some zero | Malformed => None | Text j => read j end.
(** A 400 of the wizard means the step was already done. *)
Definition tolerated (r : result string HttpResponse) : bool :=
  match r with
  | Ok resp => ((200 <=? rs_StatusCode resp) && (rs_StatusCode resp <? 300))%Z || (rs_StatusCode resp =? 400)%Z
  | Err _ => false
  end.

Section client_rules.
Context (quote : string → string) (I : call_inv).

Lemma status_test n : ((n <? 200) || (300 <=? n))%Z = negb ((200 <=? n) && (n <? 300))%Z.
Proof. by rewrite negb_andb, <-Z.ltb_antisym, <-Z.leb_antisym. Qed.

Lemma bool_eqb n m : bool_decide (n = m) = (n =? m)%Z.
Proof. case_bool_decide; symmetry; [by apply Z.eqb_eq|by apply Z.eqb_neq]. Qed.

Lemma always_do (Q : list event → result Error unit → Prop) tr c m p q b :
  let req := request quote c m p q b in
  I _ tr (Http req) →
  (∀ r, match success r with
        | Some _ => Q (tr ++ [Ev (Http req) r]) (Ok tt)
        | None => ∀ e, IsStatus e 400 = tolerated r → Q (tr ++ [Ev (Http req) r]) (Err e) end) →
  always I Q tr (do quote c m p q b).
Proof.
  intros req Hc HQ. split; [done|]. intros r. specialize (HQ r). destruct r as [resp|e]; cbn in *; [|by apply HQ].
  rewrite status_test. destruct (_ && _)%Z; cbn in *; [done|]. apply HQ. cbn. apply bool_eqb.
Qed.

(** A read answers its value, or an error. *)
Lemma always_do_out {T} (read : Json → option T) zero (Q : list event → result Error T → Prop) tr c m p q b :
  let req := request quote c m p q b in
  I _ tr (Http req) →
  (∀ r, match read_answer read zero r with
        | Some t => Q (tr ++ [Ev (Http req) r]) (Ok t)
        | None => ∀ e, Q (tr ++ [Ev (Http req) r]) (Err e) end) →
  always I Q tr (do_out quote read zero c m p q b).
Proof.
  intros req Hc HQ. split; [done|]. intros r. specialize (HQ r). unfold read_answer in HQ.
  destruct r as [resp|e]; cbn in *; [|by apply HQ].
  rewrite status_test. destruct (_ && _)%Z; cbn in *; [|by apply HQ].
  destruct (rs_Body resp); cbn in *; [done|by apply HQ|]. destruct (read j); [done|by apply HQ].
Qed.
End client_rules.

(** ** Bootstrap follows the server's protocol

    The wizard is a sequence of five requests, open only while the first one is
    answered; then the client logs in, makes a key under the session's token and
    reads it back. *)
Inductive phase : Type :=
  | Probe
  | Wizard (step : nat)
  | Login
  | Mint (token : string)
  | ReadBack (token : string)
  | Done (key : string)
  | Failed.

Section protocol.
Context (quote : string → string) (c : Client) (username password app : string).

Definition wizard : list HttpRequest :=
  [request quote c "POST" "/Startup/Configuration" None
     (Some (JObject [("UICulture", JString "en-US"); ("MetadataCountryCode", JString "US");
                     ("PreferredMetadataLanguage", JString "en")]));
   request quote c "GET" "/Startup/User" None None;
   request quote c "POST" "/Startup/User" None
     (Some (JObject [("Name", JString username); ("Password", JString password)]));
   request quote c "POST" "/Startup/RemoteAccess" None
     (Some (JObject [("EnableAutomaticPortMapping", JBool false); ("EnableRemoteAccess", JBool true)]));
   request quote c "POST" "/Startup/Complete" None None].

(** The request of each phase, and the phase its answer leads to. *)
Definition phase_request (ph : phase) : option HttpRequest :=
  match ph with
  | Probe => Some (request quote c "GET" "/Startup/Configuration" None None)
  | Wizard n => wizard !! n
  | Login => Some (request quote c "POST" "/Users/AuthenticateByName" None
                     (Some (JObject [("Pw", JString password); ("Username", JString username)])))
  | Mint t => Some (request quote (SetToken c t) "POST" "/Auth/Keys" (Some {[ "App" := [app] ]}) None)
  | ReadBack t => Some (request quote (SetToken c t) "GET" "/Auth/Keys" None None)
  | Done _ | Failed => None
  end.

Definition minted (keys : list AuthKey) : option string :=
  ak_AccessToken <$> head (filter (λ k, ak_AppName k = app ∧ ak_AccessToken k ≠ "") keys).

Definition phase_next (ph : phase) (r : result string HttpResponse) : phase :=
  match ph with
  | Probe => match read_answer read_StartupConfiguration (mkStartup "" "" "") r with
             | Some _ => Wizard 0 | None => Login end
  | Wizard n => if tolerated r then (if decide (n = 4) then Login else Wizard (S n)) else Failed
  | Login => match read_answer read_AuthenticationResult (mkAuth "" "" "" "") r with
             | Some a => if decide (au_AccessToken a = "") then Failed else Mint (au_AccessToken a)
             | None => Failed end
  | Mint t => if success r then ReadBack t else Failed
  | ReadBack _ => match read_answer read_authKeysResult [] r ≫= minted with
                  | Some k => Done k | None => Failed end
  | Done _ | Failed => ph
  end.

Definition phase_event (ph : phase) (ev : event) : phase :=
  match ev with
  | Ev c r => match c in call R return R → phase with Http _ => phase_next ph | _ => λ _, ph end r
  end.
(** The phase after the events that follow the first [n]. *)
Definition phase_after (n : nat) (tr : list event) : phase := fold_left phase_event (drop n tr) Probe.

Definition protocol_inv (n : nat) : call_inv := λ R tr c,
  match c with Http req => phase_request (phase_after n tr) = Some req | _ => False end.
Definition protocol_result (n : nat) (tr : list event) (r : result Error string) : Prop :=
  phase_after n tr = match r with Ok k => Done k | Err _ => Failed end.

Lemma phase_after_app n tr ev :
  n ≤ length tr → phase_after n (tr ++ [ev]) = phase_event (phase_after n tr) ev.
Proof. intros Hn. unfold phase_after. by rewrite drop_app_le, fold_left_app by done. Qed.

Lemma always_wizard_step n i ctx m p q b tr :
  phase_after n tr = Wizard i → n ≤ length tr → wizard !! i = Some (request quote c m p q b) →
  always (protocol_inv n)
    (λ tr' r, n ≤ length tr' ∧
       phase_after n tr' = match r with Ok _ => if decide (i = 4) then Login else Wizard (S i) | Err _ => Failed end)
    tr (wizard_step ctx (do quote c m p q b)).
Proof.
  intros Hph Hn Hreq. apply always_bind, always_do.
  - cbn. by rewrite Hph.
  - intros r.
    assert (phase_after n (tr ++ [Ev (Http (request quote c m p q b)) r]) = phase_next (Wizard i) r) as Hnext.
    { by rewrite phase_after_app, Hph by done. }
    assert (n ≤ length (tr ++ [Ev (Http (request quote c m p q b)) r])) by (rewrite length_app; lia).
    destruct (success r) as [body|] eqn:Hs.
    + cbn. split; [done|]. rewrite Hnext. cbn. destruct r as [resp|]; [|done]. cbn in *.
      by destruct (_ && _)%Z.
    + intros e He. unfold StatusBadRequest. rewrite He.
      destruct (tolerated r) eqn:Ht; (split; [done|]); rewrite Hnext; cbn; by rewrite Ht.
Qed.

Lemma phase_step n ph tr req r :
  n ≤ length tr → phase_after n tr = ph →
  n ≤ length (tr ++ [Ev (Http req) r]) ∧ phase_after n (tr ++ [Ev (Http req) r]) = phase_next ph r.
Proof. intros Hn Hph. rewrite length_app, phase_after_app, Hph by done. split; [lia|done]. Qed.

Lemma always_mint n tr token :
  n ≤ length tr → phase_after n tr = Mint token →
  always (protocol_inv n) (protocol_result n) tr (CreateAPIKey quote (SetToken c token) app).
Proof.
  intros Hn Hph. apply always_bind, always_do; [cbn; by rewrite Hph|]. intros r.
  match goal with |- context [Ev (Http ?q) r] =>
    destruct (phase_step n _ tr q r Hn Hph) as [Hn1 Hph1] end.
  cbn [phase_next] in Hph1. destruct (success r); [|by intros e _].
  apply always_bind, always_do_out; [cbn; by rewrite Hph1|]. intros r'.
  match goal with |- context [Ev (Http ?q) r'] =>
    destruct (phase_step n _ _ q r' Hn1 Hph1) as [_ Hph2] end.
  cbn [phase_next] in Hph2. destruct (read_answer _ _ r') as [keys|]; [|by intros e]. cbn in Hph2 |- *.
  unfold minted in Hph2. unfold protocol_result. destruct (filter _ keys); exact Hph2.
Qed.

Lemma always_login n tr :
  n ≤ length tr → phase_after n tr = Login →
  always (protocol_inv n) (protocol_result n) tr
    (auth ←! in_context "authenticate" (AuthenticateByName quote c username password);
     CreateAPIKey quote (snd auth) app).
Proof.
  intros Hn Hph. apply always_bind, always_bind, always_bind, always_do_out; [cbn; by rewrite Hph|].
  intros r. match goal with |- context [Ev (Http ?q) r] =>
    destruct (phase_step n _ tr q r Hn Hph) as [Hn1 Hph1] end.
  cbn [phase_next] in Hph1. destruct (read_answer _ _ r) as [a|]; [|by intros e]. cbn.
  case_decide; [exact Hph1|]. by apply always_mint.
Qed.

Lemma always_wizard n tr :
  n ≤ length tr → phase_after n tr = Wizard 0 →
  always (protocol_inv n)
    (λ tr' r, match r with
       Ok _ => n ≤ length tr' ∧ phase_after n tr' = Login | Err _ => phase_after n tr' = Failed end) tr
    (_ ←! wizard_step "set startup configuration" (SetStartupConfiguration quote c (mkStartup "" "" ""));
     _ ←! wizard_step "get startup user" (GetStartupUser quote c);
     _ ←! wizard_step "create startup user" (CreateStartupUser quote c username password);
     _ ←! wizard_step "set startup remote access" (SetStartupRemoteAccess quote c);
     wizard_step "complete startup" (CompleteStartup quote c)).
Proof.
  intros Hn Hph.
  do 4 (apply always_bind; eapply always_mono; [eapply always_wizard_step; [exact Hph|exact Hn|reflexivity]|]; clear tr Hn Hph;
        intros tr [[]|e] [Hn Hph]; [cbn in Hph|exact Hph]).
  eapply always_mono; [eapply always_wizard_step; [exact Hph|exact Hn|reflexivity]|].
  by intros tr' [[]|e] [? ?].
Qed.

Lemma Bootstrap_always tr :
  always (protocol_inv (length tr)) (protocol_result (length tr)) tr
    (Bootstrap quote c username password app).
Proof.
  assert (phase_after (length tr) tr = Probe) as H0 by (unfold phase_after; by rewrite drop_all).
  apply always_bind, always_do_out; [cbn; by rewrite H0|]. intros r.
  destruct (phase_step _ _ tr (request quote c "GET" "/Startup/Configuration" None None) r (le_n _) H0) as [Hn Hph].
  cbn [phase_next] in Hph. destruct (read_answer _ _ r) as [cfg|]; [|by intros e; apply always_login].
  apply always_bind. eapply always_mono; [by apply always_wizard|].
  intros tr' [[]|e]; [|done]. intros [? ?]. by apply always_login.
Qed.
End protocol.

(** C17: Bootstrap refines the protocol: after any history, each request it sends is the
    one of the current phase, and it answers exactly the key the protocol ended
    with. So the first user is created only once the server has answered the
    configuration and the pending user, and the durable key is made and read back
    under the token of the login. *)
Theorem Bootstrap_follows_protocol quote c username password app tr :
  always (protocol_inv quote c username password app (length tr))
    (protocol_result app (length tr)) tr (Bootstrap quote c username password app).
Proof. apply Bootstrap_always. Qed.
