(* ===== verification/Wire.v ===== *)
(** * What a request looks like on the wire (internal/jellyfinapi/client.go)

    [strconv.Quote], which the [%q] verb of a string is, with UTF-8; [url.Values.Encode]
    and [url.ParseQuery]; and what a server reads in the identity header and the
    query that the client writes with them. *)
From Stdlib Require Import ZifyBool ZifyN.
From S2P Require Import Prelude GoStrings Json Http Kube Options Libraries Client.

(** ** Bytes and runes *)
Definition bytes (s : string) : list N := N_of_ascii <$> String.list_ascii_of_string s.
Definition of_bytes (l : list N) : string := String.string_of_list_ascii (ascii_of_N <$> l).
Definition is_byte (b : N) : Prop := (b < 256)%N.

Definition continues (b : N) : bool := (128 <=? b)%N && (b <? 192)%N.
Definition surrogate (r : N) : bool := (55296 <=? r)%N && (r <? 57344)%N.

(** [utf8.DecodeRune]: the rune and its width; [None] is an invalid byte. *)
Definition decode (l : list N) : option (N * nat) :=
  match l with
  | [] => None
  | b0 :: l1 =>
      if (b0 <? 128)%N then Some (b0, 1)
      else match l1 with
      | [] => None
      | b1 :: l2 =>
          if (192 <=? b0)%N && (b0 <? 224)%N && continues b1 then
            let r := ((b0 - 192) * 64 + (b1 - 128))%N in
            if (128 <=? r)%N then Some (r, 2) else None
          else match l2 with
          | [] => None
          | b2 :: l3 =>
              if (224 <=? b0)%N && (b0 <? 240)%N && continues b1 && continues b2 then
                let r := ((b0 - 224) * 4096 + (b1 - 128) * 64 + (b2 - 128))%N in
                if (2048 <=? r)%N && negb (surrogate r) then Some (r, 3) else None
              else match l3 with
              | [] => None
              | b3 :: _ =>
                  if (240 <=? b0)%N && (b0 <? 248)%N && continues b1 && continues b2 && continues b3 then
                    let r := ((b0 - 240) * 262144 + (b1 - 128) * 4096 + (b2 - 128) * 64 + (b3 - 128))%N in
                    if (65536 <=? r)%N && (r <? 1114112)%N then Some (r, 4) else None
                  else None
              end
          end
      end
  end.

(** [utf8.AppendRune] of a valid rune. *)
Definition encode (r : N) : list N :=
  if (r <? 128)%N then [r]
  else if (r <? 2048)%N then [192 + r / 64; 128 + r mod 64]%N
  else if (r <? 65536)%N then [224 + r / 4096; 128 + (r / 64) mod 64; 128 + r mod 64]%N
  else [240 + r / 262144; 128 + (r / 4096) mod 64; 128 + (r / 64) mod 64; 128 + r mod 64]%N.

(** ** strconv.Quote *)

(** Which runes above ASCII [unicode.IsPrint] has in its tables. *)
Class Unicode : Type := { in_tables : N → bool }.
Definition IsPrint `{Unicode} (r : N) : bool :=
  if (r <? 128)%N then (32 <=? r)%N && (r <? 127)%N else in_tables r.

Definition hex_digit (n : N) : N := if (n <? 10)%N then (48 + n)%N else (87 + n)%N.
Fixpoint hex (width : nat) (n : N) : list N :=
  match width with O => [] | S w => hex w (n / 16) ++ [hex_digit (n mod 16)] end.

(** The escapes by a letter: a b f n r t v. *)
Definition letter_of (r : N) : option N :=
  if decide (r = 7%N) then Some 97%N else if decide (r = 8%N) then Some 98%N
  else if decide (r = 12%N) then Some 102%N else if decide (r = 10%N) then Some 110%N
  else if decide (r = 13%N) then Some 114%N else if decide (r = 9%N) then Some 116%N
  else if decide (r = 11%N) then Some 118%N else None.

Definition appendEscapedRune `{Unicode} (r : N) : list N :=
  if decide (r = 34%N ∨ r = 92%N) then [92%N; r]
  else if IsPrint r then encode r
  else match letter_of r with
  | Some c => [92%N; c]
  | None =>
      if (r <? 32)%N || (r =? 127)%N then [92%N; 120%N] ++ hex 2 r
      else if (r <? 65536)%N then [92%N; 117%N] ++ hex 4 r
      else [92%N; 85%N] ++ hex 8 r
  end.

(** The loop over the string; [skip] bytes belong to the rune before. *)
Fixpoint quote_from `{Unicode} (skip : nat) (l : list N) : list N :=
  match l, skip with
  | [], _ => []
  | _ :: l', S k => quote_from k l'
  | b :: l', O =>
      match decode l with
      | Some (r, w) => appendEscapedRune r ++ quote_from (w - 1) l'
      | None => [92%N; 120%N] ++ hex 2 b ++ quote_from 0 l'
      end
  end.
Definition Quote `{Unicode} (s : string) : string := of_bytes (34%N :: quote_from 0 (bytes s) ++ [34%N]).

(** *** Reading it back, as [strconv.Unquote] does *)
Definition unhex_digit (c : N) : option N :=
  if (48 <=? c)%N && (c <? 58)%N then Some (c - 48)%N
  else if (97 <=? c)%N && (c <? 103)%N then Some (c - 87)%N
  else if (65 <=? c)%N && (c <? 71)%N then Some (c - 55)%N else None.
Definition unhex (l : list N) : option N :=
  foldl (λ acc c, n ← acc; d ← unhex_digit c; Some (n * 16 + d)%N) (Some 0%N) l.

Definition unletter (c : N) : option N :=
  if decide (c = 97%N) then Some 7%N else if decide (c = 98%N) then Some 8%N
  else if decide (c = 102%N) then Some 12%N else if decide (c = 110%N) then Some 10%N
  else if decide (c = 114%N) then Some 13%N else if decide (c = 116%N) then Some 9%N
  else if decide (c = 118%N) then Some 11%N
  else if decide (c = 34%N ∨ c = 92%N) then Some c else None.

Definition prepend (a : option (list N)) (r : option (list N * list N)) : option (list N * list N) :=
  a ← a; '(v, rest) ← r; Some (a ++ v, rest).

(** After the opening quote: the value, and what follows the closing one. *)
Fixpoint unquote (l : list N) : option (list N * list N) :=
  match l with
  | [] => None
  | c :: l1 =>
      if decide (c = 34%N) then Some ([], l1)
      else if decide (c = 92%N) then
        match l1 with
        | [] => None
        | e :: l2 =>
            match unletter e with
            | Some b => prepend (Some [b]) (unquote l2)
            | None =>
                match l2 with
                | h1 :: h2 :: l4 =>
                    if decide (e = 120%N) then prepend ((λ n, [n]) <$> unhex [h1; h2]) (unquote l4)
                    else match l4 with
                    | h3 :: h4 :: l6 =>
                        if decide (e = 117%N) then prepend (encode <$> unhex [h1; h2; h3; h4]) (unquote l6)
                        else match l6 with
                        | h5 :: h6 :: h7 :: h8 :: l10 =>
                            if decide (e = 85%N) then
                              prepend (encode <$> unhex [h1; h2; h3; h4; h5; h6; h7; h8]) (unquote l10)
                            else None
                        | _ => None
                        end
                    | _ => None
                    end
                | _ => None
                end
            end
        end
      else prepend (Some [c]) (unquote l1)
  end.

(** ** Quoting is undone *)
#[local] Ltac Zify.zify_post_hook ::= Z.to_euclidean_division_equations.

Lemma encode2 x y : (x < 32 → y < 64 → 128 <= x * 64 + y → encode (x * 64 + y) = [192 + x; 128 + y])%N.
Proof.
  intros Hx Hy H. unfold encode. destruct (N.ltb_spec (x * 64 + y) 128); [lia|].
  destruct (N.ltb_spec (x * 64 + y) 2048); [|lia]. repeat f_equal; lia.
Qed.
Lemma encode3 x y z :
  (x < 16 → y < 64 → z < 64 → 2048 <= x * 4096 + y * 64 + z →
   encode (x * 4096 + y * 64 + z) = [224 + x; 128 + y; 128 + z])%N.
Proof.
  intros Hx Hy Hz H. unfold encode. destruct (N.ltb_spec (x * 4096 + y * 64 + z) 128); [lia|].
  destruct (N.ltb_spec (x * 4096 + y * 64 + z) 2048); [lia|].
  destruct (N.ltb_spec (x * 4096 + y * 64 + z) 65536); [|lia]. repeat f_equal; lia.
Qed.
Lemma encode4 x y z t :
  (y < 64 → z < 64 → t < 64 → 65536 <= x * 262144 + y * 4096 + z * 64 + t →
   encode (x * 262144 + y * 4096 + z * 64 + t) = [240 + x; 128 + y; 128 + z; 128 + t])%N.
Proof.
  intros Hy Hz Ht H. unfold encode. destruct (N.ltb_spec (x * 262144 + y * 4096 + z * 64 + t) 128); [lia|].
  destruct (N.ltb_spec (x * 262144 + y * 4096 + z * 64 + t) 2048); [lia|].
  destruct (N.ltb_spec (x * 262144 + y * 4096 + z * 64 + t) 65536); [lia|]. repeat f_equal; lia.
Qed.

Lemma decode_encode l r w :
  decode l = Some (r, w) → ∃ l', l = encode r ++ l' ∧ length (encode r) = w ∧ (r < 1114112)%N.
Proof.
  unfold decode, continues, surrogate. destruct l as [|b0 l1]; [done|].
  destruct (b0 <? 128)%N eqn:E1.
  { intros [= <- <-]. exists l1. unfold encode. rewrite E1. split_and!; [done..|lia]. }
  destruct l1 as [|b1 l2]; [done|]. case_match eqn:E2.
  { case_match eqn:E; [|done]. intros [= <- <-]. exists l2. rewrite encode2 by lia.
    split_and!; [|done|lia]. cbn. repeat f_equal; lia. }
  destruct l2 as [|b2 l3]; [done|]. case_match eqn:E3.
  { case_match eqn:E; [|done]. intros [= <- <-]. exists l3. rewrite encode3 by lia.
    split_and!; [|done|lia]. cbn. repeat f_equal; lia. }
  destruct l3 as [|b3 l4]; [done|]. case_match eqn:E4; [|done]. case_match eqn:E; [|done].
  intros [= <- <-]. exists l4. rewrite encode4 by lia. split_and!; [|done|lia]. cbn. repeat f_equal; lia.
Qed.

Lemma hex_digit_unhex n : (n < 16)%N → unhex_digit (hex_digit n) = Some n.
Proof.
  intros Hn. unfold hex_digit, unhex_digit. destruct (N.ltb_spec n 10) as [H|H].
  - case_match eqn:E; [f_equal; lia|lia].
  - case_match eqn:E; [lia|]. case_match eqn:E2; [f_equal; lia|lia].
Qed.

Lemma unhex_hex w n : (n < 16 ^ N.of_nat w)%N → unhex (hex w n) = Some n.
Proof.
  revert n. induction w as [|w IH]; intros n Hn; [cbn in *; f_equal; lia|].
  cbn [hex]. unfold unhex in *. rewrite foldl_app.
  assert (n / 16 < 16 ^ N.of_nat w)%N as Hd.
  { apply N.Div0.div_lt_upper_bound. rewrite Nat2N.inj_succ, N.pow_succ_r' in Hn. lia. }
  rewrite IH by done. cbn. rewrite hex_digit_unhex by (apply N.mod_lt; lia). cbn. f_equal. lia.
Qed.

Section quoting.
Context `{Unicode}.

Definition plain (c : N) : Prop := c ≠ 34%N ∧ c ≠ 92%N.

Lemma prepend_nil r : prepend (Some []) r = r.
Proof. by destruct r as [[]|]. Qed.
Lemma prepend_cons c a r : prepend (Some [c]) (prepend (Some a) r) = prepend (Some (c :: a)) r.
Proof. by destruct r as [[]|]. Qed.

Lemma unquote_plain a rest : Forall plain a → unquote (a ++ rest) = prepend (Some a) (unquote rest).
Proof.
  induction 1 as [|c a [H1 H2] _ IH]; [by rewrite prepend_nil|]. cbn [app unquote].
  rewrite !decide_False by done. by rewrite IH, prepend_cons.
Qed.

Lemma encode_plain r : (128 <= r)%N → Forall plain (encode r).
Proof.
  intros Hr. unfold encode, plain. destruct (N.ltb_spec r 128); [lia|].
  repeat case_match; repeat (apply Forall_cons; split; [lia|]); apply Forall_nil_2.
Qed.
Lemma encode_small r : (r < 128)%N → encode r = [r].
Proof. intros Hr. unfold encode. by destruct (N.ltb_spec r 128); [|lia]. Qed.

Lemma unquote_letter r c rest : letter_of r = Some c → unquote (92%N :: c :: rest) = prepend (Some [r]) (unquote rest).
Proof.
  unfold letter_of. intros Hl. repeat case_decide; simplify_eq; reflexivity.
Qed.
Lemma letter_small r c : letter_of r = Some c → (r < 128)%N.
Proof. unfold letter_of. intros Hl. repeat case_decide; simplify_eq; lia. Qed.

Lemma unquote_hex2 b rest :
  (b < 256)%N → unquote (([92; 120]%N ++ hex 2 b) ++ rest) = prepend (Some [b]) (unquote rest).
Proof.
  intros Hb. pose proof (unhex_hex 2 b) as Hu. cbn [hex app] in *. cbn [unquote]. rewrite decide_False, decide_True by done.
  cbn [unletter]. change (unletter 120) with (@None N). cbn iota. rewrite decide_True by done. rewrite Hu by done. done.
Qed.
Lemma unquote_hex4 r rest :
  (r < 65536)%N → unquote (([92; 117]%N ++ hex 4 r) ++ rest) = prepend (Some (encode r)) (unquote rest).
Proof.
  intros Hb. pose proof (unhex_hex 4 r) as Hu. cbn [hex app] in *. cbn [unquote]. rewrite decide_False, decide_True by done.
  change (unletter 117) with (@None N). cbn iota. rewrite decide_False, decide_True by done. rewrite Hu by done. done.
Qed.
Lemma unquote_hex8 r rest :
  (r < 1114112)%N → unquote (([92; 85]%N ++ hex 8 r) ++ rest) = prepend (Some (encode r)) (unquote rest).
Proof.
  intros Hb. pose proof (unhex_hex 8 r) as Hu. cbn [hex app] in *. cbn [unquote]. rewrite decide_False, decide_True by done.
  change (unletter 85) with (@None N). cbn iota. rewrite !decide_False, decide_True by done. rewrite Hu by (cbn; lia). done.
Qed.

Lemma unquote_escaped r rest :
  (r < 1114112)%N → unquote (appendEscapedRune r ++ rest) = prepend (Some (encode r)) (unquote rest).
Proof.
  intros Hr. unfold appendEscapedRune. case_decide as Hq.
  { destruct Hq as [-> | ->]; reflexivity. }
  unfold IsPrint. destruct (N.ltb_spec r 128) as [Hs|Hs].
  - case_match eqn:Hp.
    { rewrite (encode_small r Hs). apply unquote_plain. repeat constructor; intros ->; tauto. }
    destruct (letter_of r) as [c|] eqn:Hl; [rewrite (encode_small r Hs); by apply unquote_letter|].
    rewrite (encode_small r Hs). case_match eqn:E; [apply unquote_hex2; lia|lia].
  - case_match; [by apply unquote_plain, encode_plain|].
    destruct (letter_of r) as [c|] eqn:Hl; [apply letter_small in Hl; lia|].
    case_match eqn:E; [lia|]. case_match eqn:E2; [apply unquote_hex4; lia|by apply unquote_hex8].
Qed.

Lemma quote_skip a l : quote_from (length a) (a ++ l) = quote_from 0 l.
Proof. induction a as [|c a IH]; [done|exact IH]. Qed.

(** Unquoting a quoted string gives its bytes, whatever they are, and goes on behind it. *)
Lemma unquote_quote l rest : Forall is_byte l → unquote (quote_from 0 l ++ 34%N :: rest) = Some (l, rest).
Proof.
  remember (length l) as n eqn:Hn. revert l Hn. induction (lt_wf n) as [n _ IH]. intros l -> Hl.
  destruct l as [|b l]; [done|]. cbn [quote_from]. destruct (decode (b :: l)) as [[r w]|] eqn:Hd.
  - apply decode_encode in Hd as (l'&Heq&Hw&Hr). rewrite <- app_assoc, unquote_escaped by done.
    assert (∃ a, encode r = b :: a ∧ l = a ++ l') as (a&He&->).
    { destruct (encode r) as [|b' a] eqn:He; [|injection Heq as -> ->; by exists a].
      unfold encode in He. by repeat case_match. }
    rewrite He in Hw |- *. cbn in Hw. replace (w - 1) with (length a) by lia. rewrite quote_skip.
    rewrite (IH (length l')); [done| |done|].
    + cbn. rewrite length_app. lia.
    + apply Forall_cons in Hl as [_ Hl]. by apply Forall_app in Hl as [_ Hl].
  - apply Forall_cons in Hl as [Hb Hl]. rewrite app_assoc, <- app_assoc, unquote_hex2 by done.
    rewrite (IH (length l)); [done|cbn; lia|done|done].
Qed.
End quoting.

(** ** The identity header *)

(** Reading [key="value", ...] back, up to [n] fields. *)
Fixpoint cut_at (c : N) (l : list N) : option (list N * list N) :=
  match l with
  | [] => None
  | b :: l => if decide (b = c) then Some ([], l) else '(x, y) ← cut_at c l; Some (b :: x, y)
  end.
Fixpoint read_fields (n : nat) (l : list N) : option (list (string * string)) :=
  match n with
  | O => None
  | S n =>
      '(name, l) ← cut_at 61 l;
      if decide (head l = Some 34%N) then
        '(value, l) ← unquote (tail l);
        let field := (of_bytes name, of_bytes value) in
        if decide (l = []) then Some [field]
        else if decide (take 2 l = [44; 32]%N) then fields ← read_fields n (drop 2 l); Some (field :: fields)
        else None
      else None
  end.
Definition read_identity (header : string) : option (list (string * string)) :=
  if HasPrefix header "MediaBrowser " then read_fields 5 (bytes (TrimPrefix header "MediaBrowser ")) else None.

(** Bytes a header value may have: no control characters, so no line breaks. *)
Definition header_safe (c : N) : Prop := (32 <= c)%N ∧ (c < 256)%N ∧ c ≠ 127%N.
#[export] Instance header_safe_dec c : Decision (header_safe c).
Proof. unfold header_safe. apply _. Defined.
Ltac safe_literal := apply (bool_decide_unpack _); vm_compute; exact I.

Section header.
Context `{Unicode}.

Lemma bytes_app s t : bytes (s +:+ t) = bytes s ++ bytes t.
Proof. unfold bytes. induction s as [|c s IH]; [done|]. cbn in *. by rewrite IH. Qed.
Lemma of_bytes_bytes s : of_bytes (bytes s) = s.
Proof.
  unfold of_bytes, bytes. induction s as [|c s IH]; [done|]. cbn in *. by rewrite IH, ascii_N_embedding.
Qed.
Lemma bytes_of_bytes l : Forall is_byte l → bytes (of_bytes l) = l.
Proof.
  unfold of_bytes, bytes. induction 1 as [|b l Hb _ IH]; [done|]. cbn in *. by rewrite IH, N_ascii_embedding.
Qed.
Lemma bytes_are s : Forall is_byte (bytes s).
Proof.
  unfold bytes. induction s as [|c s IH]; [constructor|]. cbn. constructor; [|exact IH].
  destruct c as [[] [] [] [] [] [] [] []]; by vm_compute.
Qed.

Lemma hex_digit_safe n : (n < 16)%N → header_safe (hex_digit n).
Proof. intros Hn. unfold hex_digit, header_safe. case_match; lia. Qed.
Lemma hex_safe w n : Forall header_safe (hex w n).
Proof.
  revert n. induction w as [|w IH]; intros n; [constructor|]. cbn [hex]. apply Forall_app. split; [apply IH|].
  apply Forall_singleton, hex_digit_safe, N.mod_lt. lia.
Qed.
Lemma escaped_safe r : (r < 1114112)%N → Forall header_safe (appendEscapedRune r).
Proof.
  intros Hr. unfold appendEscapedRune.
  assert (header_safe 92 ∧ header_safe 120 ∧ header_safe 117 ∧ header_safe 85) as (Hb&Hx&Hu&HU)
    by (unfold header_safe; lia).
  case_decide as Hq; [destruct Hq as [-> | ->]; repeat constructor; unfold header_safe; lia|].
  unfold IsPrint. destruct (N.ltb_spec r 128) as [Hs|Hs].
  - case_match eqn:Hp; [rewrite (encode_small r Hs); repeat constructor; lia|].
    destruct (letter_of r) as [c|] eqn:Hl.
    { unfold letter_of in Hl. repeat case_decide; simplify_eq; repeat constructor; unfold header_safe; lia. }
    case_match; [|case_match]; apply Forall_app; (split; [by repeat constructor|apply hex_safe]).
  - case_match.
    + unfold encode, header_safe. destruct (N.ltb_spec r 128); [lia|].
      repeat case_match; repeat (apply Forall_cons; split; [lia|]); apply Forall_nil_2.
    + destruct (letter_of r) as [c|] eqn:Hl; [apply letter_small in Hl; lia|].
      case_match; [|case_match]; apply Forall_app; (split; [by repeat constructor|apply hex_safe]).
Qed.
Lemma quote_from_safe skip l : Forall header_safe (quote_from skip l).
Proof.
  revert skip. induction l as [|b l IH]; intros skip; [by destruct skip|]. destruct skip as [|k]; [|apply IH].
  cbn [quote_from]. destruct (decode (b :: l)) as [[r w]|] eqn:Hd.
  - apply decode_encode in Hd as (l'&_&_&Hr). apply Forall_app. split; [by apply escaped_safe|apply IH].
  - rewrite app_assoc. apply Forall_app. split; [|apply IH]. apply Forall_app. split; [|apply hex_safe].
    repeat constructor; unfold header_safe; lia.
Qed.
Lemma Quote_bytes s : bytes (Quote s) = 34%N :: quote_from 0 (bytes s) ++ [34%N].
Proof.
  unfold Quote. apply bytes_of_bytes. apply Forall_cons. split; [by vm_compute|]. apply Forall_app.
  split; [|by repeat constructor]. eapply Forall_impl; [apply quote_from_safe|]. by intros c (_&?&_).
Qed.
Lemma Quote_safe s : Forall header_safe (bytes (Quote s)).
Proof.
  rewrite Quote_bytes. apply Forall_cons. split; [unfold header_safe; lia|]. apply Forall_app.
  split; [apply quote_from_safe|]. repeat constructor; unfold header_safe; lia.
Qed.

Definition field_text (f : string * string) : string := f.1 +:+ "=" +:+ Quote f.2.

Lemma cut_at_app c a l : c ∉ a → cut_at c (a ++ c :: l) = Some (a, l).
Proof.
  intros Hc. induction a as [|b a IH]; cbn; [by rewrite decide_True|].
  rewrite not_elem_of_cons in Hc. destruct Hc as [Hbc Ha]. rewrite decide_False by congruence. by rewrite IH.
Qed.

Lemma read_fields_join fs n :
  fs ≠ [] → length fs ≤ n → Forall (λ f, 61%N ∉ bytes f.1) fs →
  read_fields n (bytes (Join (field_text <$> fs) ", ")) = Some fs.
Proof.
  revert n. induction fs as [|[k v] fs IH]; intros n Hne Hn Hk; [done|]. apply Forall_cons in Hk as [Hk Hks].
  destruct n as [|n]; [cbn in Hn; lia|].
  assert (∀ rest, read_fields (S n) (bytes (field_text (k, v)) ++ rest) =
    if decide (rest = []) then Some [(k, v)]
    else if decide (take 2 rest = [44; 32]%N) then fields ← read_fields n (drop 2 rest); Some ((k, v) :: fields)
    else None) as Hfield.
  { intros rest. unfold field_text. cbn [fst snd]. rewrite !bytes_app, Quote_bytes. cbn [read_fields].
    change (bytes "=") with [61%N]. rewrite <- !app_assoc. cbn [app]. rewrite cut_at_app by done.
    cbn [mbind option_bind head tail]. rewrite decide_True, <- app_assoc by done. cbn [app].
    rewrite unquote_quote by apply bytes_are. cbn [mbind option_bind]. by rewrite !of_bytes_bytes. }
  destruct fs as [|f fs]; cbn [fmap list_fmap Join].
  - rewrite <- (app_nil_r (bytes _)). rewrite Hfield. by rewrite decide_True.
  - change (list_fmap _ _ field_text fs) with (field_text <$> fs). rewrite !bytes_app. rewrite Hfield.
    change (bytes ", ") with [44; 32]%N. rewrite decide_False by done. rewrite decide_True by done.
    cbn [app drop]. rewrite IH; [done|done|cbn in *; lia|done].
Qed.

(** What the header says: who asks, and with which token. *)
Definition identity (c : Client) : list (string * string) :=
  [("Client", cl_clientName c); ("Device", cl_device c); ("DeviceId", cl_deviceID c); ("Version", cl_version c)] ++
  (if decide (cl_token c = "") then [] else [("Token", cl_token c)]).

Lemma authHeader_fields c : authHeader Quote c = "MediaBrowser " +:+ Join (field_text <$> identity c) ", ".
Proof. unfold authHeader, identity. cbv zeta. by case_decide. Qed.

Lemma authHeader_read c : read_identity (authHeader Quote c) = Some (identity c).
Proof.
  unfold read_identity. rewrite authHeader_fields, HasPrefix_app, TrimPrefix_app. apply read_fields_join.
  - done.
  - unfold identity. case_decide; cbn; lia.
  - unfold identity. apply Forall_app. split; [|case_decide]; repeat constructor; cbn; set_solver.
Qed.

Lemma Join_safe l : Forall (λ s, Forall header_safe (bytes s)) l → Forall header_safe (bytes (Join l ", ")).
Proof.
  induction 1 as [|s l Hs Hl IH]; [constructor|]. destruct l as [|t l]; [done|]. rewrite Join_cons, !bytes_app.
  apply Forall_app. split; [done|]. apply Forall_app. split; [safe_literal|done].
Qed.
Lemma authHeader_safe c : Forall header_safe (bytes (authHeader Quote c)).
Proof.
  rewrite authHeader_fields, bytes_app. apply Forall_app. split; [safe_literal|].
  apply Join_safe, Forall_fmap, Forall_forall. intros [k v] Hin.
  change (Forall header_safe (bytes (k +:+ "=" +:+ Quote v))). rewrite !bytes_app.
  apply Forall_app. split; [|apply Forall_app; split; [safe_literal|apply Quote_safe]].
  unfold identity in Hin. apply elem_of_app in Hin as [Hin|Hin]; [|case_decide];
    rewrite ?elem_of_cons, ?elem_of_nil in Hin; destruct_or? Hin; simplify_eq; safe_literal.
Qed.
End header.

(** ** The query *)

(** [url.QueryEscape] *)
Definition unreserved (c : ascii) : bool :=
  is_alnum c || is_upper c || Ascii.eqb c "-" || Ascii.eqb c "_" || Ascii.eqb c "." || Ascii.eqb c "~".
Definition upper_hex (n : N) : ascii := ascii_of_N (if (n <? 10)%N then 48 + n else 55 + n).
Definition escape_byte (c : ascii) : string :=
  if unreserved c then String c ""
  else if Ascii.eqb c " " then "+"
  else String "%" (String (upper_hex (N_of_ascii c / 16)) (String (upper_hex (N_of_ascii c mod 16)) "")).
Fixpoint QueryEscape (s : string) : string :=
  match s with "" => "" | String c s => escape_byte c +:+ QueryEscape s end.

(** [url.QueryUnescape] *)
Fixpoint QueryUnescape (s : string) : option string :=
  match s with
  | "" => Some ""
  | String c s1 =>
      if Ascii.eqb c "%" then
        match s1 with
        | String h (String l s2) =>
            x ← unhex_digit (N_of_ascii h); y ← unhex_digit (N_of_ascii l);
            String (ascii_of_N (x * 16 + y)) <$> QueryUnescape s2
        | _ => None
        end
      else String (if Ascii.eqb c "+" then " " else c) <$> QueryUnescape s1
  end.

(** [url.Values.Encode] *)
Definition encode_pair (k x : string) : string := QueryEscape k +:+ "=" +:+ QueryEscape x.
Definition query_pairs (q : Values) : list (string * string) :=
  sort_by fst (map_to_list q) ≫= λ kv, pair kv.1 <$> kv.2.
Definition Encode (q : Values) : string := Join ((λ kv, encode_pair kv.1 kv.2) <$> query_pairs q) "&".

(** [url.ParseQuery]; an error of a part makes the whole an error. *)
Definition Cut (c : ascii) (s : string) : string * string :=
  match Index c s with Some i => (take_s i s, drop_s (S i) s) | None => (s, "") end.
Definition add_value (q : Values) (kx : string * string) : Values :=
  <[kx.1 := default [] (q !! kx.1) ++ [kx.2]]> q.
Definition parse_pair (part : string) : option (string * string) :=
  if no_byte ";" part then
    k ← QueryUnescape (Cut "=" part).1; x ← QueryUnescape (Cut "=" part).2; Some (k, x)
  else None.
Definition ParseQuery (s : string) : option Values :=
  pairs ← mapM parse_pair (filter (λ part, part ≠ "") (Split "&" s));
  Some (foldl add_value ∅ pairs).

Lemma escape_byte_good :
  ∀ c, no_byte "&" (escape_byte c) && no_byte "=" (escape_byte c) && no_byte ";" (escape_byte c) = true.
Proof. apply all_ascii_forall. by vm_compute. Qed.

Lemma QueryEscape_good s :
  no_byte "&" (QueryEscape s) = true ∧ no_byte "=" (QueryEscape s) = true ∧ no_byte ";" (QueryEscape s) = true.
Proof.
  induction s as [|c s (H1&H2&H3)]; [done|]. cbn [QueryEscape]. rewrite !no_byte_app, H1, H2, H3, !andb_true_r.
  pose proof (escape_byte_good c) as Hc. rewrite !andb_true_iff in Hc. tauto.
Qed.

Lemma unescape_byte s : ∀ c, QueryUnescape (escape_byte c +:+ s) = String c <$> QueryUnescape s.
Proof. intros [[] [] [] [] [] [] [] []]; reflexivity. Qed.

Lemma QueryUnescape_escape s : QueryUnescape (QueryEscape s) = Some s.
Proof. induction s as [|c s IH]; [done|]. cbn [QueryEscape]. by rewrite unescape_byte, IH. Qed.

Lemma parse_encode_pair k x : parse_pair (encode_pair k x) = Some (k, x).
Proof.
  destruct (QueryEscape_good k) as (_&Hk&Hk'), (QueryEscape_good x) as (_&_&Hx'). unfold parse_pair, encode_pair.
  rewrite !no_byte_app, Hk', Hx'. change (no_byte ";" "=") with true. cbn [andb].
  unfold Cut. change ("=" +:+ QueryEscape x) with (String "=" (QueryEscape x)). rewrite Index_app by done.
  rewrite drop_s_after, take_s_app. cbn [fst snd]. by rewrite !QueryUnescape_escape.
Qed.

(** Collecting the pairs again. *)
Lemma add_values_lookup pairs q k :
  foldl add_value q pairs !! k =
    let xs := snd <$> filter (λ kx, kx.1 = k) pairs in
    if decide (xs = []) then q !! k else Some (default [] (q !! k) ++ xs).
Proof.
  revert q. induction pairs as [|[k' x] pairs IH]; intros q; [done|]. cbn [foldl]. rewrite IH. cbv zeta.
  rewrite filter_cons. cbn [fst]. unfold add_value. cbn [fst snd]. destruct (decide (k' = k)) as [->|Hne].
  - rewrite lookup_insert_eq. cbn [fmap list_fmap default from_option]. unfold id.
    rewrite (decide_False (P := _ :: _ = [])) by done.
    case_decide as Hnil; [by rewrite Hnil|by rewrite <- app_assoc].
  - by rewrite lookup_insert_ne.
Qed.

Lemma pairs_of_absent (l : list (string * list string)) k :
  k ∉ l.*1 → filter (λ kx : string * string, kx.1 = k) (l ≫= λ kv, pair kv.1 <$> kv.2) = [].
Proof.
  intros Hk. apply filter_nil. intros [k' x] Hin. apply list_elem_of_bind in Hin as ([k2 xs]&Hx&Hin).
  apply list_elem_of_fmap in Hx as (x'&[= -> ->]&_). cbn. intros ->. apply Hk, list_elem_of_fmap. by exists (k, xs).
Qed.

Lemma pairs_of_key (l : list (string * list string)) k xs :
  NoDup l.*1 → (k, xs) ∈ l → snd <$> filter (λ kx : string * string, kx.1 = k) (l ≫= λ kv, pair kv.1 <$> kv.2) = xs.
Proof.
  induction l as [|[k' ys] l IH]; intros Hnd Hin; [by apply elem_of_nil in Hin|].
  apply NoDup_cons in Hnd as [Hk Hnd]. rewrite bind_cons, filter_app, fmap_app. cbn [fst snd].
  apply elem_of_cons in Hin as [[= <- <-]|Hin].
  - rewrite pairs_of_absent, app_nil_r by done. rewrite filter_all.
    + rewrite <- list_fmap_compose. apply list_fmap_id.
    + intros kx (x&->&_)%list_elem_of_fmap. done.
  - rewrite IH by done. rewrite filter_nil; [done|]. intros kx (x&->&_)%list_elem_of_fmap. cbn. intros ->.
    apply Hk, list_elem_of_fmap. by exists (k, xs).
Qed.

Lemma query_pairs_of (q : Values) k : snd <$> filter (λ kx, kx.1 = k) (query_pairs q) = default [] (q !! k).
Proof.
  unfold query_pairs. set (l := sort_by fst (map_to_list q)).
  assert (NoDup l.*1) as Hnd by (unfold l; rewrite sort_by_Permutation; apply NoDup_fst_map_to_list).
  assert (∀ k xs, (k, xs) ∈ l ↔ q !! k = Some xs) as Hl
    by (intros k' xs; unfold l; rewrite elem_of_sort_by; apply elem_of_map_to_list).
  destruct (q !! k) as [xs|] eqn:Hq; [by apply pairs_of_key, Hl|]. rewrite pairs_of_absent; [done|].
  intros ([k' xs]&->&Hin)%list_elem_of_fmap. apply Hl in Hin. cbn in Hq. congruence.
Qed.

Lemma ParseQuery_Encode (q : Values) : ParseQuery (Encode q) = Some (filter (λ kv, kv.2 ≠ []) q).
Proof.
  unfold ParseQuery, Encode. set (texts := (λ kv, encode_pair kv.1 kv.2) <$> query_pairs q).
  assert (filter (λ part, part ≠ "") (Split "&" (Join texts "&")) = texts) as Hsplit.
  { destruct (decide (texts = [])) as [->|Hne]; [done|]. rewrite Split_Join; [|done|].
    - apply filter_all. intros part ([k x]&->&_)%list_elem_of_fmap. unfold encode_pair. cbn. by destruct (QueryEscape k).
    - apply Forall_fmap, Forall_forall. intros [k x] _.
      change (no_byte "&" (encode_pair k x) = true). unfold encode_pair. rewrite !no_byte_app.
      destruct (QueryEscape_good k) as (->&_&_), (QueryEscape_good x) as (->&_&_). done. }
  rewrite Hsplit. assert (mapM parse_pair texts = Some (query_pairs q)) as ->.
  { apply mapM_fmap_Some. intros [k x]. apply parse_encode_pair. }
  cbn [mbind option_bind]. f_equal. apply map_eq. intros k. rewrite add_values_lookup, query_pairs_of. cbv zeta.
  rewrite lookup_empty. case_decide as Hnil.
  - symmetry. apply map_lookup_filter_None. destruct (q !! k) as [xs|] eqn:Hq; [right|by left].
    intros xs' [= <-]. cbn in *. by intros [].
  - symmetry. apply map_lookup_filter_Some. destruct (q !! k) as [xs|]; done.
Qed.

(** ** The request *)

(** C36: whatever bytes names, paths and tokens hold, nobody can write into a request. The identity
    header reads back as the client's name, device, device id, version and token, and has
    no control characters, so no line of its own; the query reads back as the very values
    the operation set. *)
Theorem request_read_back `{Unicode} c method path query body :
  let r := request Quote c method path query body in
  (∃ header, ("Authorization", header) ∈ rq_Header r ∧ read_identity header = Some (identity c) ∧
     Forall header_safe (bytes header)) ∧
  ParseQuery (Encode (u_Query (rq_URL r))) = Some (filter (λ kv, kv.2 ≠ []) (default (u_Query (cl_base c)) query)).
Proof.
  intros r. split; [|apply ParseQuery_Encode]. exists (authHeader Quote c). split_and!.
  - unfold r, request. cbn [rq_Header]. destruct body; by left.
  - apply authHeader_read.
  - apply authHeader_safe.
Qed.
