(* ===== verification/Bindings.v ===== *)
(** * Which plugins belong to which instance, conditions and status writes
    (internal/controller/bindings.go, conditions.go, statusupdate.go) *)
From S2P Require Import Prelude K8s ApiTypes Builder Kube.

(** ** conditions.go *)
Definition conditionReady : string := "Ready".
Definition conditionPluginsLoaded : string := "PluginsLoaded".
Definition conditionAPIReady : string := "APIReady".
Definition conditionLibrariesReady : string := "LibrariesReady".
Definition conditionTranscodingReady : string := "TranscodingReady".
Definition conditionServerConfigReady : string := "ServerConfigReady".
Definition conditionBrandingReady : string := "BrandingReady".
Definition conditionABICompatible : string := "ABICompatible".
Definition conditionInjected : string := "Injected".
Definition conditionInstalled : string := "Installed".
Definition conditionWorkersAvailable : string := "WorkersAvailable".
Definition pluginFinalizer : string := "jellyfin.jellyops.io/plugin-teardown".

Record ReconcileRequest := mkReq { req_Namespace : string; req_Name : string }.

Section bindings.
Context `{KubeLib}.

Definition setCondition (conds : list Condition) (condType status reason msg : string) (gen : Z)
    : list Condition :=
  SetStatusCondition conds (mkCondition condType status reason msg gen).

(** ** bindings.go *)
Definition selector_binds (sel : LabelSelector) (p : JellyfinPlugin) : bool :=
  match LabelSelectorAsSelector sel with
  | None => false
  | Some matches => matches (om_Labels (p_Meta p))
  end.

Definition pluginBinds (jf : Jellyfin) (p : JellyfinPlugin) : bool :=
  if decide (p_Namespace p ≠ jf_Namespace jf) then false
  else if decide (pls_JellyfinRef (p_Spec p) = Some (jf_Name jf)) then true
  else match js_PluginSelector (jf_Spec jf) with
       | Some sel => selector_binds sel p
       | None => false
       end.

Definition bound_of (jf : Jellyfin) (items : list JellyfinPlugin) : list JellyfinPlugin :=
  sort_by p_Name (filter (λ p, pluginBinds jf p = true) items).

Definition BoundPlugins (jf : Jellyfin) : M (list JellyfinPlugin) :=
  items ←! api (ListPlugins (jf_Namespace jf));
  ok (bound_of jf items).

(** Explicitly incompatible: the condition is present and false. *)
Definition abi_rejected (p : JellyfinPlugin) : bool :=
  match FindStatusCondition (pst_Conditions (p_Status p)) conditionABICompatible with
  | Some c => bool_decide (cond_Status c = ConditionFalse)
  | None => false
  end.

Definition HealthyPlugins (plugins : list JellyfinPlugin) : list JellyfinPlugin :=
  filter (λ p, pst_Phase (p_Status p) ≠ PluginPhaseFailed ∧ abi_rejected p = false) plugins.

Definition instances_of (p : JellyfinPlugin) (items : list Jellyfin) : list string :=
  jf_Name <$> filter (λ jf, pluginBinds jf p = true) items.

Definition InstancesForPlugin (p : JellyfinPlugin) : M (list string) :=
  items ←! api (ListJellyfins (p_Namespace p));
  ok (instances_of p items).

(** The watch mappers; a failed list enqueues nothing. *)
Definition mapPluginToInstances (p : JellyfinPlugin) : prog (list ReconcileRequest) :=
  r ← InstancesForPlugin p;
  Ret (match r with
       | Ok names => mkReq (p_Namespace p) <$> names
       | Err _ => []
       end).

Definition mapInstanceToPlugins (jf : Jellyfin) : prog (list ReconcileRequest) :=
  r ← BoundPlugins jf;
  Ret (match r with
       | Ok bound => (λ p, mkReq (p_Namespace p) (p_Name p)) <$> bound
       | Err _ => []
       end).

(** ** statusupdate.go *)
Definition with_status (jf : Jellyfin) (s : JellyfinStatus) : Jellyfin :=
  mkJellyfin (jf_Meta jf) (jf_Spec jf) s.

Definition writeJellyfinStatus `{RetryLib} (jf : Jellyfin) : M unit :=
  let desired := jf_Status jf in
  RetryOnConflict
    (cur ←! api (GetJellyfin (jf_Namespace jf) (jf_Name jf));
     _ ←! api (StatusUpdateJellyfin (with_status cur desired));
     ok tt).
End bindings.

(** ** Lemmas *)
Section binding_lemmas.
Context `{KubeLib}.
Implicit Types (jf : Jellyfin) (p : JellyfinPlugin).

Lemma elem_of_bound_of jf items p : p ∈ bound_of jf items ↔ p ∈ items ∧ pluginBinds jf p = true.
Proof. unfold bound_of. rewrite elem_of_sort_by, list_elem_of_filter. tauto. Qed.

Lemma elem_of_instances_of p items n :
  n ∈ instances_of p items ↔ ∃ jf, jf ∈ items ∧ pluginBinds jf p = true ∧ n = jf_Name jf.
Proof.
  unfold instances_of. rewrite list_elem_of_fmap. split.
  - intros (jf&->&[? ?]%list_elem_of_filter). eauto.
  - intros (jf&?&?&->). exists jf. by rewrite list_elem_of_filter.
Qed.

Lemma pluginBinds_same_namespace jf p : pluginBinds jf p = true → p_Namespace p = jf_Namespace jf.
Proof. unfold pluginBinds. case_decide as Hns; [done|]. by destruct (decide (p_Namespace p = jf_Namespace jf)). Qed.

Lemma find_setCondition conds t t' s r m g :
  FindStatusCondition (setCondition conds t s r m g) t' =
    if decide (t' = t) then Some (mkCondition t s r m g) else FindStatusCondition conds t'.
Proof.
  unfold setCondition. case_decide as Ht; [subst; apply (find_set_same _ (mkCondition t s r m g))|].
  by apply find_set_other.
Qed.
End binding_lemmas.

(** ** The component's contract *)

(** the two directions of the binding agree. Over one snapshot of a namespace,
    with instances of distinct names, a plugin is among those composed into an
    instance exactly when that instance is among those its change re-reconciles;
    and both only relate objects of the same namespace. *)
Theorem bindings_agree `{KubeLib} (jfs : list Jellyfin) (ps : list JellyfinPlugin) jf p :
  NoDup (jf_Name <$> jfs) → jf ∈ jfs → p ∈ ps →
  (p ∈ bound_of jf ps ↔ jf_Name jf ∈ instances_of p jfs) ∧
  (p ∈ bound_of jf ps → p_Namespace p = jf_Namespace jf).
Proof.
  intros Hnd Hjf Hp. rewrite elem_of_bound_of, elem_of_instances_of. split; [split|].
  - intros [_ Hb]. eauto.
  - intros (jf'&Hjf'&Hb&Hn). by rewrite (NoDup_fmap_inj_on _ _ _ _ Hnd Hjf Hjf' Hn).
  - intros [_ Hb]. by apply pluginBinds_same_namespace.
Qed.

(** what enters the pod template. From the plugins bound to an instance the
    healthy ones are kept, in name order: those not failed and not marked ABI
    incompatible; a plugin without status is admitted. *)
Theorem HealthyPlugins_spec `{KubeLib} jf items :
  let healthy := HealthyPlugins (bound_of jf items) in
  StronglySorted (λ p q, String.le (p_Name p) (p_Name q)) healthy ∧
  (∀ p, p ∈ healthy ↔ p ∈ items ∧ pluginBinds jf p = true ∧
     pst_Phase (p_Status p) ≠ PluginPhaseFailed ∧
     ∀ c, FindStatusCondition (pst_Conditions (p_Status p)) conditionABICompatible = Some c →
       cond_Status c ≠ ConditionFalse).
Proof.
  cbv zeta. split.
  - apply StronglySorted_filter, sort_by_sorted.
  - intros p. unfold HealthyPlugins. rewrite list_elem_of_filter, elem_of_bound_of.
    unfold abi_rejected. destruct (FindStatusCondition _ _) as [c|].
    + rewrite bool_decide_eq_false. split; [|naive_solver]. intros [[? ?] [? ?]]. split_and!; try done.
      by intros ? [= <-].
    + naive_solver.
Qed.

(** The calls of a status write and what each may send. *)
Definition status_write_inv (jf : Jellyfin) : call_inv := λ R tr c,
  match c with
  | StatusUpdateJellyfin jf' =>
      ∃ cur tr', tr = tr' ++ [Ev (GetJellyfin (jf_Namespace jf) (jf_Name jf)) (Ok cur)] ∧
        jf_Meta jf' = jf_Meta cur ∧ jf_Spec jf' = jf_Spec cur ∧ jf_Status jf' = jf_Status jf
  | GetJellyfin ns n => ns = jf_Namespace jf ∧ n = jf_Name jf
  | _ => False
  end.

Lemma writeJellyfinStatus_always `{KubeLib, RetryLib} jf tr :
  always (status_write_inv jf)
    (post (λ tr' _, ∃ jf' r tr'', tr' = tr'' ++ [Ev (StatusUpdateJellyfin jf') (Ok r)] ∧
             jf_Status jf' = jf_Status jf) (λ _ _, True)) tr (writeJellyfinStatus jf).
Proof.
  unfold writeJellyfinStatus. destruct retry_on_conflict as [n ->].
  apply (always_attempts _ (λ _, True)); [|done]. clear tr. intros tr _.
  apply always_try, always_api; [done| |done]. intros cur.
  apply always_try, always_api; [by exists cur, tr| |done].
  intros r. cbn. by exists (with_status cur (jf_Status jf)), r, (tr ++ [Ev (GetJellyfin (jf_Namespace jf) (jf_Name jf)) (Ok cur)]).
Qed.

(** a status write. Whatever the server answers, every status update sends the
    status computed earlier, whole, on top of the object read just before it: the
    metadata and spec are the server's, and so no field of a status written in
    between survives. A write that succeeds has stored that status. *)
Theorem writeJellyfinStatus_writes `{KubeLib, RetryLib} jf tr :
  always (status_write_inv jf)
    (post (λ tr' _, ∃ jf' r tr'', tr' = tr'' ++ [Ev (StatusUpdateJellyfin jf') (Ok r)] ∧
             jf_Status jf' = jf_Status jf) (λ _ _, True)) tr (writeJellyfinStatus jf).
Proof. apply writeJellyfinStatus_always. Qed.

(** ** Concrete bindings *)
Module Example_bindings.
Definition spec (sel : option LabelSelector) : JellyfinSpec :=
  mkJellyfinSpec "" None Example_builder.storage (mkServiceSpec "" 0 ∅) None None None
    ResourceRequirements_zero None None None None None None None sel ∅ [].
Definition instance (name : string) (sel : option LabelSelector) : Jellyfin :=
  mkJellyfin (meta_lit name "media" ∅ ∅) (spec sel) (jf_Status Example_builder.jf).
Definition home : Jellyfin := instance "home" None.
Definition lab : Jellyfin := instance "lab" (Some (mkSelector {[ "tier" := "anime" ]} [])).
Definition plugin (conds : list Condition) : JellyfinPlugin :=
  mkPlugin (meta_lit "shoko" "media" {[ "tier" := "anime" ]} ∅)
    (mkPluginSpec (Some "home") (mkImageSrc "reg/p:1" "" "") (mkPluginMeta "" "Shoko" "1.0" "" "") "" None [] [])
    (mkPluginStatus "" 0 false false false "" 0 conds).
Definition rejected : JellyfinPlugin :=
  plugin [mkCondition conditionABICompatible ConditionFalse "ABIMismatch" "" 1].
(** A server that holds one instance and never fails. *)
Definition answer (R : Type) (c : call R) : Jellyfin → R * Jellyfin :=
  match c in call R return Jellyfin → R * Jellyfin with
  | GetJellyfin _ _ => λ jf, (Ok jf, jf)
  | StatusUpdateJellyfin jf' => λ jf, (Ok (with_status jf (jf_Status jf')), with_status jf (jf_Status jf'))
  | GetPlugin _ _ | GetDeployment _ _ | GetPersistentVolume _ | ListJellyfins _ | ListPlugins _
  | ListDeployments _ _ | UpdatePlugin _ | UpdateDeployment _ | StatusUpdatePlugin _
  | DeleteDeployment _ _ | DeleteService _ _ | DeleteIngress _ _ | DeleteHTTPRoute _ _
  | DeletePersistentVolume _ | PatchPVC _ _ | GetSecret _ _ => λ jf, (Err NotFound, jf)
  | UpsertDeployment _ _ _ | UpsertService _ _ _ | UpsertIngress _ _ _ | UpsertHTTPRoute _ _ _
  | UpsertPVC _ _ _ | UpsertPersistentVolume _ _ | UpsertSecret _ _ _ => λ jf, (Err (Api NotFound), jf)
  | Http _ => λ jf, (Err "no server", jf)
  | RandRead _ => λ jf, (None, jf)
  end.
Definition one_instance : server := mkServer Jellyfin answer.
End Example_bindings.

Lemma bindings_agree_witness :
  Example_bindings.plugin [] ∈ bound_of Example_bindings.lab [Example_bindings.plugin []].
Proof.
  apply (bindings_agree [Example_bindings.home; Example_bindings.lab] [Example_bindings.plugin []]).
  - by apply (bool_decide_unpack _); vm_compute.
  - by right; left.
  - by left.
  - vm_compute. by right; left.
Defined.

Lemma HealthyPlugins_spec_witness :
  Example_bindings.rejected ∉ HealthyPlugins (bound_of Example_bindings.home [Example_bindings.rejected]).
Proof.
  intros Hin.
  destruct (HealthyPlugins_spec Example_bindings.home [Example_bindings.rejected]) as [_ H].
  apply H in Hin as (_&_&_&Hc). by apply (Hc _ eq_refl).
Defined.

Lemma writeJellyfinStatus_writes_witness :
  status_write_inv Example_bindings.home _
    [Ev (GetJellyfin "media" "home") (Ok Example_bindings.lab)]
    (StatusUpdateJellyfin (with_status Example_bindings.lab (jf_Status Example_bindings.home))).
Proof.
  pose proof (writeJellyfinStatus_writes Example_bindings.home []) as [_ H].
  specialize (H (Ok Example_bindings.lab)). cbn in H. by destruct H.
Defined.

(** Two controllers that computed their statuses from the same read: the one that
    writes last discards what the other wrote, although both writes succeed. *)
Lemma status_updates_are_lost s1 s2 jf :
  let '(r1, _, w1) := run Example_bindings.one_instance jf [] (writeJellyfinStatus (with_status jf s1)) in
  let '(r2, _, w2) := run Example_bindings.one_instance w1 [] (writeJellyfinStatus (with_status jf s2)) in
  r1 = Ok tt ∧ r2 = Ok tt ∧ jf_Status w2 = s2.
Proof. done. Qed.

(** A plugin that names one instance and matches another's selector is composed
    into both pods. *)
Lemma plugin_can_bind_twice :
  pluginBinds Example_bindings.home (Example_bindings.plugin []) = true ∧
  pluginBinds Example_bindings.lab (Example_bindings.plugin []) = true.
Proof. by vm_compute. Qed.
