(* ===== verification/PluginController.v ===== *)
(** * The plugin controller (internal/controller/jellyfinplugin_controller.go)

    Reconciling one JellyfinPlugin: the finalizer, the ABI gate, its companion
    workloads and services, its status, and the drain before it goes away. *)
From S2P Require Import Prelude GoStrings K8s ApiTypes Naming Meta Builder Web Workloads Kube Bindings.

(** [ctrl.Result]; the delay is in seconds. *)
Record Result := mkResult { RequeueAfter : Z }.
Definition Result_zero : Result := mkResult 0.
Definition drainRequeueInterval : Z := 5.

Definition set_p_Meta (m : ObjectMeta) (p : JellyfinPlugin) : JellyfinPlugin := mkPlugin m (p_Spec p) (p_Status p).
Definition set_p_Status (s : JellyfinPluginStatus) (p : JellyfinPlugin) : JellyfinPlugin :=
  mkPlugin (p_Meta p) (p_Spec p) s.
Definition set_dep_Replicas (n : Z) (d : Deployment) : Deployment :=
  mkDeployment (dep_Meta d) (Some n) (dep_Selector d) (dep_Strategy d) (dep_Template d) (dep_Status d).

Section controller.
Context `{KubeLib}.
(** The [%q] verb, used in error messages only. *)
Context (quote : string → string).

(** ** Resolution and validation *)
Definition boundInstance (p : JellyfinPlugin) : prog (option Jellyfin) :=
  match pls_JellyfinRef (p_Spec p) with
  | Some name =>
      if decide (name ≠ "") then
        r ← ask (GetJellyfin (p_Namespace p) name);
        Ret (match r with Ok jf => Some jf | Err _ => None end)
      else
        r ← ask (ListJellyfins (p_Namespace p));
        Ret (match r with Ok items => find (λ jf, pluginBinds jf p) items | Err _ => None end)
  | None =>
      r ← ask (ListJellyfins (p_Namespace p));
      Ret (match r with Ok items => find (λ jf, pluginBinds jf p) items | Err _ => None end)
  end.

Fixpoint error_text (e : MetaError) : string :=
  match e with
  | EmptyVersion => "empty version"
  | TooManyComponents v => "version " +:+ quote v +:+ " has more than 4 components"
  | InvalidComponent v c => "version " +:+ quote v +:+ ": invalid component " +:+ quote c
  | NegativeComponent v => "version " +:+ quote v +:+ ": negative component"
  | TargetABIError e => "targetAbi: " +:+ error_text e
  | ServerVersionError e => "server version: " +:+ error_text e
  end.

Definition server_version (jf : Jellyfin) : string :=
  or_default DefaultServerVersion (ServerVersionFromImage (js_Image (jf_Spec jf))).

Definition validateABI (p : JellyfinPlugin) (jf : option Jellyfin) : bool * string * string :=
  let target := pm_TargetABI (pls_Meta (p_Spec p)) in
  if decide (target = "") then (true, "NoTargetABI", "No targetAbi declared; ABI check skipped")
  else match jf with
  | None => (false, "InstanceNotFound", "Bound Jellyfin instance not found")
  | Some jf =>
      let server := server_version jf in
      match ABICompatible target server with
      | Err e => (false, "ABIParseError", error_text e)
      | Ok false => (false, "ABIMismatch",
                     "plugin targetAbi " +:+ target +:+ " exceeds server version " +:+ server)
      | Ok true => (true, "ABICompatible",
                    "targetAbi " +:+ target +:+ " compatible with server " +:+ server)
      end
  end.

(** ** Owned objects *)
Definition own (kind : string) (owner m : ObjectMeta) : result Error ObjectMeta :=
  match SetControllerReference kind owner m with Some m => Ok m | None => Err AlreadyOwned end.

(** The mutation of a workload's Deployment: [dep] over the current object. *)
Definition workload_mutation (p : JellyfinPlugin) (dep obj : Deployment) : result Error Deployment :=
  let meta := set_om_Labels (om_Labels (dep_Meta dep)) (dep_Meta obj) in
  let selector := match om_CreationTimestamp (dep_Meta obj) with
                  | None => dep_Selector dep
                  | Some _ => dep_Selector obj
                  end in
  meta ← own "JellyfinPlugin" (p_Meta p) meta;
  Ok (mkDeployment meta (dep_Replicas dep) selector (dep_Strategy obj) (dep_Template dep) (dep_Status obj)).

Definition stale_workload (desired : gset string) (dep : Deployment) : bool :=
  if decide (om_Labels (dep_Meta dep) !! ManagedByLabel = Some ManagedByValue) then
    match om_Labels (dep_Meta dep) !! WorkloadLabel with
    | Some name => bool_decide (name ∉ desired)
    | None => false
    end
  else false.

Definition pruneWorkloads (p : JellyfinPlugin) (desired : gset string) : M unit :=
  deps ←! api (ListDeployments (p_Namespace p) {[ PluginLabel := p_Name p ]});
  for_each (λ dep,
    if stale_workload desired dep then
      delete_if_present (DeleteDeployment (om_Namespace (dep_Meta dep)) (om_Name (dep_Meta dep)))
    else ok tt) deps.

Definition reconcileWorkload (p : JellyfinPlugin) (jf : option Jellyfin) (w : PluginWorkload) : M unit :=
  let dep := BuildWorkloadDeployment jf p w in
  _ ←! ask (UpsertDeployment (om_Namespace (dep_Meta dep)) (om_Name (dep_Meta dep))
              (workload_mutation p dep));
  ok tt.

Definition desired_workloads (p : JellyfinPlugin) : gset string :=
  toSet (wl_Name <$> pls_Workloads (p_Spec p)).

Definition reconcileWorkloads (p : JellyfinPlugin) (jf : option Jellyfin) : M unit :=
  _ ←! for_each (reconcileWorkload p jf) (pls_Workloads (p_Spec p));
  pruneWorkloads p (desired_workloads p).

Definition service_mutation (kind : string) (owner : ObjectMeta) (desired svc : Service) : result Error Service :=
  meta ← own kind owner (set_om_Labels (om_Labels (svc_Meta desired)) (svc_Meta svc));
  Ok (mkService meta (svc_Type desired) (svc_Selector desired) (svc_Ports desired)).

Definition reconcileServices (p : JellyfinPlugin) (jf : option Jellyfin) : M unit :=
  let instanceName := match jf with Some jf => jf_Name jf | None => "" end in
  for_each (λ s,
    desired ←! Ret (wrap_err BadService (BuildPluginService p s instanceName));
    _ ←! ask (UpsertService (om_Namespace (svc_Meta desired)) (om_Name (svc_Meta desired))
                (service_mutation "JellyfinPlugin" (p_Meta p) desired));
    ok tt) (pls_Services (p_Spec p)).

(** ** Teardown *)
Definition drainWorkload (p : JellyfinPlugin) (draining : bool) (w : PluginWorkload) : M bool :=
  r ← ask (GetDeployment (p_Namespace p) (WorkloadName p w));
  match r with
  | Err NotFound => ok draining
  | Err e => throw (Api e)
  | Ok dep =>
      dep ←! (if decide (dep_Replicas dep = Some 0%Z) then ok dep
              else api (UpdateDeployment (set_dep_Replicas 0 dep)));
      ok (if decide (0 < ds_Replicas (dep_Status dep))%Z then true else draining)
  end.

Definition finalize (p : JellyfinPlugin) : M Result :=
  if negb (ContainsFinalizer (p_Meta p) pluginFinalizer) then ok Result_zero
  else
    draining ←! fold_each (drainWorkload p) false (pls_Workloads (p_Spec p));
    if (draining : bool) then ok (mkResult drainRequeueInterval)
    else
      _ ←! for_each (λ w, delete_if_present (DeleteDeployment (p_Namespace p) (WorkloadName p w)))
             (pls_Workloads (p_Spec p));
      _ ←! api (UpdatePlugin (set_p_Meta (RemoveFinalizer (p_Meta p) pluginFinalizer) p));
      ok Result_zero.

(** ** Status *)

(** Desired and ready replicas over the workloads that can be read. *)
Definition countWorkload (p : JellyfinPlugin) (s : Z * Z) (w : PluginWorkload) : M (Z * Z) :=
  r ← ask (GetDeployment (p_Namespace p) (WorkloadName p w));
  let '(desiredWL, readyWL) := s in
  match r with
  | Ok dep =>
      ok (match dep_Replicas dep with Some n => add_int32 desiredWL n | None => desiredWL end,
          add_int32 readyWL (ds_ReadyReplicas (dep_Status dep)))
  | Err _ => ok s
  end.

Definition replicas_ready (readyWL desiredWL : Z) : string :=
  pretty readyWL +:+ "/" +:+ pretty desiredWL +:+ " workload replicas ready".

Definition plugin_status (p : JellyfinPlugin) (jf : option Jellyfin) (abiOK : bool)
    (abiReason abiMsg : string) (desiredWL readyWL : Z) : JellyfinPluginStatus :=
  let gen := om_Generation (p_Meta p) in
  let s := p_Status p in
  let version := pm_Version (pls_Meta (p_Spec p)) in
  let conds := setCondition (pst_Conditions s) conditionABICompatible
                 (if abiOK then ConditionTrue else ConditionFalse) abiReason abiMsg gen in
  let workloadsReady := bool_decide (pls_Workloads (p_Spec p) = []) ||
                        ((0 <? desiredWL)%Z && (desiredWL <=? readyWL)%Z) in
  if negb abiOK then
    mkPluginStatus PluginPhaseFailed gen false (pst_Installed s) abiOK version readyWL
      (setCondition conds conditionWorkersAvailable ConditionFalse "ABIMismatch"
         "Plugin not injected due to ABI mismatch" gen)
  else match jf with
  | None =>
      mkPluginStatus PluginPhasePending gen (pst_Injected s) (pst_Installed s) abiOK version readyWL
        (setCondition conds conditionWorkersAvailable ConditionFalse "NoInstance"
           "Not bound to an instance" gen)
  | Some _ =>
      let installed := match pls_Install (p_Spec p) with None => true | Some _ => false end in
      let conds := setCondition conds conditionInjected ConditionTrue "Bound"
                     "Plugin bound and injected into the instance pod template" gen in
      let conds := if installed then
                     setCondition conds conditionInstalled ConditionTrue "NoInstallStep"
                       "No install step declared" gen
                   else conds in
      if workloadsReady then
        mkPluginStatus PluginPhaseLoaded gen true installed abiOK version readyWL
          (setCondition conds conditionWorkersAvailable ConditionTrue "Ready"
             (replicas_ready readyWL desiredWL) gen)
      else
        mkPluginStatus PluginPhaseWorkloadsReady gen true installed abiOK version readyWL
          (setCondition conds conditionWorkersAvailable ConditionFalse "Scaling"
             (replicas_ready readyWL desiredWL) gen)
  end.

Definition updateStatus (p : JellyfinPlugin) (jf : option Jellyfin) (abiOK : bool)
    (abiReason abiMsg : string) : M unit :=
  counts ←! fold_each (countWorkload p) (0%Z, 0%Z) (pls_Workloads (p_Spec p));
  let '(desiredWL, readyWL) := counts in
  _ ←! api (StatusUpdatePlugin
              (set_p_Status (plugin_status p jf abiOK abiReason abiMsg desiredWL readyWL) p));
  ok tt.

(** ** The whole reconcile *)
Definition ensureFinalizer (p : JellyfinPlugin) : M JellyfinPlugin :=
  if negb (ContainsFinalizer (p_Meta p) pluginFinalizer) then
    api (UpdatePlugin (set_p_Meta (AddFinalizer (p_Meta p) pluginFinalizer) p))
  else ok p.

Definition reconcilePlugin (p : JellyfinPlugin) : M Result :=
  p ←! ensureFinalizer p;
  instance ← boundInstance p;
  let '(abiOK, abiReason, abiMsg) := validateABI p instance in
  _ ←! (if (abiOK : bool) then
          _ ←! in_context "workloads" (reconcileWorkloads p instance);
          in_context "services" (reconcileServices p instance)
        else ok tt);
  _ ←! updateStatus p instance abiOK abiReason abiMsg;
  ok Result_zero.

Definition Reconcile (ns name : string) : M Result :=
  r ← ask (GetPlugin ns name);
  match r with
  | Err NotFound => ok Result_zero
  | Err e => throw (Api e)
  | Ok p =>
      if om_DeletionTimestamp (p_Meta p) then finalize p else reconcilePlugin p
  end.
End controller.

(** ** Teardown: nothing goes before it is drained *)
Section finalize.
Context `{KubeLib}.
Implicit Types (p : JellyfinPlugin) (tr : list event).

Definition workload_names p : list string := WorkloadName p <$> pls_Workloads (p_Spec p).

(** The workload was seen absent, or scaled to zero with no pod left. *)
Definition drained_in p tr (n : string) : Prop :=
  Ev (GetDeployment (p_Namespace p) n) (Err NotFound) ∈ tr ∨
  (∃ dep, Ev (GetDeployment (p_Namespace p) n) (Ok dep) ∈ tr ∧
     dep_Replicas dep = Some 0%Z ∧ (ds_Replicas (dep_Status dep) ≤ 0)%Z) ∨
  (∃ dep dep', Ev (GetDeployment (p_Namespace p) n) (Ok dep) ∈ tr ∧
     Ev (UpdateDeployment (set_dep_Replicas 0 dep)) (Ok dep') ∈ tr ∧
     (ds_Replicas (dep_Status dep') ≤ 0)%Z).

Definition deleted_in p tr (n : string) : Prop :=
  ∃ r, Ev (DeleteDeployment (p_Namespace p) n) r ∈ tr ∧ (r = Ok tt ∨ r = Err NotFound).

Definition without_finalizer p : JellyfinPlugin :=
  set_p_Meta (RemoveFinalizer (p_Meta p) pluginFinalizer) p.

Definition finalize_inv p : call_inv := λ R tr c,
  match c with
  | GetDeployment ns n => ns = p_Namespace p ∧ n ∈ workload_names p
  | UpdateDeployment d =>
      ∃ n dep, n ∈ workload_names p ∧ Ev (GetDeployment (p_Namespace p) n) (Ok dep) ∈ tr ∧
        d = set_dep_Replicas 0 dep
  | DeleteDeployment ns n =>
      ns = p_Namespace p ∧ n ∈ workload_names p ∧ ∀ n', n' ∈ workload_names p → drained_in p tr n'
  | UpdatePlugin p' =>
      p' = without_finalizer p ∧
      ∀ n, n ∈ workload_names p → drained_in p tr n ∧ deleted_in p tr n
  | _ => False
  end.

Lemma drained_in_app p tr ev n : drained_in p tr n → drained_in p (tr ++ [ev]) n.
Proof. unfold drained_in. setoid_rewrite elem_of_app. naive_solver. Qed.
Lemma deleted_in_app p tr ev n : deleted_in p tr n → deleted_in p (tr ++ [ev]) n.
Proof. unfold deleted_in. setoid_rewrite elem_of_app. naive_solver. Qed.

Lemma elem_of_last {A} (l : list A) x : x ∈ l ++ [x].
Proof. apply elem_of_app. right. by left. Qed.

Definition drain_done p (pre : list PluginWorkload) (draining : bool) tr : Prop :=
  draining = false → ∀ w, w ∈ pre → drained_in p tr (WorkloadName p w).

Lemma drain_done_step p pre w draining tr ev :
  drain_done p pre draining tr →
  (draining = false → drained_in p (tr ++ [ev]) (WorkloadName p w)) →
  drain_done p (pre ++ [w]) draining (tr ++ [ev]).
Proof.
  intros HJ Hw Hd w' [Hin| ->%list_elem_of_singleton]%elem_of_app; [|by apply Hw].
  by apply drained_in_app, HJ.
Qed.

Lemma drain_done_app p pre draining tr ev :
  drain_done p pre draining tr → drain_done p pre draining (tr ++ [ev]).
Proof. intros HJ Hd w Hw. by apply drained_in_app, HJ. Qed.

Lemma drainWorkload_always p pre w rest draining tr :
  pls_Workloads (p_Spec p) = pre ++ w :: rest → drain_done p pre draining tr →
  always (finalize_inv p)
    (post (λ tr d, drain_done p (pre ++ [w]) d tr) (λ _ _, True)) tr (drainWorkload p draining w).
Proof.
  intros Hl HJ.
  assert (Hn : WorkloadName p w ∈ workload_names p).
  { apply list_elem_of_fmap_2. rewrite Hl. apply elem_of_app. right. by left. }
  split; [done|]. intros [dep|e]; cbn.
  - case_decide as Hrep; cbn.
    + case_decide as Hst; intros Hd; [done|]. apply (drain_done_step p pre w draining tr); [done| |done].
      intros _. right; left. exists dep. split_and!; [apply elem_of_last|done|lia].
    + split; [exists (WorkloadName p w), dep; split_and!; [done|apply elem_of_last|done]|].
      intros [dep'|e]; cbn; [|done]. case_decide as Hst; intros Hd; [done|].
      apply (drain_done_step p pre w draining (tr ++ _)); [by apply drain_done_app| |done].
      intros _. right; right. exists dep, dep'. split_and!; [|apply elem_of_last|lia].
      apply elem_of_app. left. apply elem_of_last.
  - destruct e; cbn; try done.
    apply drain_done_step; [done|]. intros _. left. apply elem_of_last.
Qed.

Definition delete_done p (pre : list PluginWorkload) tr : Prop :=
  (∀ n, n ∈ workload_names p → drained_in p tr n) ∧
  ∀ w, w ∈ pre → deleted_in p tr (WorkloadName p w).

Lemma deleteWorkload_always p pre w rest tr :
  pls_Workloads (p_Spec p) = pre ++ w :: rest → delete_done p pre tr →
  always (finalize_inv p) (post (λ tr _, delete_done p (pre ++ [w]) tr) (λ _ _, True)) tr
    (delete_if_present (DeleteDeployment (p_Namespace p) (WorkloadName p w))).
Proof.
  intros Hl [Hdr Hdel]. apply always_delete; [|intros r Hr|done].
  - split_and!; [done| |done]. apply list_elem_of_fmap_2. rewrite Hl. apply elem_of_app. right. by left.
  - split; [intros n Hn; by apply drained_in_app, Hdr|].
    intros w' [Hin| ->%list_elem_of_singleton]%elem_of_app; [by apply deleted_in_app, Hdel|].
    exists r. split; [apply elem_of_last|done].
Qed.

Lemma finalize_always p tr0 :
  always (finalize_inv p)
    (on_ok (λ tr res, RequeueAfter res = 0%Z → ContainsFinalizer (p_Meta p) pluginFinalizer = true →
              ∃ r, Ev (UpdatePlugin (without_finalizer p)) (Ok r) ∈ tr)) tr0 (finalize p).
Proof.
  unfold finalize. destruct (ContainsFinalizer _ _); cbn [negb]; [|by cbn].
  apply always_try. eapply always_mono.
  { apply (always_fold_each _ (drain_done p) (λ _ _, True)); [by intros _ w ?%elem_of_nil|].
    intros pre w rest d tr Hl HJ. by eapply drainWorkload_always. }
  intros tr [draining|e] Hd; cbn in *; [|done]. destruct draining; [by cbn|].
  apply always_try. eapply always_mono.
  { apply (always_for_each _ (delete_done p) (λ _ _, True)).
    - split; [|by intros w ?%elem_of_nil]. intros n (w&->&Hw)%list_elem_of_fmap. by apply Hd.
    - intros pre w rest tr' Hl HJ. by eapply deleteWorkload_always. }
  intros tr' [[]|e]; cbn; [|done]. intros [Hdr Hdel]. split.
  - split; [done|]. intros n Hn. split; [by apply Hdr|].
    apply list_elem_of_fmap in Hn as (w&->&Hw). by apply Hdel.
  - intros [r|e]; cbn; [|done]. intros _ _. exists r. apply elem_of_last.
Qed.
End finalize.

(** ** The component's contract *)

(** C1: graceful teardown, whatever the server answers. A workload's Deployment is
    deleted only when in this very pass every workload of the plugin was seen absent
    or scaled to zero without pods; the finalizer is removed only when moreover each
    deletion was acknowledged; scaling only ever sets zero on the Deployment just
    read. A pass that reports completion of a plugin with the finalizer has removed it. *)
Theorem finalize_drains_first `{KubeLib} p :
  always (finalize_inv p)
    (on_ok (λ tr res, RequeueAfter res = 0%Z → ContainsFinalizer (p_Meta p) pluginFinalizer = true →
              ∃ r, Ev (UpdatePlugin (without_finalizer p)) (Ok r) ∈ tr)) [] (finalize p).
Proof. apply finalize_always. Qed.

(** ** Pruning *)
Section prune.
Context `{KubeLib}.
Implicit Types (p : JellyfinPlugin) (tr : list event) (desired : gset string).

(** A Deployment of the plugin's workloads that the spec no longer has. *)
Definition prunable (desired : gset string) (dep : Deployment) : Prop :=
  om_Labels (dep_Meta dep) !! ManagedByLabel = Some ManagedByValue ∧
  ∃ name, om_Labels (dep_Meta dep) !! WorkloadLabel = Some name ∧ name ∉ desired.

Lemma stale_workload_spec desired dep : stale_workload desired dep = true ↔ prunable desired dep.
Proof.
  unfold stale_workload, prunable. case_decide as Hm; [|naive_solver].
  destruct (_ !! WorkloadLabel) as [name|]; [|naive_solver].
  rewrite bool_decide_eq_true. naive_solver.
Qed.

Definition plugin_deployments p : call (result ApiError (list Deployment)) :=
  ListDeployments (p_Namespace p) {[ PluginLabel := p_Name p ]}.

Definition delete_of (dep : Deployment) : call (result ApiError unit) :=
  DeleteDeployment (om_Namespace (dep_Meta dep)) (om_Name (dep_Meta dep)).

Definition prune_inv p desired : call_inv := λ R tr c,
  match c with
  | ListDeployments ns sel => ns = p_Namespace p ∧ sel = {[ PluginLabel := p_Name p ]}
  | DeleteDeployment ns n =>
      ∃ deps dep, Ev (plugin_deployments p) (Ok deps) ∈ tr ∧ dep ∈ deps ∧ prunable desired dep ∧
        ns = om_Namespace (dep_Meta dep) ∧ n = om_Name (dep_Meta dep)
  | _ => False
  end.

Definition pruned_all desired (deps : list Deployment) tr : Prop :=
  ∀ dep, dep ∈ deps → prunable desired dep →
    ∃ r, Ev (delete_of dep) r ∈ tr ∧ (r = Ok tt ∨ r = Err NotFound).

Definition prune_step desired (dep : Deployment) : M unit :=
  if stale_workload desired dep then delete_if_present (delete_of dep) else ok tt.

Lemma prune_step_always p desired deps pre dep rest tr :
  deps = pre ++ dep :: rest →
  Ev (plugin_deployments p) (Ok deps) ∈ tr ∧ pruned_all desired pre tr →
  always (prune_inv p desired)
    (post (λ tr _, Ev (plugin_deployments p) (Ok deps) ∈ tr ∧ pruned_all desired (pre ++ [dep]) tr)
       (λ _ _, True)) tr (prune_step desired dep).
Proof.
  intros Hl [Hlist HJ]. unfold prune_step. destruct (stale_workload desired dep) eqn:Hs.
  - apply stale_workload_spec in Hs as Hp. apply always_delete; [|intros r Hr|done].
    + exists deps, dep. split_and!; try done. rewrite Hl. apply elem_of_app. right. by left.
    + split; [apply elem_of_app; by left|].
      intros d [Hd| ->%list_elem_of_singleton]%elem_of_app Hpr.
      * destruct (HJ d Hd Hpr) as (r'&Hr'&?). exists r'. rewrite elem_of_app. auto.
      * exists r. split; [apply elem_of_last|done].
  - split; [done|]. intros d [Hd| ->%list_elem_of_singleton]%elem_of_app Hpr; [by apply HJ|].
    apply stale_workload_spec in Hpr. congruence.
Qed.
End prune.

(** pruning deletes exactly the plugin's leftover workload Deployments: each
    deletion is of a Deployment the server listed for the plugin, that the operator
    manages and whose workload is not in the spec; and a successful pass has
    deleted them all. *)
Theorem pruneWorkloads_exact `{KubeLib} p desired :
  always (prune_inv p desired)
    (on_ok (λ tr _, ∃ deps, Ev (plugin_deployments p) (Ok deps) ∈ tr ∧ pruned_all desired deps tr))
    [] (pruneWorkloads p desired).
Proof.
  unfold pruneWorkloads. apply always_try, always_api; [done| |done]. intros deps. cbn.
  change (always (prune_inv p desired)
    (on_ok (λ tr _, ∃ deps, Ev (plugin_deployments p) (Ok deps) ∈ tr ∧ pruned_all desired deps tr))
    [Ev (plugin_deployments p) (Ok deps)] (for_each (prune_step desired) deps)).
  eapply always_mono.
  { apply (always_for_each _ (λ pre tr, Ev (plugin_deployments p) (Ok deps) ∈ tr ∧ pruned_all desired pre tr)
             (λ _ _, True)).
    - split; [by left|]. by intros d ?%elem_of_nil.
    - intros pre dep rest tr Hl HJ. by eapply prune_step_always. }
  intros tr [[]|e]; cbn; [|done]. intros [? ?]. by exists deps.
Qed.

(** ** Owned objects *)
Section owned.
Context `{KubeLib}.

Lemma own_Ok kind owner m m' :
  own kind owner m = Ok m' →
  ∃ refs, m' = set_om_OwnerReferences refs m ∧ mkOwnerRef kind (om_Name owner) (om_UID owner) true ∈ refs.
Proof.
  unfold own. destruct (SetControllerReference kind owner m) as [m1|] eqn:Hs; [|done].
  intros [= <-]. by apply controller_reference.
Qed.
End owned.

(** what a reconcile writes into a workload's Deployment. Over any existing
    object the mutation keeps the identity, the immutable selector of an object
    that was already created, and its status; it sets the built labels, replicas
    and template and makes the plugin the controller; over an object that another
    kind of owner controls it fails. *)
Theorem workload_mutation_spec `{KubeLib} p dep obj :
  match workload_mutation p dep obj with
  | Ok d =>
      om_Name (dep_Meta d) = om_Name (dep_Meta obj) ∧
      om_Namespace (dep_Meta d) = om_Namespace (dep_Meta obj) ∧
      dep_Status d = dep_Status obj ∧
      (om_CreationTimestamp (dep_Meta obj) ≠ None → dep_Selector d = dep_Selector obj) ∧
      (om_CreationTimestamp (dep_Meta obj) = None → dep_Selector d = dep_Selector dep) ∧
      om_Labels (dep_Meta d) = om_Labels (dep_Meta dep) ∧ dep_Replicas d = dep_Replicas dep ∧
      dep_Template d = dep_Template dep ∧
      mkOwnerRef "JellyfinPlugin" (p_Name p) (om_UID (p_Meta p)) true ∈ om_OwnerReferences (dep_Meta d) ∧
      ∀ r, head (filter (λ r, or_Controller r = true) (om_OwnerReferences (dep_Meta obj))) = Some r →
        or_Kind r = "JellyfinPlugin" ∧ or_Name r = p_Name p
  | Err e => e = AlreadyOwned
  end.
Proof.
  unfold workload_mutation. set (m := set_om_Labels _ _).
  destruct (own "JellyfinPlugin" (p_Meta p) m) as [m'|e] eqn:Ho; cbn.
  - pose proof Ho as Ho'. apply own_Ok in Ho as (refs&->&Hin). cbn.
    split_and!; try done.
    + by destruct (om_CreationTimestamp _).
    + by destruct (om_CreationTimestamp _).
    + intros r Hr. destruct (decide (or_Kind r = "JellyfinPlugin" ∧ or_Name r = p_Name p)) as [|Hne]; [done|].
      unfold own in Ho'. rewrite (controller_reference_other _ _ m r) in Ho'; [done|exact Hr|].
      apply not_and_l in Hne. exact Hne.
  - unfold own in Ho. destruct (SetControllerReference _ _ _); congruence.
Qed.

(** ** The ABI gate *)
Definition abi_accepts (p : JellyfinPlugin) (jf : option Jellyfin) : Prop :=
  let target := pm_TargetABI (pls_Meta (p_Spec p)) in
  target = "" ∨ ∃ jf0, jf = Some jf0 ∧ ABICompatible target (server_version jf0) = Ok true.

Section gate.
Context `{KubeLib} (quote : string → string).
Implicit Types (p : JellyfinPlugin) (tr : list event).

Lemma validateABI_accepts p jf : (validateABI quote p jf).1.1 = true ↔ abi_accepts p jf.
Proof.
  unfold validateABI, abi_accepts. cbv zeta. case_decide as Ht; cbn; [by split; [left|]|].
  destruct jf as [jf|]; cbn; [|by split; [|intros [?|(?&[=]&_)]]].
  destruct (ABICompatible _ _) as [[]|e] eqn:Ha; cbn.
  - split; [intros _; right; by exists jf|done].
  - split; [done|]. intros [?|(jf0&[= <-]&Ha')]; congruence.
  - split; [done|]. intros [?|(jf0&[= <-]&Ha')]; congruence.
Qed.

Lemma plugin_status_abi p jf abiOK reason msg d r :
  FindStatusCondition (pst_Conditions (plugin_status p jf abiOK reason msg d r)) conditionABICompatible =
    Some (mkCondition conditionABICompatible (if abiOK then ConditionTrue else ConditionFalse)
            reason msg (om_Generation (p_Meta p))).
Proof.
  unfold plugin_status. cbv zeta. destruct abiOK, jf; cbn [negb];
    destruct (pls_Install (p_Spec p));
    try match goal with |- context [if ?b then mkPluginStatus _ _ _ _ _ _ _ _ else _] => destruct b end;
    cbn [pst_Conditions];
    rewrite ?find_setCondition; by repeat (rewrite decide_False by done || rewrite decide_True by done).
Qed.

(** *** What a reconcile has seen before it creates anything *)
Definition persisted (ns name : string) tr p : Prop :=
  (Ev (GetPlugin ns name) (Ok p) ∈ tr ∧ pluginFinalizer ∈ om_Finalizers (p_Meta p)) ∨
  (∃ p0, Ev (UpdatePlugin p0) (Ok p) ∈ tr ∧ pluginFinalizer ∈ om_Finalizers (p_Meta p0)).

Definition instance_seen tr p (jf : option Jellyfin) : Prop :=
  match jf with
  | None => True
  | Some jf => (∃ n, Ev (GetJellyfin (p_Namespace p) n) (Ok jf) ∈ tr) ∨
               (∃ items, Ev (ListJellyfins (p_Namespace p)) (Ok items) ∈ tr ∧ jf ∈ items ∧
                  pluginBinds jf p = true)
  end.

Definition admitted (ns name : string) tr : Prop :=
  ∃ p jf, persisted ns name tr p ∧ instance_seen tr p jf ∧ abi_accepts p jf.

Definition reconcile_inv (ns name : string) : call_inv := λ R tr c,
  match c with
  | UpsertDeployment _ _ _ | UpsertService _ _ _ => admitted ns name tr
  | UpsertIngress _ _ _ | UpsertHTTPRoute _ _ _ | UpsertPVC _ _ _ | UpsertPersistentVolume _ _
  | PatchPVC _ _ | StatusUpdateJellyfin _ | DeleteService _ _ | DeleteIngress _ _
  | DeleteHTTPRoute _ _ | DeletePersistentVolume _ => False
  | _ => True
  end.

Lemma persisted_app ns name tr tr' p : persisted ns name tr p → persisted ns name (tr ++ tr') p.
Proof. unfold persisted. setoid_rewrite elem_of_app. naive_solver. Qed.
Lemma instance_seen_app tr tr' p jf : instance_seen tr p jf → instance_seen (tr ++ tr') p jf.
Proof. unfold instance_seen. destruct jf; [|done]. setoid_rewrite elem_of_app. naive_solver. Qed.
Lemma admitted_app ns name tr tr' : admitted ns name tr → admitted ns name (tr ++ tr').
Proof. intros (p&jf&?&?&?). exists p, jf. eauto using persisted_app, instance_seen_app. Qed.

(** Once admitted, the rest may create. *)
Lemma admitted_for_each {A} ns name (f : A → M unit) l tr :
  (∀ a tr, admitted ns name tr →
     always (reconcile_inv ns name) (post (λ tr _, admitted ns name tr) (λ _ _, True)) tr (f a)) →
  admitted ns name tr →
  always (reconcile_inv ns name) (post (λ tr _, admitted ns name tr) (λ _ _, True)) tr (for_each f l).
Proof. intros Hf Htr. apply (always_for_each _ (λ _, admitted ns name)); auto. Qed.

Lemma reconcileWorkloads_always ns name p jf tr :
  admitted ns name tr →
  always (reconcile_inv ns name) (post (λ tr _, admitted ns name tr) (λ _ _, True)) tr (reconcileWorkloads p jf).
Proof.
  intros Htr. apply always_try. eapply always_mono.
  { apply admitted_for_each; [|done]. intros w tr' Htr'. apply always_try, always_ask; [done|].
    intros [d|e]; cbn; [|done]. by apply admitted_app. }
  intros tr' [[]|e]; [|done]. cbn [post]. intros Htr'.
  apply always_try, always_api; [done|intros deps|done].
  apply admitted_for_each; [|by apply admitted_app]. intros dep tr2 Htr2.
  destruct (stale_workload _ _); [|done]. apply always_delete; [done| |done].
  intros r _. by apply admitted_app.
Qed.

Lemma reconcileServices_always ns name p jf tr :
  admitted ns name tr →
  always (reconcile_inv ns name) (post (λ tr _, admitted ns name tr) (λ _ _, True)) tr (reconcileServices p jf).
Proof.
  intros Htr. apply admitted_for_each; [|done]. intros s tr' Htr'.
  apply always_try. cbn. destruct (BuildPluginService _ _ _) as [svc|e]; cbn; [|done].
  split; [done|]. intros [d|e]; cbn; [|done]. by apply admitted_app.
Qed.

Lemma updateStatus_always ns name p jf abiOK reason msg tr :
  always (reconcile_inv ns name) (post (λ _ _, True) (λ _ _, True)) tr
    (updateStatus p jf abiOK reason msg).
Proof.
  apply always_try. eapply always_mono.
  { apply (always_fold_each _ (λ _ _ _, True) (λ _ _, True)); [done|].
    intros pre w rest [d r] tr' _ _. split; [done|]. by intros [dep|e]. }
  intros tr' [[d r]|e]; cbn; [|done]. intros _. split; [done|]. by intros [?|?].
Qed.

(** The three steps before the gate. *)
Lemma ensureFinalizer_always ns name p tr :
  Ev (GetPlugin ns name) (Ok p) ∈ tr →
  always (reconcile_inv ns name) (on_ok (λ tr p', persisted ns name tr p')) tr (ensureFinalizer p).
Proof.
  intros Hp. unfold ensureFinalizer. destruct (ContainsFinalizer _ _) eqn:Hf; cbn [negb].
  - apply contains_finalizer in Hf. by left.
  - apply always_api; [done|intros p'|done]. right. eexists. split; [apply elem_of_last|].
    destruct (add_finalizer (p_Meta p) pluginFinalizer) as (fs&->&Hfs). cbn. apply Hfs. by left.
Qed.

Lemma boundInstance_always ns name p tr :
  persisted ns name tr p →
  always (reconcile_inv ns name)
    (λ tr jf, persisted ns name tr p ∧ instance_seen tr p jf) tr (boundInstance p).
Proof.
  intros Hp. unfold boundInstance.
  assert (Hlist : always (reconcile_inv ns name) (λ tr jf, persisted ns name tr p ∧ instance_seen tr p jf) tr
    (r ← ask (ListJellyfins (p_Namespace p));
     Ret (match r with Ok items => find (λ jf, pluginBinds jf p) items | Err _ => None end))).
  { split; [done|]. intros [items|e]; cbn; (split; [by apply persisted_app|]); [|done].
    destruct (find _ _) as [jf|] eqn:Hfind; [|done]. apply find_some in Hfind as [Hin Hb].
    right. exists items. split_and!; [apply elem_of_last|by apply list_elem_of_In|done]. }
  destruct (pls_JellyfinRef (p_Spec p)) as [n|]; [|done].
  case_decide; [|done]. split; [done|]. intros [jf|e]; cbn; (split; [by apply persisted_app|]); [|done].
  left. exists n. apply elem_of_last.
Qed.

Lemma reconcilePlugin_always ns name p tr :
  Ev (GetPlugin ns name) (Ok p) ∈ tr →
  always (reconcile_inv ns name) anything tr (reconcilePlugin quote p).
Proof.
  intros Hp. eapply (always_mono _ (post (λ _ _, True) (λ _ _, True))); [|done].
  apply always_try. eapply always_mono; [by apply ensureFinalizer_always|].
  intros tr1 [p1|e]; [|done]. cbn [on_ok post]. intros Hp1.
  apply always_bind. eapply always_mono; [by apply boundInstance_always|].
  intros tr2 jf [Hp2 Hjf]. pose proof (validateABI_accepts p1 jf) as Habi.
  destruct (validateABI quote p1 jf) as [[abiOK reason] msg]. cbn [fst] in Habi.
  apply always_try. eapply (always_mono _ (post (λ _ _, True) (λ _ _, True))).
  - destruct abiOK; [|done].
    assert (Hadm : admitted ns name tr2) by (exists p1, jf; split_and!; [done..|by apply Habi]).
    apply always_try, always_in_context. eapply always_mono; [by apply reconcileWorkloads_always|].
    intros tr3 [[]|e]; [|done]. cbn [post]. intros Htr3.
    apply always_in_context. eapply always_mono; [by apply reconcileServices_always|].
    by intros tr4 [[]|e].
  - intros tr3 [[]|e]; [|done]. intros _. apply always_try.
    eapply always_mono; [apply updateStatus_always|]. by intros tr4 [[]|e].
Qed.

Lemma finalize_reconcile_inv ns name R tr (c : call R) p : finalize_inv p R tr c → reconcile_inv ns name R tr c.
Proof. by destruct c. Qed.
End gate.

(** the ABI gate and the status it leaves. The gate accepts exactly a plugin
    without target ABI or one whose target the bound server's version reaches; the
    phase reports the outcome; and with the new status the plugin is composed into
    the pod exactly when the gate accepted it. *)
Theorem plugin_status_gates `{KubeLib} quote p jf desiredWL readyWL :
  let '(abiOK, reason, msg) := validateABI quote p jf in
  let s := plugin_status p jf abiOK reason msg desiredWL readyWL in
  (abiOK = true ↔ abi_accepts p jf) ∧
  HealthyPlugins [set_p_Status s p] = (if abiOK then [set_p_Status s p] else []) ∧
  pst_Phase s =
    (if negb abiOK then PluginPhaseFailed
     else match jf with
          | None => PluginPhasePending
          | Some _ => if decide (pls_Workloads (p_Spec p) = [] ∨ (0 < desiredWL ∧ desiredWL ≤ readyWL)%Z)
                      then PluginPhaseLoaded else PluginPhaseWorkloadsReady
          end) ∧
  pst_ABICompatible s = abiOK ∧ pst_ObservedGeneration s = om_Generation (p_Meta p).
Proof.
  pose proof (validateABI_accepts quote p jf) as Hok.
  destruct (validateABI quote p jf) as [[abiOK reason] msg]. cbn [fst] in Hok.
  pose proof (plugin_status_abi p jf abiOK reason msg desiredWL readyWL) as Hcond.
  assert (Hphase : pst_Phase (plugin_status p jf abiOK reason msg desiredWL readyWL) =
    if negb abiOK then PluginPhaseFailed
    else match jf with
         | None => PluginPhasePending
         | Some _ => if decide (pls_Workloads (p_Spec p) = [] ∨ (0 < desiredWL ∧ desiredWL ≤ readyWL)%Z)
                     then PluginPhaseLoaded else PluginPhaseWorkloadsReady
         end).
  { unfold plugin_status. cbv zeta. destruct abiOK; cbn [negb]; [|done]. destruct jf; [|done].
    case_decide as Hd; destruct (bool_decide (pls_Workloads (p_Spec p) = [])) eqn:Hw;
      [apply bool_decide_eq_true in Hw|apply bool_decide_eq_false in Hw| |]; cbn [orb]; try done.
    - destruct Hd as [|[H1 H2]]; [done|].
      by rewrite (proj2 (Z.ltb_lt _ _) H1), (proj2 (Z.leb_le _ _) H2).
    - apply bool_decide_eq_true in Hw. tauto.
    - destruct (0 <? desiredWL)%Z eqn:H1, (desiredWL <=? readyWL)%Z eqn:H2; try done.
      apply Z.ltb_lt in H1. apply Z.leb_le in H2. tauto. }
  split_and!; [done| |done|..].
  - unfold HealthyPlugins. rewrite filter_cons. unfold abi_rejected.
    cbn [p_Status set_p_Status]. rewrite Hcond, Hphase. destruct abiOK; cbn.
    + rewrite decide_True; [done|]. split; [|done]. destruct jf; [case_decide|]; done.
    + rewrite decide_False; [done|]. by intros [? _].
  - unfold plugin_status. destruct abiOK, jf; cbn [negb]; try done. by destruct (_ || _).
  - unfold plugin_status. destruct abiOK, jf; cbn [negb]; try done. by destruct (_ || _).
Qed.

(** C10: nothing is created early. In a reconcile, whatever the server answers, a
    Deployment or Service is written only after the plugin was seen with its
    finalizer persisted and the gate accepted it for the instance it resolved to;
    and the reconcile touches no other kind of object. *)
Theorem Reconcile_gated `{KubeLib} quote ns name :
  always (reconcile_inv ns name) anything [] (Reconcile quote ns name).
Proof.
  split; [done|]. intros [p|e]; [|by destruct e].
  destruct (om_DeletionTimestamp (p_Meta p)) eqn:Hdel; cbn; rewrite Hdel.
  { eapply always_mono; [|done]. eapply always_inv_mono; [|apply finalize_always].
    intros R tr c. apply finalize_reconcile_inv. }
  apply reconcilePlugin_always. by left.
Qed.

(** ** A concrete plugin *)
Module Example_controller.
Definition workload : PluginWorkload := Example_workload.workload "worker".
Definition meta (finalizers : list string) : ObjectMeta :=
  set_om_Finalizers finalizers (meta_lit "shoko" "media" ∅ ∅).
Definition plugin (abi : string) : JellyfinPlugin :=
  mkPlugin (meta [pluginFinalizer])
    (mkPluginSpec (Some "home") (mkImageSrc "reg/p:1" "" "") (mkPluginMeta "" "Shoko" "1.0" abi "") "" None
       [workload] []) Example_builder.pstatus.
Definition running (n : Z) : Deployment :=
  mkDeployment (meta_lit "shoko-worker" "media" ∅ ∅) (Some n) ∅ "" (mkPodTemplate ∅ ∅ single_container_pod)
    (mkDepStatus n n n).
Definition leftover : Deployment :=
  mkDeployment (meta_lit "shoko-old" "media"
                  {[ PluginLabel := "shoko"; ManagedByLabel := ManagedByValue; WorkloadLabel := "old" ]} ∅)
    (Some 1%Z) ∅ "" (mkPodTemplate ∅ ∅ single_container_pod) DeploymentStatus_zero.
Definition quote (s : string) : string := "'" +:+ s +:+ "'".
End Example_controller.

(** A pod is still running: after the scale-down no call but the requeue follows. *)
Lemma finalize_drains_first_witness :
  finalize_inv (Example_controller.plugin "") _ [Ev (GetDeployment "media" "shoko-worker") (Ok (Example_controller.running 1));
                      Ev (UpdateDeployment (set_dep_Replicas 0 (Example_controller.running 1)))
                         (Ok (Example_controller.running 0))] (DeleteDeployment "media" "shoko-worker").
Proof.
  pose proof (finalize_drains_first (Example_controller.plugin "")) as [_ H].
  specialize (H (Ok (Example_controller.running 1))) as [_ H].
  specialize (H (Ok (Example_controller.running 0))) as [H _]. exact H.
Defined.

Lemma pruneWorkloads_exact_witness :
  prune_inv (Example_controller.plugin "") {["worker"]} _
    [Ev (plugin_deployments (Example_controller.plugin "")) (Ok [Example_controller.leftover])]
    (DeleteDeployment "media" "shoko-old").
Proof.
  pose proof (pruneWorkloads_exact (Example_controller.plugin "") {["worker"]}) as [_ H].
  specialize (H (Ok [Example_controller.leftover])) as [H _]. exact H.
Defined.

Lemma workload_mutation_spec_witness :
  ∃ d, workload_mutation (Example_controller.plugin "")
         (BuildWorkloadDeployment None (Example_controller.plugin "") Example_controller.workload)
         (Example_controller.running 3) = Ok d ∧ dep_Replicas d = Some 1%Z.
Proof.
  pose proof (workload_mutation_spec (Example_controller.plugin "")
    (BuildWorkloadDeployment None (Example_controller.plugin "") Example_controller.workload)
    (Example_controller.running 3)) as H.
  destruct (workload_mutation _ _ _) as [d|e] eqn:Hm; [|discriminate Hm].
  exists d. split; [done|]. by destruct H as (_&_&_&_&_&_&->&_).
Defined.

Lemma plugin_status_gates_witness :
  let p := Example_controller.plugin "12.0" in
  HealthyPlugins [set_p_Status (plugin_status p (Some Example_bindings.home) false "ABIMismatch"
    "plugin targetAbi 12.0 exceeds server version 10.9.0.0" 0 0) p] = [].
Proof.
  pose proof (plugin_status_gates Example_controller.quote (Example_controller.plugin "12.0")
                (Some Example_bindings.home) 0 0) as H.
  assert (validateABI Example_controller.quote (Example_controller.plugin "12.0") (Some Example_bindings.home)
          = (false, "ABIMismatch", "plugin targetAbi 12.0 exceeds server version 10.9.0.0")) as Hv
    by (vm_compute; reflexivity).
  rewrite Hv in H. by destruct H as (_&H&_).
Defined.

Lemma Reconcile_gated_witness :
  reconcile_inv "media" "shoko" _
    [Ev (GetPlugin "media" "shoko") (Ok (Example_controller.plugin ""));
     Ev (GetJellyfin "media" "home") (Ok Example_bindings.home)]
    (UpsertDeployment "media" "shoko-worker"
       (workload_mutation (Example_controller.plugin "")
          (BuildWorkloadDeployment (Some Example_bindings.home) (Example_controller.plugin "")
             Example_controller.workload))).
Proof.
  pose proof (Reconcile_gated Example_controller.quote "media" "shoko") as [_ H].
  specialize (H (Ok (Example_controller.plugin ""))) as [_ H].
  specialize (H (Ok Example_bindings.home)) as [H _]. exact H.
Defined.

(** Teardown is by name only: a plugin's workload can have the name of an instance's
    own Deployment, which the finalizer then scales down and deletes. *)
Lemma finalize_can_hit_instance :
  let p := mkPlugin (set_om_Finalizers [pluginFinalizer] (meta_lit "a" "media" ∅ ∅))
             (mkPluginSpec None (mkImageSrc "" "" "") (mkPluginMeta "" "" "" "" "") "" None
                [Example_workload.workload "b"] []) Example_builder.pstatus in
  let server_pod := mkDeployment (meta_lit "a-b" "media" (InstanceLabels (Example_bindings.instance "a-b" None)) ∅)
                      (Some 0%Z) ∅ "" (mkPodTemplate ∅ ∅ single_container_pod) DeploymentStatus_zero in
  workload_names p = [jf_Name (Example_bindings.instance "a-b" None)] ∧
  ∀ I Q, always I Q [] (finalize p) →
    I _ [Ev (GetDeployment "media" "a-b") (Ok server_pod)] (DeleteDeployment "media" "a-b").
Proof.
  intros p server_pod. split; [by vm_compute|]. intros I Q [_ H].
  specialize (H (Ok server_pod)) as [H _]. exact H.
Qed.
