(* ===== verification/Teardown.v ===== *)
(** * The teardown of a plugin ends (internal/controller/jellyfinplugin_controller.go)

    A deleted plugin keeps its finalizer while its workloads drain, and the
    controller looks again every few seconds. This file runs those passes against
    an API server that answers as documented, with the Deployment controller
    stopping pods in between, and proves that the finalizer goes after finitely
    many of them. *)
From S2P Require Import Prelude GoStrings K8s ApiTypes Naming Builder Workloads Kube Programs Bindings PluginController.

(** ** An API server that works

    What the API server keeps of the plugins and Deployments, and its documented
    answers while no call fails and nobody else writes to the objects a call is
    about. An object with a deletion timestamp goes away with its last finalizer. *)
Class ApiServer (C : Type) := {
  cl_plugin : C → string → string → option JellyfinPlugin;
  cl_deployment : C → string → string → option Deployment;
  cl_answer : ∀ R : Type, call R → C → R * C;

  get_plugin : ∀ c ns n,
    cl_answer _ (GetPlugin ns n) c = (match cl_plugin c ns n with Some p => Ok p | None => Err NotFound end, c);
  get_deployment : ∀ c ns n,
    cl_answer _ (GetDeployment ns n) c
    = (match cl_deployment c ns n with Some d => Ok d | None => Err NotFound end, c);
  deployment_key : ∀ c ns n d,
    cl_deployment c ns n = Some d → om_Namespace (dep_Meta d) = ns ∧ om_Name (dep_Meta d) = n;
  plugin_key : ∀ c ns n q,
    cl_plugin c ns n = Some q → om_Namespace (p_Meta q) = ns ∧ om_Name (p_Meta q) = n;
  (** An update writes the spec; the status is a subresource of its own. *)
  update_deployment : ∀ c ns n d0 d,
    cl_deployment c ns n = Some d0 → dep_Meta d = dep_Meta d0 →
    ∃ d' c', cl_answer _ (UpdateDeployment d) c = (Ok d', c') ∧
      dep_Replicas d' = dep_Replicas d ∧ dep_Status d' = dep_Status d0 ∧
      (∀ ns' n', cl_deployment c' ns' n' = if decide ((ns', n') = (ns, n)) then Some d' else cl_deployment c ns' n') ∧
      (∀ ns' n', cl_plugin c' ns' n' = cl_plugin c ns' n');
  delete_deployment : ∀ c ns n, ∃ r c',
    cl_answer _ (DeleteDeployment ns n) c = (r, c') ∧ (r = Ok tt ∨ r = Err NotFound) ∧
    (∀ ns' n', cl_plugin c' ns' n' = cl_plugin c ns' n');
  update_plugin : ∀ c ns n p0 p,
    cl_plugin c ns n = Some p0 → om_Namespace (p_Meta p) = ns → om_Name (p_Meta p) = n →
    is_Some (om_DeletionTimestamp (p_Meta p0)) →
    ∃ p' c', cl_answer _ (UpdatePlugin p) c = (Ok p', c') ∧
      (om_Finalizers (p_Meta p) = [] → cl_plugin c' ns n = None) ∧
      (∀ q, cl_plugin c' ns n = Some q → om_Finalizers (p_Meta q) = om_Finalizers (p_Meta p));
}.

Section teardown.
Context `{KubeLib} {C : Type} `{!ApiServer C} (quote : string → string).
Context (p : JellyfinPlugin) (ns name : string).
Implicit Types (c d : C) (w : PluginWorkload).

Definition api_server : server := mkServer C cl_answer.

(** One pass of the controller, whatever it returns. *)
Definition pass c : C := (exec api_server c (Reconcile quote ns name)).2.

Definition pass_result c : result Error Result := (exec api_server c (Reconcile quote ns name)).1.

Definition workload_of c w : option Deployment := cl_deployment c (p_Namespace p) (WorkloadName p w).

(** The pods a workload still has. *)
Definition pods_of (o : option Deployment) : nat :=
  match o with Some d => Z.to_nat (ds_Replicas (dep_Status d)) | None => 0 end.

Definition pods c : nat := sum_list_with (λ w, pods_of (workload_of c w)) (pls_Workloads (p_Spec p)).

Definition scaled_down (o : option Deployment) : Prop :=
  ∀ dep, o = Some dep → dep_Replicas dep = Some 0%Z.

Definition all_scaled_down c : Prop := ∀ w, w ∈ pls_Workloads (p_Spec p) → scaled_down (workload_of c w).

(** The finalizer is gone, with or without the object. *)
Definition released c : Prop :=
  ∀ q, cl_plugin c ns name = Some q → ContainsFinalizer (p_Meta q) pluginFinalizer = false.

(** The plugin as it is while it is being torn down. *)
Definition terminating c : Prop := cl_plugin c ns name = Some p.

(** ** Between two passes

    The Deployment controller stops pods of a workload scaled to zero, at least
    one when there is one; nobody scales a workload up again, creates it anew or
    edits the plugin. *)
Record environment c d : Prop := {
  env_plugin : cl_plugin d ns name = cl_plugin c ns name;
  env_workload : ∀ w dep', w ∈ pls_Workloads (p_Spec p) → workload_of d w = Some dep' →
    ∃ dep, workload_of c w = Some dep ∧ dep_Replicas dep' = dep_Replicas dep ∧
      (dep_Replicas dep = Some 0%Z →
       (ds_Replicas (dep_Status dep') < ds_Replicas (dep_Status dep))%Z ∨
       (ds_Replicas (dep_Status dep') ≤ 0)%Z);
}.

Definition round c d : Prop := environment (pass c) d.

(** *** One workload *)

(** What draining the workloads [ws] leaves: they are scaled down, no pod was
    stopped yet, and [draining] tells whether one of them has a pod. *)
Record drained_to (c c' : C) (ws : list PluginWorkload) (draining : bool) : Prop := {
  dr_plugin : ∀ ns n, cl_plugin c' ns n = cl_plugin c ns n;
  dr_pods : ∀ w, pods_of (workload_of c' w) = pods_of (workload_of c w);
  dr_scaled : ∀ w, w ∈ ws → scaled_down (workload_of c' w);
  dr_draining : draining = true ↔ ∃ w, w ∈ ws ∧ pods_of (workload_of c' w) ≠ 0;
}.

Lemma scale_down_exec c w dep :
  workload_of c w = Some dep →
  ∃ dep' c', exec api_server c (if decide (dep_Replicas dep = Some 0%Z) then ok dep
                                else api (UpdateDeployment (set_dep_Replicas 0 dep))) = (Ok dep', c') ∧
    (∀ ns n, cl_plugin c' ns n = cl_plugin c ns n) ∧
    dep_Replicas dep' = Some 0%Z ∧ dep_Status dep' = dep_Status dep ∧
    ∀ v, workload_of c' v = if decide (WorkloadName p v = WorkloadName p w) then Some dep' else workload_of c v.
Proof.
  intros Hw. case_decide as Hr.
  - exists dep, c. split_and!; [done..|]. intros v. unfold workload_of in *. case_decide as Hv; [|done]. by rewrite Hv.
  - destruct (update_deployment c (p_Namespace p) (WorkloadName p w) dep (set_dep_Replicas 0 dep) Hw eq_refl)
      as (d' & c' & He & Hrep & Hst & Hdep & Hpl).
    exists d', c'. rewrite exec_api. cbn [sv_answer api_server]. rewrite He. split_and!; [done..|].
    intros v. unfold workload_of. rewrite Hdep. repeat case_decide; congruence.
Qed.

Lemma pods_ext c d :
  (∀ w, pods_of (workload_of d w) = pods_of (workload_of c w)) → pods d = pods c.
Proof.
  intros Hw. unfold pods. induction (pls_Workloads (p_Spec p)) as [|w ws IH]; cbn; [done|]. by rewrite Hw, IH.
Qed.

Lemma pods_elem c w : w ∈ pls_Workloads (p_Spec p) → pods_of (workload_of c w) ≤ pods c.
Proof. intros Hw. unfold pods. by apply (sum_list_with_in w (λ w, pods_of (workload_of c w))). Qed.

Lemma pods_positive dep w c :
  workload_of c w = Some dep → (0 < ds_Replicas (dep_Status dep))%Z ↔ pods_of (workload_of c w) ≠ 0.
Proof. intros ->. cbn. lia. Qed.

Lemma drainWorkload_exec c0 c ws draining w :
  drained_to c0 c ws draining →
  ∃ c' draining', exec api_server c (drainWorkload p draining w) = (Ok draining', c') ∧
    drained_to c0 c' (ws ++ [w]) draining'.
Proof.
  intros [Hp Hpods Hsc Hd]. unfold drainWorkload. rewrite exec_bind, exec_ask. cbn [sv_answer api_server].
  rewrite get_deployment. fold (workload_of c w). destruct (workload_of c w) as [dep|] eqn:Hw.
  - rewrite exec_try. destruct (scale_down_exec c w dep Hw) as (dep' & c' & -> & Hpl & Hr & Hst & Hdep).
    do 2 eexists. split; [reflexivity|].
    assert (∀ v, pods_of (workload_of c' v) = pods_of (workload_of c v)) as Hpods'.
    { intros v. rewrite Hdep. case_decide as Hv; [|done]. unfold workload_of in *. rewrite Hv, Hw. cbn. by rewrite Hst. }
    split; [congruence|congruence|..].
    + intros v [Hv| ->%list_elem_of_singleton]%elem_of_app; rewrite Hdep; [|rewrite decide_True by done; by intros ? [= <-]].
      case_decide; [by intros ? [= <-]|by apply Hsc].
    + rewrite Hst. setoid_rewrite elem_of_app. setoid_rewrite list_elem_of_singleton. setoid_rewrite Hpods'.
      pose proof (pods_positive dep w c Hw). case_decide; naive_solver.
  - cbn. do 2 eexists. split; [reflexivity|]. split; [done|done|..].
    + intros v [Hv| ->%list_elem_of_singleton]%elem_of_app; [by apply Hsc|]. by rewrite Hw.
    + setoid_rewrite elem_of_app. setoid_rewrite list_elem_of_singleton. rewrite Hd.
      split; [naive_solver|]. intros (v & [?| ->] & Hv); [eauto|]. by rewrite Hw in Hv.
Qed.

Lemma drain_exec c :
  ∃ c' draining, exec api_server c (fold_each (drainWorkload p) false (pls_Workloads (p_Spec p)))
                 = (Ok draining, c') ∧ drained_to c c' (pls_Workloads (p_Spec p)) draining.
Proof.
  assert (∀ suf pre c' draining, drained_to c c' pre draining →
    ∃ c2 b2, exec api_server c' (fold_each (drainWorkload p) draining suf) = (Ok b2, c2) ∧
             drained_to c c2 (pre ++ suf) b2) as H'.
  { intros suf. induction suf as [|w suf IH]; intros pre c' draining Hdr; cbn [fold_each].
    - rewrite app_nil_r. by do 2 eexists.
    - rewrite exec_try. destruct (drainWorkload_exec c c' pre draining w Hdr) as (c2 & b2 & -> & Hdr2).
      destruct (IH _ _ _ Hdr2) as (c3 & b3 & -> & Hdr3). rewrite <-app_assoc in Hdr3. by do 2 eexists. }
  apply (H' _ []). split; [done|done|by intros ? ?%elem_of_nil|]. split; [done|]. by intros (?&?%elem_of_nil&_).
Qed.

(** *** One pass *)
Lemma delete_exec c ws :
  ∃ c', exec api_server c (for_each (λ w, delete_if_present (DeleteDeployment (p_Namespace p) (WorkloadName p w))) ws)
        = (Ok tt, c') ∧ ∀ ns n, cl_plugin c' ns n = cl_plugin c ns n.
Proof.
  revert c. induction ws as [|w ws IH]; intros c; cbn [for_each]; [by eexists|].
  rewrite exec_try. unfold delete_if_present. rewrite exec_bind, exec_ask. cbn [sv_answer api_server].
  destruct (delete_deployment c (p_Namespace p) (WorkloadName p w)) as (r & c1 & -> & Hr & Hp1).
  destruct (IH c1) as (c2 & He & Hp2).
  exists c2. split; [|congruence]. destruct Hr as [-> | ->]; exact He.
Qed.

(** A pass over the terminating plugin either leaves it draining, with every
    workload scaled down and a pod left, and asks to be run again, or takes the
    finalizer away. *)
Lemma pass_terminating c :
  terminating c → is_Some (om_DeletionTimestamp (p_Meta p)) →
  (pass_result c = Ok (mkResult drainRequeueInterval) ∧
   terminating (pass c) ∧ all_scaled_down (pass c) ∧ pods (pass c) = pods c ∧ pods c ≠ 0) ∨
  released (pass c).
Proof.
  intros Ht [t Hdel]. destruct (plugin_key c ns name p Ht) as [Hns Hname]. unfold pass, pass_result, Reconcile.
  rewrite exec_bind, exec_ask. cbn [sv_answer api_server]. rewrite get_plugin, Ht, Hdel. cbn iota beta.
  unfold finalize. destruct (ContainsFinalizer (p_Meta p) pluginFinalizer) eqn:Hf; cbn [negb].
  2:{ right. intros q Hq. cbn in Hq. congruence. }
  rewrite exec_try. destruct (drain_exec c) as (c' & draining & -> & [Hpl Hpods Hsc Hd]).
  destruct draining.
  - left. cbn. pose proof (pods_ext c c' Hpods) as Hsum. split_and!; [done| |done|done|].
    + unfold terminating. by rewrite Hpl.
    + destruct Hd as [(w & Hw & Hne) _]; [done|]. pose proof (pods_elem c' w Hw). lia.
  - right. rewrite exec_try. destruct (delete_exec c' (pls_Workloads (p_Spec p))) as (c2 & -> & Hp2).
    rewrite exec_try, exec_api. cbn [sv_answer api_server].
    assert (cl_plugin c2 ns name = Some p) as Hc2 by (by rewrite Hp2, Hpl).
    destruct (remove_finalizer (p_Meta p) pluginFinalizer) as (fs & Hrm & Hfs).
    destruct (update_plugin c2 ns name p (set_p_Meta (RemoveFinalizer (p_Meta p) pluginFinalizer) p))
      as (p' & c3 & -> & Hgone & Hleft); [done|cbn; by rewrite Hrm..|by rewrite Hdel|].
    cbn. intros q Hq%Hleft. apply not_true_iff_false. rewrite contains_finalizer, Hq. cbn. rewrite Hrm. cbn.
    by intros [? _]%Hfs.
Qed.

(** A pass never gives up on a pod that does not stop: there is no limit on the
    time or the number of passes a workload may take to drain. *)
Lemma drain_waits c w :
  terminating c → is_Some (om_DeletionTimestamp (p_Meta p)) →
  ContainsFinalizer (p_Meta p) pluginFinalizer = true →
  w ∈ pls_Workloads (p_Spec p) → pods_of (workload_of c w) ≠ 0 →
  pass_result c = Ok (mkResult drainRequeueInterval) ∧ terminating (pass c).
Proof.
  intros Ht [t Hdel] Hf Hw Hpod. unfold pass, pass_result, Reconcile.
  rewrite exec_bind, exec_ask. cbn [sv_answer api_server]. rewrite get_plugin, Ht, Hdel. cbn iota beta.
  unfold finalize. rewrite Hf. cbn [negb]. rewrite exec_try.
  destruct (drain_exec c) as (c' & draining & -> & [Hpl Hpods Hsc Hd]).
  assert (draining = true) as -> by (apply Hd; exists w; split; [done|]; by rewrite Hpods).
  split; [done|]. unfold terminating. cbn. by rewrite Hpl.
Qed.

(** *** The rounds *)
Lemma environment_pods c d :
  environment c d → all_scaled_down c → pods c ≠ 0 → all_scaled_down d ∧ pods d < pods c.
Proof.
  intros [Hp Hw] Hsc Hne.
  assert (∀ w, w ∈ pls_Workloads (p_Spec p) → scaled_down (workload_of d w) ∧
    (pods_of (workload_of d w) < pods_of (workload_of c w) ∨ pods_of (workload_of d w) = 0)) as Hws.
  { intros w Hin. destruct (workload_of d w) as [dep'|] eqn:Hd; [|split; [done|by right]].
    destruct (Hw w dep' Hin Hd) as (dep & Hc & Hr & Hst). specialize (Hsc w Hin dep Hc).
    rewrite Hc. cbn. split; [intros ? [= <-]; congruence|]. destruct (Hst Hsc); lia. }
  split; [intros w Hin; by apply Hws|]. apply sum_list_with_strict; [|done].
  intros w Hin. by apply Hws.
Qed.

Lemma teardown_rounds (run : nat → C) k :
  is_Some (om_DeletionTimestamp (p_Meta p)) → terminating (run 0) → (∀ n, round (run n) (run (S n))) →
  pods (run 0) ≤ k →
  ∃ n, n ≤ pods (run 0) ∧ released (pass (run n)) ∧
    ∀ m, m < n → pass_result (run m) = Ok (mkResult drainRequeueInterval).
Proof.
  intros Hdel. revert run. induction k as [|k IH]; intros run Ht Hround Hk;
    (destruct (pass_terminating (run 0) Ht Hdel) as [(Hr & Ht' & Hsc & Hpods & Hne)|Hrel];
      [|exists 0; split_and!; [lia|done|lia]]); [lia|].
  destruct (environment_pods _ _ (Hround 0) Hsc) as [_ Hlt]; [by rewrite Hpods|].
  destruct (IH (λ n, run (S n))) as (n & Hn & Hrel & Hm).
  - unfold terminating. by rewrite (env_plugin _ _ (Hround 0)).
  - intros n. apply Hround.
  - lia.
  - exists (S n). split_and!; [lia|done|]. intros [|m] Hmn; [done|]. apply Hm. lia.
Qed.
End teardown.

(** C2: a deleted plugin is let go: however many workloads it has and whatever
    their state, if the API server works and the Deployment controller keeps
    stopping the pods of Deployments scaled to zero, some pass takes the finalizer
    away, after at most as many earlier passes as there were pods; each of the
    earlier ones asked to be run again. *)
Theorem teardown_terminates `{KubeLib} {C} `{!ApiServer C} quote p ns name (run : nat → C) :
  is_Some (om_DeletionTimestamp (p_Meta p)) → terminating p ns name (run 0) →
  (∀ n, round quote p ns name (run n) (run (S n))) →
  ∃ n, n ≤ pods p (run 0) ∧ released ns name (pass quote ns name (run n)) ∧
    ∀ m, m < n → pass_result quote ns name (run m) = Ok (mkResult drainRequeueInterval).
Proof. intros. by eapply teardown_rounds. Qed.

(** ** A reference API server *)
Module RefServer.
Record cluster := mkCluster {
  plugins : gmap (string * string) JellyfinPlugin;
  deployments : gmap (string * string) Deployment;
}.

Definition named (ns n : string) (m : ObjectMeta) : bool :=
  bool_decide (om_Namespace m = ns) && bool_decide (om_Name m = n).
Definition key (m : ObjectMeta) : string * string := (om_Namespace m, om_Name m).

Definition plugin_at (c : cluster) (ns n : string) : option JellyfinPlugin :=
  p ← plugins c !! (ns, n); if named ns n (p_Meta p) then Some p else None.
Definition deployment_at (c : cluster) (ns n : string) : option Deployment :=
  d ← deployments c !! (ns, n); if named ns n (dep_Meta d) then Some d else None.

(** The calls the teardown makes; the others fail. *)
Definition answer (R : Type) (x : call R) (c : cluster) : R * cluster :=
  match x in call R return R * cluster with
  | GetPlugin ns n => (match plugin_at c ns n with Some p => Ok p | None => Err NotFound end, c)
  | GetDeployment ns n => (match deployment_at c ns n with Some d => Ok d | None => Err NotFound end, c)
  | UpdateDeployment d =>
      match deployment_at c (om_Namespace (dep_Meta d)) (om_Name (dep_Meta d)) with
      | Some d0 =>
          let d := mkDeployment (dep_Meta d) (dep_Replicas d) (dep_Selector d) (dep_Strategy d)
                     (dep_Template d) (dep_Status d0) in
          (Ok d, mkCluster (plugins c) (<[key (dep_Meta d) := d]> (deployments c)))
      | None => (Err NotFound, c)
      end
  | DeleteDeployment ns n => (Ok tt, mkCluster (plugins c) (delete (ns, n) (deployments c)))
  | UpdatePlugin p =>
      let k := key (p_Meta p) in
      match plugin_at c k.1 k.2 with
      | Some p0 =>
          if decide (is_Some (om_DeletionTimestamp (p_Meta p0)) ∧ om_Finalizers (p_Meta p) = [])
          then (Ok p, mkCluster (delete k (plugins c)) (deployments c))
          else (Ok p, mkCluster (<[k := p]> (plugins c)) (deployments c))
      | None => (Err NotFound, c)
      end
  | GetJellyfin _ _ | StatusUpdateJellyfin _ => (Err OtherApiError, c)
  | ListJellyfins _ => (Err OtherApiError, c)
  | ListPlugins _ => (Err OtherApiError, c)
  | ListDeployments _ _ => (Err OtherApiError, c)
  | StatusUpdatePlugin _ => (Err OtherApiError, c)
  | GetPersistentVolume _ => (Err OtherApiError, c)
  | DeleteService _ _ | DeleteIngress _ _ | DeleteHTTPRoute _ _ | DeletePersistentVolume _ =>
      (Err OtherApiError, c)
  | UpsertDeployment _ _ _ => (Err (Api OtherApiError), c)
  | UpsertService _ _ _ => (Err (Api OtherApiError), c)
  | UpsertIngress _ _ _ => (Err (Api OtherApiError), c)
  | UpsertHTTPRoute _ _ _ => (Err (Api OtherApiError), c)
  | UpsertPVC _ _ _ => (Err (Api OtherApiError), c)
  | UpsertPersistentVolume _ _ => (Err (Api OtherApiError), c)
  | PatchPVC _ _ => (Err OtherApiError, c)
  | GetSecret _ _ => (Err OtherApiError, c)
  | UpsertSecret _ _ _ => (Err (Api OtherApiError), c)
  | Http _ => (Err "", c)
  | RandRead _ => (None, c)
  end.

Lemma named_true ns n m : named ns n m = true ↔ om_Namespace m = ns ∧ om_Name m = n.
Proof. unfold named. by rewrite andb_true_iff, !bool_decide_eq_true. Qed.

Lemma deployment_at_Some c ns n d :
  deployment_at c ns n = Some d → om_Namespace (dep_Meta d) = ns ∧ om_Name (dep_Meta d) = n.
Proof.
  unfold deployment_at. destruct (deployments c !! (ns, n)) as [d0|]; cbn; [|done].
  destruct (named ns n (dep_Meta d0)) eqn:Hn; [|done]. intros [= <-]. by apply named_true.
Qed.

Lemma plugin_at_Some c ns n p :
  plugin_at c ns n = Some p → om_Namespace (p_Meta p) = ns ∧ om_Name (p_Meta p) = n.
Proof.
  unfold plugin_at. destruct (plugins c !! (ns, n)) as [p0|]; cbn; [|done].
  destruct (named ns n (p_Meta p0)) eqn:Hn; [|done]. intros [= <-]. by apply named_true.
Qed.

#[export] Program Instance reference_api_server : ApiServer cluster := {
  cl_plugin := plugin_at; cl_deployment := deployment_at; cl_answer := answer;
  deployment_key := deployment_at_Some; plugin_key := plugin_at_Some;
}.
Next Obligation. done. Qed.
Next Obligation. done. Qed.
Next Obligation.
  intros c ns n d0 d Hd Hm. destruct (deployment_at_Some _ _ _ _ Hd) as [Hns Hn].
  cbn. rewrite Hm, Hns, Hn, Hd. do 2 eexists. split_and!; [reflexivity|done|done| |done].
  intros ns' n'. unfold deployment_at. cbn. unfold key. rewrite Hns, Hn.
  case_decide as Hk; [|by rewrite lookup_insert_ne].
  injection Hk as -> ->. rewrite lookup_insert_eq. cbn.
  by rewrite (proj2 (named_true ns n (dep_Meta d0))).
Qed.
Next Obligation. intros c ns n. do 2 eexists. split_and!; [reflexivity|by left|done]. Qed.
Next Obligation.
  intros c ns n p0 p Hp Hns Hn Hdel. cbn. unfold key. rewrite Hns, Hn. cbn. rewrite Hp.
  case_decide as Hfin; do 2 eexists; (split_and!; [reflexivity|..]).
  - intros _. unfold plugin_at. cbn. by rewrite lookup_delete_eq.
  - unfold plugin_at. cbn. by rewrite lookup_delete_eq.
  - intros Hf. by destruct Hfin.
  - intros q. unfold plugin_at. cbn. rewrite lookup_insert_eq. cbn. by destruct (named _ _ _); [intros [= <-]|].
Qed.
End RefServer.
Import RefServer.

(** A cluster in which a deleted plugin has one workload of three pods, and a
    Deployment controller that stops one of them after each pass. *)
Module Example_teardown.
Definition plugin : JellyfinPlugin :=
  set_p_Meta {| om_Name := "shoko"; om_Namespace := "media"; om_UID := ""; om_Generation := 1;
     om_CreationTimestamp := None; om_DeletionTimestamp := Some 1%Z; om_Labels := ∅; om_Annotations := ∅;
     om_Finalizers := [pluginFinalizer]; om_OwnerReferences := [] |} (Example_controller.plugin "").
Definition start : cluster :=
  mkCluster {[ ("media", "shoko") := plugin ]} {[ ("media", "shoko-worker") := Example_controller.running 3 ]}.
Definition stop_pod (d : Deployment) : Deployment :=
  let s := dep_Status d in
  mkDeployment (dep_Meta d) (dep_Replicas d) (dep_Selector d) (dep_Strategy d) (dep_Template d)
    (mkDepStatus (ds_Replicas s - 1) (ds_ReadyReplicas s) (ds_AvailableReplicas s)).
Definition stop_pods (c : cluster) : cluster := mkCluster (plugins c) (stop_pod <$> deployments c).
Fixpoint at_round (n : nat) : cluster :=
  match n with
  | 0 => start
  | S n => stop_pods (pass Example_controller.quote "media" "shoko" (at_round n))
  end.

Lemma stop_pods_environment c : environment plugin "media" "shoko" c (stop_pods c).
Proof.
  split; [done|]. intros w dep' _. unfold workload_of. cbn. unfold deployment_at. cbn.
  rewrite lookup_fmap. destruct (deployments c !! _) as [dep|]; cbn; [|done].
  destruct (named _ _ (dep_Meta dep)); [|done]. intros [= <-]. exists dep. split_and!; [done|done|].
  intros _. left. cbn. lia.
Qed.
End Example_teardown.

Lemma teardown_terminates_witness :
  ∃ n, n ≤ 3 ∧ released "media" "shoko" (pass Example_controller.quote "media" "shoko" (Example_teardown.at_round n)).
Proof.
  destruct (teardown_terminates Example_controller.quote Example_teardown.plugin "media" "shoko"
              Example_teardown.at_round) as (n & Hn & Hrel & _).
  - by eexists.
  - reflexivity.
  - intros n. apply Example_teardown.stop_pods_environment.
  - exists n. by split.
Defined.
