(* ===== verification/JellyfinController.v ===== *)
(** * The instance controller (internal/controller/jellyfin_controller.go)

    Reconciling one Jellyfin: its claims and volumes, the server Deployment and
    Service, the Ingress, the web tier, the gateway route and the status. *)
From S2P Require Import Prelude GoStrings K8s ApiTypes Naming Builder Web Workloads Gateway Kube Bindings PluginController.

(** Sizes written with the binary suffixes of [resource.Quantity]. *)
Definition Gi (n : Z) : Quantity := (n * 1073741824)%Z.
Definition Ti (n : Z) : Quantity := (n * 1099511627776)%Z.

(** Objects with only their key, before the mutation fills them in. *)
Definition set_pvcl (m : ObjectMeta) (modes : list string) (requests : gmap string Quantity)
    (sc : option string) (volume : string) (pvc : PersistentVolumeClaim) : PersistentVolumeClaim :=
  mkPVC m modes requests sc volume (pvcl_Phase pvc).

Definition set_jf_Status (s : JellyfinStatus) (jf : Jellyfin) : Jellyfin :=
  mkJellyfin (jf_Meta jf) (jf_Spec jf) s.

Section controller.
Context `{KubeLib}.
(** The [%q] verb, used in error messages only. *)
Context (quote : string → string).

Definition own_instance (jf : Jellyfin) (m : ObjectMeta) : result Error ObjectMeta :=
  own "Jellyfin" (jf_Meta jf) m.

(** ** Claims *)
Definition pvc_mutation (jf : Jellyfin) (spec : PVCSpec) (size : Quantity) (modes : list string)
    (pvc : PersistentVolumeClaim) : result Error PersistentVolumeClaim :=
  let meta := set_om_Labels (InstanceLabels jf) (pvcl_Meta pvc) in
  meta ← own_instance jf meta;
  match om_CreationTimestamp (pvcl_Meta pvc) with
  | None =>
      Ok (set_pvcl meta modes {[ ResourceStorage := size ]}
            (if decide (pvc_StorageClassName spec ≠ "") then Some (pvc_StorageClassName spec)
             else pvcl_StorageClassName pvc)
            (pvcl_VolumeName pvc) pvc)
  | Some _ =>
      Ok (set_pvcl meta (pvcl_AccessModes pvc) (pvcl_Requests pvc) (pvcl_StorageClassName pvc)
            (pvcl_VolumeName pvc) pvc)
  end.

Definition grown (pvc : PersistentVolumeClaim) (size : Quantity) : PersistentVolumeClaim :=
  set_pvcl (pvcl_Meta pvc) (pvcl_AccessModes pvc) (<[ResourceStorage := size]> (pvcl_Requests pvc))
    (pvcl_StorageClassName pvc) (pvcl_VolumeName pvc) pvc.

Definition growPVC (pvc : PersistentVolumeClaim) (size : Quantity) : M unit :=
  let patch :=
    if decide (pvcl_Phase pvc ≠ ClaimBound) then ok tt
    else
      r ← ask (PatchPVC pvc (grown pvc size));
      match r with
      | Ok _ => ok tt
      | Err e => if decide (e = Forbidden ∨ e = Invalid) then ok tt else throw (Api e)
      end in
  match pvcl_Requests pvc !! ResourceStorage with
  | Some cur => if decide (size = cur) then ok tt
                else if decide (size < cur)%Z then ok tt else patch
  | None => patch
  end.

Definition ensurePVC (jf : Jellyfin) (name : string) (spec : PVCSpec) (defaultModes : list string)
    (defaultSize : Quantity) : M unit :=
  let size := if decide (pvc_Size spec = 0%Z) then defaultSize else pvc_Size spec in
  let modes := if decide (pvc_AccessModes spec = []) then defaultModes else pvc_AccessModes spec in
  pvc ←! ask (UpsertPVC (jf_Namespace jf) name (pvc_mutation jf spec size modes));
  growPVC pvc size.

(** ** Provisioned NFS volumes *)
Definition format_bool (b : bool) : string := if b then "true" else "false".

Definition immutablePVDrift (pv : PersistentVolume) (want : NFSVolumeSource) (storageClass : string) : string :=
  match pv_NFS pv with
  | None => "a non-NFS volume source"
  | Some got =>
      if decide (nfss_Server got ≠ nfss_Server want) then
        "nfs.server " +:+ quote (nfss_Server got) +:+ ", but the spec asks for " +:+ quote (nfss_Server want)
      else if decide (nfss_Path got ≠ nfss_Path want) then
        "nfs.path " +:+ quote (nfss_Path got) +:+ ", but the spec asks for " +:+ quote (nfss_Path want)
      else if decide (nfss_ReadOnly got ≠ nfss_ReadOnly want) then
        "nfs.readOnly=" +:+ format_bool (nfss_ReadOnly got) +:+ ", but the spec asks for "
        +:+ format_bool (nfss_ReadOnly want)
      else if decide (pv_StorageClassName pv ≠ storageClass) then
        "storageClassName " +:+ quote (pv_StorageClassName pv) +:+ ", but the spec asks for " +:+ quote storageClass
      else ""
  end.

Definition pvIsServingAClaim (pv : PersistentVolume) : bool :=
  match pv_ClaimRef pv with
  | None => false
  | Some r => if decide (cr_UID r = "") then false
              else bool_decide (pv_Phase pv = VolumeBound ∨ pv_Phase pv = VolumePending)
  end.

(** Pre-bind to the claim, unless the reference already names it. *)
Definition claim_ref (ns claim : string) (cur : option ClaimReference) : option ClaimReference :=
  match cur with
  | Some r => if decide (cr_Namespace r ≠ ns ∨ cr_Name r ≠ claim) then Some (mkClaimRef ns claim "") else Some r
  | None => Some (mkClaimRef ns claim "")
  end.

Definition pv_mutation (jf : Jellyfin) (nfs : NFSSource) (claim : string) (pv : PersistentVolume)
    : result Error PersistentVolume :=
  Ok (mkPV (set_om_Labels (InstanceLabels jf) (pv_Meta pv)) {[ ResourceStorage := Ti 1 ]} [ReadWriteMany]
        PersistentVolumeReclaimDelete (nfs_MountOptions nfs) (nfs_StorageClassName nfs)
        (Some (mkNFSSource (nfs_Server nfs) (nfs_Path nfs) (nfs_ReadOnly nfs)))
        (claim_ref (jf_Namespace jf) claim (pv_ClaimRef pv)) (pv_Phase pv)).

Definition nfs_pvc_mutation (jf : Jellyfin) (nfs : NFSSource) (pvName : string)
    (pvc : PersistentVolumeClaim) : result Error PersistentVolumeClaim :=
  meta ← own_instance jf (set_om_Labels (InstanceLabels jf) (pvcl_Meta pvc));
  match om_CreationTimestamp (pvcl_Meta pvc) with
  | None => Ok (set_pvcl meta [ReadWriteMany] {[ ResourceStorage := Ti 1 ]}
                  (Some (nfs_StorageClassName nfs)) pvName pvc)
  | Some _ => Ok (set_pvcl meta (pvcl_AccessModes pvc) (pvcl_Requests pvc) (pvcl_StorageClassName pvc)
                    (pvcl_VolumeName pvc) pvc)
  end.

(** The look at an existing volume before writing: its drift decides. *)
Definition checkVolume (pvName : string) (nfs : NFSSource) : M unit :=
  r ← ask (GetPersistentVolume pvName);
  match r with
  | Err NotFound => ok tt
  | Err e => throw (Api e)
  | Ok existing =>
      let want := mkNFSSource (nfs_Server nfs) (nfs_Path nfs) (nfs_ReadOnly nfs) in
      let drift := immutablePVDrift existing want (nfs_StorageClassName nfs) in
      if decide (drift ≠ "") then
        if pvIsServingAClaim existing then throw (VolumeInUse pvName drift)
        else
          _ ←! delete_if_present (DeletePersistentVolume (om_Name (pv_Meta existing)));
          throw (ReplacingVolume pvName drift)
      else ok tt
  end.

(** [nfs] is the folder's non-nil NFS source. *)
Definition ensureProvisionedNFS (jf : Jellyfin) (mf : MediaFolder) (nfs : NFSSource) : M unit :=
  let claim := MediaClaimName jf mf in
  let pvName := claim +:+ "-pv" in
  _ ←! checkVolume pvName nfs;
  _ ←! ask (UpsertPersistentVolume pvName (pv_mutation jf nfs claim));
  _ ←! ask (UpsertPVC (jf_Namespace jf) claim (nfs_pvc_mutation jf nfs pvName));
  ok tt.

(** ** All the storage of an instance *)
Definition reconcileMedia (jf : Jellyfin) (mf : MediaFolder) : M unit :=
  if decide (mf_ExistingClaim mf ≠ "") then ok tt
  else match mf_NFS mf with
  | Some nfs => if nfs_Provision nfs then ensureProvisionedNFS jf mf nfs else ok tt
  | None =>
      match mf_PVC mf with
      | Some pvc => if decide (pvc_ExistingClaim pvc = "")
                    then ensurePVC jf (MediaClaimName jf mf) pvc [ReadWriteOnce] (Gi 100) else ok tt
      | None => ok tt
      end
  end.

Definition ensure_optional (jf : Jellyfin) (name : string) (spec : option PVCSpec) (size : Quantity) : M unit :=
  match spec with
  | Some c => if decide (pvc_ExistingClaim c = "") then ensurePVC jf name c [ReadWriteOnce] size else ok tt
  | None => ok tt
  end.

Definition reconcileStorage (jf : Jellyfin) : M unit :=
  let st := js_Storage (jf_Spec jf) in
  _ ←! ensure_optional jf (ConfigClaimName jf) (Some (st_Config st)) (Gi 10);
  _ ←! ensure_optional jf (CacheClaimName jf) (st_Cache st) (Gi 5);
  _ ←! ensure_optional jf (TrickplayClaimName jf) (st_Trickplay st) (Gi 20);
  for_each (reconcileMedia jf) (st_Media st).

(** ** The server *)
Definition deployment_mutation (jf : Jellyfin) (desired dep : Deployment) : result Error Deployment :=
  meta ← own_instance jf (set_om_Labels (om_Labels (dep_Meta desired)) (dep_Meta dep));
  Ok (mkDeployment meta (dep_Replicas desired) (dep_Selector desired) (dep_Strategy desired)
        (dep_Template desired) (dep_Status dep)).

Definition reconcileDeployment (σ : Store) (jf : Jellyfin) (healthy : list JellyfinPlugin) : M Store :=
  desired ←! Ret (wrap_err Build (BuildDeployment σ jf healthy));
  _ ←! ask (UpsertDeployment (jf_Namespace jf) (jf_Name jf) (deployment_mutation jf desired.2));
  ok desired.1.

Definition service_port (jf : Jellyfin) : Z :=
  if decide (ss_Port (js_Service (jf_Spec jf)) ≠ 0%Z) then ss_Port (js_Service (jf_Spec jf))
  else DefaultJellyfinPort.

Definition server_service_mutation (jf : Jellyfin) (svc : Service) : result Error Service :=
  let spec := js_Service (jf_Spec jf) in
  meta ← own_instance jf (set_om_Annotations (ss_Annotations spec)
                            (set_om_Labels (InstanceLabels jf) (svc_Meta svc)));
  Ok (mkService meta (or_default ServiceTypeClusterIP (ss_Type spec)) (InstanceSelectorLabels jf)
        [mkSvcPort "http" (service_port jf) DefaultJellyfinPort ProtocolTCP]).

Definition reconcileService (jf : Jellyfin) : M unit :=
  _ ←! ask (UpsertService (jf_Namespace jf) (jf_Name jf) (server_service_mutation jf));
  ok tt.

(** ** Ingress *)
Definition ingress_mutation (jf : Jellyfin) (spec : IngressSpec) (ing : Ingress) : result Error Ingress :=
  meta ← own_instance jf (set_om_Annotations (is_Annotations spec)
                            (set_om_Labels (InstanceLabels jf) (ing_Meta ing)));
  Ok (mkIngress meta
        (if decide (is_ClassName spec ≠ "") then Some (is_ClassName spec) else ing_ClassName ing)
        [mkIngressRule (is_Host spec) "/" PathTypePrefix (jf_Name jf) (service_port jf)]
        (match is_TLS spec with
         | Some tls => [mkIngressTLSEntry [is_Host spec] (itls_SecretName tls)]
         | None => ing_TLS ing
         end)).

Definition reconcileIngress (jf : Jellyfin) : M unit :=
  match js_Ingress (jf_Spec jf) with
  | None => delete_if_present (DeleteIngress (jf_Namespace jf) (jf_Name jf))
  | Some spec =>
      _ ←! ask (UpsertIngress (jf_Namespace jf) (jf_Name jf) (ingress_mutation jf spec));
      ok tt
  end.

(** ** Web tier *)
Definition web_service_mutation (jf : Jellyfin) (desired svc : Service) : result Error Service :=
  meta ← own_instance jf (set_om_Annotations (om_Annotations (svc_Meta desired))
                            (set_om_Labels (om_Labels (svc_Meta desired)) (svc_Meta svc)));
  Ok (mkService meta (svc_Type desired) (svc_Selector desired) (svc_Ports desired)).

Definition reconcileWeb (jf : Jellyfin) : M unit :=
  let ns := jf_Namespace jf in
  if decide (js_Web (jf_Spec jf) = None ∨ EffectiveMode (js_Web (jf_Spec jf)) = WebModeVolume) then
    _ ←! delete_if_present (DeleteDeployment ns (WebDeploymentName jf));
    delete_if_present (DeleteService ns (WebServiceName jf))
  else
    desired ←! Ret (wrap_err Panicked (BuildWebDeployment jf));
    _ ←! ask (UpsertDeployment ns (WebDeploymentName jf) (deployment_mutation jf desired));
    _ ←! ask (UpsertService ns (WebServiceName jf) (web_service_mutation jf (BuildWebService jf)));
    ok tt.

(** ** Gateway route *)
Definition route_mutation (jf : Jellyfin) (desired route : HTTPRoute) : result Error HTTPRoute :=
  meta ← own_instance jf (set_om_Annotations (om_Annotations (hr_Meta desired))
                            (set_om_Labels (om_Labels (hr_Meta desired)) (hr_Meta route)));
  Ok (mkHTTPRoute meta (hr_ParentRefs desired) (hr_Hostnames desired) (hr_Rules desired)).

Definition reconcileGateway (jf : Jellyfin) : M unit :=
  match js_Gateway (jf_Spec jf) with
  | None => delete_if_present (DeleteHTTPRoute (jf_Namespace jf) (HTTPRouteName jf))
  | Some _ =>
      desired ←! Ret (wrap_err Panicked (BuildHTTPRoute jf));
      _ ←! ask (UpsertHTTPRoute (jf_Namespace jf) (HTTPRouteName jf) (route_mutation jf desired));
      ok tt
  end.

(** ** Status *)
Definition loaded_plugin (p : JellyfinPlugin) : LoadedPlugin :=
  let m := pls_Meta (p_Spec p) in
  mkLoadedPlugin (p_Name p) (pm_Name m) (pm_Version m) (pm_GUID m).

Definition service_endpoint (jf : Jellyfin) : string :=
  "http://" +:+ jf_Name jf +:+ "." +:+ jf_Namespace jf +:+ ".svc:" +:+ pretty (service_port jf).

Definition ingress_endpoint (jf : Jellyfin) (old : string) : string :=
  match js_Ingress (jf_Spec jf) with
  | Some ing => (match is_TLS ing with Some _ => "https" | None => "http" end) +:+ "://" +:+ is_Host ing
  | None => old
  end.

Definition deployment_ready (r : result ApiError Deployment) : bool :=
  match r with
  | Ok dep =>
      let desired := default 1%Z (dep_Replicas dep) in
      (desired <=? ds_AvailableReplicas (dep_Status dep))%Z && (0 <? desired)%Z
  | Err _ => false
  end.

Definition instance_status (jf : Jellyfin) (healthy : list JellyfinPlugin) (ready : bool) : JellyfinStatus :=
  let s := jf_Status jf in
  let gen := om_Generation (jf_Meta jf) in
  let loaded := loaded_plugin <$> healthy in
  let '(phase, conds) :=
    if ready then
      ("Ready",
       setCondition
         (setCondition (jst_Conditions s) conditionReady ConditionTrue "DeploymentAvailable"
            "Jellyfin deployment is available" gen)
         conditionPluginsLoaded ConditionTrue "PodReady"
         (pretty (Z.of_nat (length loaded)) +:+ " plugin(s) mounted") gen)
    else
      ("Pending",
       setCondition
         (setCondition (jst_Conditions s) conditionReady ConditionFalse "DeploymentNotAvailable"
            "Waiting for Jellyfin deployment to become available" gen)
         conditionPluginsLoaded ConditionFalse "PodNotReady" "Pod not yet ready" gen) in
  mkJellyfinStatus phase gen
    (mkEndpoints (service_endpoint jf) (ingress_endpoint jf (ie_Ingress (jst_Endpoints s))))
    loaded (jst_APICredentialsSecret s) (jst_ManagedLibraries s) conds.

Definition updateInstanceStatus `{RetryLib} (jf : Jellyfin) (healthy : list JellyfinPlugin) : M unit :=
  r ← ask (GetDeployment (jf_Namespace jf) (jf_Name jf));
  writeJellyfinStatus (set_jf_Status (instance_status jf healthy (deployment_ready r)) jf).

(** ** The whole reconcile *)
Definition reconcileInstance `{RetryLib} (σ : Store) (jf : Jellyfin) : M Result :=
  bound ←! BoundPlugins jf;
  let healthy := HealthyPlugins bound in
  _ ←! in_context "storage" (reconcileStorage jf);
  _ ←! in_context "deployment" (reconcileDeployment σ jf healthy);
  _ ←! in_context "service" (reconcileService jf);
  _ ←! in_context "ingress" (reconcileIngress jf);
  _ ←! in_context "web" (reconcileWeb jf);
  _ ←! in_context "gateway" (reconcileGateway jf);
  _ ←! updateInstanceStatus jf healthy;
  ok Result_zero.

Definition ReconcileJellyfin `{RetryLib} (σ : Store) (ns name : string) : M Result :=
  r ← ask (GetJellyfin ns name);
  match r with
  | Err NotFound => ok Result_zero
  | Err e => throw (Api e)
  | Ok jf => if om_DeletionTimestamp (jf_Meta jf) then ok Result_zero else reconcileInstance σ jf
  end.
End controller.

(** ** Growing a claim *)
Section grow.
Context `{KubeLib}.
Implicit Types (pvc : PersistentVolumeClaim) (size : Quantity).

Definition grow_inv (pvc : PersistentVolumeClaim) (size : Quantity) : call_inv := λ R tr c,
  match c with
  | PatchPVC old new =>
      old = pvc ∧ new = grown pvc size ∧ pvcl_Phase pvc = ClaimBound ∧
      ∀ cur, pvcl_Requests pvc !! ResourceStorage = Some cur → (cur < size)%Z
  | _ => False
  end.

Lemma growPVC_always pvc size tr :
  always (grow_inv pvc size)
    (post (λ _ _, True)
       (λ tr e, ∃ e', e = Api e' ∧ e' ≠ Forbidden ∧ e' ≠ Invalid ∧
          Ev (PatchPVC pvc (grown pvc size)) (Err e') ∈ tr)) tr (growPVC pvc size).
Proof.
  unfold growPVC.
  assert (Hpatch : (∀ cur, pvcl_Requests pvc !! ResourceStorage = Some cur → (cur < size)%Z) →
    always (grow_inv pvc size)
      (post (λ _ _, True)
         (λ tr e, ∃ e', e = Api e' ∧ e' ≠ Forbidden ∧ e' ≠ Invalid ∧
            Ev (PatchPVC pvc (grown pvc size)) (Err e') ∈ tr)) tr
      (if decide (pvcl_Phase pvc ≠ ClaimBound) then ok tt
       else r ← ask (PatchPVC pvc (grown pvc size));
            match r with
            | Ok _ => ok tt
            | Err e => if decide (e = Forbidden ∨ e = Invalid) then ok tt else throw (Api e)
            end)).
  { intros Hlt. destruct (decide (pvcl_Phase pvc = ClaimBound)) as [Hb|Hb];
      [rewrite decide_False by tauto|by rewrite decide_True by done].
    split; [done|]. intros [?|e]; cbn; [done|]. case_decide as He; [done|].
    apply Decidable.not_or in He as [??]. exists e. split_and!; [done..|]. apply elem_of_last. }
  destruct (pvcl_Requests pvc !! ResourceStorage) as [cur|] eqn:Hcur; [|by apply Hpatch].
  destruct (decide (size = cur)); [done|]. destruct (decide (size < cur)%Z); [done|].
  apply Hpatch. intros ? [= <-]. lia.
Qed.

Lemma grown_spec pvc size :
  pvcl_Requests (grown pvc size) !! ResourceStorage = Some size ∧
  (∀ k, k ≠ ResourceStorage → pvcl_Requests (grown pvc size) !! k = pvcl_Requests pvc !! k).
Proof. split; [apply lookup_insert_eq|]. intros k Hk. by apply lookup_insert_ne. Qed.
End grow.

(** ** Volumes and their claims *)
Section nfs.
Context `{KubeLib} (quote : string → string).
Implicit Types (pv : PersistentVolume) (nfs : NFSSource) (jf : Jellyfin) (mf : MediaFolder).

Definition wanted_nfs (nfs : NFSSource) : NFSVolumeSource :=
  mkNFSSource (nfs_Server nfs) (nfs_Path nfs) (nfs_ReadOnly nfs).

(** The immutable fields of the volume are what the spec asks for. *)
Definition pv_matches (pv : PersistentVolume) (nfs : NFSSource) : Prop :=
  pv_NFS pv = Some (wanted_nfs nfs) ∧ pv_StorageClassName pv = nfs_StorageClassName nfs.

Lemma immutablePVDrift_spec pv nfs :
  immutablePVDrift quote pv (wanted_nfs nfs) (nfs_StorageClassName nfs) = "" ↔ pv_matches pv nfs.
Proof.
  unfold immutablePVDrift, pv_matches, wanted_nfs. destruct (pv_NFS pv) as [[s q r]|]; cbn; [|naive_solver].
  repeat case_decide; (split; [try discriminate|]); intros; destruct_and?; simplify_eq; try done.
Qed.

Definition nfs_inv jf mf nfs : call_inv := λ R tr c,
  let claim := MediaClaimName jf mf in
  let pvName := claim +:+ "-pv" in
  match c with
  | GetPersistentVolume n => n = pvName
  | DeletePersistentVolume n =>
      ∃ pv, Ev (GetPersistentVolume pvName) (Ok pv) ∈ tr ∧ n = om_Name (pv_Meta pv) ∧
        ¬ pv_matches pv nfs ∧ pvIsServingAClaim pv = false
  | UpsertPersistentVolume n f =>
      n = pvName ∧ f = pv_mutation jf nfs claim ∧
      (Ev (GetPersistentVolume pvName) (Err NotFound) ∈ tr ∨
       ∃ pv, Ev (GetPersistentVolume pvName) (Ok pv) ∈ tr ∧ pv_matches pv nfs)
  | UpsertPVC ns n f =>
      ns = jf_Namespace jf ∧ n = claim ∧ f = nfs_pvc_mutation jf nfs pvName ∧
      ∃ pv, Ev (UpsertPersistentVolume pvName (pv_mutation jf nfs claim)) (Ok pv) ∈ tr
  | _ => False
  end.

Lemma checkVolume_always jf mf nfs tr :
  let pvName := MediaClaimName jf mf +:+ "-pv" in
  always (nfs_inv jf mf nfs)
    (on_ok (λ tr _, Ev (GetPersistentVolume pvName) (Err NotFound) ∈ tr ∨
       ∃ pv, Ev (GetPersistentVolume pvName) (Ok pv) ∈ tr ∧ pv_matches pv nfs))
    tr (checkVolume quote pvName nfs).
Proof.
  intros pvName. split; [done|]. intros [pv|e].
  - cbn [prog_mbind prog_bind]. fold (wanted_nfs nfs). case_decide as Hd.
    + rewrite immutablePVDrift_spec in Hd. destruct (pvIsServingAClaim pv) eqn:Hs; [done|].
      apply always_try, always_delete; [|done|done].
      exists pv. split_and!; [apply elem_of_last|done..].
    + apply immutablePVDrift_spec in Hd. right. exists pv.
      split; [apply elem_of_last|done].
  - destruct e; try done. left. apply elem_of_last.
Qed.

Lemma ensureProvisionedNFS_always jf mf nfs tr :
  always (nfs_inv jf mf nfs)
    (on_ok (λ tr _, ∃ f pvc, Ev (UpsertPVC (jf_Namespace jf) (MediaClaimName jf mf) f) (Ok pvc) ∈ tr))
    tr (ensureProvisionedNFS quote jf mf nfs).
Proof.
  unfold ensureProvisionedNFS. cbv zeta. apply always_try.
  eapply always_mono; [apply checkVolume_always|]. intros tr1 [[]|e]; [|done].
  cbn [on_ok post]. intros Hseen. apply always_try, always_ask; [done|].
  intros [pv|e]; [|done]. cbn [post]. apply always_try, always_ask.
  - split_and!; [done..|]. exists pv. apply elem_of_last.
  - intros [pvc|e]; [|done]. cbn. do 2 eexists. apply elem_of_last.
Qed.

(** The mutation keeps what the server would reject or the binder has stamped. *)
Lemma pv_mutation_spec jf nfs claim pv :
  ∃ pv', pv_mutation jf nfs claim pv = Ok pv' ∧ pv_matches pv' nfs ∧
    (pv_matches pv nfs → pv_NFS pv' = pv_NFS pv ∧ pv_StorageClassName pv' = pv_StorageClassName pv) ∧
    (∀ r, pv_ClaimRef pv = Some r → cr_Namespace r = jf_Namespace jf → cr_Name r = claim →
       pv_ClaimRef pv' = Some r) ∧
    (∃ r, pv_ClaimRef pv' = Some r ∧ cr_Namespace r = jf_Namespace jf ∧ cr_Name r = claim).
Proof.
  eexists. split; [reflexivity|]. cbn. split_and!; [done| | |].
  - by intros [-> ->].
  - intros r Hr Hns Hn. unfold claim_ref. rewrite Hr, decide_False; [done|]. tauto.
  - unfold claim_ref. destruct (pv_ClaimRef pv) as [r|]; [|by eexists].
    case_decide as Hd; [by eexists|]. exists r. split; [done|].
    destruct (decide (cr_Namespace r = jf_Namespace jf)), (decide (cr_Name r = claim)); tauto.
Qed.
End nfs.

(** ** Ownership *)
Section ownership.
Context `{KubeLib}.
Implicit Types (jf : Jellyfin).

(** A mutation that keeps the object's identity and makes the instance its controller. *)
Definition keeps_and_owns {O} (jf : Jellyfin) (meta : O → ObjectMeta) (f : O → result Error O) : Prop :=
  ∀ cur new, f cur = Ok new →
    om_Name (meta new) = om_Name (meta cur) ∧ om_Namespace (meta new) = om_Namespace (meta cur) ∧
    mkOwnerRef "Jellyfin" (jf_Name jf) (om_UID (jf_Meta jf)) true ∈ om_OwnerReferences (meta new).

Lemma own_instance_keeps jf m m' :
  own_instance jf m = Ok m' →
  om_Name m' = om_Name m ∧ om_Namespace m' = om_Namespace m ∧
  mkOwnerRef "Jellyfin" (jf_Name jf) (om_UID (jf_Meta jf)) true ∈ om_OwnerReferences m'.
Proof. by intros (refs&->&Hin)%own_Ok. Qed.

Ltac owned :=
  intros cur new; unfold pvc_mutation, nfs_pvc_mutation, deployment_mutation, server_service_mutation,
    ingress_mutation, web_service_mutation, route_mutation; intros (m'&Hm%own_instance_keeps&Hnew)%bind_Ok;
  try destruct (om_CreationTimestamp _); injection Hnew as <-; exact Hm.

Lemma pvc_mutation_owned jf spec size modes : keeps_and_owns jf pvcl_Meta (pvc_mutation jf spec size modes).
Proof. owned. Qed.
Lemma nfs_pvc_mutation_owned jf nfs n : keeps_and_owns jf pvcl_Meta (nfs_pvc_mutation jf nfs n).
Proof. owned. Qed.
Lemma deployment_mutation_owned jf d : keeps_and_owns jf dep_Meta (deployment_mutation jf d).
Proof. owned. Qed.
Lemma server_service_mutation_owned jf : keeps_and_owns jf svc_Meta (server_service_mutation jf).
Proof. owned. Qed.
Lemma ingress_mutation_owned jf spec : keeps_and_owns jf ing_Meta (ingress_mutation jf spec).
Proof. owned. Qed.
Lemma web_service_mutation_owned jf svc : keeps_and_owns jf svc_Meta (web_service_mutation jf svc).
Proof. owned. Qed.
Lemma route_mutation_owned jf r : keeps_and_owns jf hr_Meta (route_mutation jf r).
Proof. owned. Qed.
End ownership.

#[export] Hint Resolve pvc_mutation_owned nfs_pvc_mutation_owned deployment_mutation_owned
  server_service_mutation_owned ingress_mutation_owned web_service_mutation_owned
  route_mutation_owned : jellyops.

(** ** The claims of the pod are provided *)
Section storage.
Context `{KubeLib} (quote : string → string).
Implicit Types (jf : Jellyfin) (mf : MediaFolder) (tr : list event).

(** Claims the user says exist. *)
Definition existing_claims jf : list string :=
  let st := js_Storage (jf_Spec jf) in
  [pvc_ExistingClaim (st_Config st)]
  ++ opt_list pvc_ExistingClaim (st_Cache st) ++ opt_list pvc_ExistingClaim (st_Trickplay st)
  ++ (st_Media st ≫= λ mf, mf_ExistingClaim mf :: opt_list pvc_ExistingClaim (mf_PVC mf)).

Definition ensured jf tr (n : string) : Prop :=
  ∃ f pvc, Ev (UpsertPVC (jf_Namespace jf) n f) (Ok pvc) ∈ tr.

Definition claim_provided jf tr (n : string) : Prop := n ∈ existing_claims jf ∨ ensured jf tr n.

Lemma ensured_prefix jf tr tr' n : tr `prefix_of` tr' → ensured jf tr n → ensured jf tr' n.
Proof. intros [suf ->] (f&pvc&Hin). exists f, pvc. apply elem_of_app. by left. Qed.
Lemma claim_provided_prefix jf tr tr' n : tr `prefix_of` tr' → claim_provided jf tr n → claim_provided jf tr' n.
Proof. intros Hp [?|?]; [by left|right; by eapply ensured_prefix]. Qed.

(** Storage touches claims of the instance's namespace and volumes only. *)
Definition storage_inv jf : call_inv := λ R tr c,
  match c with
  | UpsertPVC ns _ f => ns = jf_Namespace jf ∧ keeps_and_owns jf pvcl_Meta f
  | PatchPVC _ _ | GetPersistentVolume _ | UpsertPersistentVolume _ _ | DeletePersistentVolume _ => True
  | _ => False
  end.

Lemma ensurePVC_always jf name spec modes size tr :
  always (storage_inv jf) (on_ok (λ tr' _, ensured jf tr' name)) tr (ensurePVC jf name spec modes size).
Proof.
  unfold ensurePVC. cbv zeta. set (sz := if decide (pvc_Size spec = 0%Z) then _ else _).
  eapply (always_seq _ _ (λ tr' _, ensured jf tr' name)).
  - apply always_ask; [by split; auto with jellyops|].
    intros [pvc|e]; [|done]. do 2 eexists. apply elem_of_last.
  - intros tr' pvc Hen _. eapply always_mono.
    + apply always_prefix. eapply always_inv_mono; [|apply growPVC_always].
      intros R tr2 c. by destruct c.
    + intros tr2 [[]|e] [_ Hp]; [|done]. by eapply ensured_prefix.
Qed.

Lemma ensure_optional_always jf name spec size tr :
  always (storage_inv jf)
    (on_ok (λ tr' _, ∀ c, spec = Some c → pvc_ExistingClaim c = "" → ensured jf tr' name))
    tr (ensure_optional jf name spec size).
Proof.
  unfold ensure_optional. destruct spec as [c|]; [|done]. case_decide as He.
  - eapply always_mono; [apply ensurePVC_always|]. intros tr' [[]|e]; [|done]. by intros Hen c' _ _.
  - intros c' [= <-] Hc. done.
Qed.

(** The folder has a source, and mount options come with provisioning. *)
Definition media_ok mf : Prop :=
  (mf_ExistingClaim mf ≠ "" ∨ is_Some (mf_NFS mf) ∨ is_Some (mf_PVC mf)) ∧
  ∀ n, mf_NFS mf = Some n → nfs_Provision n = true ∨ nfs_MountOptions n = [].

Definition media_provided jf tr mf : Prop :=
  ∀ src, vol_PersistentVolumeClaim (mediaVolumeAndMount jf mf).1 = Some src →
    claim_provided jf tr (pvcs_ClaimName src).

Lemma media_claim jf mf src :
  vol_PersistentVolumeClaim (mediaVolumeAndMount jf mf).1 = Some src →
  inline_nfs mf = None ∧ pvcs_ClaimName src = MediaClaimName jf mf.
Proof. unfold mediaVolumeAndMount. destruct (inline_nfs mf); cbn; [done|]. by intros [= <-]. Qed.

Lemma existing_media_claim jf mf n :
  mf ∈ st_Media (js_Storage (jf_Spec jf)) →
  n ∈ mf_ExistingClaim mf :: opt_list pvc_ExistingClaim (mf_PVC mf) → n ∈ existing_claims jf.
Proof.
  intros Hmf Hn. unfold existing_claims. rewrite !elem_of_app. right; right; right.
  apply list_elem_of_bind. by exists mf.
Qed.

Lemma reconcileMedia_always jf mf tr :
  mf ∈ st_Media (js_Storage (jf_Spec jf)) → media_ok mf →
  always (storage_inv jf) (on_ok (λ tr' _, media_provided jf tr' mf)) tr (reconcileMedia quote jf mf).
Proof.
  intros Hmf [Hsrc Hopts]. unfold reconcileMedia. case_decide as He.
  { intros src [_ ->]%media_claim. left. apply (existing_media_claim _ mf); [done|].
    unfold MediaClaimName. rewrite decide_True by done. by left. }
  destruct (mf_NFS mf) as [nfs|] eqn:Hnfs.
  { destruct (nfs_Provision nfs) eqn:Hpr.
    - eapply always_mono; [eapply always_inv_mono; [|apply ensureProvisionedNFS_always]|].
      + intros R tr' c. destruct c; cbn; try tauto. intros (->&_&->&_). auto with jellyops.
      + intros tr' [[]|e]; [|done]. intros Hen src [_ ->]%media_claim. by right.
    - intros src [Hin _]%media_claim. destruct (Hopts nfs eq_refl) as [|Ho]; [congruence|].
      unfold inline_nfs in Hin. rewrite Hnfs, Hpr, (bool_decide_eq_true_2 _ Ho) in Hin. done. }
  destruct (mf_PVC mf) as [pvc|] eqn:Hpvc; [|by destruct Hsrc as [|[[]|[]]]].
  case_decide as Hex.
  - eapply always_mono; [apply ensurePVC_always|]. intros tr' [[]|e]; [|done].
    intros Hen src [_ ->]%media_claim. by right.
  - intros src [_ ->]%media_claim. left. apply (existing_media_claim _ mf); [done|].
    unfold MediaClaimName. rewrite Hpvc, decide_False by tauto. rewrite decide_True by done.
    right. by left.
Qed.

(** One optional claim of the storage block. *)
Lemma optional_provided jf tr name (spec : option PVCSpec) :
  (∀ c, spec = Some c → pvc_ExistingClaim c = "" → ensured jf tr name) →
  (∀ c, spec = Some c → pvc_ExistingClaim c ≠ "" → name = pvc_ExistingClaim c ∧ name ∈ existing_claims jf) →
  spec ≠ None → claim_provided jf tr name.
Proof.
  intros Hen Hex Hs. destruct spec as [c|]; [|done].
  destruct (decide (pvc_ExistingClaim c = "")) as [He|He]; [right|left]; [by eapply Hen|].
  by apply (Hex c eq_refl He).
Qed.
End storage.

Section storage_all.
Context `{KubeLib} (quote : string → string).
Implicit Types (jf : Jellyfin) (tr : list event).

Lemma config_claim_provided jf tr :
  (∀ c, Some (st_Config (js_Storage (jf_Spec jf))) = Some c → pvc_ExistingClaim c = "" →
     ensured jf tr (ConfigClaimName jf)) → claim_provided jf tr (ConfigClaimName jf).
Proof.
  intros Hen. eapply optional_provided; [exact Hen| |done]. intros c [= <-] Hne.
  unfold ConfigClaimName. rewrite decide_True by done. split; [done|]. by left.
Qed.

Lemma cache_claim_provided jf tr :
  (∀ c, st_Cache (js_Storage (jf_Spec jf)) = Some c → pvc_ExistingClaim c = "" →
     ensured jf tr (CacheClaimName jf)) →
  is_Some (st_Cache (js_Storage (jf_Spec jf))) → claim_provided jf tr (CacheClaimName jf).
Proof.
  intros Hen [c0 Hc0]. eapply optional_provided; [exact Hen| |congruence]. intros c Hc Hne.
  unfold CacheClaimName, existing_claims. rewrite Hc, decide_True by done. split; [done|].
  rewrite !elem_of_app. right; left. by left.
Qed.

Lemma trickplay_claim_provided jf tr :
  (∀ c, st_Trickplay (js_Storage (jf_Spec jf)) = Some c → pvc_ExistingClaim c = "" →
     ensured jf tr (TrickplayClaimName jf)) →
  is_Some (st_Trickplay (js_Storage (jf_Spec jf))) → claim_provided jf tr (TrickplayClaimName jf).
Proof.
  intros Hen [c0 Hc0]. eapply optional_provided; [exact Hen| |congruence]. intros c Hc Hne.
  unfold TrickplayClaimName, existing_claims. rewrite Hc, decide_True by done. split; [done|].
  rewrite !elem_of_app. right; right; left. by left.
Qed.

(** The claim-backed volumes of the server pod. *)
Definition volumes_provided jf tr : Prop :=
  ∀ v src, v ∈ server_volumes jf → vol_PersistentVolumeClaim v = Some src →
    claim_provided jf tr (pvcs_ClaimName src).

Lemma volumes_provided_intro jf tr :
  claim_provided jf tr (ConfigClaimName jf) →
  (is_Some (st_Cache (js_Storage (jf_Spec jf))) → claim_provided jf tr (CacheClaimName jf)) →
  (is_Some (st_Trickplay (js_Storage (jf_Spec jf))) → claim_provided jf tr (TrickplayClaimName jf)) →
  (∀ mf, mf ∈ st_Media (js_Storage (jf_Spec jf)) → media_provided jf tr mf) →
  volumes_provided jf tr.
Proof.
  intros Hcfg Hcache Htp Hmedia v src. unfold server_volumes. rewrite !elem_of_app.
  intros [Hv|[Hv|[Hv|[Hv|Hv]]]] Hsrc.
  - apply list_elem_of_singleton in Hv as ->. by injection Hsrc as <-.
  - destruct (st_Cache _); [|by apply elem_of_nil in Hv]. apply list_elem_of_singleton in Hv as ->.
    injection Hsrc as <-. by apply Hcache.
  - destruct (st_Trickplay _); [|by apply elem_of_nil in Hv]. apply list_elem_of_singleton in Hv as ->.
    injection Hsrc as <-. by apply Htp.
  - apply list_elem_of_fmap in Hv as (mf&->&Hmf). by eapply Hmedia.
  - destruct (volume_web jf); [|by apply elem_of_nil in Hv]. apply list_elem_of_singleton in Hv as ->.
    discriminate Hsrc.
Qed.

Lemma reconcileStorage_always jf tr :
  Forall media_ok (st_Media (js_Storage (jf_Spec jf))) →
  always (storage_inv jf) (on_ok (λ tr' _, volumes_provided jf tr')) tr (reconcileStorage quote jf).
Proof.
  intros Hok. unfold reconcileStorage. cbv zeta.
  eapply always_seq; [apply ensure_optional_always|]. intros tr1 [] H1 _.
  apply config_claim_provided in H1.
  eapply always_seq; [apply ensure_optional_always|]. intros tr2 [] H2 P12.
  pose proof (cache_claim_provided jf tr2 H2) as H2'.
  eapply always_seq; [apply ensure_optional_always|]. intros tr3 [] H3 P23.
  pose proof (trickplay_claim_provided jf tr3 H3) as H3'.
  eapply always_mono.
  { apply always_on_ok_prefix.
    apply (always_for_each _ (λ pre tr, ∀ mf, mf ∈ pre → media_provided jf tr mf) (λ _ _, True));
      [by intros mf ?%elem_of_nil|].
    intros pre mf rest tr4 Hl HJ. rewrite Forall_forall in Hok.
    assert (Hmf : mf ∈ st_Media (js_Storage (jf_Spec jf))) by (rewrite Hl; apply elem_of_app; right; by left).
    eapply always_mono; [by apply always_on_ok_prefix, reconcileMedia_always; auto|].
    intros tr5 [[]|e]; [|done]. intros [Hm Hp] mf' [Hin| ->%list_elem_of_singleton]%elem_of_app; [|done].
    intros src Hsrc. eapply claim_provided_prefix; [exact Hp|]. by eapply HJ. }
  intros tr4 [[]|e]; [|done]. intros [Hmedia P34].
  apply volumes_provided_intro; [..|exact Hmedia].
  - eapply claim_provided_prefix; [|exact H1]. by do 2 (etrans; [eassumption|]).
  - intros Hs. eapply claim_provided_prefix; [|by apply H2']. by etrans.
  - intros Hs. eapply claim_provided_prefix; [|by apply H3']. done.
Qed.
End storage_all.

(** ** The component's contract *)

(** storage converges. When the media folders have a source and mount options
    come with provisioning, a storage pass that succeeds, whatever the server
    answered, leaves every claim the server pod mounts either one the user named
    as existing or one just created or confirmed in the instance's namespace; and
    the pass touches claims of that namespace and volumes only. *)
Theorem reconcileStorage_provides `{KubeLib} quote jf :
  Forall media_ok (st_Media (js_Storage (jf_Spec jf))) →
  always (storage_inv jf) (on_ok (λ tr _, volumes_provided jf tr)) [] (reconcileStorage quote jf).
Proof. apply reconcileStorage_always. Qed.

(** C21: growing a claim, whatever the server answers: a patch is only ever sent for
    a bound claim and a larger size, changes the storage request alone, and its
    rejection as forbidden or invalid is not an error; other failures are. *)
Theorem growPVC_only_grows `{KubeLib} pvc size :
  always (grow_inv pvc size)
    (post (λ _ _, True)
       (λ tr e, ∃ e', e = Api e' ∧ e' ≠ Forbidden ∧ e' ≠ Invalid ∧
          Ev (PatchPVC pvc (grown pvc size)) (Err e') ∈ tr)) [] (growPVC pvc size) ∧
  pvcl_Requests (grown pvc size) !! ResourceStorage = Some size ∧
  (∀ k, k ≠ ResourceStorage → pvcl_Requests (grown pvc size) !! k = pvcl_Requests pvc !! k) ∧
  pvcl_AccessModes (grown pvc size) = pvcl_AccessModes pvc ∧
  pvcl_StorageClassName (grown pvc size) = pvcl_StorageClassName pvc ∧ pvcl_Meta (grown pvc size) = pvcl_Meta pvc.
Proof.
  split; [apply growPVC_always|]. destruct (grown_spec pvc size) as [H1 H2]. done.
Qed.


(** ** The whole reconcile *)
Section instance.
Context `{KubeLib, RetryLib} (quote : string → string).
Implicit Types (jf : Jellyfin) (tr : list event) (σ : Store).

(** The server's Deployment and Service have been written. *)
Definition server_written jf tr : Prop :=
  (∃ f d, Ev (UpsertDeployment (jf_Namespace jf) (jf_Name jf) f) (Ok d) ∈ tr) ∧
  (∃ f s, Ev (UpsertService (jf_Namespace jf) (jf_Name jf) f) (Ok s) ∈ tr).

Definition no_web_tier jf : Prop :=
  js_Web (jf_Spec jf) = None ∨ EffectiveMode (js_Web (jf_Spec jf)) = WebModeVolume.

Definition instance_inv jf : call_inv := λ R tr c,
  let ns := jf_Namespace jf in
  match c with
  | ListPlugins ns' => ns' = ns
  | GetDeployment ns' n | GetJellyfin ns' n => ns' = ns ∧ n = jf_Name jf
  | GetPersistentVolume _ | UpsertPersistentVolume _ _ | DeletePersistentVolume _ | PatchPVC _ _ => True
  | UpsertPVC ns' _ f => ns' = ns ∧ keeps_and_owns jf pvcl_Meta f
  | UpsertDeployment ns' n f =>
      ns' = ns ∧ (n = jf_Name jf ∨ n = WebDeploymentName jf) ∧ keeps_and_owns jf dep_Meta f
  | UpsertService ns' n f =>
      ns' = ns ∧ (n = jf_Name jf ∨ n = WebServiceName jf) ∧ keeps_and_owns jf svc_Meta f
  | UpsertIngress ns' n f => ns' = ns ∧ n = jf_Name jf ∧ keeps_and_owns jf ing_Meta f
  | UpsertHTTPRoute ns' n f => ns' = ns ∧ n = HTTPRouteName jf ∧ keeps_and_owns jf hr_Meta f
  | DeleteDeployment ns' n => ns' = ns ∧ n = WebDeploymentName jf ∧ no_web_tier jf
  | DeleteService ns' n => ns' = ns ∧ n = WebServiceName jf ∧ no_web_tier jf
  | DeleteIngress ns' n => ns' = ns ∧ n = jf_Name jf ∧ js_Ingress (jf_Spec jf) = None
  | DeleteHTTPRoute ns' n => ns' = ns ∧ n = HTTPRouteName jf ∧ js_Gateway (jf_Spec jf) = None
  | StatusUpdateJellyfin _ => server_written jf tr
  | _ => False
  end.

Lemma storage_instance_inv jf R tr (c : call R) : storage_inv jf R tr c → instance_inv jf R tr c.
Proof. by destruct c. Qed.

(** Storage without the condition on the media: only the calls matter here. *)
Lemma reconcileMedia_inv jf mf tr :
  always (instance_inv jf) (on_ok (λ _ _, True)) tr (reconcileMedia quote jf mf).
Proof.
  unfold reconcileMedia. case_decide; [done|]. destruct (mf_NFS mf) as [nfs|].
  - destruct (nfs_Provision nfs); [|done].
    eapply always_mono; [eapply always_inv_mono; [|apply ensureProvisionedNFS_always]|by intros ? []].
    intros R tr' c. destruct c; cbn; try tauto. intros (->&_&->&_). auto with jellyops.
  - destruct (mf_PVC mf) as [pvc|]; [|done]. case_decide; [|done].
    eapply always_mono; [eapply always_inv_mono; [|apply ensurePVC_always]|by intros ? []].
    apply storage_instance_inv.
Qed.

Lemma ensure_optional_inv jf name spec size tr :
  always (instance_inv jf) (on_ok (λ _ _, True)) tr (ensure_optional jf name spec size).
Proof.
  eapply always_mono; [eapply always_inv_mono; [|apply ensure_optional_always]|by intros ? []].
  apply storage_instance_inv.
Qed.

Lemma reconcileStorage_inv jf tr :
  always (instance_inv jf) (on_ok (λ _ _, True)) tr (reconcileStorage quote jf).
Proof.
  unfold reconcileStorage. cbv zeta.
  do 3 (eapply always_seq; [apply ensure_optional_inv|intros ? [] _ _]).
  apply (always_for_each _ (λ _ _, True) (λ _ _, True)); [done|].
  intros pre mf rest tr9 _ _. apply reconcileMedia_inv.
Qed.

Lemma reconcileDeployment_inv σ jf healthy tr :
  always (instance_inv jf)
    (on_ok (λ tr' _, ∃ f d, Ev (UpsertDeployment (jf_Namespace jf) (jf_Name jf) f) (Ok d) ∈ tr'))
    tr (reconcileDeployment σ jf healthy).
Proof.
  apply always_try. destruct (BuildDeployment σ jf healthy) as [[σ' d]|e]; [|done].
  apply always_try, always_ask; [by split_and!; auto with jellyops|].
  intros [d'|e]; [|done]. do 2 eexists. apply elem_of_last.
Qed.

Lemma reconcileService_inv jf tr :
  always (instance_inv jf)
    (on_ok (λ tr' _, ∃ f s, Ev (UpsertService (jf_Namespace jf) (jf_Name jf) f) (Ok s) ∈ tr'))
    tr (reconcileService jf).
Proof.
  apply always_try, always_ask; [by split_and!; auto with jellyops|].
  intros [s|e]; [|done]. do 2 eexists. apply elem_of_last.
Qed.

Lemma reconcileIngress_inv jf tr :
  always (instance_inv jf) (on_ok (λ _ _, True)) tr (reconcileIngress jf).
Proof.
  unfold reconcileIngress. destruct (js_Ingress (jf_Spec jf)) eqn:Hi.
  - apply always_try, always_ask; [by split_and!; auto with jellyops|]. by intros [].
  - by apply always_delete.
Qed.

Lemma reconcileWeb_inv jf tr :
  always (instance_inv jf) (on_ok (λ _ _, True)) tr (reconcileWeb jf).
Proof.
  unfold reconcileWeb. cbv zeta. case_decide as Hw.
  - eapply always_seq; [by apply (always_delete _ (λ _ _, True))|]. intros ? [] _ _. by apply always_delete.
  - apply always_try. destruct (BuildWebDeployment jf) as [d|e]; [|done].
    apply always_try, always_ask; [by split_and!; auto with jellyops|]. intros [d'|e]; [|done].
    apply always_try, always_ask; [by split_and!; auto with jellyops|]. by intros [].
Qed.

Lemma reconcileGateway_inv jf tr :
  always (instance_inv jf) (on_ok (λ _ _, True)) tr (reconcileGateway jf).
Proof.
  unfold reconcileGateway. destruct (js_Gateway (jf_Spec jf)) eqn:Hg.
  - apply always_try. destruct (BuildHTTPRoute jf) as [r|e]; [|done].
    apply always_try, always_ask; [by split_and!; auto with jellyops|]. by intros [].
  - by apply always_delete.
Qed.

Lemma in_context_inv {A} I ctx (Q : list event → A → Prop) tr (m : M A) :
  always I (on_ok Q) tr m → always I (on_ok Q) tr (in_context ctx m).
Proof. intros Hm. apply always_in_context. exact Hm. Qed.

Lemma updateInstanceStatus_inv jf healthy tr :
  server_written jf tr →
  always (instance_inv jf) (on_ok (λ _ _, True)) tr (updateInstanceStatus jf healthy).
Proof.
  intros [(f&d&Hd) (g&s&Hs)]. apply always_bind, always_ask; [done|]. intros r.
  set (jf' := set_jf_Status _ jf). unfold writeJellyfinStatus. destruct retry_on_conflict as [n ->].
  apply (always_attempts _ (λ tr', Ev (UpsertDeployment (jf_Namespace jf) (jf_Name jf) f) (Ok d) ∈ tr' ∧
                                   Ev (UpsertService (jf_Namespace jf) (jf_Name jf) g) (Ok s) ∈ tr')).
  - intros tr2 [Hd' Hs'].
    apply always_try, always_api; [done| |intros e; rewrite !elem_of_app; tauto].
    intros cur. apply always_try, always_api; [|done|intros e; rewrite !elem_of_app; tauto].
    split; [exists f, d|exists g, s]; rewrite elem_of_app; by left.
  - rewrite !elem_of_app. tauto.
Qed.

Lemma reconcileInstance_always σ jf tr :
  always (instance_inv jf) (on_ok (λ tr' _, server_written jf tr')) tr (reconcileInstance quote σ jf).
Proof.
  unfold reconcileInstance.
  eapply (always_seq _ _ (λ _ _, True)).
  { apply always_try, always_api; done. }
  intros tr1 bound _ _. cbv zeta.
  eapply always_seq; [apply in_context_inv, reconcileStorage_inv|]. intros tr2 [] _ _.
  eapply always_seq; [apply in_context_inv, reconcileDeployment_inv|]. intros tr3 ? (f&d&Hd) _.
  eapply always_seq; [apply in_context_inv, reconcileService_inv|]. intros tr4 [] (g&s&Hs) [s4 ->].
  eapply always_seq; [apply in_context_inv, reconcileIngress_inv|]. intros tr5 [] _ [s5 ->].
  eapply always_seq; [apply in_context_inv, reconcileWeb_inv|]. intros tr6 [] _ [s6 ->].
  eapply always_seq; [apply in_context_inv, reconcileGateway_inv|]. intros tr7 [] _ [s7 ->].
  assert (Hw : server_written jf ((((tr3 ++ s4) ++ s5) ++ s6) ++ s7)).
  { split; [exists f, d|exists g, s]; rewrite !elem_of_app in *; tauto. }
  eapply always_seq; [by apply updateInstanceStatus_inv|]. intros tr8 [] _ [s8 ->].
  destruct Hw as [(f'&d'&Hd') (g'&s'&Hs')].
  split; [exists f', d'|exists g', s']; apply elem_of_app; by left.
Qed.
End instance.

(** The instance an event read. *)
Definition read_of (ev : event) : option Jellyfin :=
  match ev with
  | Ev c r =>
      match c in call R return R → option Jellyfin with
      | GetJellyfin _ _ => λ r, match r with Ok jf => Some jf | Err _ => None end
      | GetPlugin _ _ | GetDeployment _ _ | GetPersistentVolume _ | ListJellyfins _ | ListPlugins _
      | ListDeployments _ _ | UpdatePlugin _ | UpdateDeployment _ | StatusUpdatePlugin _
      | StatusUpdateJellyfin _ | DeleteDeployment _ _ | DeleteService _ _ | DeleteIngress _ _
      | DeleteHTTPRoute _ _ | DeletePersistentVolume _ | PatchPVC _ _ | UpsertDeployment _ _ _
      | UpsertService _ _ _ | UpsertIngress _ _ _ | UpsertHTTPRoute _ _ _ | UpsertPVC _ _ _
      | UpsertPersistentVolume _ _ | GetSecret _ _ | UpsertSecret _ _ _ | Http _ | RandRead _ => λ _, None
      end r
  end.

(** Every call but the first is made for the instance read by the first. *)
Definition top_inv `{KubeLib} (ns name : string) : call_inv := λ R tr c,
  tr = [] ∨ ∃ jf rest, tr = Ev (GetJellyfin ns name) (Ok jf) :: rest ∧
    om_DeletionTimestamp (jf_Meta jf) = None ∧ instance_inv jf R tr c.


(** ** A concrete instance *)
Module Example_instance.
Definition nfs : NFSSource := mkNFS "nas" "/export/tv" false true "nfs-csi" ["nfsvers=4.1"].
Definition folder : MediaFolder := mkMediaFolder "tv" "/media/tv" false (Some nfs) None "" None.
Definition storage : JellyfinStorage :=
  mkStorage (mkPVCSpec "" (Gi 20) "" [] "") None (Some (mkPVCSpec "previews" 0%Z "" [] "")) [folder].
Definition spec (service : ServiceSpec) : JellyfinSpec :=
  mkJellyfinSpec "" None storage service None None (Some Example_gateway.gw)
    ResourceRequirements_zero None None None None None None None None ∅ [].
Definition jf (port : Z) : Jellyfin :=
  mkJellyfin (meta_lit "home" "media" ∅ ∅) (spec (mkServiceSpec "" port ∅)) (jf_Status Example_builder.jf).
Definition claim (size : Quantity) : PersistentVolumeClaim :=
  mkPVC (meta_lit "home-config" "media" ∅ ∅) [ReadWriteOnce] {[ ResourceStorage := size ]} None "pv-1" ClaimBound.
Definition volume (server : string) (uid : string) : PersistentVolume :=
  mkPV (meta_lit "home-media-tv-pv" "" ∅ ∅) ∅ [ReadWriteMany] PersistentVolumeReclaimDelete [] "nfs-csi"
    (Some (mkNFSSource server "/export/tv" false)) (Some (mkClaimRef "media" "home-media-tv" uid)) VolumeBound.
End Example_instance.

Lemma reconcileStorage_provides_witness :
  always (storage_inv (Example_instance.jf 0)) (on_ok (λ tr _, volumes_provided (Example_instance.jf 0) tr)) []
    (reconcileStorage Example_controller.quote (Example_instance.jf 0)).
Proof.
  apply reconcileStorage_provides. constructor; [|constructor]. split.
  - right; left. by eexists.
  - intros n [= <-]. by left.
Defined.

Lemma growPVC_only_grows_witness :
  grow_inv (Example_instance.claim (Gi 10)) (Gi 20) _ []
    (PatchPVC (Example_instance.claim (Gi 10)) (grown (Example_instance.claim (Gi 10)) (Gi 20))).
Proof.
  pose proof (growPVC_only_grows (Example_instance.claim (Gi 10)) (Gi 20)) as [[H _] _]. exact H.
Defined.



(** ** What the hypotheses exclude, and what the code leaves behind *)

(** Mount options without [provision]: the pod mounts a claim that storage never
    creates. *)
Lemma forced_mount_options_unprovided `{KubeLib} quote jf mf n :
  mf_ExistingClaim mf = "" → mf_NFS mf = Some n → nfs_Provision n = false → nfs_MountOptions n ≠ [] →
  reconcileMedia quote jf mf = ok tt ∧
  vol_PersistentVolumeClaim (mediaVolumeAndMount jf mf).1 =
    Some (mkPVCSource (MediaClaimName jf mf) (mediaReadOnly mf)).
Proof.
  intros He Hn Hp Ho. split; [|by eapply nfs_mount_options_use_claim].
  unfold reconcileMedia. rewrite decide_False by tauto. by rewrite Hn, Hp.
Qed.

(** The route's server backend names a port of the server's Service only when the
    Service keeps the default port. *)
Lemma server_backend_port `{KubeLib} jf svc svc' :
  server_service_mutation jf svc = Ok svc' →
  be_Port (server_backend jf) ∈ sp_Port <$> svc_Ports svc' ↔
    (ss_Port (js_Service (jf_Spec jf)) = 0%Z ∨ ss_Port (js_Service (jf_Spec jf)) = DefaultJellyfinPort).
Proof.
  unfold server_service_mutation. intros (m&_&[= <-])%bind_Ok. cbn.
  rewrite list_elem_of_singleton. unfold service_port.
  destruct (decide (ss_Port (js_Service (jf_Spec jf)) = 0%Z)) as [Hz|Hz].
  - rewrite decide_False by tauto. tauto.
  - rewrite decide_True by done. split; [intros <-; by right|]. by intros [?|<-].
Qed.

(** An Ingress that loses its TLS block or class keeps the old ones. *)
Lemma ingress_mutation_keeps `{KubeLib} jf spec ing ing' :
  ingress_mutation jf spec ing = Ok ing' →
  (is_TLS spec = None → ing_TLS ing' = ing_TLS ing) ∧
  (is_ClassName spec = "" → ing_ClassName ing' = ing_ClassName ing).
Proof.
  unfold ingress_mutation. intros (m&_&[= <-])%bind_Ok. cbn. split.
  - by intros ->.
  - intros ->. by rewrite decide_False by tauto.
Qed.

(** The status keeps the endpoint of an Ingress that is gone. *)
Lemma status_keeps_ingress_endpoint `{KubeLib} jf healthy ready :
  js_Ingress (jf_Spec jf) = None →
  ie_Ingress (jst_Endpoints (instance_status jf healthy ready)) = ie_Ingress (jst_Endpoints (jf_Status jf)).
Proof. intros Hi. unfold instance_status, ingress_endpoint. rewrite Hi. by destruct ready. Qed.
