(* ===== verification/ApiController.v ===== *)
(** * The API controller (internal/controller/jellyfinapi_controller.go)

    A second loop on the same resource: it logs in to a ready instance and brings its
    libraries and settings to what the resource declares. *)
From S2P Require Import Prelude GoStrings Sha256 Json K8s ApiTypes Http Kube Options Libraries Client Bindings PluginController JellyfinController.

(** [defaultAPIRequeue], in nanoseconds, and [apiKeyAppName]. *)
Definition defaultAPIRequeue : Z := 5 * 60 * 1000000000.
Definition apiKeyAppName : string := "JellyOps".

(** ** What the resource declares *)
Definition desiredLibraries (jf : Jellyfin) : list DesiredLibrary :=
  omap (λ mf,
    lib ← mf_Library mf;
    let name := if decide (lib_Name lib = "") then mf_Name mf else lib_Name lib in
    Some (mkDL name (lib_CollectionType lib) [mf_MountPath mf] (default Empty (lib_Options lib))
            (mf_ReadOnly mf)))
    (st_Media (js_Storage (jf_Spec jf))).

Definition desiredEncoding (t : option TranscodingSpec) : DesiredEncoding :=
  match t with
  | None => mkDE None None None None
  | Some t =>
      mkDE (th ← tr_Throttle t; th_Enabled th) (th ← tr_Throttle t; th_DelaySeconds th)
        (sd ← tr_SegmentDeletion t; sd_Enabled sd) (sd ← tr_SegmentDeletion t; sd_KeepSeconds sd)
  end.

Definition desiredServerConfig (g : option GeneralSpec) (p : option PlaybackSpec) : DesiredServerConfig :=
  mkDSC (g ≫= ge_ServerName) (g ≫= ge_UICulture) (g ≫= ge_QuickConnectAvailable) (g ≫= ge_EnableMetrics)
    (g ≫= ge_EnableNormalizedItemByNameIds) (g ≫= ge_AllowClientLogUpload)
    (g ≫= ge_EnableSlowResponseWarning) (g ≫= ge_SlowResponseThresholdMs)
    (g ≫= ge_LibraryScanFanoutConcurrency) (g ≫= ge_LibraryMetadataRefreshConcurrency)
    (g ≫= ge_ParallelImageEncodingLimit) (g ≫= ge_ActivityLogRetentionDays) (g ≫= ge_LibraryMonitorDelay)
    (g ≫= ge_LibraryUpdateDuration) (g ≫= ge_InactiveSessionThreshold) (g ≫= ge_LogFileRetentionDays)
    (g ≫= ge_CachePath) (g ≫= ge_MetadataPath) (g ≫= ge_CorsHosts)
    (p ≫= pl_MinResumePct) (p ≫= pl_MaxResumePct) (p ≫= pl_MinResumeDurationSeconds)
    (p ≫= pl_MinAudiobookResumeMinutes) (p ≫= pl_MaxAudiobookResumeMinutes)
    (p ≫= pl_RemoteClientBitrateLimit).

Definition desiredBranding (b : option BrandingSpec) : DesiredBranding :=
  match b with
  | None => mkDB None None None
  | Some b => mkDB (br_LoginDisclaimer b) (br_CustomCss b) (br_SplashscreenEnabled b)
  end.

(** A document that does not parse fails the reconcile. *)
Definition parsed {A} (r : result JsonError A) : M A := Ret (wrap_err (λ _, BadOptions) r).

(** Status fields this controller sets. *)
Definition set_jst_APICredentialsSecret (n : string) (jf : Jellyfin) : Jellyfin :=
  let s := jf_Status jf in
  set_jf_Status (mkJellyfinStatus (jst_Phase s) (jst_ObservedGeneration s) (jst_Endpoints s)
    (jst_LoadedPlugins s) n (jst_ManagedLibraries s) (jst_Conditions s)) jf.
Definition set_jst_ManagedLibraries (l : list string) (jf : Jellyfin) : Jellyfin :=
  let s := jf_Status jf in
  set_jf_Status (mkJellyfinStatus (jst_Phase s) (jst_ObservedGeneration s) (jst_Endpoints s)
    (jst_LoadedPlugins s) (jst_APICredentialsSecret s) l (jst_Conditions s)) jf.
Definition set_jst_Conditions (cs : list Condition) (jf : Jellyfin) : Jellyfin :=
  let s := jf_Status jf in
  set_jf_Status (mkJellyfinStatus (jst_Phase s) (jst_ObservedGeneration s) (jst_Endpoints s)
    (jst_LoadedPlugins s) (jst_APICredentialsSecret s) (jst_ManagedLibraries s) cs) jf.

Section controller.
Context `{KubeLib, RetryLib, NetUrl, MapOrder}.
(** [%q]; the texts of library errors; the configured requeue interval. *)
Context (quote : string → string) (library_text : Error → string) (RequeueInterval : Z).

(** ** Credentials *)
Definition randomSecret : prog string :=
  b ← ask (RandRead 24);
  mret (match b with Some b => Sha256.EncodeToString b | None => "changeme-jellyops" end).

Definition getSecret (ns name : string) : M Secret := api (GetSecret ns name).

Definition data (sec : Secret) (key : string) : string := default "" (sec_Data sec !! key).

Definition secret_mutation (jf : Jellyfin) (user pass key : string) (sec : Secret) : result Error Secret :=
  let d := <["password" := pass]> (<["username" := user]> (<["apiKey" := key]> (sec_Data sec))) in
  meta ← own_instance jf (sec_Meta sec);
  Ok (mkSecret meta d).

Definition persistGeneratedSecret (jf : Jellyfin) (name user pass key : string) : M unit :=
  _ ←! ask (UpsertSecret (jf_Namespace jf) name (secret_mutation jf user pass key));
  ok tt.

(** The admin credentials the user gave: API key, user name, password. *)
Definition givenCredentials (jf : Jellyfin) (spec : JellyfinAPISpec) : M (string * string * string) :=
  match api_CredentialsSecret spec with
  | Some name =>
      if decide (name = "") then ok ("", "", "")
      else
        sec ←! in_context "read credentialsSecret" (getSecret (jf_Namespace jf) name);
        ok (data sec "apiKey", data sec "username", data sec "password")
  | None => ok ("", "", "")
  end.

(** What the generated Secret of an earlier pass gives: a key that works, or a client
    and what to fill in for the missing user name and password. *)
Definition earlierCredentials (jf : Jellyfin) (cli : Client) (genName user pass : string)
    : prog (string + Client * string * string) :=
  r ← getSecret (jf_Namespace jf) genName;
  match r with
  | Err _ => mret (inr (cli, user, pass))
  | Ok gsec =>
      let key := data gsec "apiKey" in
      let user' := if decide (user = "") then data gsec "username" else user in
      let pass' := if decide (pass = "") then data gsec "password" else pass in
      if decide (key = "") then mret (inr (cli, user', pass'))
      else
        let cli := SetToken cli key in
        r ← ListVirtualFolders quote cli;
        mret (match r with Ok _ => inl key | Err _ => inr (cli, user', pass') end)
  end.

Definition generatedName (jf : Jellyfin) (spec : JellyfinAPISpec) : string :=
  if decide (api_GeneratedSecretName spec = "") then jf_Name jf +:+ "-api" else api_GeneratedSecretName spec.

(** [api] is the non-nil [jf.Spec.API]; the answer is the token and the instance, whose
    status may name the generated Secret. *)
Definition ensureCredentials (jf : Jellyfin) (spec : JellyfinAPISpec) (cli : Client) : M (string * Jellyfin) :=
  given ←! givenCredentials jf spec;
  let '(providedKey, user, pass) := given in
  if decide (api_Mode spec = "provided") then
    if decide (providedKey ≠ "") then ok (providedKey, jf)
    else if decide (user = "" ∨ pass = "") then
      throw (Message "mode=provided requires apiKey or username+password in credentialsSecret")
    else
      auth ←! AuthenticateByName quote cli user pass;
      ok (fst auth, jf)
  else
    let genName := generatedName jf spec in
    earlier ← earlierCredentials jf cli genName user pass;
    match earlier with
    | inl key => ok (key, set_jst_APICredentialsSecret genName jf)
    | inr (cli, user, pass) =>
        let user := if decide (user = "") then "admin" else user in
        pass ← (if decide (pass = "") then randomSecret else mret pass);
        key ←! Bootstrap quote cli user pass apiKeyAppName;
        _ ←! persistGeneratedSecret jf genName user pass key;
        ok (key, set_jst_APICredentialsSecret genName jf)
    end.

(** ** Libraries *)
(** One turn of the loop of [enforceLibraryOptions]. *)
Definition enforceOne (cli : Client) (byName : gmap string VirtualFolder) (anyChanged : bool)
    (d : DesiredLibrary) : M bool :=
  match byName !! dl_Name d with
  | None => ok anyChanged
  | Some f =>
      if decide (vf_ItemID f = "") then ok anyChanged
      else
        s ←! (if dl_PreventWrites d then
                r ←! parsed (EnforceReadOnlyOptions (vf_LibraryOptions f));
                ok (if snd r then r else (vf_LibraryOptions f, false))
              else ok (vf_LibraryOptions f, false));
        s ←! (match dl_Options d with
              | Empty => ok s
              | options =>
                  r ←! parsed (MergeLibraryOptions (fst s) options);
                  ok (if snd r then r else s)
              end);
        let '(merged, libChanged) := s in
        if (libChanged : bool) then
          _ ←! UpdateLibraryOptions quote cli (vf_ItemID f) merged;
          ok true
        else ok anyChanged
  end.

Definition enforceLibraryOptions (cli : Client) (desired : list DesiredLibrary)
    (folders : list VirtualFolder) : M bool :=
  fold_each (enforceOne cli (index_by vf_Name folders ∅)) false desired.

Definition reconcileLibraries (jf : Jellyfin) (spec : JellyfinAPISpec) (cli : Client) : M Jellyfin :=
  let desired := desiredLibraries jf in
  existing ←! ListVirtualFolders quote cli;
  let refresh := api_RefreshLibraryOnChange spec in
  let diff := DiffLibraries desired existing (jst_ManagedLibraries (jf_Status jf)) (api_Prune spec) in
  _ ←! for_each (λ lib, AddVirtualFolder quote cli lib false) (ld_ToCreate diff);
  _ ←! for_each (λ np : string * list string, for_each (λ p, AddMediaPath quote cli np.1 p false) np.2)
         (range_map (ld_PathsToAdd diff));
  _ ←! for_each (λ np : string * list string, for_each (λ p, RemoveMediaPath quote cli np.1 p false) np.2)
         (range_map (ld_PathsToRemove diff));
  _ ←! for_each (λ name, RemoveVirtualFolder quote cli name false) (ld_ToRemove diff);
  folders ←! (if decide (0 < length (ld_ToCreate diff)) then ListVirtualFolders quote cli else ok existing);
  optsChanged ←! enforceLibraryOptions cli desired folders;
  _ ←! (if (Changed diff || optsChanged) && refresh then RefreshLibraries quote cli else ok tt);
  ok (set_jst_ManagedLibraries (sort_strings (dl_Name <$> desired)) jf).

(** ** Settings: read, overlay, write back what changed *)
Definition reconcileConfig {D} (empty : D → bool) (get : Client → M RawMessage)
    (enforce : RawMessage → D → result JsonError (RawMessage * bool)) (update : Client → RawMessage → M unit)
    (desired : D) (cli : Client) : M unit :=
  if empty desired then ok tt
  else
    current ←! get cli;
    r ←! parsed (enforce current desired);
    let '(updated, changed) := r in
    if negb changed then ok tt else update cli updated.

Definition reconcileEncoding (jf : Jellyfin) (cli : Client) : M unit :=
  reconcileConfig DesiredEncoding_Empty (GetEncodingConfig quote) EnforceEncodingOptions
    (UpdateEncodingConfig quote) (desiredEncoding (js_Transcoding (jf_Spec jf))) cli.

Definition reconcileServerConfig (jf : Jellyfin) (cli : Client) : M unit :=
  reconcileConfig DesiredServerConfig_Empty (GetServerConfig quote) EnforceServerConfig
    (UpdateServerConfig quote) (desiredServerConfig (js_General (jf_Spec jf)) (js_Playback (jf_Spec jf))) cli.

Definition reconcileBranding (jf : Jellyfin) (cli : Client) : M unit :=
  reconcileConfig DesiredBranding_Empty (GetBrandingConfig quote) EnforceBranding
    (UpdateBrandingConfig quote) (desiredBranding (js_Branding (jf_Spec jf))) cli.

(** ** The reconcile *)
(** [err.Error()], with [APIError.Error] of client.go. *)
Fixpoint Error_text (e : Error) : string :=
  match e with
  | StatusError method path code body =>
      "jellyfin " +:+ method +:+ " " +:+ path +:+ ": status " +:+ pretty code +:+ ": " +:+ body
  | Wrapped context e => context +:+ ": " +:+ Error_text e
  | Message text => text
  | Transport text => text
  | e => library_text e
  end.

Definition requeue : Z := if decide (RequeueInterval = 0%Z) then defaultAPIRequeue else RequeueInterval.

Definition with_condition (jf : Jellyfin) (type status reason message : string) : Jellyfin :=
  set_jst_Conditions
    (setCondition (jst_Conditions (jf_Status jf)) type status reason message (om_Generation (jf_Meta jf))) jf.

(** [return ctrl.Result{RequeueAfter: requeue}, writeJellyfinStatus(ctx, r.Client, &jf)] *)
Definition finish (jf : Jellyfin) : M Result :=
  _ ←! writeJellyfinStatus jf; ok (mkResult requeue).

(** One managed area: a failure is reported in its condition and ends the pass. *)
Definition area (jf : Jellyfin) (m : M Jellyfin) (type errReason what okMessage : string)
    (k : Jellyfin → M Result) : M Result :=
  r ← m;
  match r with
  | Err e =>
      finish (with_condition (with_condition jf type ConditionFalse errReason (Error_text e))
                conditionAPIReady ConditionTrue "Authenticated"
                ("Authenticated; " +:+ what +:+ " reconcile pending"))
  | Ok jf => k (with_condition jf type ConditionTrue "Reconciled" okMessage)
  end.

(** The areas, each followed by the later ones. *)
Definition unchanged (m : M unit) (jf : Jellyfin) : M Jellyfin := _ ←! m; ok jf.

Definition authenticated (jf : Jellyfin) : M Result :=
  finish (with_condition jf conditionAPIReady ConditionTrue "Authenticated" "Authenticated to the Jellyfin API").

Definition brandingArea (cli : Client) (jf : Jellyfin) : M Result :=
  if decide (js_Branding (jf_Spec jf) = None) then authenticated jf
  else area jf (unchanged (reconcileBranding jf cli) jf) conditionBrandingReady "BrandingError" "branding"
         "Branding settings reconciled" authenticated.

Definition serverConfigArea (cli : Client) (jf : Jellyfin) : M Result :=
  if decide (js_General (jf_Spec jf) = None ∧ js_Playback (jf_Spec jf) = None) then brandingArea cli jf
  else area jf (unchanged (reconcileServerConfig jf cli) jf) conditionServerConfigReady "ServerConfigError"
         "server config" "General/Playback settings reconciled" (brandingArea cli).

Definition encodingArea (cli : Client) (jf : Jellyfin) : M Result :=
  if decide (js_Transcoding (jf_Spec jf) = None) then serverConfigArea cli jf
  else area jf (unchanged (reconcileEncoding jf cli) jf) conditionTranscodingReady "EncodingError" "encoding"
         "Transcode throttling/segment deletion reconciled" (serverConfigArea cli).

Definition reconcileAreas (jf : Jellyfin) (spec : JellyfinAPISpec) (cli : Client) : M Result :=
  if api_ManageLibraries spec then
    area jf (reconcileLibraries jf spec cli) conditionLibrariesReady "LibraryError" "library"
      "Libraries reconciled" (encodingArea cli)
  else encodingArea cli jf.

(** [jellyfinPort] *)
Definition jellyfinPort (jf : Jellyfin) : Z :=
  if decide (ss_Port (js_Service (jf_Spec jf)) ≠ 0%Z) then ss_Port (js_Service (jf_Spec jf)) else 8096%Z.

Definition apiBase (jf : Jellyfin) : string :=
  let base := ie_Service (jst_Endpoints (jf_Status jf)) in
  if decide (base = "") then
    "http://" +:+ jf_Name jf +:+ "." +:+ jf_Namespace jf +:+ ".svc:" +:+ pretty (jellyfinPort jf)
  else base.

Definition instanceReady (jf : Jellyfin) : bool :=
  match FindStatusCondition (jst_Conditions (jf_Status jf)) conditionReady with
  | Some c => bool_decide (cond_Status c = ConditionTrue)
  | None => false
  end.

(** [NewAPIClient] is for tests with another client; [main] leaves it unset. *)
Definition newClient (NewAPIClient : option (string → string → result Error Client)) (base deviceID : string)
    : result Error Client :=
  match NewAPIClient with Some new => new base deviceID | None => New base deviceID end.

Definition reconcileAPI (jf : Jellyfin) (spec : JellyfinAPISpec) : M Result :=
  if negb (instanceReady jf) then
    finish (with_condition jf conditionAPIReady ConditionFalse "InstanceNotReady"
              "Waiting for instance to become Ready")
  else
    match newClient None (apiBase jf) (om_UID (jf_Meta jf)) with
    | Err e => throw e
    | Ok cli =>
        r ← ensureCredentials jf spec cli;
        match r with
        | Err e => finish (with_condition jf conditionAPIReady ConditionFalse "AuthFailed" (Error_text e))
        | Ok (token, jf) => reconcileAreas jf spec (SetToken cli token)
        end
    end.

Definition ReconcileAPI (ns name : string) : M Result :=
  r ← ask (GetJellyfin ns name);
  match r with
  | Err NotFound => ok Result_zero
  | Err e => throw (Api e)
  | Ok jf =>
      match js_API (jf_Spec jf), om_DeletionTimestamp (jf_Meta jf) with
      | Some spec, None => reconcileAPI jf spec
      | _, _ => ok Result_zero
      end
  end.
End controller.

(** A trace is a prefix of a later one, by the steps in between. *)
Ltac prefixes := repeat first [done | etrans; [done|]].

(** ** Requests that were made *)
Definition sent (tr : list event) (req : HttpRequest) : Prop :=
  ∃ r, Ev (Http req) r ∈ tr ∧ is_Some (success r).

Lemma sent_mono tr tr' req : tr `prefix_of` tr' → sent tr req → sent tr' req.
Proof. intros [k ->] (r & Hr & Hs). exists r. split; [|done]. apply elem_of_app. by left. Qed.

Lemma sent_last tr req r body : success r = Some body → sent (tr ++ [Ev (Http req) r]) req.
Proof. intros Hs. exists r. split; [apply elem_of_app; right; by left|by eexists]. Qed.

Section rules.
Context (I : call_inv).

Lemma always_sent quote tr c m p q b :
  let req := request quote c m p q b in
  I _ tr (Http req) → always I (on_ok (λ tr' _, sent tr' req)) tr (do quote c m p q b).
Proof.
  intros req Hc. apply always_do; [done|]. intros r. destruct (success r) eqn:Hs; [|by intros e _].
  by eapply sent_last.
Qed.

(** A loop in which each turn sends a request. *)
Lemma always_each {A} (f : A → M unit) (P : A → list event → Prop) base tr l :
  (∀ a tr tr', P a tr → tr `prefix_of` tr' → P a tr') →
  base `prefix_of` tr →
  (∀ a tr, a ∈ l → base `prefix_of` tr → always I (on_ok (λ tr' _, P a tr')) tr (f a)) →
  always I (on_ok (λ tr' _, ∀ a, a ∈ l → P a tr')) tr (for_each f l).
Proof.
  intros Hmono Hbase Hf.
  eapply always_mono;
    [eapply (always_for_each _ (λ pre tr, base `prefix_of` tr ∧ ∀ a, a ∈ pre → P a tr) (λ _ _, True))|].
  - split; [done|]. by intros a ?%elem_of_nil.
  - intros pre a rest tr' Hl [Hb Hpre]. eapply always_mono.
    + apply always_on_ok_prefix, Hf; [rewrite Hl; apply elem_of_app; right; by left|done].
    + intros tr'' [[]|e]; [|done]. intros [HP Hp]. split; [by etrans|].
      intros a' [Ha| ->%list_elem_of_singleton]%elem_of_app; [eauto|done].
  - intros tr' [[]|e]; [|done]. by intros [_ ?].
Qed.
End rules.

(** ** Libraries: every request has its reason *)
Section libraries.
Context `{KubeLib, MapOrder} (quote : string → string) (cli : Client).
Implicit Types (tr : list event) (req : HttpRequest).

Definition list_request : HttpRequest := request quote cli "GET" "/Library/VirtualFolders" None None.
Definition create_request (lib : DesiredLibrary) req : Prop := ∃ q body,
  req = request quote cli "POST" "/Library/VirtualFolders" (Some q) body ∧
  q !! "name" = Some [dl_Name lib] ∧ default [] (q !! "paths") = dl_Paths lib.
Definition add_path_request (n p : string) : HttpRequest :=
  request quote cli "POST" "/Library/VirtualFolders/Paths" (Some {[ "refreshLibrary" := ["false"] ]})
    (Some (JObject [("Name", JString n); ("PathInfo", JObject [("Path", JString p)])])).
Definition remove_path_request (n p : string) : HttpRequest :=
  request quote cli "DELETE" "/Library/VirtualFolders/Paths"
    (Some {[ "name" := [n]; "path" := [p]; "refreshLibrary" := ["false"] ]}) None.
Definition remove_request (n : string) : HttpRequest :=
  request quote cli "DELETE" "/Library/VirtualFolders"
    (Some {[ "name" := [n]; "refreshLibrary" := ["false"] ]}) None.
Definition options_request (id : string) (options : Json) : HttpRequest :=
  request quote cli "POST" "/Library/VirtualFolders/LibraryOptions" None
    (Some (JObject [("Id", JString id); ("LibraryOptions", options)])).
Definition refresh_request : HttpRequest := request quote cli "POST" "/Library/Refresh" None None.

(** The server's libraries, as an answer lists them. *)
Definition listing (r : result string HttpResponse) (folders : list VirtualFolder) : Prop :=
  read_answer (read_list read_VirtualFolder) [] r = Some folders.
Definition listed tr (folders : list VirtualFolder) : Prop :=
  ∃ r, Ev (Http list_request) r ∈ tr ∧ listing r folders.

(** The options a wanted library should have: the read-only ones, then the declared. *)
Definition wanted_options (d : DesiredLibrary) (current options : RawMessage) : Prop :=
  ∃ mid, (if dl_PreventWrites d then ∃ ch, EnforceReadOnlyOptions current = Ok (mid, ch) else mid = current) ∧
    (match dl_Options d with Empty => options = mid | o => ∃ ch, MergeLibraryOptions mid o = Ok (options, ch) end).

(** Why a request may be sent, given what the server listed first. *)
Inductive library_reason (desired : list DesiredLibrary) (existing : list VirtualFolder)
    (managed : list string) (prune refresh : bool) (tr : list event) : HttpRequest → Prop :=
  | because_missing lib req :
      lib ∈ desired → dl_Name lib ∉ vf_Name <$> existing → create_request lib req →
      library_reason desired existing managed prune refresh tr req
  | because_path_missing d f p :
      d ∈ desired → f ∈ existing → vf_Name f = dl_Name d → p ∈ dl_Paths d → p ∉ vf_Locations f →
      library_reason desired existing managed prune refresh tr (add_path_request (dl_Name d) p)
  | because_path_stale d f p :
      d ∈ desired → f ∈ existing → vf_Name f = dl_Name d → p ∈ vf_Locations f → p ∉ dl_Paths d →
      library_reason desired existing managed prune refresh tr (remove_path_request (dl_Name d) p)
  | because_pruned f :
      prune = true → f ∈ existing → vf_Name f ∈ managed → vf_Name f ∉ dl_Name <$> desired →
      library_reason desired existing managed prune refresh tr (remove_request (vf_Name f))
  | because_created lib :
      lib ∈ desired → dl_Name lib ∉ vf_Name <$> existing →
      library_reason desired existing managed prune refresh tr list_request
  | because_options d f folders options :
      d ∈ desired → listed tr folders → f ∈ folders → vf_Name f = dl_Name d → vf_ItemID f ≠ "" →
      wanted_options d (vf_LibraryOptions f) (Text options) →
      library_reason desired existing managed prune refresh tr (options_request (vf_ItemID f) options)
  | because_changed req :
      refresh = true → sent tr req → rq_Method req ≠ "GET" →
      library_reason desired existing managed prune refresh tr refresh_request.

(** The first event after [n] others is the listing. *)
Definition first_listing (n : nat) tr (existing : list VirtualFolder) : Prop :=
  ∃ r, tr !! n = Some (Ev (Http list_request) r) ∧ listing r existing.

Definition library_inv (jf : Jellyfin) (spec : JellyfinAPISpec) (n : nat) : call_inv := λ R tr c,
  match c with
  | Http req =>
      (length tr = n ∧ req = list_request) ∨
      ∃ existing, first_listing n tr existing ∧
        library_reason (desiredLibraries jf) existing (jst_ManagedLibraries (jf_Status jf))
          (api_Prune spec) (api_RefreshLibraryOnChange spec) tr req
  | _ => False
  end.

(** What a pass that succeeds has done. *)
Definition libraries_done (jf : Jellyfin) (spec : JellyfinAPISpec) (n : nat) tr (jf' : Jellyfin) : Prop :=
  jf' = set_jst_ManagedLibraries (sort_strings (dl_Name <$> desiredLibraries jf)) jf ∧
  ∃ existing, first_listing n tr existing ∧
    (∀ d, d ∈ desiredLibraries jf → dl_Name d ∉ vf_Name <$> existing →
       ∃ req, create_request d req ∧ sent tr req) ∧
    (∀ f, api_Prune spec = true → f ∈ existing → vf_Name f ∈ jst_ManagedLibraries (jf_Status jf) →
       vf_Name f ∉ dl_Name <$> desiredLibraries jf → sent tr (remove_request (vf_Name f))) ∧
    (NoDup (vf_Name <$> existing) → ∀ d f p, d ∈ desiredLibraries jf → f ∈ existing → vf_Name f = dl_Name d →
       (p ∈ dl_Paths d → p ∉ vf_Locations f → sent tr (add_path_request (dl_Name d) p)) ∧
       (p ∈ vf_Locations f → p ∉ dl_Paths d → sent tr (remove_path_request (dl_Name d) p))).

Lemma first_listing_mono n tr tr' existing :
  tr `prefix_of` tr' → first_listing n tr existing → first_listing n tr' existing.
Proof. intros Hp (r & Hr & Hl). exists r. split; [by eapply prefix_lookup_Some|done]. Qed.

Lemma first_listing_listed n tr existing : first_listing n tr existing → listed tr existing.
Proof. intros (r & Hr & Hl). exists r. split; [by eapply list_elem_of_lookup_2|done]. Qed.

Lemma always_list (I : call_inv) (Q : list event → result Error (list VirtualFolder) → Prop) tr :
  I _ tr (Http list_request) →
  (∀ r folders, listing r folders → Q (tr ++ [Ev (Http list_request) r]) (Ok folders)) →
  (∀ r e, (∀ folders, ¬ listing r folders) → Q (tr ++ [Ev (Http list_request) r]) (Err e)) →
  always I Q tr (ListVirtualFolders quote cli).
Proof.
  intros Hc Hok Herr. apply always_do_out; [done|]. intros r.
  destruct (read_answer _ _ r) as [folders|] eqn:Hr; [by apply Hok|]. intros e. apply Herr.
  intros folders Hl. unfold listing in Hl. by rewrite Hr in Hl.
Qed.

(** The paths of the diff, in both directions. *)
Lemma diff_path_reason desired existing managed prune n p :
  let diff := DiffLibraries desired existing managed prune in
  (p ∈ default [] (ld_PathsToAdd diff !! n) →
     ∃ d f, d ∈ desired ∧ f ∈ existing ∧ vf_Name f = dl_Name d ∧ dl_Name d = n ∧
       p ∈ dl_Paths d ∧ p ∉ vf_Locations f) ∧
  (p ∈ default [] (ld_PathsToRemove diff !! n) →
     ∃ d f, d ∈ desired ∧ f ∈ existing ∧ vf_Name f = dl_Name d ∧ dl_Name d = n ∧
       p ∈ vf_Locations f ∧ p ∉ dl_Paths d).
Proof.
  cbn zeta. destruct (DiffLibraries_eq desired existing managed prune) as (_ & -> & -> & _).
  rewrite !list_elem_of_bind. unfold missing_paths, stale_paths.
  split; intros (d & Hp & [<- Hd]%list_elem_of_filter);
    (destruct (index_by _ _ _ !! _) as [f|] eqn:Hf; [|by apply elem_of_nil in Hp]);
    apply index_by_elem in Hf as [Hf Hn]; apply list_elem_of_filter in Hp as [Hno Hp];
    rewrite elem_of_toSet in Hno; exists d, f; done.
Qed.

Lemma diff_path_complete desired existing managed prune d f p :
  let diff := DiffLibraries desired existing managed prune in
  NoDup (vf_Name <$> existing) → d ∈ desired → f ∈ existing → vf_Name f = dl_Name d →
  (p ∈ dl_Paths d → p ∉ vf_Locations f → p ∈ default [] (ld_PathsToAdd diff !! dl_Name d)) ∧
  (p ∈ vf_Locations f → p ∉ dl_Paths d → p ∈ default [] (ld_PathsToRemove diff !! dl_Name d)).
Proof.
  cbn zeta. intros Hnd Hd Hf Hn. destruct (DiffLibraries_eq desired existing managed prune) as (_ & -> & -> & _).
  assert (index_by vf_Name existing ∅ !! dl_Name d = Some f) as Hl by by apply index_by_Some.
  rewrite !list_elem_of_bind. unfold missing_paths, stale_paths.
  split; intros Hp Hno; exists d; rewrite Hl, !list_elem_of_filter, elem_of_toSet; done.
Qed.

Lemma always_AddVirtualFolder (I : call_inv) tr lib :
  (∀ req, create_request lib req → I _ tr (Http req)) →
  always I (on_ok (λ tr' _, ∃ req, create_request lib req ∧ sent tr' req)) tr (AddVirtualFolder quote cli lib false).
Proof.
  intros Hc. unfold AddVirtualFolder.
  set (q := <[refreshLibraryParam := _]> _).
  assert (q !! "name" = Some [dl_Name lib] ∧ default [] (q !! "paths") = dl_Paths lib) as [Hn Hp].
  { unfold q. destruct (decide (dl_CollectionType lib = "")), (decide (dl_Paths lib = [])) as [->|];
      by simplify_map_eq. }
  clearbody q.
  assert (∀ body, create_request lib (request quote cli "POST" "/Library/VirtualFolders" (Some q) body)) as Hreq.
  { intros body. by exists q, body. }
  destruct (dl_Options lib); [|done|];
    (eapply always_mono; [by apply always_sent, Hc|]; intros tr' [[]|e] Hs; [|done]; cbn; eauto).
Qed.

(** The read-only step, then the declared step, as one document. *)
Lemma always_parsed {A} I (Q : list event → result Error A → Prop) tr (r : result JsonError A) :
  match r with Ok a => Q tr (Ok a) | Err _ => Q tr (Err BadOptions) end → always I Q tr (parsed r).
Proof. by destruct r. Qed.

Lemma always_enforceOne jf spec n tr existing folders anyChanged d :
  n < length tr → first_listing n tr existing → listed tr folders → d ∈ desiredLibraries jf →
  always (library_inv jf spec n)
    (on_ok (λ tr' b, b = true → anyChanged = true ∨ ∃ req, sent tr' req ∧ rq_Method req ≠ "GET")) tr
    (enforceOne quote cli (index_by vf_Name folders ∅) anyChanged d).
Proof.
  intros Hn Hfirst Hlisted Hd. unfold enforceOne.
  destruct (index_by _ _ _ !! _) as [f|] eqn:Hf; [|by left]. apply index_by_elem in Hf as [Hf Hname].
  case_decide as Hid; [by left|].
  apply (always_seq _ _ (λ tr' s, tr' = tr ∧
    (if dl_PreventWrites d then ∃ ch, EnforceReadOnlyOptions (vf_LibraryOptions f) = Ok (s.1, ch)
     else s.1 = vf_LibraryOptions f) ∧ (s.2 = true → ∃ j, s.1 = Text j))).
  { destruct (dl_PreventWrites d); [|by cbn].
    apply (always_seq _ _ (λ tr' r, tr' = tr ∧ EnforceReadOnlyOptions (vf_LibraryOptions f) = Ok r)).
    { apply always_parsed. by destruct (EnforceReadOnlyOptions _). }
    intros tr' [out ch] [-> Hr] _. pose proof (overlay_out _ _ _ _ Hr) as Hout.
    destruct ch; [|subst out]; (split_and!; [done|by eexists|done]). }
  intros tr' [mid ch] (-> & Hmid & Htext) _. cbn [fst snd] in *.
  apply (always_seq _ _ (λ tr' s, tr' = tr ∧ wanted_options d (vf_LibraryOptions f) s.1 ∧
    (s.2 = true → ∃ j, s.1 = Text j))).
  { unfold wanted_options. destruct (dl_Options d) as [| |j] eqn:Ho; [cbn; eauto|..];
      (apply (always_seq _ _ (λ tr' r, tr' = tr ∧ MergeLibraryOptions mid (dl_Options d) = Ok r));
       rewrite Ho; [apply always_parsed; by destruct (MergeLibraryOptions _ _)|];
       intros tr' [out ch'] [-> Hr] _; pose proof (MergeLibraryOptions_out _ _ _ _ Hr) as Hout;
       destruct ch'; [|subst out]; (split_and!; [done|by eauto|done])). }
  intros tr' [merged ch'] (-> & Hw & Htext') _. cbn [fst snd] in *. destruct ch'; [|by left].
  destruct (Htext' eq_refl) as [j ->].
  apply (always_seq _ _ (λ tr' _, sent tr' (options_request (vf_ItemID f) j))).
  - apply always_sent. right. exists existing. split; [done|]. by eapply because_options.
  - intros tr' [] Hs _ _. right. by eexists.
Qed.

Lemma because_paths desired existing managed prune refresh tr n p :
  let diff := DiffLibraries desired existing managed prune in
  (p ∈ default [] (ld_PathsToAdd diff !! n) →
     library_reason desired existing managed prune refresh tr (add_path_request n p)) ∧
  (p ∈ default [] (ld_PathsToRemove diff !! n) →
     library_reason desired existing managed prune refresh tr (remove_path_request n p)).
Proof.
  destruct (diff_path_reason desired existing managed prune n p) as [Ha Hr]. split.
  - intros (d & f & ? & ? & ? & <- & ? & ?)%Ha. by eapply because_path_missing.
  - intros (d & f & ? & ? & ? & <- & ? & ?)%Hr. by eapply because_path_stale.
Qed.

(** The loops over the paths of a diff. *)
Lemma always_paths (I : call_inv) base tr (m : gmap string (list string)) (op : string → string → M unit) reqs :
  base `prefix_of` tr →
  (∀ n p tr, p ∈ default [] (m !! n) → base `prefix_of` tr →
     always I (on_ok (λ tr' _, sent tr' (reqs n p))) tr (op n p)) →
  always I (on_ok (λ tr' _, ∀ n p, p ∈ default [] (m !! n) → sent tr' (reqs n p))) tr
    (for_each (λ np : string * list string, for_each (op np.1) np.2) (range_map m)).
Proof.
  intros Hbase Hop. eapply always_mono.
  - eapply (always_each I _ (λ (np : string * list string) tr', ∀ p, p ∈ np.2 → sent tr' (reqs np.1 p)) base);
      [intros np tr1 tr2 Hnp Hp p Hin; eapply sent_mono; [exact Hp|by apply Hnp]|exact Hbase|].
    intros [n ps] tr1 Hin Hb. rewrite range_map_perm in Hin. apply elem_of_map_to_list in Hin. cbn.
    eapply (always_each I _ (λ p tr', sent tr' (reqs n p)) base); [intros p tr2 tr3 Hs Hp; by eapply sent_mono|done|].
    intros p tr2 Hp Hb2. apply Hop; [by rewrite Hin|done].
  - intros tr' [[]|e]; [|done]. intros Hall n p Hp. destruct (m !! n) as [ps|] eqn:Hn; [|by apply elem_of_nil in Hp].
    apply (Hall (n, ps)); [|done]. rewrite range_map_perm. by apply elem_of_map_to_list.
Qed.

(** Every request of a diff has been answered. *)
Definition diff_sent (diff : LibraryDiff) tr : Prop :=
  (∀ d, d ∈ ld_ToCreate diff → ∃ req, create_request d req ∧ sent tr req) ∧
  (∀ n p, p ∈ default [] (ld_PathsToAdd diff !! n) → sent tr (add_path_request n p)) ∧
  (∀ n p, p ∈ default [] (ld_PathsToRemove diff !! n) → sent tr (remove_path_request n p)) ∧
  (∀ n, n ∈ ld_ToRemove diff → sent tr (remove_request n)).

Lemma diff_sent_mono diff tr tr' : tr `prefix_of` tr' → diff_sent diff tr → diff_sent diff tr'.
Proof.
  intros Hp (Hc & Ha & Hr & Hrm). split_and!; intros; try (eapply sent_mono; by eauto).
  destruct (Hc d) as (req & ? & ?); [done|]. exists req. split; [done|]. by eapply sent_mono.
Qed.

(** A diff that changes something has had a request sent. *)
Lemma changed_sent diff tr :
  diff_sent diff tr → Changed diff = true → ∃ req, sent tr req ∧ rq_Method req ≠ "GET".
Proof.
  intros (Hc & Ha & Hr & Hrm) Hch.
  destruct (ld_ToCreate diff) as [|d ds] eqn:Hcd.
  2: { destruct (Hc d) as (req & (q & body & -> & _) & Hs); [by left|]. by eexists. }
  destruct (ld_ToRemove diff) as [|n ns] eqn:Hrd; [|exists (remove_request n); split; [apply Hrm; by left|done]].
  unfold Changed in Hch. rewrite Hcd, Hrd in Hch. rewrite decide_False in Hch by (cbn; lia).
  assert (∀ m : gmap string (list string), existsb (λ kv : string * list string, bool_decide (0 < length kv.2)) (range_map m) = true →
            ∃ n p, p ∈ default [] (m !! n)) as Hex.
  { intros m ([n [|p ps]] & Hin%list_elem_of_In & Hl)%existsb_exists; [done|].
    rewrite range_map_perm in Hin. apply elem_of_map_to_list in Hin. exists n, p. rewrite Hin. by left. }
  destruct (existsb _ (range_map (ld_PathsToAdd diff))) eqn:He.
  - apply Hex in He as (n & p & Hp). eexists. split; [by apply Ha|done].
  - apply Hex in Hch as (n & p & Hp). eexists. split; [by apply Hr|done].
Qed.

Section pass.
Context (jf : Jellyfin) (spec : JellyfinAPISpec) (n : nat) (existing : list VirtualFolder).
Let desired := desiredLibraries jf.
Let managed := jst_ManagedLibraries (jf_Status jf).
Let diff := DiffLibraries desired existing managed (api_Prune spec).

(** After the listing, a request with a reason may be sent. *)
Lemma library_inv_reason base tr req :
  first_listing n base existing → base `prefix_of` tr →
  library_reason desired existing managed (api_Prune spec) (api_RefreshLibraryOnChange spec) tr req →
  library_inv jf spec n _ tr (Http req).
Proof. intros Hf Hp Hr. right. exists existing. split; [by eapply first_listing_mono|done]. Qed.

Lemma always_creates base tr :
  first_listing n base existing → base `prefix_of` tr →
  always (library_inv jf spec n)
    (on_ok (λ tr' _, ∀ d, d ∈ ld_ToCreate diff → ∃ req, create_request d req ∧ sent tr' req)) tr
    (for_each (λ lib, AddVirtualFolder quote cli lib false) (ld_ToCreate diff)).
Proof.
  intros Hf Hb. destruct (DiffLibraries_eq desired existing managed (api_Prune spec)) as (Hc & _).
  eapply (always_each _ _ (λ d tr', ∃ req, create_request d req ∧ sent tr' req) base); [|done|].
  - intros d tr1 tr2 (req & Hr & Hs) Hp. exists req. split; [done|]. by eapply sent_mono.
  - intros d tr' [Hd Hno]%Hc Hp. apply always_AddVirtualFolder. intros req Hreq.
    eapply library_inv_reason; [done|done|]. by eapply because_missing.
Qed.

Lemma always_removals base tr :
  first_listing n base existing → base `prefix_of` tr →
  always (library_inv jf spec n) (on_ok (λ tr' _, ∀ m, m ∈ ld_ToRemove diff → sent tr' (remove_request m))) tr
    (for_each (λ name, RemoveVirtualFolder quote cli name false) (ld_ToRemove diff)).
Proof.
  intros Hf Hb. destruct (DiffLibraries_eq desired existing managed (api_Prune spec)) as (_ & _ & _ & Hrm).
  eapply (always_each _ _ (λ m tr', sent tr' (remove_request m)) base); [|done|].
  - intros m tr1 tr2 Hs Hp. by eapply sent_mono.
  - intros m tr' (Hp & Hm & (f & -> & Hin)%list_elem_of_fmap & Hno)%Hrm Hpre.
    apply always_sent. eapply library_inv_reason; [done|done|]. by apply because_pruned.
Qed.

Lemma always_options folders tr base :
  n < length base → first_listing n base existing → base `prefix_of` tr → listed tr folders →
  always (library_inv jf spec n)
    (on_ok (λ tr' b, b = true → ∃ req, sent tr' req ∧ rq_Method req ≠ "GET")) tr
    (enforceLibraryOptions quote cli desired folders).
Proof.
  intros Hn Hf Hb Hl. eapply always_mono;
    [eapply (always_fold_each _ (λ _ b tr', tr `prefix_of` tr' ∧
       (b = true → ∃ req, sent tr' req ∧ rq_Method req ≠ "GET")) (λ _ _, True))|].
  - by split.
  - intros pre d rest b tr' Hd [Hp Hb']. eapply always_mono.
    + apply always_on_ok_prefix, (always_enforceOne jf spec n tr' existing); [| | |].
      * apply prefix_length in Hb, Hp. lia.
      * eapply first_listing_mono; [|done]. by etrans.
      * destruct Hl as (r & Hr & Hl). exists r. split; [|done]. destruct Hp as [k ->]. apply elem_of_app. by left.
      * fold desired. rewrite Hd. apply elem_of_app. right. by left.
    + intros tr'' [b'|e]; [|done]. intros [Hb'' Hp']. split; [by etrans|]. intros [->|?]%Hb''; [|done].
      destruct Hb' as (req & Hs & Hm); [done|]. exists req. split; [by eapply sent_mono|done].
  - intros tr' [b|e]; [|done]. by intros [_ ?].
Qed.
(** The four loops over the diff. *)
Definition apply_requests (diff : LibraryDiff) (k : M Jellyfin) : M Jellyfin :=
  _ ←! for_each (λ lib, AddVirtualFolder quote cli lib false) (ld_ToCreate diff);
  _ ←! for_each (λ np : string * list string, for_each (λ p, AddMediaPath quote cli np.1 p false) np.2)
         (range_map (ld_PathsToAdd diff));
  _ ←! for_each (λ np : string * list string, for_each (λ p, RemoveMediaPath quote cli np.1 p false) np.2)
         (range_map (ld_PathsToRemove diff));
  _ ←! for_each (λ name, RemoveVirtualFolder quote cli name false) (ld_ToRemove diff);
  k.

Lemma always_diff base tr Q k :
  first_listing n base existing → base `prefix_of` tr →
  (∀ tr', tr `prefix_of` tr' → diff_sent diff tr' → always (library_inv jf spec n) (on_ok Q) tr' k) →
  always (library_inv jf spec n) (on_ok Q) tr (apply_requests diff k).
Proof.
  intros Hf Hb Hk. eapply always_seq; [by apply (always_creates base)|]. intros tr1 [] Hc Hp1.
  eapply always_seq.
  { apply (always_paths _ base _ _ (λ m p, AddMediaPath quote cli m p false) add_path_request); [by prefixes|].
    intros m p tr' Hin Hp. apply always_sent. eapply library_inv_reason; [done|done|]. by apply because_paths. }
  intros tr2 [] Ha Hp2. eapply always_seq.
  { apply (always_paths _ base _ _ (λ m p, RemoveMediaPath quote cli m p false) remove_path_request); [by prefixes|].
    intros m p tr' Hin Hp. apply always_sent. eapply library_inv_reason; [done|done|]. by apply because_paths. }
  intros tr3 [] Hr Hp3. eapply always_seq; [apply (always_removals base); [done|by prefixes]|].
  intros tr4 [] Hrm Hp4. apply Hk; [by prefixes|]. split_and!; [| | |done].
  - intros d (req & ? & Hs)%Hc. exists req. split; [done|]. eapply sent_mono; [|done]. by prefixes.
  - intros m p Hs%Ha. eapply sent_mono; [|done]. by prefixes.
  - intros m p Hs%Hr. by eapply sent_mono.
Qed.

(** The second listing, if a library was created. *)
Lemma always_relist base tr :
  first_listing n base existing → base `prefix_of` tr →
  always (library_inv jf spec n) (on_ok listed) tr
    (if decide (0 < length (ld_ToCreate diff)) then ListVirtualFolders quote cli else ok existing).
Proof.
  intros Hf Hb. case_decide as Hlen; [|by eapply first_listing_listed, first_listing_mono].
  apply always_list; [|by intros r' folders Hr'; exists r'; split; [apply elem_of_app; right; left|done]|done].
  destruct (DiffLibraries_eq desired existing managed (api_Prune spec)) as (Hc & _).
  destruct (lookup_lt_is_Some_2 _ _ Hlen) as [d Hd%list_elem_of_lookup_2]. apply Hc in Hd as [? ?].
  eapply library_inv_reason; [done|done|]. by eapply because_created.
Qed.

Lemma always_refresh base tr (b : bool) :
  first_listing n base existing → base `prefix_of` tr → diff_sent diff tr →
  (b = true → ∃ req, sent tr req ∧ rq_Method req ≠ "GET") →
  always (library_inv jf spec n) (on_ok (λ _ _, True)) tr
    (if (Changed diff || b) && api_RefreshLibraryOnChange spec then RefreshLibraries quote cli else ok tt).
Proof.
  intros Hf Hb Hsent Hopts. destruct (_ && _) eqn:Hrefresh; [|done].
  apply andb_true_iff in Hrefresh as [Hch Hr]. eapply always_mono; [apply always_sent|by intros ? []].
  assert (∃ req, sent tr req ∧ rq_Method req ≠ "GET") as (req & Hs & Hm).
  { apply orb_true_iff in Hch as [Hch|Hch]; [by eapply changed_sent|by apply Hopts]. }
  eapply library_inv_reason; [done|done|]. by eapply because_changed.
Qed.

Lemma diff_sent_done tr :
  first_listing n tr existing → diff_sent diff tr →
  libraries_done jf spec n tr (set_jst_ManagedLibraries (sort_strings (dl_Name <$> desired)) jf).
Proof.
  intros Hf (Hcreated & Hadded & Hremoved & Hpruned). split; [done|]. exists existing. split; [done|].
  destruct (DiffLibraries_eq desired existing managed (api_Prune spec)) as (Hc & _ & _ & Hrm). split_and!.
  - intros d Hd Hno. apply Hcreated. by apply Hc.
  - intros f Hpr Hin Hm Hno. apply Hpruned, Hrm. split_and!; [done|done|by apply list_elem_of_fmap_2|done].
  - intros Hnd d f p Hd Hin Hname.
    destruct (diff_path_complete desired existing managed (api_Prune spec) d f p Hnd Hd Hin Hname) as [Ha Hr].
    split; intros Hp Hno; [apply Hadded; by apply Ha|apply Hremoved; by apply Hr].
Qed.
End pass.

Lemma reconcileLibraries_always jf spec tr :
  always (library_inv jf spec (length tr)) (on_ok (libraries_done jf spec (length tr))) tr
    (reconcileLibraries quote jf spec cli).
Proof.
  apply always_bind, always_list; [by left| |done]. intros r existing Hlist. cbn [fst].
  set (base := tr ++ [Ev (Http list_request) r]).
  assert (first_listing (length tr) base existing) as Hf.
  { exists r. split; [|done]. by apply list_lookup_middle. }
  assert (length tr < length base) as Hn by (unfold base; rewrite length_app; cbn; lia).
  apply (always_diff jf spec _ existing base); [done|done|]. intros tr1 Hp1 Hsent.
  eapply always_seq; [by apply (always_relist jf spec _ existing base)|]. intros tr2 folders Hfolders Hp2.
  eapply always_seq; [apply (always_options jf spec _ existing folders _ base); by prefixes|].
  intros tr3 optsChanged Hopts Hp3.
  assert (diff_sent (DiffLibraries (desiredLibraries jf) existing (jst_ManagedLibraries (jf_Status jf))
            (api_Prune spec)) tr3) as Hsent3 by (eapply diff_sent_mono; [|exact Hsent]; by prefixes).
  eapply always_seq; [apply (always_refresh jf spec _ existing base); [done|by prefixes|done|done]|].
  intros tr4 [] _ Hp4. apply (diff_sent_done jf spec _ existing).
  - eapply first_listing_mono; [|exact Hf]. by prefixes.
  - by eapply diff_sent_mono.
Qed.
End libraries.


(** ** Settings: what is written is what was read, with the managed fields set *)
Section settings.
Context (quote : string → string) (cli : Client).

Definition get_request (path : string) : HttpRequest := request quote cli "GET" path None None.
Definition post_request (path : string) (j : Json) : HttpRequest := request quote cli "POST" path None (Some j).

(** The document the [n]th event read. *)
Definition read_config (n : nat) (path : string) (tr : list event) (cur : RawMessage) : Prop :=
  ∃ r, tr !! n = Some (Ev (Http (get_request path)) r) ∧ read_answer (λ j, Some (Text j)) Empty r = Some cur.

Definition config_inv (path : string) (enforce : RawMessage → result JsonError (RawMessage * bool))
    (n : nat) : call_inv := λ R tr c,
  match c with
  | Http req =>
      (length tr = n ∧ req = get_request path) ∨
      ∃ cur j, read_config n path tr cur ∧ enforce cur = Ok (Text j, true) ∧ req = post_request path j
  | _ => False
  end.

Definition config_done (path : string) (enforce : RawMessage → result JsonError (RawMessage * bool))
    (n : nat) (tr : list event) : Prop :=
  ∃ cur, read_config n path tr cur ∧
    ((length tr = S n ∧ enforce cur = Ok (cur, false)) ∨
     ∃ j, enforce cur = Ok (Text j, true) ∧ sent tr (post_request path j)).

Lemma always_reconcileConfig {D} (empty : D → bool) path enforce (d : D) tr :
  (∀ cur out ch, enforce cur d = Ok (out, ch) → if (ch : bool) then ∃ j, out = Text j else out = cur) →
  always (config_inv path (λ c, enforce c d) (length tr))
    (on_ok (λ tr' _, if empty d then tr' = tr else config_done path (λ c, enforce c d) (length tr) tr')) tr
    (reconcileConfig empty (λ c, get_raw quote c path) enforce
       (λ c cfg, do_raw quote c MethodPost path cfg id) d cli).
Proof.
  intros Hout. unfold reconcileConfig. destruct (empty d); [done|].
  apply always_bind, always_do_out; [by left|]. intros r. destruct (read_answer _ _ r) as [cur|] eqn:Hr; [|done].
  set (tr1 := tr ++ _). assert (read_config (length tr) path tr1 cur) as Hread.
  { exists r. split; [by apply list_lookup_middle|done]. }
  destruct (enforce cur d) as [[out ch]|e] eqn:He; cbn; [|done].
  pose proof (Hout _ _ _ He) as Ho. destruct ch; cbn.
  - destruct Ho as [j ->]. eapply always_mono; [apply always_on_ok_prefix, always_sent|].
    + right. by exists cur, j.
    + intros tr2 [[]|e] Hs; [|done]. destruct Hs as [Hs Hp]. exists cur. split; [|right; by exists j].
      destruct Hread as (r' & Hr' & Hc). exists r'. split; [by eapply prefix_lookup_Some|done].
  - subst out. exists cur. split; [done|]. left. split; [|done]. unfold tr1. rewrite length_app. cbn. lia.
Qed.
End settings.

(** What a settings pass promises, after any history. *)
Definition settings_pass {D} quote cli tr path (enforce : RawMessage → D → result JsonError (RawMessage * bool))
    (empty : D → bool) (d : D) (m : M unit) : Prop :=
  always (config_inv quote cli path (λ c, enforce c d) (length tr))
    (on_ok (λ tr' _, if empty d then tr' = tr
                     else config_done quote cli path (λ c, enforce c d) (length tr) tr')) tr m.

Lemma settings_always quote jf cli tr :
  settings_pass quote cli tr "/System/Configuration/encoding" EnforceEncodingOptions DesiredEncoding_Empty
    (desiredEncoding (js_Transcoding (jf_Spec jf))) (reconcileEncoding quote jf cli) ∧
  settings_pass quote cli tr "/System/Configuration" EnforceServerConfig DesiredServerConfig_Empty
    (desiredServerConfig (js_General (jf_Spec jf)) (js_Playback (jf_Spec jf))) (reconcileServerConfig quote jf cli) ∧
  settings_pass quote cli tr "/System/Configuration/branding" EnforceBranding DesiredBranding_Empty
    (desiredBranding (js_Branding (jf_Spec jf))) (reconcileBranding quote jf cli).
Proof.
  split_and!.
  - apply (always_reconcileConfig quote cli DesiredEncoding_Empty encodingConfigPath EnforceEncodingOptions).
    intros cur out ch. apply overlay_out.
  - apply (always_reconcileConfig quote cli DesiredServerConfig_Empty serverConfigPath EnforceServerConfig).
    intros cur out ch. apply overlay_out.
  - apply (always_reconcileConfig quote cli DesiredBranding_Empty brandingConfigPath EnforceBranding).
    intros cur out ch. apply overlay_out.
Qed.

(** C31: Each settings pass: nothing is sent when nothing is declared; otherwise the one
    document is read, and then written back only if the overlay of the declared
    fields changed it, exactly as overlaid. A pass that succeeds has read it, and
    either found it as declared or had the overlaid document accepted. *)
Theorem settings_written_back quote jf cli tr :
  settings_pass quote cli tr "/System/Configuration/encoding" EnforceEncodingOptions DesiredEncoding_Empty
    (desiredEncoding (js_Transcoding (jf_Spec jf))) (reconcileEncoding quote jf cli) ∧
  settings_pass quote cli tr "/System/Configuration" EnforceServerConfig DesiredServerConfig_Empty
    (desiredServerConfig (js_General (jf_Spec jf)) (js_Playback (jf_Spec jf))) (reconcileServerConfig quote jf cli) ∧
  settings_pass quote cli tr "/System/Configuration/branding" EnforceBranding DesiredBranding_Empty
    (desiredBranding (js_Branding (jf_Spec jf))) (reconcileBranding quote jf cli).
Proof. apply settings_always. Qed.

(** ** Credentials *)
Section credentials.
Context `{KubeLib} (quote : string → string) (jf : Jellyfin) (spec : JellyfinAPISpec) (cli : Client) (n : nat).
Let ns := jf_Namespace jf.
Let provided := api_Mode spec = "provided".
Let genName := generatedName jf spec.

(** The values of the Secret the user named. *)
Definition given (tr : list event) (g : string * string * string) : Prop :=
  g = ("", "", "") ∨ ∃ name sec, api_CredentialsSecret spec = Some name ∧
    Ev (GetSecret ns name) (Ok sec) ∈ tr ∧ g = (data sec "apiKey", data sec "username", data sec "password").

(** No key has been seen to work among the first [m] events. *)
Definition no_working_key (m : nat) (tr : list event) : Prop :=
  ∀ c r folders, Ev (Http (list_request quote c)) r ∈ drop n (take m tr) → ¬ listing r folders.

(** The protocol has been run for these credentials and ended with this key. *)
Definition minted_key (tr : list event) (user pass key : string) : Prop :=
  ∃ m c, n ≤ m ∧ follows (protocol_inv quote c user pass apiKeyAppName m) m tr ∧
    phase_after apiKeyAppName m tr = Done key.

Definition cred_inv : call_inv := λ R tr c,
  match c with
  | GetSecret ns' name => ns' = ns ∧ (api_CredentialsSecret spec = Some name ∨ (¬ provided ∧ name = genName))
  | RandRead _ => ¬ provided
  | Http req =>
      (provided ∧ ∃ key user pass, given tr (key, user, pass) ∧ user ≠ "" ∧ pass ≠ "" ∧
         phase_request quote cli user pass apiKeyAppName Login = Some req) ∨
      (¬ provided ∧ ∃ sec, Ev (GetSecret ns genName) (Ok sec) ∈ tr ∧ data sec "apiKey" ≠ "" ∧
         req = list_request quote (SetToken cli (data sec "apiKey"))) ∨
      (¬ provided ∧ ∃ m c user pass, n ≤ m ∧ no_working_key m tr ∧ cl_base c = cl_base cli ∧
         protocol_inv quote c user pass apiKeyAppName m _ tr (Http req))
  | UpsertSecret ns' name f =>
      ¬ provided ∧ ns' = ns ∧ name = genName ∧
      ∃ user pass key, f = secret_mutation jf user pass key ∧ minted_key tr user pass key
  | _ => False
  end.

Definition cred_result (tr : list event) (tj : string * Jellyfin) : Prop :=
  let '(token, jf') := tj in
  (provided ∧ jf' = jf ∧ token ≠ "") ∨
  (¬ provided ∧ jf' = set_jst_APICredentialsSecret genName jf ∧
     ((∃ tr1 r folders, tr = tr1 ++ [Ev (Http (list_request quote (SetToken cli token))) r] ∧ listing r folders) ∨
      (∃ tr1 sec user pass,
         tr = tr1 ++ [Ev (UpsertSecret ns genName (secret_mutation jf user pass token)) (Ok sec)] ∧
         minted_key tr1 user pass token))).

Lemma always_given tr :
  always cred_inv
    (on_ok (λ tr' g, given tr' g ∧ (tr' = tr ∨ ∃ name r, tr' = tr ++ [Ev (GetSecret ns name) r]))) tr
    (givenCredentials jf spec).
Proof.
  unfold givenCredentials. destruct (api_CredentialsSecret spec) as [name|] eqn:Hs; [|by split; left].
  case_decide; [by split; left|]. split; [by split; [|left]|]. intros [sec|e]; [|done]. cbn. split.
  - right. exists name, sec. split_and!; [done|apply elem_of_app; right; by left|done].
  - right. by eexists _, _.
Qed.

(** The answer of an HTTP event. *)
Definition http_answer (ev : event) : option (result string HttpResponse) :=
  match ev with
  | Ev c r => match c in call R return R → option (result string HttpResponse) with
              | Http _ => Some | _ => λ _, None end r
  end.

Lemma no_working_key_app tr ev m :
  no_working_key (length tr) tr → n ≤ length tr →
  (∀ c r folders, ev = Ev (Http (list_request quote c)) r → ¬ listing r folders) →
  m = length (tr ++ [ev]) → no_working_key m (tr ++ [ev]).
Proof.
  intros Hno Hn Hev ->. unfold no_working_key in *. rewrite firstn_all in *. rewrite drop_app_le by done.
  intros c r folders [Hin|Hin%list_elem_of_singleton]%elem_of_app; [by eapply Hno|]. by eapply Hev.
Qed.

Lemma always_earlier tr user pass :
  ¬ provided → n ≤ length tr → no_working_key (length tr) tr →
  always cred_inv
    (λ tr' r, match r with
       | inl key => ∃ tr1 r folders,
           tr' = tr1 ++ [Ev (Http (list_request quote (SetToken cli key))) r] ∧ listing r folders
       | inr (c, _, _) => n ≤ length tr' ∧ no_working_key (length tr') tr' ∧ cl_base c = cl_base cli end) tr
    (earlierCredentials quote jf cli genName user pass).
Proof.
  intros Hp Hn Hno. apply always_bind, always_api_all; [by split; [|right]|]. intros r.
  assert (no_working_key (length (tr ++ [Ev (GetSecret ns genName) r])) (tr ++ [Ev (GetSecret ns genName) r])) as Hno1.
  { apply no_working_key_app; [done|done| |done]. intros c r' folders Heq. by inversion Heq. }
  assert (n ≤ length (tr ++ [Ev (GetSecret ns genName) r])) as Hn1 by (rewrite length_app; lia).
  destruct r as [sec|e]; cbn beta iota zeta delta [wrap_err]; [|done].
  case_decide as Hkey; [done|]. apply always_bind, always_list.
  - right. left. split; [done|]. exists sec. split_and!; [apply elem_of_app; right; by left|done|done].
  - intros r folders Hl. cbn. by eexists _, _, _.
  - intros r e Hl. cbn. split_and!; [rewrite !length_app; lia| |done]. apply no_working_key_app; [done|done| |done].
    intros c r' folders Heq%(f_equal http_answer). injection Heq as <-. apply Hl.
Qed.

(** Bootstrapping, from a history in which no key has worked. *)
Lemma always_bootstrap tr c user pass :
  ¬ provided → n ≤ length tr → no_working_key (length tr) tr → cl_base c = cl_base cli →
  always cred_inv (on_ok (λ tr' key, minted_key tr' user pass key)) tr
    (Bootstrap quote c user pass apiKeyAppName).
Proof.
  intros Hp Hn Hno Hbase.
  pose proof (always_inv_prefix _ _ _ _ (always_follows _ _ _ _
    (Bootstrap_always quote c user pass apiKeyAppName tr))) as H0.
  eapply always_mono; [eapply always_inv_mono; [|exact H0]|].
  - intros R tr' call [[suf ->] Hc]. destruct call; try done. right. right. split; [done|].
    exists (length tr), c, user, pass. split_and!; [done| |done|done].
    unfold no_working_key in *. rewrite firstn_all in Hno. by rewrite take_app_length.
  - intros tr' [key|e]; [|done]. intros (Hd & Hpre & Hf). exists (length tr), c. done.
Qed.

Lemma always_provided tr providedKey user pass :
  provided → given tr (providedKey, user, pass) →
  always cred_inv (on_ok cred_result) tr
    (if decide (providedKey ≠ "") then ok (providedKey, jf)
     else if decide (user = "" ∨ pass = "") then
       throw (Message "mode=provided requires apiKey or username+password in credentialsSecret")
     else
       auth ←! AuthenticateByName quote cli user pass;
       ok (fst auth, jf)).
Proof.
  intros Hp Hg. case_decide; [by left|]. case_decide; [done|].
  eapply (always_seq _ _ (λ _ auth, auth.1 ≠ "")); [|by intros tr' [t c] Ht _; left].
  apply always_bind, always_do_out.
  - left. split; [done|]. exists providedKey, user, pass. split_and!; [done|tauto|tauto|done].
  - intros r. destruct (read_answer _ _ r) as [a|]; [|done]. cbn. by case_decide.
Qed.

Lemma always_persist tr user pass key :
  ¬ provided → minted_key tr user pass key →
  always cred_inv (on_ok cred_result) tr
    (_ ←! persistGeneratedSecret jf genName user pass key;
     ok (key, set_jst_APICredentialsSecret genName jf)).
Proof.
  intros Hp Hm. split; [by split_and!; [| | |exists user, pass, key]|]. intros [sec|e]; cbn; [|done].
  right. split_and!; [done|done|]. right. by exists tr, sec, user, pass.
Qed.

Lemma always_ensureCredentials tr :
  length tr = n → always cred_inv (on_ok cred_result) tr (ensureCredentials quote jf spec cli).
Proof.
  intros Hn. eapply always_seq; [apply always_given|]. intros tr1 [[key user] pass] [Hg Htr1] _.
  assert (n ≤ length tr1 ∧ no_working_key (length tr1) tr1) as [Hn1 Hno].
  { unfold no_working_key. rewrite firstn_all, <-Hn. destruct Htr1 as [->|(name & r & ->)].
    - rewrite drop_all. split; [done|]. by intros c r folders ?%elem_of_nil.
    - rewrite drop_app_length, length_app. split; [lia|].
      intros c r' folders Heq%list_elem_of_singleton%(f_equal http_answer). done. }
  case_decide as Hp; [by apply always_provided|].
  apply always_bind. eapply always_mono; [by apply always_earlier|]. clear tr1 Hg Htr1 Hn1 Hno key.
  intros tr1 [key|[[c user'] pass']]; [by intros Hr; right; split_and!; [| |left]|]. intros (Hn1 & Hno & Hbase).
  apply always_bind.
  apply (always_mono _ (λ tr' _, n ≤ length tr' ∧ no_working_key (length tr') tr')).
  - case_decide; [|done]. split; [done|]. intros b. cbn. split; [rewrite length_app; lia|].
    apply no_working_key_app; [done|done| |done]. intros c' r folders Heq%(f_equal http_answer). done.
  - intros tr2 pass'' [Hn2 Hno2]. eapply always_seq; [by apply always_bootstrap|].
    intros tr3 key Hm _. by apply always_persist.
Qed.
End credentials.

(** C30: Credentials, whatever the servers answer. With provided credentials nothing is
    written and the server is asked at most to log the user in. Otherwise a generated
    key is reused if the server accepts it, and only if none was accepted is the
    bootstrap protocol run; the generated Secret is written only with a key that
    protocol has just ended with, under the user name and password it was run with,
    and the token returned is the key accepted or the key written. *)
Theorem ensureCredentials_safe `{KubeLib} quote jf spec cli tr :
  always (cred_inv quote jf spec cli (length tr)) (on_ok (cred_result quote jf spec cli (length tr))) tr
    (ensureCredentials quote jf spec cli).
Proof. by apply always_ensureCredentials. Qed.

(** ** The whole pass *)
Section pass.
Context `{KubeLib, RetryLib, NetUrl, MapOrder}.
Context (quote : string → string) (library_text : Error → string) (RequeueInterval : Z).

(** The conditions this controller owns. *)
Definition api_conditions : list string :=
  [conditionAPIReady; conditionLibrariesReady; conditionTranscodingReady; conditionServerConfigReady;
   conditionBrandingReady].

(** What a pass may change in the instance it read: its own part of the status. *)
Definition api_update (jf jf' : Jellyfin) : Prop :=
  jf_Meta jf' = jf_Meta jf ∧ jf_Spec jf' = jf_Spec jf ∧
  let s := jf_Status jf in let s' := jf_Status jf' in
  jst_Phase s' = jst_Phase s ∧ jst_ObservedGeneration s' = jst_ObservedGeneration s ∧
  jst_Endpoints s' = jst_Endpoints s ∧ jst_LoadedPlugins s' = jst_LoadedPlugins s ∧
  (jst_ManagedLibraries s' = jst_ManagedLibraries s ∨
   jst_ManagedLibraries s' = sort_strings (dl_Name <$> desiredLibraries jf)) ∧
  ∀ t, t ∉ api_conditions →
    FindStatusCondition (jst_Conditions s') t = FindStatusCondition (jst_Conditions s) t.

(** Removing a library by name. *)
Definition removes_library (u : URL) (req : HttpRequest) : Prop :=
  rq_Method req = "DELETE" ∧ u_Path (rq_URL req) = TrimRightByte "/" (u_Path u) +:+ "/Library/VirtualFolders".

(** The instance's Service, and an instance known under it: its names are ones a Service
    can have, and its status names no other endpoint. *)
Definition service_host (jf : Jellyfin) : string :=
  (jf_Name jf +:+ "." +:+ jf_Namespace jf +:+ ".svc") +:+ ":" +:+ pretty (jellyfinPort jf).
Definition at_service (jf : Jellyfin) : Prop :=
  all_chars host_char (jf_Name jf) = true ∧ all_chars host_char (jf_Namespace jf) = true ∧
  (0 ≤ jellyfinPort jf)%Z ∧
  ie_Service (jst_Endpoints (jf_Status jf)) ∈ [""; service_endpoint jf].

Definition request_allowed (jf : Jellyfin) (spec : JellyfinAPISpec) (req : HttpRequest) : Prop :=
  ∃ u, url_Parse (apiBase jf) = Ok u ∧
    u_Scheme (rq_URL req) = u_Scheme u ∧ u_Host (rq_URL req) = u_Host u ∧
    (at_service jf → u = mkURL "http" (service_host jf) "" ∅) ∧
    (removes_library u req → ∃ name, u_Query (rq_URL req) !! "name" = Some [name] ∧
       api_ManageLibraries spec = true ∧ api_Prune spec = true ∧
       name ∈ jst_ManagedLibraries (jf_Status jf) ∧ name ∉ dl_Name <$> desiredLibraries jf).

Definition pass_inv (jf : Jellyfin) (spec : JellyfinAPISpec) : call_inv := λ R tr c,
  match c with
  | GetJellyfin ns name => ns = jf_Namespace jf ∧ name = jf_Name jf
  | StatusUpdateJellyfin jf' =>
      ∃ jf1 cur tr', api_update jf jf1 ∧
        tr = tr' ++ [Ev (GetJellyfin (jf_Namespace jf) (jf_Name jf)) (Ok cur)] ∧
        jf' = with_status cur (jf_Status jf1)
  | GetSecret ns _ => instanceReady jf = true ∧ ns = jf_Namespace jf
  | UpsertSecret ns name _ =>
      instanceReady jf = true ∧ ns = jf_Namespace jf ∧ name = generatedName jf spec ∧ api_Mode spec ≠ "provided"
  | RandRead _ => instanceReady jf = true
  | Http req => instanceReady jf = true ∧ request_allowed jf spec req
  | _ => False
  end.

Definition api_inv (ns name : string) : call_inv := λ R tr c,
  (tr = [] ∧ match c with GetJellyfin ns' name' => ns' = ns ∧ name' = name | _ => False end) ∨
  ∃ jf spec rest, tr = Ev (GetJellyfin ns name) (Ok jf) :: rest ∧
    js_API (jf_Spec jf) = Some spec ∧ om_DeletionTimestamp (jf_Meta jf) = None ∧ pass_inv jf spec R tr c.

Lemma api_update_refl jf : api_update jf jf.
Proof. repeat split; auto. Qed.

Lemma api_update_condition jf jf' t st reason msg :
  t ∈ api_conditions → api_update jf jf' → api_update jf (with_condition jf' t st reason msg).
Proof.
  intros Ht (? & ? & ? & ? & ? & ? & ? & Hc). repeat split; try done. intros t' Ht'. cbn.
  rewrite <-Hc by done. apply find_set_other. cbn. by intros ->.
Qed.

Lemma api_update_secret jf jf' n : api_update jf jf' → api_update jf (set_jst_APICredentialsSecret n jf').
Proof. by intros (? & ? & ? & ? & ? & ? & ? & Hc). Qed.

Lemma api_update_libraries jf jf' :
  api_update jf jf' →
  api_update jf (set_jst_ManagedLibraries (sort_strings (dl_Name <$> desiredLibraries jf')) jf').
Proof.
  intros (Hm & Hs & ? & ? & ? & ? & ? & Hc). repeat split; try done. right. cbn.
  unfold desiredLibraries. by rewrite Hs.
Qed.

(** Requests of the client for [u] without the removal of a library. *)
Lemma request_to (c : Client) u method path q b :
  cl_base c = u →
  let req := request quote c method path q b in
  u_Scheme (rq_URL req) = u_Scheme u ∧ u_Host (rq_URL req) = u_Host u ∧
  u_Path (rq_URL req) = TrimRightByte "/" (u_Path u) +:+ path.
Proof. by intros <-. Qed.

Lemma at_service_parse jf : at_service jf → url_Parse (apiBase jf) = Ok (mkURL "http" (service_host jf) "" ∅).
Proof.
  intros (Hn & Hns & Hp & Hep). assert (apiBase jf = "http://" +:+ service_host jf) as ->.
  { unfold apiBase, service_host. rewrite !app_s_assoc.
    rewrite list_elem_of_In in Hep. destruct Hep as [<-|[<-|[]]]; [done|]. by case_decide. }
  unfold service_host. rewrite parse_host_port; [done|..|done].
  - by rewrite !all_chars_app, Hn, Hns.
  - by destruct (jf_Name jf).
Qed.

Lemma at_service_base jf u :
  url_Parse (apiBase jf) = Ok u → at_service jf → u = mkURL "http" (service_host jf) "" ∅.
Proof. intros Hu Hs%at_service_parse. congruence. Qed.

Lemma request_allowed_other jf spec (c : Client) u method path q b :
  url_Parse (apiBase jf) = Ok u → cl_base c = u → method ≠ "DELETE" ∨ path ≠ "/Library/VirtualFolders" →
  request_allowed jf spec (request quote c method path q b).
Proof.
  intros Hu Hc Hne. destruct (request_to c u method path q b Hc) as (Hs & Hh & Hp).
  exists u. split_and!; [done|done|done|by apply at_service_base|]. intros [Hm Hpath]. rewrite Hp in Hpath.
  apply app_s_inj_l in Hpath. cbn in Hm. naive_solver.
Qed.

Lemma finish_always jf spec jf' tr :
  api_update jf jf' → always (pass_inv jf spec) anything tr (finish RequeueInterval jf').
Proof.
  intros Hup. apply always_bind. eapply always_mono; [eapply always_inv_mono; [|apply writeJellyfinStatus_always]|].
  - intros R tr' c. destruct c; cbn; try done.
    + intros [-> ->]. pose proof Hup as (Hm & _). unfold jf_Namespace, jf_Name. by rewrite Hm.
    + intros (cur & tr1 & -> & Hmeta & Hspec & Hst). exists jf', cur, tr1. split_and!; [done| |].
      * pose proof Hup as (Hm & _). unfold jf_Namespace, jf_Name. by rewrite Hm.
      * destruct jf0. unfold with_status. cbn in *. by subst.
  - by intros tr' [[]|e] _.
Qed.

Lemma phase_request_form c user pass ph req :
  phase_request quote c user pass apiKeyAppName ph = Some req →
  ∃ c' method path q b, req = request quote c' method path q b ∧ cl_base c' = cl_base c ∧ method ≠ "DELETE".
Proof.
  destruct ph as [|i| |t|t| |]; cbn [phase_request]; try done.
  - intros [= <-]. by eexists c, _, _, _, _.
  - intros Hi. do 5 (destruct i as [|i]; [injection Hi as <-; by eexists c, _, _, _, _|]). done.
  - intros [= <-]. by eexists c, _, _, _, _.
  - intros [= <-]. by eexists (SetToken c t), _, _, _, _.
  - intros [= <-]. by eexists (SetToken c t), _, _, _, _.
Qed.

Section instance.
Context (jf : Jellyfin) (spec : JellyfinAPISpec) (u : URL) (cli : Client)
  (Hready : instanceReady jf = true) (Hu : url_Parse (apiBase jf) = Ok u) (Hcli : cl_base cli = u).

Lemma cred_pass_inv n R tr (c : call R) :
  cred_inv quote jf spec cli n R tr c → pass_inv jf spec R tr c.
Proof.
  assert (∀ c' user pass ph req, cl_base c' = cl_base cli →
    phase_request quote c' user pass apiKeyAppName ph = Some req → request_allowed jf spec req) as Hph.
  { intros c' user pass ph req Hb (c2 & m & p & q & b & -> & Hb2 & Hm)%phase_request_form.
    eapply request_allowed_other; [done| |by left]. congruence. }
  destruct c; cbn; try done; try tauto.
  intros [(_ & key & user & pass & _ & _ & _ & Hr)|[(_ & sec & _ & _ & ->)|(_ & m & c & user & pass & _ & _ & Hb & Hr)]];
    (split; [done|]).
  - by apply (Hph cli user pass Login).
  - eapply request_allowed_other; [done|exact Hcli|by left].
  - by eapply Hph.
Qed.

Lemma library_pass_inv jf1 n R tr (c : call R) :
  api_ManageLibraries spec = true → jf_Spec jf1 = jf_Spec jf →
  jst_ManagedLibraries (jf_Status jf1) = jst_ManagedLibraries (jf_Status jf) →
  library_inv quote cli jf1 spec n R tr c → pass_inv jf spec R tr c.
Proof.
  intros Hm Hs Hl. assert (desiredLibraries jf1 = desiredLibraries jf) as Hd.
  { unfold desiredLibraries. by rewrite Hs. }
  assert (∀ method path q b, method ≠ "DELETE" ∨ path ≠ "/Library/VirtualFolders" →
    request_allowed jf spec (request quote cli method path q b)) as Hother.
  { intros. by eapply request_allowed_other. }
  destruct c; cbn; try done. intros [[_ ->]|(existing & _ & Hr)]; (split; [done|]); [apply Hother; by left|].
  destruct Hr as [lib req _ _ (q & body & -> & _)|d f p _ _ _ _ _|d f p _ _ _ _ _|f Hp _ Hman Hno| | |];
    try (apply Hother; by left).
  - apply Hother. by right.
  - destruct (request_to cli u "DELETE" "/Library/VirtualFolders"
                (Some {[ "name" := [vf_Name f]; "refreshLibrary" := ["false"] ]}) None Hcli) as (Hsch & Hhost & _).
    exists u. split_and!; [done|done|done|by apply at_service_base|]. intros _. exists (vf_Name f). rewrite Hl in Hman. rewrite Hd in Hno.
    split_and!; done.
Qed.

Lemma config_pass_inv path enforce n R tr (c : call R) :
  config_inv quote cli path enforce n R tr c → pass_inv jf spec R tr c.
Proof.
  destruct c; cbn; try done. intros [[_ ->]|(cur & j & _ & _ & ->)]; (split; [done|]);
    (eapply request_allowed_other; [done|done|by left]).
Qed.

(** One area of the pass, after which the rest runs. *)
Lemma area_always jf1 (m : M Jellyfin) type errReason what okMessage k tr :
  api_update jf jf1 → type ∈ api_conditions →
  (always (pass_inv jf spec) (on_ok (λ _ jf2, api_update jf jf2)) tr m) →
  (∀ jf2 tr', api_update jf jf2 → always (pass_inv jf spec) anything tr' (k jf2)) →
  always (pass_inv jf spec) anything tr
    (area library_text RequeueInterval jf1 m type errReason what okMessage k).
Proof.
  intros Hup Ht Hm Hk. apply always_bind. eapply always_mono; [exact Hm|]. intros tr' [jf2|e] H'; cbn.
  - apply Hk. by apply api_update_condition.
  - apply finish_always, api_update_condition; [by left|]. by apply api_update_condition.
Qed.

(** A settings area leaves the instance as it is. *)
Lemma settings_area {D} jf1 path enforce (empty : D → bool) (d : D) m tr :
  api_update jf jf1 → settings_pass quote cli tr path enforce empty d m →
  always (pass_inv jf spec) (on_ok (λ _ jf2, api_update jf jf2)) tr (_ ←! m; ok jf1).
Proof.
  intros Hup Hm. eapply (always_seq _ _ (λ _ _, True)); [|by intros tr' [] _ _].
  eapply always_mono; [eapply always_inv_mono; [|exact Hm]|].
  - intros R tr' c. apply config_pass_inv.
  - by intros tr' [[]|e] _.
Qed.

Lemma authenticated_always jf1 tr :
  api_update jf jf1 → always (pass_inv jf spec) anything tr (authenticated RequeueInterval jf1).
Proof. intros Hup. apply finish_always, api_update_condition; [by left|done]. Qed.

Lemma brandingArea_always jf1 tr :
  api_update jf jf1 →
  always (pass_inv jf spec) anything tr (brandingArea quote library_text RequeueInterval cli jf1).
Proof.
  intros Hup. unfold brandingArea. case_decide; [by apply authenticated_always|].
  apply area_always; [done|set_solver| |intros; by apply authenticated_always].
  eapply settings_area; [done|]. apply settings_always.
Qed.

Lemma serverConfigArea_always jf1 tr :
  api_update jf jf1 →
  always (pass_inv jf spec) anything tr (serverConfigArea quote library_text RequeueInterval cli jf1).
Proof.
  intros Hup. unfold serverConfigArea. case_decide; [by apply brandingArea_always|].
  apply area_always; [done|set_solver| |intros; by apply brandingArea_always].
  eapply settings_area; [done|]. apply settings_always.
Qed.

Lemma encodingArea_always jf1 tr :
  api_update jf jf1 →
  always (pass_inv jf spec) anything tr (encodingArea quote library_text RequeueInterval cli jf1).
Proof.
  intros Hup. unfold encodingArea. case_decide; [by apply serverConfigArea_always|].
  apply area_always; [done|set_solver| |intros; by apply serverConfigArea_always].
  eapply settings_area; [done|]. apply settings_always.
Qed.

Lemma reconcileAreas_always jf1 tr :
  api_update jf jf1 → jst_ManagedLibraries (jf_Status jf1) = jst_ManagedLibraries (jf_Status jf) →
  always (pass_inv jf spec) anything tr
    (reconcileAreas quote library_text RequeueInterval jf1 spec cli).
Proof.
  intros Hup Hl. unfold reconcileAreas.
  destruct (api_ManageLibraries spec) eqn:Hm; [|by apply encodingArea_always].
  apply area_always; [done|set_solver| |intros; by apply encodingArea_always].
  eapply always_mono; [eapply always_inv_mono; [|apply reconcileLibraries_always]|].
  - intros R tr' c. apply library_pass_inv; [done| |done]. by destruct Hup as (_ & ? & _).
  - intros tr' [jf2|e]; [|done]. intros [-> _]. by apply api_update_libraries.
Qed.
End instance.

Lemma New_base b device c : New b device = Ok c → url_Parse b = Ok (cl_base c).
Proof. unfold New. destruct (url_Parse b); [|done]. by intros [= <-]. Qed.

Lemma reconcileAPI_always jf spec tr :
  always (pass_inv jf spec) anything tr (reconcileAPI quote library_text RequeueInterval jf spec).
Proof.
  unfold reconcileAPI. destruct (instanceReady jf) eqn:Hready; cbn [negb].
  2: { apply finish_always, api_update_condition; [by left|apply api_update_refl]. }
  destruct (newClient None _ _) as [cli|e] eqn:Hnew; [|done]. apply New_base in Hnew.
  apply always_bind. eapply always_mono; [eapply always_inv_mono; [|by apply always_ensureCredentials]|].
  - intros R tr' c. by eapply cred_pass_inv.
  - intros tr' [[token jf1]|e] Hres.
    + apply (reconcileAreas_always jf spec (cl_base cli) (SetToken cli token)); [done|done|done|..];
        destruct Hres as [(_ & -> & _)|(_ & -> & _)]; [apply api_update_refl|apply api_update_secret, api_update_refl|done|done].
    + apply finish_always, api_update_condition; [by left|apply api_update_refl].
Qed.
End pass.

(** C32: The API reconcile, whatever the servers answer. After the instance was read, and
    only if it declares an API block and is not being deleted, calls are made for it;
    only if it is Ready are secrets read, a password drawn or the server contacted.
    Every request goes to the instance's own address, the Service of its name and
    namespace unless its status names another endpoint; the only Secret written is the
    generated one, in the instance's namespace; a library is removed only if the
    instance asks for pruning, its status listed the library as managed, and it is no
    longer declared. Status writes touch this controller's own fields. No other call
    is made. *)
Theorem ReconcileAPI_gated `{KubeLib, RetryLib, NetUrl, MapOrder} quote library_text RequeueInterval ns name :
  always (api_inv ns name) anything [] (ReconcileAPI quote library_text RequeueInterval ns name).
Proof.
  split; [by left|]. intros [jf|e]; cbn; [|by destruct e].
  destruct (js_API (jf_Spec jf)) as [spec|] eqn:Hs; [|done].
  destruct (om_DeletionTimestamp (jf_Meta jf)) eqn:Hd; [done|].
  eapply always_inv_mono; [|apply always_inv_prefix, reconcileAPI_always].
  intros R tr c [[rest ->] Hc]. right. by exists jf, spec, rest.
Qed.
