(* ===== verification/ApiRuns.v ===== *)
(** * Runs of the API controller against a small Jellyfin server

    A server with a first-run wizard, one account, API keys and libraries, and a
    cluster that holds one instance and one Secret: the controller's passes run to
    their end, and one sequence of failures leaves it locked out. *)
From S2P Require Import Prelude GoStrings Sha256 Json K8s ApiTypes Http Kube Options Libraries Client Bindings PluginController JellyfinController ApiController.

Record world := mkWorld {
  w_jf : Jellyfin;
  w_secret : option Secret;
  w_account : option (string * string);
  w_folders : list (string * string);
  w_draws : nat;
  w_secret_writable : bool;
}.

Definition reply (code : Z) (body : RawMessage) : result string HttpResponse := Ok (mkHttpResponse code body "").

Definition text_field (k : string) (j : option Json) : string :=
  match j with
  | Some (JObject fs) => match of_fields fs !! k with Some (JString s) => s | _ => "" end
  | _ => ""
  end.

Definition folder_json (f : string * string) : Json :=
  JObject [("Name", JString f.1); ("Locations", JArray [JString f.2]); ("ItemId", JString ("id-" +:+ f.1))].

Definition set_account (a : string * string) (w : world) : world :=
  mkWorld (w_jf w) (w_secret w) (Some a) (w_folders w) (w_draws w) (w_secret_writable w).
Definition set_folders (l : list (string * string)) (w : world) : world :=
  mkWorld (w_jf w) (w_secret w) (w_account w) l (w_draws w) (w_secret_writable w).
Definition set_secret (s : Secret) (w : world) : world :=
  mkWorld (w_jf w) (Some s) (w_account w) (w_folders w) (w_draws w) (w_secret_writable w).
Definition set_writable (b : bool) (w : world) : world :=
  mkWorld (w_jf w) (w_secret w) (w_account w) (w_folders w) (w_draws w) b.

(** The header of a request made with the key "key". *)
Definition with_key (req : HttpRequest) : bool :=
  bool_decide (("Authorization", "MediaBrowser Client=JellyOps, Device=operator, DeviceId=, Version=0.1.0, Token=key")
               ∈ rq_Header req).

(** Matched in order by method and path. *)
Definition jellyfin (req : HttpRequest) (w : world) : result string HttpResponse * world :=
  let q k := default [] (u_Query (rq_URL req) !! k) in
  let asks m p := bool_decide (rq_Method req = m ∧ u_Path (rq_URL req) = p) in
  if asks "GET" "/Startup/Configuration" then
    (reply (if w_account w then 404%Z else 200%Z) Empty, w)
  else if asks "POST" "/Startup/User" then
    (reply 204 Empty, set_account (text_field "Name" (rq_Body req), text_field "Password" (rq_Body req)) w)
  else if asks "POST" "/Users/AuthenticateByName" then
    if decide (w_account w = Some (text_field "Username" (rq_Body req), text_field "Pw" (rq_Body req))) then
      (reply 200 (Text (JObject [("AccessToken", JString "session")])), w)
    else (reply 401 Empty, w)
  else if asks "GET" "/Auth/Keys" then
    (reply 200 (Text (JObject [("Items", JArray [JObject [("AppName", JString "JellyOps"); ("AccessToken", JString "key")]])])), w)
  else if asks "GET" "/Library/VirtualFolders" then
    if with_key req then (reply 200 (Text (JArray (folder_json <$> w_folders w))), w) else (reply 401 Empty, w)
  else if asks "POST" "/Library/VirtualFolders" then
    (reply 204 Empty, set_folders (w_folders w ++ [(hd "" (q "name"), hd "" (q "paths"))]) w)
  else if asks "DELETE" "/Library/VirtualFolders" then
    (reply 204 Empty, set_folders (filter (λ f, f.1 ≠ hd "" (q "name")) (w_folders w)) w)
  else (reply 204 Empty, w).

Definition answer (R : Type) (c : call R) : world → R * world :=
  match c in call R return world → R * world with
  | GetJellyfin _ _ => λ w, (Ok (w_jf w), w)
  | StatusUpdateJellyfin jf => λ w,
      (Ok jf, mkWorld jf (w_secret w) (w_account w) (w_folders w) (w_draws w) (w_secret_writable w))
  | GetSecret _ _ => λ w, (match w_secret w with Some s => Ok s | None => Err NotFound end, w)
  | UpsertSecret ns name f => λ w,
      if w_secret_writable w then
        match f (default (mkSecret (meta_lit name ns ∅ ∅) ∅) (w_secret w)) with
        | Ok s => (Ok s, set_secret s w)
        | Err e => (Err e, w)
        end
      else (Err (Api Forbidden), w)
  | Http req => jellyfin req
  | RandRead n => λ w,
      (Some (repeat (N.of_nat (w_draws w)) n),
       mkWorld (w_jf w) (w_secret w) (w_account w) (w_folders w) (S (w_draws w)) (w_secret_writable w))
  | GetPlugin _ _ | GetDeployment _ _ | GetPersistentVolume _ | ListJellyfins _ | ListPlugins _
  | ListDeployments _ _ | UpdatePlugin _ | UpdateDeployment _ | StatusUpdatePlugin _
  | DeleteDeployment _ _ | DeleteService _ _ | DeleteIngress _ _ | DeleteHTTPRoute _ _
  | DeletePersistentVolume _ | PatchPVC _ _ => λ w, (Err NotFound, w)
  | UpsertDeployment _ _ _ | UpsertService _ _ _ | UpsertIngress _ _ _ | UpsertHTTPRoute _ _ _
  | UpsertPVC _ _ _ | UpsertPersistentVolume _ _ => λ w, (Err (Api NotFound), w)
  end.
Definition world_server : server := mkServer world answer.

Definition folder : MediaFolder :=
  mkMediaFolder "movies" "/media/movies" false None None "" (Some (mkLibrarySpec "Films" "movies" None)).
Definition api_spec : JellyfinAPISpec := mkAPISpec "bootstrap" None "" true true true.
Definition api_jf : Jellyfin :=
  mkJellyfin (meta_lit "home" "media" ∅ ∅)
    (mkJellyfinSpec "" None (mkStorage (mkPVCSpec "" 0%Z "" [] "") None None [folder]) (mkServiceSpec "" 0%Z ∅)
       None None None ResourceRequirements_zero None None (Some api_spec) None None None None None ∅ [])
    (mkJellyfinStatus "" 0%Z (mkEndpoints "" "") [] "" ["Old"] [mkCondition "Ready" "True" "" "" 0%Z]).

Definition pass (w : world) : world :=
  (run world_server w [] (ReconcileAPI id (λ _, "error") 0%Z "media" "home")).2.

Definition reason (t : string) (w : world) : option string :=
  cond_Reason <$> FindStatusCondition (jst_Conditions (jf_Status (w_jf w))) t.
Definition start : world :=
  mkWorld api_jf None None [("Old", "/old"); ("Home videos", "/home")] 0 true.

(** ** What the passes do *)
Definition requests (tr : list event) : list (string * string) :=
  omap (λ ev, match ev with
    | Ev c _ => match c with Http req => Some (rq_Method req, u_Path (rq_URL req)) | _ => None end
    end) tr.
Definition pass_requests (w : world) : list (string * string) :=
  requests (run world_server w [] (ReconcileAPI id (λ _, "error") 0%Z "media" "home")).1.2.

(** The first pass sets the server up and settles the libraries: the declared one is
    made, the one managed before and no longer declared is removed, the hand-made one
    is kept. *)
Example first_pass :
  reason "APIReady" (pass start) = Some "Authenticated" ∧
  w_folders (pass start) = [("Home videos", "/home"); ("Films", "/media/movies")] ∧
  jst_ManagedLibraries (jf_Status (w_jf (pass start))) = ["Films"] ∧
  pass_requests start =
    [("GET", "/Startup/Configuration"); ("POST", "/Startup/Configuration"); ("GET", "/Startup/User");
     ("POST", "/Startup/User"); ("POST", "/Startup/RemoteAccess"); ("POST", "/Startup/Complete");
     ("POST", "/Users/AuthenticateByName"); ("POST", "/Auth/Keys"); ("GET", "/Auth/Keys");
     ("GET", "/Library/VirtualFolders"); ("POST", "/Library/VirtualFolders");
     ("DELETE", "/Library/VirtualFolders"); ("GET", "/Library/VirtualFolders"); ("POST", "/Library/Refresh")].
Proof. vm_compute. auto. Qed.

(** The second pass only looks: the key is accepted and nothing is left to do. *)
Example second_pass :
  pass_requests (pass start) = [("GET", "/Library/VirtualFolders"); ("GET", "/Library/VirtualFolders")] ∧
  pass (pass start) = pass start.
Proof. split; vm_compute; reflexivity. Qed.

(** A generated password is written to the Secret only after the server has taken it,
    so one failed write loses it: the account exists under a password nobody has, and
    a later pass, although every write succeeds again, cannot log in. *)
Lemma generated_password_is_lost :
  let w := set_writable true (pass (set_writable false start)) in
  w_account w = Some ("admin", Sha256.EncodeToString (repeat 0%N 24)) ∧
  w_secret w = None ∧ reason "APIReady" (pass w) = Some "AuthFailed" ∧ w_secret (pass w) = None ∧
  reason "APIReady" (pass (pass w)) = Some "AuthFailed".
Proof. vm_compute. auto. Qed.

Lemma ReconcileAPI_gated_witness :
  always (api_inv "media" "home") anything [] (ReconcileAPI id (λ _, "error") 0%Z "media" "home").
Proof. apply (ReconcileAPI_gated id (λ _, "error") 0%Z "media" "home"). Defined.
