(* ===== verification/Server.v ===== *)
(** * A Jellyfin server that works

    The requests of the client as operations of Jellyfin's API, read back from their
    method, path, query, body and identity header; the documented effect of each on
    what the server keeps; and a small server that does just that. *)
From S2P Require Import Prelude GoStrings Json Http Kube Programs Options Libraries Client Wire.

(** ** What a request asks for *)
Definition query1 (r : HttpRequest) (k : string) : option string := u_Query (rq_URL r) !! k ≫= head.

Fixpoint member {A} (k : string) (fs : list (string * A)) : option A :=
  match fs with
  | [] => None
  | (k', v) :: fs => if decide (k' = k) then Some v else member k fs
  end.

Definition body_member (b : option Json) (k : string) : option Json :=
  match b with Some (JObject fs) => member k fs | _ => None end.
Definition as_string (j : option Json) : option string := match j with Some (JString s) => Some s | _ => None end.

(** The token of the identity header. *)
Definition bearer (r : HttpRequest) : option string :=
  h ← member "Authorization" (rq_Header r); fields ← read_identity h; member "Token" fields.

(** *** The library API *)
Inductive LibraryOp : Type :=
  | OpList
  | OpCreate (name : string) (paths : list string)
  | OpRemove (name : string)
  | OpAddPath (name path : string)
  | OpRemovePath (name path : string)
  | OpOptions
  | OpRefresh.

(** [base] is the server's base path. *)
Definition meaning (base : string) (r : HttpRequest) : option LibraryOp :=
  let path := TrimPrefix (u_Path (rq_URL r)) base in
  if decide (path = "/Library/VirtualFolders") then
    if decide (rq_Method r = MethodGet) then Some OpList
    else if decide (rq_Method r = MethodPost) then
      n ← query1 r "name"; Some (OpCreate n (default [] (u_Query (rq_URL r) !! "paths")))
    else if decide (rq_Method r = MethodDelete) then n ← query1 r "name"; Some (OpRemove n)
    else None
  else if decide (path = "/Library/VirtualFolders/Paths") then
    if decide (rq_Method r = MethodPost) then
      n ← as_string (body_member (rq_Body r) "Name");
      p ← as_string (body_member (body_member (rq_Body r) "PathInfo") "Path");
      Some (OpAddPath n p)
    else if decide (rq_Method r = MethodDelete) then
      n ← query1 r "name"; p ← query1 r "path"; Some (OpRemovePath n p)
    else None
  else if decide (path = "/Library/VirtualFolders/LibraryOptions" ∧ rq_Method r = MethodPost) then Some OpOptions
  else if decide (path = "/Library/Refresh" ∧ rq_Method r = MethodPost) then Some OpRefresh
  else None.

(** *** Configuration, the first-run wizard, accounts and keys *)
Inductive AdminOp : Type :=
  | OpReadConfig (path : string)
  | OpWriteConfig (path : string) (document : list (string * Json))
  | OpStartup
  | OpWizardStep
  | OpCreateUser (name password : string)
  | OpComplete
  | OpLogin (name password : string)
  | OpCreateKey (app : string)
  | OpListKeys.

Definition config_paths : list string := [serverConfigPath; brandingConfigPath; encodingConfigPath].

Definition admin_meaning (base : string) (r : HttpRequest) : option AdminOp :=
  let path := TrimPrefix (u_Path (rq_URL r)) base in
  let asks m p := bool_decide (rq_Method r = m ∧ path = p) in
  if decide (path ∈ config_paths) then
    if decide (rq_Method r = MethodGet) then Some (OpReadConfig path)
    else match rq_Body r with
         | Some (JObject fs) => if decide (rq_Method r = MethodPost) then Some (OpWriteConfig path fs) else None
         | _ => None
         end
  else if asks MethodGet "/Startup/Configuration" then Some OpStartup
  else if asks MethodPost "/Startup/Configuration" then Some OpWizardStep
  else if asks MethodGet "/Startup/User" then Some OpWizardStep
  else if asks MethodPost "/Startup/User" then
    n ← as_string (body_member (rq_Body r) "Name"); p ← as_string (body_member (rq_Body r) "Password");
    Some (OpCreateUser n p)
  else if asks MethodPost "/Startup/RemoteAccess" then Some OpWizardStep
  else if asks MethodPost "/Startup/Complete" then Some OpComplete
  else if asks MethodPost "/Users/AuthenticateByName" then
    n ← as_string (body_member (rq_Body r) "Username"); p ← as_string (body_member (rq_Body r) "Pw");
    Some (OpLogin n p)
  else if asks MethodPost "/Auth/Keys" then app ← query1 r "App"; Some (OpCreateKey app)
  else if asks MethodGet "/Auth/Keys" then Some OpListKeys
  else None.

(** The two APIs have no path in common. *)
Definition library_paths_of_api : list string :=
  ["/Library/VirtualFolders"; "/Library/VirtualFolders/Paths"; "/Library/VirtualFolders/LibraryOptions";
   "/Library/Refresh"].

Lemma meaning_path base r :
  TrimPrefix (u_Path (rq_URL r)) base ∉ library_paths_of_api → meaning base r = None.
Proof.
  unfold meaning, library_paths_of_api. generalize (TrimPrefix (u_Path (rq_URL r)) base). intros path.
  rewrite !not_elem_of_cons. intros (H1 & H2 & H3 & H4 & _). rewrite !decide_False by tauto. done.
Qed.

Lemma admin_meaning_library base r o : admin_meaning base r = Some o → meaning base r = None.
Proof.
  intros Ho. apply meaning_path. intros Hin. revert Ho. unfold admin_meaning, library_paths_of_api in *.
  generalize dependent (TrimPrefix (u_Path (rq_URL r)) base). intros path Hin. cbv zeta.
  assert (path ∉ config_paths ∧ path ∉ ["/Startup/Configuration"; "/Startup/User"; "/Startup/RemoteAccess";
    "/Startup/Complete"; "/Users/AuthenticateByName"; "/Auth/Keys"]) as [Hc Hno].
  { rewrite !elem_of_cons, elem_of_nil in Hin.
    destruct Hin as [->|[->|[->|[->|[]]]]]; split; apply (bool_decide_unpack _); by vm_compute. }
  rewrite !not_elem_of_cons in Hno. destruct Hno as (?&?&?&?&?&?&_).
  rewrite decide_False by done. rewrite !bool_decide_eq_false_2 by tauto. done.
Qed.

(** ** What a server keeps *)

(** The libraries by name, each with its set of paths; the configuration documents by
    path; whether the first-run wizard is still to be done; the administrator's name and
    password; the API keys; the tokens that are accepted. *)
Record Jellyfin_view := mkView {
  jv_libs : gmap string (gset string);
  jv_config : gmap string (list (string * Json));
  jv_wizard : bool;
  jv_account : option (string * string);
  jv_keys : list AuthKey;
  jv_tokens : gset string;
}.
Definition set_libs (m : gmap string (gset string)) (v : Jellyfin_view) : Jellyfin_view :=
  mkView m (jv_config v) (jv_wizard v) (jv_account v) (jv_keys v) (jv_tokens v).
Definition set_config (path : string) (fs : list (string * Json)) (v : Jellyfin_view) : Jellyfin_view :=
  mkView (jv_libs v) (<[path := fs]> (jv_config v)) (jv_wizard v) (jv_account v) (jv_keys v) (jv_tokens v).
Definition set_wizard (b : bool) (v : Jellyfin_view) : Jellyfin_view :=
  mkView (jv_libs v) (jv_config v) b (jv_account v) (jv_keys v) (jv_tokens v).
Definition set_account (a : string * string) (v : Jellyfin_view) : Jellyfin_view :=
  mkView (jv_libs v) (jv_config v) (jv_wizard v) (Some a) (jv_keys v) (jv_tokens v).
Definition add_token (t : string) (v : Jellyfin_view) : Jellyfin_view :=
  mkView (jv_libs v) (jv_config v) (jv_wizard v) (jv_account v) (jv_keys v) ({[ t ]} ∪ jv_tokens v).
Definition add_key (k : AuthKey) (v : Jellyfin_view) : Jellyfin_view :=
  mkView (jv_libs v) (jv_config v) (jv_wizard v) (jv_account v) (jv_keys v ++ [k])
    ({[ ak_AccessToken k ]} ∪ jv_tokens v).

(** Nothing but new tokens. *)
Record retained (v v' : Jellyfin_view) : Prop := mkRetained {
  retained_libs : jv_libs v' = jv_libs v;
  retained_config : jv_config v' = jv_config v;
  retained_wizard : jv_wizard v' = jv_wizard v;
  retained_account : jv_account v' = jv_account v;
  retained_keys : jv_keys v' = jv_keys v;
  retained_tokens : jv_tokens v ⊆ jv_tokens v';
}.
#[export] Instance retained_preorder : PreOrder retained.
Proof. split; [by intros v|]. intros v1 v2 v3 [] []. split; congruence || set_solver. Qed.

Lemma retained_set_libs m m' v v1 v2 :
  retained (set_libs m v) v1 → retained (set_libs m' v1) v2 → retained (set_libs m' v) v2.
Proof. intros [] []. split; cbn in *; congruence || set_solver. Qed.

Lemma retained_same_libs m v v' : m = jv_libs v → retained (set_libs m v) v' → retained v v'.
Proof. intros -> []. by split. Qed.

Definition effect (o : LibraryOp) (m : gmap string (gset string)) : gmap string (gset string) :=
  match o with
  | OpCreate n ps => <[n := toSet ps]> m
  | OpRemove n => delete n m
  | OpAddPath n p => alter (λ X, {[ p ]} ∪ X) n m
  | OpRemovePath n p => alter (λ X, X ∖ {[ p ]}) n m
  | OpList | OpOptions | OpRefresh => m
  end.

Definition enabled (o : LibraryOp) (m : gmap string (gset string)) : Prop :=
  match o with
  | OpCreate n _ => m !! n = None
  | OpRemove n | OpAddPath n _ | OpRemovePath n _ => is_Some (m !! n)
  | OpList | OpOptions | OpRefresh => True
  end.

(** The wizard needs nobody to be logged in, and is there until it is completed. *)
Definition permitted (o : AdminOp) (authorised : bool) (v : Jellyfin_view) : Prop :=
  match o with
  | OpStartup | OpWizardStep | OpCreateUser _ _ | OpComplete => jv_wizard v = true
  | OpLogin n p => jv_wizard v = false ∧ jv_account v = Some (n, p)
  | OpReadConfig _ | OpWriteConfig _ _ | OpCreateKey _ | OpListKeys => authorised = true
  end.

(** The body of the answer, and what is retained from then on. *)
Definition outcome (o : AdminOp) (v : Jellyfin_view) (body : RawMessage) (v' : Jellyfin_view) : Prop :=
  match o with
  | OpReadConfig path => body = Text (JObject (default [] (jv_config v !! path))) ∧ retained v v'
  | OpWriteConfig path fs => retained (set_config path fs v) v'
  | OpStartup => (∃ j c, body = Text j ∧ read_StartupConfiguration j = Some c) ∧ retained v v'
  | OpWizardStep => retained v v'
  | OpCreateUser n p => retained (set_account (n, p) v) v'
  | OpComplete => retained (set_wizard false v) v'
  | OpLogin n p => ∃ j a, body = Text j ∧ read_AuthenticationResult j = Some a ∧ au_AccessToken a ≠ "" ∧
      retained (add_token (au_AccessToken a) v) v'
  | OpCreateKey app => ∃ t, t ≠ "" ∧ retained (add_key (mkKey t app) v) v'
  | OpListKeys => (∃ j, body = Text j ∧ read_authKeysResult j = Some (jv_keys v)) ∧ retained v v'
  end.

(** The paths of a list of folders, by name. *)
Definition library_paths (fs : list VirtualFolder) : gmap string (gset string) :=
  (λ f, toSet (vf_Locations f)) <$> index_by vf_Name fs ∅.

Definition authorised (v : Jellyfin_view) (r : HttpRequest) : bool :=
  match bearer r with Some t => bool_decide (t ∈ jv_tokens v) | None => false end.

Class JellyfinServer (S : Type) := {
  js_base : string;
  js_view : S → Jellyfin_view;
  js_folders : S → list VirtualFolder;
  js_http : HttpRequest → S → result string HttpResponse * S;
  folders_distinct : ∀ s, NoDup (vf_Name <$> js_folders s);
  folders_view : ∀ s, library_paths (js_folders s) = jv_libs (js_view s);
  folder_options : ∀ s f, f ∈ js_folders s → is_Some (current_map (vf_LibraryOptions f));
  keys_accepted : ∀ s k, k ∈ jv_keys (js_view s) → ak_AccessToken k ∈ jv_tokens (js_view s);
  (** A request that can be served is answered with a 2xx status and has its effect;
      the list of the libraries is answered as it is. *)
  served : ∀ r s o, meaning js_base r = Some o → authorised (js_view s) r = true → enabled o (jv_libs (js_view s)) →
    ∃ body, success (js_http r s).1 = Some body ∧
      retained (set_libs (effect o (jv_libs (js_view s))) (js_view s)) (js_view (js_http r s).2) ∧
      (o = OpList → js_folders (js_http r s).2 = js_folders s ∧
         ∃ j, body = Text j ∧ read_list read_VirtualFolder j = Some (js_folders s));
  administered : ∀ r s o, admin_meaning js_base r = Some o → permitted o (authorised (js_view s) r) (js_view s) →
    ∃ body, success (js_http r s).1 = Some body ∧ outcome o (js_view s) body (js_view (js_http r s).2);
  (** Without an accepted token the libraries are not shown, and a wizard that was
      completed is closed. *)
  refused : ∀ r s, meaning js_base r = Some OpList → authorised (js_view s) r = false →
    success (js_http r s).1 = None ∧ retained (js_view s) (js_view (js_http r s).2);
  startup_over : ∀ r s, admin_meaning js_base r = Some OpStartup → jv_wizard (js_view s) = false →
    success (js_http r s).1 = None ∧ retained (js_view s) (js_view (js_http r s).2);
}.

(** ** The client's requests *)
Section client.
Context `{Unicode}.

Lemma bearer_request c m p q b : cl_token c ≠ "" → bearer (request Quote c m p q b) = Some (cl_token c).
Proof.
  intros Ht. unfold bearer, request. cbn [rq_Header].
  assert (∀ l, member "Authorization" (("Authorization", authHeader Quote c) :: l) = Some (authHeader Quote c)) as Hm by done.
  destruct b; cbn [app]; rewrite Hm; cbn [mbind option_bind]; rewrite authHeader_read; unfold identity;
    by rewrite decide_False.
Qed.

Lemma authorised_request v c m p q b :
  cl_token c ≠ "" → cl_token c ∈ jv_tokens v → authorised v (request Quote c m p q b) = true.
Proof. intros Ht Hin. unfold authorised. rewrite bearer_request by done. by apply bool_decide_eq_true. Qed.

Lemma request_path (c : Client) base m p q b :
  TrimRightByte "/" (u_Path (cl_base c)) = base → TrimPrefix (u_Path (rq_URL (request Quote c m p q b))) base = p.
Proof. intros Hb. unfold request. cbn. rewrite Hb. apply TrimPrefix_app. Qed.
End client.

(** ** A reference server *)
Module RefJellyfin.
Record state := mkState {
  rj_libs : gmap string (gset string);
  rj_config : gmap string (list (string * Json));
  rj_wizard : bool;
  rj_account : option (string * string);
  rj_session : bool;
  rj_apps : list string;
}.

Definition key (app : string) : AuthKey := mkKey ("key-" +:+ app) app.
Definition view (s : state) : Jellyfin_view :=
  mkView (rj_libs s) (rj_config s) (rj_wizard s) (rj_account s) (key <$> rj_apps s)
    ((if rj_session s then {[ "session" ]} else ∅) ∪ list_to_set (ak_AccessToken ∘ key <$> rj_apps s)).

Definition folder (kv : string * gset string) : VirtualFolder := mkVF kv.1 "" (elements kv.2) "" Empty.
Definition folders (s : state) : list VirtualFolder := folder <$> map_to_list (rj_libs s).

Definition folder_json (f : VirtualFolder) : Json :=
  JObject [("Name", JString (vf_Name f)); ("Locations", JArray (JString <$> vf_Locations f))].
Definition key_json (k : AuthKey) : Json :=
  JObject [("AccessToken", JString (ak_AccessToken k)); ("AppName", JString (ak_AppName k))].

Definition answer (code : Z) (body : RawMessage) : result string HttpResponse := Ok (mkHttpResponse code body "").

Definition library_answer (o : LibraryOp) (s : state) : result string HttpResponse * state :=
  (match o with OpList => answer 200 (Text (JArray (folder_json <$> folders s))) | _ => answer 204 Empty end,
   mkState (effect o (rj_libs s)) (rj_config s) (rj_wizard s) (rj_account s) (rj_session s) (rj_apps s)).

Definition admin_answer (o : AdminOp) (s : state) : result string HttpResponse * state :=
  match o with
  | OpReadConfig path => (answer 200 (Text (JObject (default [] (rj_config s !! path)))), s)
  | OpWriteConfig path fs =>
      (answer 204 Empty, mkState (rj_libs s) (<[path := fs]> (rj_config s)) (rj_wizard s) (rj_account s)
                           (rj_session s) (rj_apps s))
  | OpStartup => if rj_wizard s then (answer 200 (Text (JObject [("UICulture", JString "en-US")])), s) else (answer 401 Empty, s)
  | OpWizardStep => (answer 204 Empty, s)
  | OpCreateUser n p =>
      (answer 204 Empty, mkState (rj_libs s) (rj_config s) (rj_wizard s) (Some (n, p)) (rj_session s) (rj_apps s))
  | OpComplete =>
      (answer 204 Empty, mkState (rj_libs s) (rj_config s) false (rj_account s) (rj_session s) (rj_apps s))
  | OpLogin n p =>
      if decide (rj_account s = Some (n, p)) then
        (answer 200 (Text (JObject [("AccessToken", JString "session")])),
         mkState (rj_libs s) (rj_config s) (rj_wizard s) (rj_account s) true (rj_apps s))
      else (answer 401 Empty, s)
  | OpCreateKey app =>
      (answer 204 Empty, mkState (rj_libs s) (rj_config s) (rj_wizard s) (rj_account s) (rj_session s) (rj_apps s ++ [app]))
  | OpListKeys => (answer 200 (Text (JObject [("Items", JArray (key_json <$> (key <$> rj_apps s)))])), s)
  end.

(** Only the wizard and the login need no token. *)
Definition open_to_all (o : AdminOp) : bool :=
  match o with OpStartup | OpWizardStep | OpCreateUser _ _ | OpComplete | OpLogin _ _ => true | _ => false end.

Definition http (r : HttpRequest) (s : state) : result string HttpResponse * state :=
  match meaning "" r, admin_meaning "" r with
  | Some o, _ => if authorised (view s) r then library_answer o s else (answer 401 Empty, s)
  | None, Some o => if authorised (view s) r || open_to_all o then admin_answer o s else (answer 401 Empty, s)
  | None, None => (answer 404 Empty, s)
  end.

Lemma folders_NoDup s : NoDup (vf_Name <$> folders s).
Proof. unfold folders. rewrite <-list_fmap_compose. apply NoDup_fst_map_to_list. Qed.

Lemma library_paths_folders s : library_paths (folders s) = rj_libs s.
Proof.
  apply map_eq. intros n. unfold library_paths. rewrite lookup_fmap.
  destruct (rj_libs s !! n) as [X|] eqn:Hs.
  - assert (index_by vf_Name (folders s) ∅ !! n = Some (folder (n, X))) as ->.
    { apply index_by_Some; [apply folders_NoDup|]. split; [|done].
      by apply list_elem_of_fmap_2, elem_of_map_to_list. }
    cbn -[toSet]. f_equal. apply set_eq. intros p. by rewrite elem_of_toSet, elem_of_elements.
  - destruct (index_by vf_Name (folders s) ∅ !! n) as [f|] eqn:Hf; [|done].
    apply index_by_elem in Hf as [Hin Hn]. apply list_elem_of_fmap in Hin as ([m X] & -> & Hm).
    apply elem_of_map_to_list in Hm. cbn in Hn. congruence.
Qed.

Lemma read_strings l : mapM (λ j, read_string j "") (JString <$> l) = Some l.
Proof. induction l as [|x l IH]; [done|]. cbn in *. by rewrite IH. Qed.

Lemma read_folder kv : read_VirtualFolder (folder_json (folder kv)) = Some (folder kv).
Proof.
  destruct kv as [n X]. unfold folder. cbn [fst snd]. generalize (elements X). intros l. unfold read_VirtualFolder, read_struct, folder_json. cbn [set_struct vf_Name vf_Locations].
  cbn [set_struct_field]. cbn. by rewrite read_strings.
Qed.

Lemma mapM_read {A} (write : A → Json) (read : Json → option A) (l : list A) :
  (∀ a, a ∈ l → read (write a) = Some a) → mapM read (write <$> l) = Some l.
Proof.
  induction l as [|a l IH]; intros Hl; [done|]. rewrite fmap_cons. cbn [mapM]. rewrite Hl by left. cbn.
  by rewrite IH by (intros; apply Hl; by right).
Qed.

Lemma read_folders s : read_list read_VirtualFolder (JArray (folder_json <$> folders s)) = Some (folders s).
Proof. apply mapM_read. intros f (kv & -> & _)%list_elem_of_fmap. apply read_folder. Qed.

Lemma read_keys ks : read_authKeysResult (JObject [("Items", JArray (key_json <$> ks))]) = Some ks.
Proof.
  assert (mapM read_AuthKey (key_json <$> ks) = Some ks) as H by (by apply mapM_read; intros [] _).
  unfold read_authKeysResult, read_struct. cbn [set_struct set_struct_field]. cbn. by rewrite H.
Qed.

#[local] Obligation Tactic := idtac.
#[export] Program Instance reference_jellyfin : JellyfinServer state := {
  js_base := ""; js_view := view; js_folders := folders; js_http := http; folders_distinct := folders_NoDup;
  folders_view := library_paths_folders;
}.
Next Obligation. intros s f (kv & -> & _)%list_elem_of_fmap. by eexists. Qed.
Next Obligation.
  intros s k (app & -> & Hin)%list_elem_of_fmap. cbn. apply elem_of_union_r, elem_of_list_to_set.
  by apply (list_elem_of_fmap_2 (ak_AccessToken ∘ key)).
Qed.
Next Obligation.
  intros r s o Ho Ha _. unfold http. rewrite Ho, Ha.
  destruct o; cbn; eexists; (split; [reflexivity|]); (split; [done|]); try done.
  intros _. split; [done|]. eexists. split; [reflexivity|apply (read_folders s)].
Qed.
Next Obligation.
  intros r s o Ho Hp. unfold http.
  rewrite (admin_meaning_library _ _ _ Ho).
  rewrite Ho. assert (authorised (view s) r || open_to_all o = true) as ->.
  { destruct o; cbn in Hp |- *; rewrite ?orb_true_r; try done; by rewrite Hp. }
  destruct o; cbn in Hp |- *; rewrite ?Hp; try (eexists; split; [reflexivity|]; try done).
  - split; [|done]. by eexists _, _.
  - destruct Hp as [_ Hp]. rewrite decide_True by done. eexists. split; [reflexivity|].
    eexists _, _. split_and!; [reflexivity|reflexivity|done|]. split; try done. cbn [view jv_tokens add_token rj_session rj_apps ak_AccessToken au_AccessToken]. destruct (rj_session s); set_solver+.
  - exists ("key-" +:+ app). split; [done|]. split; try done; cbn; [by rewrite fmap_app|].
    rewrite fmap_app, list_to_set_app. cbn. set_solver.
  - split; [|done]. eexists. split; [reflexivity|apply read_keys].
Qed.
Next Obligation. intros r s Ho Ha. unfold http. rewrite Ho, Ha. done. Qed.
Next Obligation.
  intros r s Ho Hw. unfold http. rewrite (admin_meaning_library _ _ _ Ho).
  rewrite Ho, orb_true_r. cbn in Hw |- *. by rewrite Hw.
Qed.
End RefJellyfin.
