(* ===== verification/Converge.v ===== *)
(** * Libraries converge
    (internal/controller/jellyfinapi_controller.go with internal/jellyfinapi)

    One pass of the library loop against a Jellyfin server that does what its API
    documents. The requests are read back from their method, path, query and body,
    so the theorem depends on the client putting each argument where the server
    looks for it; the comparison, the client and the controller are composed as
    they run. *)
From S2P Require Import Prelude GoStrings Json K8s ApiTypes Http Kube Programs Options Libraries Client Wire Bindings PluginController JellyfinController ApiController Server.

Section converge.
Context `{MapOrder, Unicode} {S : Type} `{!JellyfinServer S}.
Context (other : ∀ R : Type, call R → R) (cli : Client).
Hypothesis at_base : TrimRightByte "/" (u_Path (cl_base cli)) = js_base.
Hypothesis has_token : cl_token cli ≠ "".
Notation quote := Quote.

Definition jellyfin : server :=
  mkServer S (λ R c s, match c in call R return R * S with
                       | Http r => js_http r s
                       | c => (other _ c, s)
                       end).

Notation libs s := (jv_libs (js_view s)).
Notation known s := (cl_token cli ∈ jv_tokens (js_view s)).

(** *** The client's requests mean what they should *)
Ltac meaning := unfold meaning, query1; rewrite request_path by exact at_base; cbn [rq_Method request]; simpl.

Lemma list_meaning : meaning js_base (request quote cli MethodGet "/Library/VirtualFolders" None None) = Some OpList.
Proof. by meaning. Qed.

Lemma remove_meaning n b :
  meaning js_base (request quote cli MethodDelete "/Library/VirtualFolders"
    (Some {[ "name" := [n]; refreshLibraryParam := [boolStr b] ]}) None) = Some (OpRemove n).
Proof. by meaning. Qed.

Lemma add_path_meaning n p q :
  meaning js_base (request quote cli MethodPost "/Library/VirtualFolders/Paths" (Some q)
    (Some (JObject [("Name", JString n); ("PathInfo", JObject [("Path", JString p)])]))) = Some (OpAddPath n p).
Proof. by meaning. Qed.

Lemma remove_path_meaning n p b :
  meaning js_base (request quote cli MethodDelete "/Library/VirtualFolders/Paths"
    (Some {[ "name" := [n]; "path" := [p]; refreshLibraryParam := [boolStr b] ]}) None) = Some (OpRemovePath n p).
Proof. by meaning. Qed.

Definition create_query (lib : DesiredLibrary) : Values :=
  let q : Values := {[ "name" := [dl_Name lib] ]} in
  let q := if decide (dl_CollectionType lib = "") then q else <["collectionType" := [dl_CollectionType lib]]> q in
  let q := if decide (dl_Paths lib = []) then q else <["paths" := dl_Paths lib]> q in
  <[refreshLibraryParam := [boolStr false]]> q.

Lemma create_meaning lib b :
  meaning js_base (request quote cli MethodPost "/Library/VirtualFolders" (Some (create_query lib)) b)
  = Some (OpCreate (dl_Name lib) (dl_Paths lib)).
Proof.
  meaning. unfold create_query, refreshLibraryParam.
  rewrite !lookup_insert_ne by done. repeat case_decide; simplify_map_eq; congruence.
Qed.

(** *** Single requests *)
Lemma exec_exchange (s : S) m p q b body :
  success (js_http (request quote cli m p q b) s).1 = Some body →
  exec jellyfin s (exchange quote cli m p q b) = (Ok body, (js_http (request quote cli m p q b) s).2).
Proof.
  intros Hs. unfold exchange. rewrite exec_bind, exec_ask. cbn [sv_answer jellyfin].
  destruct (js_http _ s) as [[resp|e] s']; cbn in Hs |- *; [|done].
  rewrite status_test. destruct (_ && _)%Z; [|done]. by injection Hs as ->.
Qed.

Lemma exec_do (s : S) m p q b o :
  meaning js_base (request quote cli m p q b) = Some o → known s → enabled o (libs s) →
  ∃ s' : S, exec jellyfin s (do quote cli m p q b) = (Ok tt, s') ∧
    retained (set_libs (effect o (libs s)) (js_view s)) (js_view s').
Proof.
  intros Ho Hk He. destruct (served _ s o Ho) as (body & Hs & Hl & _); [by apply authorised_request|done|].
  eexists. split; [|exact Hl]. unfold do. by rewrite exec_try, (exec_exchange _ _ _ _ _ _ Hs).
Qed.

Lemma exec_list (s : S) : known s →
  ∃ s' : S, exec jellyfin s (ListVirtualFolders quote cli) = (Ok (js_folders s), s') ∧
    js_folders s' = js_folders s ∧ retained (js_view s) (js_view s').
Proof.
  intros Hk. destruct (served _ s OpList list_meaning) as (body & Hs & Hr & Hl); [by apply authorised_request|done|].
  destruct (Hl eq_refl) as (Hsame & j & -> & Hread). eexists. split_and!; [|exact Hsame|by eapply retained_same_libs].
  unfold ListVirtualFolders, do_out. rewrite exec_try, (exec_exchange _ _ _ _ _ _ Hs). by rewrite Hread.
Qed.

(** *** Loops of requests *)
Fixpoint all_enabled (ops : list LibraryOp) (m : gmap string (gset string)) : Prop :=
  match ops with
  | [] => True
  | o :: ops => enabled o m ∧ all_enabled ops (effect o m)
  end.

Definition effects (ops : list LibraryOp) (m : gmap string (gset string)) : gmap string (gset string) :=
  fold_left (λ m o, effect o m) ops m.

Lemma all_enabled_app ops ops' m :
  all_enabled (ops ++ ops') m ↔ all_enabled ops m ∧ all_enabled ops' (effects ops m).
Proof. revert m. induction ops as [|o ops IH]; intros m; cbn; [tauto|]. rewrite IH. tauto. Qed.

(** [m] makes the requests [ops], with a result of [Q]. *)
Definition performs {A} (m : M A) (ops : list LibraryOp) (Q : A → Prop) : Prop :=
  ∀ s : S, known s → all_enabled ops (libs s) →
    ∃ a (s' : S), exec jellyfin s m = (Ok a, s') ∧ Q a ∧
      retained (set_libs (effects ops (libs s)) (js_view s)) (js_view s').

Lemma performs_do m p q b o :
  meaning js_base (request quote cli m p q b) = Some o → performs (do quote cli m p q b) [o] (λ _, True).
Proof. intros Ho s Hk [He _]. destruct (exec_do s m p q b o Ho Hk He) as (s' & ? & ?). by exists tt, s'. Qed.

Lemma performs_ok {A} (a : A) (Q : A → Prop) : Q a → performs (ok a) [] Q.
Proof. intros HQ s _ _. by exists a, s. Qed.

Lemma performs_try {A B} (m : M A) (k : A → M B) ops ops' (Q : A → Prop) (Q' : B → Prop) :
  performs m ops Q → (∀ a, Q a → performs (k a) ops' Q') → performs (try m k) (ops ++ ops') Q'.
Proof.
  intros Hm Hk s Hs [He He']%all_enabled_app. rewrite exec_try. destruct (Hm s Hs He) as (a & s1 & -> & HQ & E1).
  pose proof (retained_libs _ _ E1) as Hl. cbn in Hl. rewrite <-Hl in He'.
  destruct (Hk a HQ s1) as (b & s2 & -> & HQ' & E2); [by apply (retained_tokens _ _ E1)|done|].
  exists b, s2. split_and!; [done|done|]. unfold effects in *. rewrite fold_left_app.
  rewrite Hl in E2. by eapply retained_set_libs.
Qed.

Lemma performs_for_each {A} (f : A → M unit) (ops : A → list LibraryOp) l :
  (∀ a, a ∈ l → performs (f a) (ops a) (λ _, True)) → performs (for_each f l) (l ≫= ops) (λ _, True).
Proof.
  induction l as [|a l IH]; intros Hf; cbn [for_each]; [by apply performs_ok|].
  eapply performs_try; [apply Hf; by left|]. intros [] _. apply IH. intros b Hb. apply Hf. by right.
Qed.

Definition path_ops (op : string → string → LibraryOp) (l : list (string * list string)) : list LibraryOp :=
  l ≫= λ np : string * list string, op np.1 <$> np.2.

Lemma performs_paths (m : string → string → M unit) op l :
  (∀ n p, performs (m n p) [op n p] (λ _, True)) →
  performs (for_each (λ np : string * list string, for_each (λ p, m np.1 p) np.2) l) (path_ops op l) (λ _, True).
Proof.
  intros Hm. apply performs_for_each. intros [n ps] _. cbn.
  replace (op n <$> ps) with (ps ≫= λ p, [op n p]); [by apply performs_for_each; intros|].
  induction ps as [|p ps IH]; [done|]. cbn. by f_equal.
Qed.

(** The requests of a diff. *)
Definition create_op (d : DesiredLibrary) : LibraryOp := OpCreate (dl_Name d) (dl_Paths d).

Definition diff_ops (diff : LibraryDiff) : list LibraryOp :=
  (create_op <$> ld_ToCreate diff) ++ path_ops OpAddPath (range_map (ld_PathsToAdd diff)) ++
  path_ops OpRemovePath (range_map (ld_PathsToRemove diff)) ++ (OpRemove <$> ld_ToRemove diff).

(** The part of [reconcileLibraries] that applies the diff. *)
Definition diff_requests (diff : LibraryDiff) : M unit :=
  _ ←! for_each (λ lib, AddVirtualFolder quote cli lib false) (ld_ToCreate diff);
  _ ←! for_each (λ np : string * list string, for_each (λ p, AddMediaPath quote cli np.1 p false) np.2)
         (range_map (ld_PathsToAdd diff));
  _ ←! for_each (λ np : string * list string, for_each (λ p, RemoveMediaPath quote cli np.1 p false) np.2)
         (range_map (ld_PathsToRemove diff));
  for_each (λ name, RemoveVirtualFolder quote cli name false) (ld_ToRemove diff).

Lemma bind_singleton {A B} (f : A → B) l : (l ≫= λ a, [f a]) = f <$> l.
Proof. induction l as [|a l IH]; [done|]. cbn. by f_equal. Qed.

Lemma performs_diff diff :
  (∀ d, d ∈ ld_ToCreate diff → dl_Options d ≠ Malformed) →
  performs (diff_requests diff) (diff_ops diff) (λ _, True).
Proof.
  intros Hopt. unfold diff_requests, diff_ops. rewrite <-!bind_singleton.
  repeat (eapply performs_try; [|intros [] _]).
  - apply performs_for_each. intros d Hd. unfold AddVirtualFolder. fold (create_query d).
    destruct (dl_Options d) eqn:Ho; [|by destruct (Hopt d Hd)|]; apply performs_do, create_meaning.
  - apply (performs_paths (λ n p, AddMediaPath quote cli n p false)). intros n p. apply performs_do, add_path_meaning.
  - apply (performs_paths (λ n p, RemoveMediaPath quote cli n p false)). intros n p.
    apply performs_do, remove_path_meaning.
  - apply performs_for_each. intros n _. apply performs_do, remove_meaning.
Qed.

(** *** Their effect on the libraries *)
Lemma creates_lookup ds m :
  NoDup (dl_Name <$> ds) → (∀ d, d ∈ ds → m !! dl_Name d = None) →
  all_enabled (create_op <$> ds) m ∧
  (∀ d, d ∈ ds → effects (create_op <$> ds) m !! dl_Name d = Some (toSet (dl_Paths d))) ∧
  (∀ n, n ∉ dl_Name <$> ds → effects (create_op <$> ds) m !! n = m !! n).
Proof.
  revert m. induction ds as [|d ds IH]; intros m; cbn.
  { intros _ _. split_and!; [done|by intros d ?%elem_of_nil|done]. }
  rewrite NoDup_cons. intros [Hd Hnd] Hm.
  destruct (IH (<[dl_Name d := toSet (dl_Paths d)]> m)) as (He & Hin & Hout); [done| |].
  { intros e Hde. rewrite lookup_insert_ne; [apply Hm; by right|]. intros Heq. apply Hd. rewrite Heq.
    by apply list_elem_of_fmap_2. }
  split_and!.
  - apply Hm. by left.
  - done.
  - intros e [->|Hde]%elem_of_cons; [|by apply Hin]. unfold effects in *. cbn.
    rewrite Hout by done. apply lookup_insert_eq.
  - intros n [Hne Hno]%not_elem_of_cons. unfold effects in *. cbn. rewrite Hout by done. by rewrite lookup_insert_ne.
Qed.

(** Adding and removing paths: single requests, each on one library. *)
Lemma alters_lookup (g : string → gset string → gset string) op (l : list (string * string)) m :
  (∀ n p m, effect (op n p) m = alter (g p) n m ∧ (enabled (op n p) m ↔ is_Some (m !! n))) →
  (∀ np, np ∈ l → is_Some (m !! np.1)) →
  let ops := (λ np : string * string, op np.1 np.2) <$> l in
  all_enabled ops m ∧
  ∀ n, effects ops m !! n
       = (λ X, fold_left (λ X p, g p X) (snd <$> filter (λ np : string * string, np.1 = n) l) X) <$> m !! n.
Proof.
  intros Hop. revert m. induction l as [|[x q] l IH]; intros m Hl ops.
  { split; [done|]. intros n. cbn. by destruct (m !! n). }
  destruct (Hop x q m) as [He Hen].
  destruct (IH (alter (g q) x m)) as [Hall Hlook].
  { intros np Hnp. rewrite lookup_alter_is_Some. apply Hl. by right. }
  unfold ops, effects in *. cbn. rewrite He. split; [split; [apply Hen, (Hl (x, q)); by left|done]|].
  intros n. rewrite Hlook. case_decide as Hn; cbn.
  - subst n. rewrite lookup_alter_eq. by destruct (m !! x).
  - by rewrite lookup_alter_ne.
Qed.

Lemma elem_of_union_fold p ps (X : gset string) :
  p ∈ fold_left (λ X q, {[ q ]} ∪ X) ps X ↔ p ∈ X ∨ p ∈ ps.
Proof. revert X. induction ps as [|q ps IH]; intros X; cbn; [set_solver|]. rewrite IH. set_solver. Qed.

Lemma elem_of_difference_fold p ps (X : gset string) :
  p ∈ fold_left (λ X q, X ∖ {[ q ]}) ps X ↔ p ∈ X ∧ p ∉ ps.
Proof. revert X. induction ps as [|q ps IH]; intros X; cbn; [set_solver|]. rewrite IH. set_solver. Qed.

Lemma removes_lookup ns m :
  NoDup ns → (∀ n, n ∈ ns → is_Some (m !! n)) →
  all_enabled (OpRemove <$> ns) m ∧
  ∀ n, effects (OpRemove <$> ns) m !! n = if decide (n ∈ ns) then None else m !! n.
Proof.
  revert m. induction ns as [|x ns IH]; intros m.
  { intros _ _. split; [done|]. intros n. by rewrite decide_False by apply not_elem_of_nil. }
  rewrite NoDup_cons. intros [Hx Hnd] Hm. destruct (IH (delete x m)) as [Hall Hlook]; [done| |].
  { intros n Hn. rewrite lookup_delete_ne by (by intros ->). apply Hm. by right. }
  split; [split; [apply Hm; by left|done]|]. intros n. unfold effects in *. cbn. rewrite Hlook.
  destruct (decide (n = x)) as [->|Hn].
  - rewrite lookup_delete_eq, (decide_True (P := x ∈ x :: ns)) by (by left). by case_decide.
  - rewrite lookup_delete_ne by done. apply decide_ext. rewrite elem_of_cons. naive_solver.
Qed.

(** The pairs a path map stands for. *)
Definition pairs (l : list (string * list string)) : list (string * string) :=
  l ≫= λ np : string * list string, pair np.1 <$> np.2.

Lemma path_ops_pairs op l : path_ops op l = (λ np : string * string, op np.1 np.2) <$> pairs l.
Proof.
  unfold path_ops, pairs. induction l as [|[n ps] l IH]; [done|]. cbn. rewrite fmap_app, <-list_fmap_compose.
  by rewrite IH.
Qed.

Lemma elem_of_pairs (m : gmap string (list string)) n p :
  (n, p) ∈ pairs (range_map m) ↔ p ∈ default [] (m !! n).
Proof.
  unfold pairs. rewrite list_elem_of_bind. setoid_rewrite list_elem_of_fmap. setoid_rewrite range_map_perm.
  split.
  - intros ([n' ps] & (p' & [= -> ->] & Hp) & Hm%elem_of_map_to_list). cbn in *. by rewrite Hm.
  - destruct (m !! n) as [ps|] eqn:Hm; cbn; [|by intros ?%elem_of_nil]. intros Hp.
    exists (n, ps). split; [by exists p|by apply elem_of_map_to_list].
Qed.

Lemma elem_of_pairs_at (m : gmap string (list string)) n p :
  p ∈ snd <$> filter (λ np : string * string, np.1 = n) (pairs (range_map m)) ↔ p ∈ default [] (m !! n).
Proof.
  rewrite <-elem_of_pairs, list_elem_of_fmap. setoid_rewrite list_elem_of_filter. split.
  - by intros ([n' p'] & -> & <- & Hin).
  - intros Hin. by exists (n, p).
Qed.

(** Only names and paths matter to what is settled. *)
Lemma library_paths_elem fs n X :
  NoDup (vf_Name <$> fs) →
  library_paths fs !! n = Some X ↔ ∃ f, f ∈ fs ∧ vf_Name f = n ∧ toSet (vf_Locations f) = X.
Proof.
  intros Hnd. unfold library_paths. rewrite lookup_fmap, fmap_Some. split.
  - intros (f & Hf & ->). apply index_by_elem in Hf as [Hin Hn]. by exists f.
  - intros (f & Hin & Hn & <-). exists f. split; [|done]. by apply index_by_Some.
Qed.

Lemma settled_paths desired fs fs' managed prune :
  NoDup (vf_Name <$> fs) → NoDup (vf_Name <$> fs') → library_paths fs' = library_paths fs →
  settled desired fs managed prune → settled desired fs' managed prune.
Proof.
  intros Hnd Hnd' Heq [Hd Hp].
  assert (∀ f, f ∈ fs → ∃ f', f' ∈ fs' ∧ vf_Name f' = vf_Name f ∧ toSet (vf_Locations f') = toSet (vf_Locations f)) as Hto.
  { intros f Hf. apply library_paths_elem; [done|]. rewrite Heq. apply library_paths_elem; [done|]. by exists f. }
  assert (∀ f', f' ∈ fs' → ∃ f, f ∈ fs ∧ vf_Name f = vf_Name f' ∧ toSet (vf_Locations f) = toSet (vf_Locations f')) as Hfrom.
  { intros f Hf. apply library_paths_elem; [done|]. rewrite <-Heq. apply library_paths_elem; [done|]. by exists f. }
  split.
  - intros d Hin. destruct (Hd d Hin) as (f & Hf & Hn & Hl). destruct (Hto f Hf) as (f' & Hf' & Hn' & Hl').
    exists f'. split_and!; [done|congruence|]. intros p. by rewrite <-Hl, <-!elem_of_toSet, Hl'.
  - intros Hpr f' Hf' Hm. destruct (Hfrom f' Hf') as (f & Hf & Hn & _). rewrite <-Hn in *. by apply Hp.
Qed.

(** *** The diff's requests settle the libraries *)
Section settle.
Context (desired : list DesiredLibrary) (fs : list VirtualFolder) (managed : list string) (prune : bool).
Context (Hdes : NoDup (dl_Name <$> desired)) (Hfs : NoDup (vf_Name <$> fs)).
Let diff := DiffLibraries desired fs managed prune.
Let byName := index_by vf_Name fs ∅.

Lemma library_paths_is_Some n : is_Some (library_paths fs !! n) ↔ n ∈ vf_Name <$> fs.
Proof.
  unfold library_paths. rewrite lookup_fmap, fmap_is_Some, list_elem_of_fmap. split.
  - intros [f Hf%index_by_elem]. exists f. naive_solver.
  - intros (f & -> & Hf). exists f. by apply index_by_Some.
Qed.

Lemma diff_NoDup : NoDup (dl_Name <$> ld_ToCreate diff) ∧ NoDup (ld_ToRemove diff).
Proof.
  unfold diff, DiffLibraries. cbn. split.
  - rewrite sort_by_Permutation.
    destruct (diff_fold (index_by vf_Name fs ∅) desired (mkDiff [] ∅ ∅ [])) as (-> & _). cbn. by apply NoDup_fmap_filter.
  - destruct prune; [|by apply NoDup_nil]. unfold sort_strings. rewrite sort_by_Permutation.
    by apply NoDup_fmap_filter.
Qed.

Lemma changed_path_known n p :
  p ∈ default [] (ld_PathsToAdd diff !! n) ∨ p ∈ default [] (ld_PathsToRemove diff !! n) →
  is_Some (library_paths fs !! n).
Proof.
  destruct (DiffLibraries_eq desired fs managed prune) as (_ & Ha & Hr & _). fold diff in Ha, Hr.
  rewrite Ha, Hr, !list_elem_of_bind.
  assert (∀ d, p ∈ missing_paths byName d ∨ p ∈ stale_paths byName d → is_Some (library_paths fs !! dl_Name d)) as Hk.
  { intros d. unfold missing_paths, stale_paths, library_paths. rewrite lookup_fmap. fold byName.
    destruct (byName !! dl_Name d); [by eexists|]. rewrite !elem_of_nil. tauto. }
  intros [(d & Hp & [<- _]%list_elem_of_filter)|(d & Hp & [<- _]%list_elem_of_filter)]; apply Hk; auto.
Qed.

(** The libraries after each of the four loops. *)
Let created := effects (create_op <$> ld_ToCreate diff) (library_paths fs).
Let added := effects (path_ops OpAddPath (range_map (ld_PathsToAdd diff))) created.
Let trimmed := effects (path_ops OpRemovePath (range_map (ld_PathsToRemove diff))) added.
Let final := effects (diff_ops diff) (library_paths fs).

Lemma final_eq : final = effects (OpRemove <$> ld_ToRemove diff) trimmed.
Proof. unfold final, trimmed, added, created, diff_ops, effects. by rewrite !fold_left_app. Qed.

Lemma created_lookup :
  all_enabled (create_op <$> ld_ToCreate diff) (library_paths fs) ∧
  (∀ d, d ∈ ld_ToCreate diff → created !! dl_Name d = Some (toSet (dl_Paths d))) ∧
  (∀ n, n ∉ dl_Name <$> ld_ToCreate diff → created !! n = library_paths fs !! n).
Proof.
  destruct (DiffLibraries_eq desired fs managed prune) as (Hc & _). fold diff in Hc.
  apply creates_lookup; [apply diff_NoDup|]. intros d [_ Hno]%Hc.
  apply eq_None_not_Some. by rewrite library_paths_is_Some.
Qed.

Lemma created_known n : is_Some (library_paths fs !! n) → created !! n = library_paths fs !! n.
Proof.
  intros Hn. destruct created_lookup as (_ & _ & Hout). apply Hout. intros (d & -> & Hd)%list_elem_of_fmap.
  destruct (DiffLibraries_eq desired fs managed prune) as (Hc & _). fold diff in Hc.
  apply Hc in Hd as [_ Hno]. by rewrite library_paths_is_Some in Hn.
Qed.

Lemma trimmed_lookup :
  all_enabled (path_ops OpAddPath (range_map (ld_PathsToAdd diff))) created ∧
  all_enabled (path_ops OpRemovePath (range_map (ld_PathsToRemove diff))) added ∧
  ∀ n, match created !! n, trimmed !! n with
       | Some X, Some Y => ∀ p, p ∈ Y ↔ (p ∈ X ∨ p ∈ default [] (ld_PathsToAdd diff !! n)) ∧
                                         p ∉ default [] (ld_PathsToRemove diff !! n)
       | None, None => True
       | _, _ => False
       end.
Proof.
  unfold trimmed, added. rewrite !path_ops_pairs.
  destruct (alters_lookup (λ q X, {[ q ]} ∪ X) OpAddPath (pairs (range_map (ld_PathsToAdd diff))) created)
    as [Ha Hadd]; [done| |].
  { intros [n p] Hnp%elem_of_pairs. cbn. assert (is_Some (library_paths fs !! n)) by (eapply changed_path_known; eauto).
    by rewrite created_known. }
  match goal with |- context [effects ?ops created] => set (A := effects ops created) in * end.
  destruct (alters_lookup (λ q X, X ∖ {[ q ]}) OpRemovePath (pairs (range_map (ld_PathsToRemove diff))) A)
    as [Hr Hrem]; [done| |].
  { intros [n p] Hnp%elem_of_pairs. cbn. rewrite Hadd, fmap_is_Some.
    assert (is_Some (library_paths fs !! n)) by (eapply changed_path_known; eauto). by rewrite created_known. }
  split_and!; [done|done|]. intros n. rewrite Hrem, Hadd. destruct (created !! n) as [X|]; [|done]. cbn.
  intros p. by rewrite elem_of_difference_fold, elem_of_union_fold, !elem_of_pairs_at.
Qed.

Lemma final_enabled : all_enabled (diff_ops diff) (library_paths fs).
Proof.
  destruct created_lookup as (He & _ & _), trimmed_lookup as (Ha & Hr & Hlook).
  unfold diff_ops. rewrite !all_enabled_app. split_and!; [done|done|done|].
  fold created. fold added. fold trimmed. apply removes_lookup; [apply diff_NoDup|].
  intros n Hn. destruct (DiffLibraries_eq desired fs managed prune) as (_ & _ & _ & Hrm). fold diff in Hrm.
  apply Hrm in Hn as (_ & _ & Hin & _). apply library_paths_is_Some in Hin.
  specialize (Hlook n). rewrite created_known in Hlook by done. destruct Hin as [X HX]. rewrite HX in Hlook.
  by destruct (trimmed !! n).
Qed.

Lemma final_lookup n : final !! n = if decide (n ∈ ld_ToRemove diff) then None else trimmed !! n.
Proof.
  rewrite final_eq. pose proof final_enabled as He. unfold diff_ops in He. rewrite !all_enabled_app in He.
  destruct He as (_ & _ & _ & He). fold created added trimmed in He.
  apply removes_lookup; [apply diff_NoDup|]. intros m Hm.
  destruct (DiffLibraries_eq desired fs managed prune) as (_ & _ & _ & Hrm). fold diff in Hrm.
  apply Hrm in Hm as (_ & _ & Hin & _). apply library_paths_is_Some in Hin.
  destruct trimmed_lookup as (_ & _ & Hlook).
  specialize (Hlook m). rewrite created_known in Hlook by done. destruct Hin as [X HX]. rewrite HX in Hlook.
  by destruct (trimmed !! m).
Qed.

Lemma wanted_final d :
  d ∈ desired → ∃ Y, final !! dl_Name d = Some Y ∧ ∀ p, p ∈ Y ↔ p ∈ dl_Paths d.
Proof.
  intros Hd. destruct (DiffLibraries_eq desired fs managed prune) as (Hc & _ & _ & Hrm). fold diff in Hc, Hrm.
  rewrite final_lookup, decide_False.
  2:{ intros (_ & _ & _ & Hno)%Hrm. by apply Hno, list_elem_of_fmap_2. }
  destruct (diff_paths desired fs managed prune Hdes d _ Hd eq_refl) as [Ha Hr]. fold diff in Ha, Hr.
  destruct trimmed_lookup as (_ & _ & Hlook). specialize (Hlook (dl_Name d)). rewrite Ha, Hr in Hlook.
  destruct (index_by vf_Name fs ∅ !! dl_Name d) as [f|] eqn:Hf.
  - assert (library_paths fs !! dl_Name d = Some (toSet (vf_Locations f))) as Hl
      by (unfold library_paths; by rewrite lookup_fmap, Hf).
    rewrite created_known, Hl in Hlook by (by eexists).
    destruct (trimmed !! dl_Name d) as [Y|]; [|done]. exists Y. split; [done|]. intros p. rewrite Hlook.
    unfold missing_paths, stale_paths. rewrite Hf, !list_elem_of_filter, !elem_of_toSet.
    destruct (decide (p ∈ dl_Paths d)), (decide (p ∈ vf_Locations f)); tauto.
  - assert (d ∈ ld_ToCreate diff) as Hnew.
    { apply Hc. split; [done|]. by apply index_by_None in Hf as [? _]. }
    destruct created_lookup as (_ & Hin & _). rewrite (Hin d Hnew) in Hlook.
    destruct (trimmed !! dl_Name d) as [Y|]; [|done]. exists Y. split; [done|]. intros p. rewrite Hlook.
    unfold missing_paths, stale_paths. rewrite Hf, !elem_of_nil, elem_of_toSet. tauto.
Qed.

Lemma pruned_final n :
  prune = true → n ∈ managed → is_Some (final !! n) → n ∈ dl_Name <$> desired.
Proof.
  intros Hp Hm. destruct (DiffLibraries_eq desired fs managed prune) as (Hc & _ & _ & Hrm). fold diff in Hc, Hrm.
  rewrite final_lookup. case_decide as Hno; [by intros []|].
  destruct (decide (n ∈ dl_Name <$> desired)) as [|Hd]; [done|].
  destruct trimmed_lookup as (_ & _ & Hlook), created_lookup as (_ & _ & Hout). specialize (Hlook n).
  rewrite Hout in Hlook.
  2:{ intros (d & -> & [Hin _]%Hc)%list_elem_of_fmap. by apply Hd, list_elem_of_fmap_2. }
  intros [Y HY]. rewrite HY in Hlook. destruct (library_paths fs !! n) as [X|] eqn:HX; [|done].
  destruct Hno. apply Hrm. split_and!; [done|done| |done]. apply library_paths_is_Some. by eexists.
Qed.

(** Any list of libraries with these paths is settled. *)
Lemma final_settled fs' : NoDup (vf_Name <$> fs') → library_paths fs' = final → settled desired fs' managed prune.
Proof.
  intros Hnd Hfin. split.
  - intros d Hd. destruct (wanted_final d Hd) as (Y & HY & Hp). rewrite <-Hfin in HY.
    unfold library_paths in HY. rewrite lookup_fmap in HY.
    destruct (index_by vf_Name fs' ∅ !! dl_Name d) as [f|] eqn:Hf; [|done]. injection HY as <-.
    apply index_by_elem in Hf as [Hin Hn]. exists f. split_and!; [done|done|]. intros p.
    by rewrite <-Hp, elem_of_toSet.
  - intros Hpr f Hf Hm. apply (pruned_final _ Hpr Hm). rewrite <-Hfin. unfold library_paths.
    rewrite lookup_fmap, fmap_is_Some. exists f. by apply index_by_Some.
Qed.
End settle.

(** *** The rest of the pass leaves the libraries alone *)
Lemma performs_idle m p q b o :
  meaning js_base (request quote cli m p q b) = Some o → o ∈ [OpOptions; OpRefresh] →
  performs (do quote cli m p q b) [] (λ _, True).
Proof.
  intros Ho Hin s Hk _. rewrite !elem_of_cons, elem_of_nil in Hin.
  assert (enabled o (libs s) ∧ effect o (libs s) = libs s) as [He Hl] by (destruct Hin as [->|[->|[]]]; done).
  destruct (exec_do s m p q b o Ho Hk He) as (s' & ? & Hs'). rewrite Hl in Hs'. by exists tt, s'.
Qed.

(** Options the server and the operator can read. *)
Definition folders_read (fs : list VirtualFolder) : Prop :=
  ∀ f, f ∈ fs → is_Some (current_map (vf_LibraryOptions f)).
Definition options_read (d : DesiredLibrary) : Prop :=
  dl_Options d = Empty ∨ is_Some (unmarshal_map (dl_Options d)).

Lemma options_read_formed d : options_read d → dl_Options d ≠ Malformed.
Proof. intros [->|[m Hm]]; [done|]. by intros Heq; rewrite Heq in Hm. Qed.

Lemma performs_list : performs (ListVirtualFolders quote cli) [] folders_read.
Proof.
  intros s Hk _. destruct (exec_list s Hk) as (s' & Hs & Hsame & Hr). exists (js_folders s), s'.
  split_and!; [done|intros f; apply folder_options|]. destruct Hr. by split.
Qed.

Lemma performs_parsed {A} (r : result JsonError A) a (Q : A → Prop) : r = Ok a → Q a → performs (parsed r) [] Q.
Proof. intros -> HQ. by apply performs_ok. Qed.

Lemma performs_update id out : out ≠ Malformed → performs (UpdateLibraryOptions quote cli id out) [] (λ _, True).
Proof.
  intros Hout. unfold UpdateLibraryOptions, do_raw.
  assert (∀ b, meaning js_base (request quote cli MethodPost "/Library/VirtualFolders/LibraryOptions" None b)
    = Some OpOptions) as Hm by (intros b; by meaning).
  destruct out; [|done|]; cbn [marshal_raw]; (eapply performs_idle; [apply Hm|by left]).
Qed.

Lemma performs_seq {A B} (m : M A) (k : A → M B) (Q : A → Prop) (Q' : B → Prop) :
  performs m [] Q → (∀ a, Q a → performs (k a) [] Q') → performs (try m k) [] Q'.
Proof. apply (performs_try m k [] []). Qed.

Lemma performs_enforceOne byName b d :
  options_read d → (∀ n f, byName !! n = Some f → is_Some (current_map (vf_LibraryOptions f))) →
  performs (enforceOne quote cli byName b d) [] (λ _, True).
Proof.
  intros Hd Hf. unfold enforceOne. destruct (byName !! dl_Name d) as [f|] eqn:Hby; [|by apply performs_ok].
  apply Hf in Hby. case_decide; [by apply performs_ok|].
  eapply (performs_seq _ _ (λ s, is_Some (current_map s.1))).
  { destruct (dl_PreventWrites d); [|by apply performs_ok].
    destruct (EnforceReadOnlyOptions_reads _ Hby) as (out & ch & He & Hr).
    eapply performs_seq; [by apply (performs_parsed _ _ (λ r, is_Some (current_map r.1)) He)|].
    intros [out' ch'] Hr'. apply performs_ok. by destruct ch'. }
  intros [opts ch] Hs. cbn in Hs. eapply (performs_seq _ _ (λ s, s.1 ≠ Malformed)).
  { assert (opts ≠ Malformed) as Hopts by (intros ->; by destruct Hs).
    destruct Hd as [->|Hd]; [by apply performs_ok|]. destruct (dl_Options d) eqn:Ho; [by apply performs_ok|by destruct Hd|].
    destruct (MergeLibraryOptions_reads _ _ Hs Hd) as [[out ch'] Hm].
    eapply performs_seq; [apply (performs_parsed _ _ (λ r, r.1 ≠ Malformed) Hm)|].
    - apply MergeLibraryOptions_out in Hm. cbn. destruct ch'; [by destruct Hm as [j' ->]|by subst].
    - intros [out' ch''] Hr. apply performs_ok. by destruct ch''. }
  intros [merged changed] Hm. destruct changed; [|by apply performs_ok].
  eapply performs_seq; [by apply performs_update|]. intros. by apply performs_ok.
Qed.

Lemma performs_enforce desired fs :
  (∀ d, d ∈ desired → options_read d) → folders_read fs →
  performs (enforceLibraryOptions quote cli desired fs) [] (λ _, True).
Proof.
  intros Hd Hf. unfold enforceLibraryOptions. generalize false.
  assert (∀ n f, index_by vf_Name fs ∅ !! n = Some f → is_Some (current_map (vf_LibraryOptions f))) as Hby.
  { intros n f [Hin _]%index_by_elem. by apply Hf. }
  induction desired as [|d desired IH]; intros b; [by apply performs_ok|].
  eapply performs_seq; [apply performs_enforceOne; [apply Hd; by left|done]|].
  intros b' _. apply IH. intros d' Hd'. apply Hd. by right.
Qed.

(** What follows the four loops. *)
Definition managed_update (jf : Jellyfin) : Jellyfin :=
  set_jst_ManagedLibraries (sort_strings (dl_Name <$> desiredLibraries jf)) jf.

Definition after_diff (jf : Jellyfin) (spec : JellyfinAPISpec) (existing : list VirtualFolder) : M Jellyfin :=
  let desired := desiredLibraries jf in
  let diff := DiffLibraries desired existing (jst_ManagedLibraries (jf_Status jf)) (api_Prune spec) in
  folders ←! (if decide (0 < length (ld_ToCreate diff)) then ListVirtualFolders quote cli else ok existing);
  optsChanged ←! enforceLibraryOptions quote cli desired folders;
  _ ←! (if (Changed diff || optsChanged) && api_RefreshLibraryOnChange spec then RefreshLibraries quote cli else ok tt);
  ok (managed_update jf).

Lemma performs_after_diff jf spec existing :
  (∀ d, d ∈ desiredLibraries jf → options_read d) → folders_read existing →
  performs (after_diff jf spec existing) [] (λ jf', jf' = managed_update jf).
Proof.
  intros Hd He. unfold after_diff. eapply (performs_seq _ _ folders_read).
  { case_decide; [apply performs_list|by apply performs_ok]. }
  intros fs Hfs. eapply performs_seq; [by apply performs_enforce|]. intros b _.
  eapply (performs_seq _ _ (λ _, True)).
  - destruct (_ && _); [|by apply performs_ok]. apply (performs_idle _ _ _ _ OpRefresh); [by meaning|right; by left].
  - intros [] _. by apply performs_ok.
Qed.

Lemma performs_apply diff k jf' :
  (∀ d, d ∈ ld_ToCreate diff → dl_Options d ≠ Malformed) → performs k [] (λ jf, jf = jf') →
  performs (ApiController.apply_requests quote cli diff k) (diff_ops diff) (λ jf, jf = jf').
Proof.
  intros Hopt Hk s Hs He. destruct (performs_diff diff Hopt s Hs He) as (x & s1 & R1 & _ & E1).
  destruct (Hk s1) as (a & s2 & R2 & -> & E2); [by apply (retained_tokens _ _ E1)|done|].
  exists jf', s2. split_and!; [|done|].
  - rewrite <-R2. revert R1. unfold ApiController.apply_requests, diff_requests. rewrite !exec_try.
    repeat (destruct (exec jellyfin _ (for_each _ _)) as [[[]|e] ?]; [rewrite ?exec_try|done]). by intros [= _ ->].
  - rewrite (retained_libs _ _ E1) in E2. by eapply retained_set_libs.
Qed.

(** A diff that changes nothing makes no requests. *)
Lemma path_ops_none op (m : gmap string (list string)) :
  existsb (λ kv : string * list string, bool_decide (0 < length kv.2)) (range_map m) = false →
  path_ops op (range_map m) = [].
Proof.
  unfold path_ops. induction (range_map m) as [|[k l] rest IH]; [done|]. cbn.
  intros [Hl Hr]%orb_false_iff. rewrite IH by done. apply bool_decide_eq_false in Hl.
  by destruct l; [|cbn in Hl; lia].
Qed.

Lemma diff_ops_none diff : Changed diff = false → diff_ops diff = [].
Proof.
  unfold Changed, diff_ops. case_decide as Hd; [done|]. destruct (existsb _ _) eqn:Ha; [done|]. intros Hr.
  rewrite !path_ops_none by done. destruct (ld_ToCreate diff), (ld_ToRemove diff); try (destruct Hd; cbn; lia); done.
Qed.

(** A whole pass succeeds and leaves the libraries settled, and all else as it was. *)
Lemma reconcileLibraries_settles jf spec (s : S) :
  known s → NoDup (dl_Name <$> desiredLibraries jf) → (∀ d, d ∈ desiredLibraries jf → options_read d) →
  ∃ s' : S, exec jellyfin s (reconcileLibraries quote jf spec cli) = (Ok (managed_update jf), s') ∧
    retained (set_libs (libs s') (js_view s)) (js_view s') ∧
    settled (desiredLibraries jf) (js_folders s') (jst_ManagedLibraries (jf_Status jf)) (api_Prune spec) ∧
    (settled (desiredLibraries jf) (js_folders s) (jst_ManagedLibraries (jf_Status jf)) (api_Prune spec) →
     libs s' = libs s).
Proof.
  intros Hk Hnd Hopt. destruct (exec_list s Hk) as (s1 & R1 & Hsame & E1).
  set (diff := DiffLibraries (desiredLibraries jf) (js_folders s) (jst_ManagedLibraries (jf_Status jf)) (api_Prune spec)).
  destruct (performs_apply diff (after_diff jf spec (js_folders s)) (managed_update jf)) with (s := s1)
    as (jf' & s2 & R2 & -> & E2).
  - intros d Hd. apply options_read_formed, Hopt. destruct (DiffLibraries_eq (desiredLibraries jf) (js_folders s)
      (jst_ManagedLibraries (jf_Status jf)) (api_Prune spec)) as (Hc & _). by apply Hc.
  - apply performs_after_diff; [done|]. intros f. apply folder_options.
  - by apply (retained_tokens _ _ E1).
  - rewrite (retained_libs _ _ E1), <-folders_view. apply final_enabled; [done|apply folders_distinct].
  - exists s2. split_and!.
    + unfold reconcileLibraries. rewrite exec_try, R1. exact R2.
    + rewrite (retained_libs _ _ E2). eapply (retained_set_libs (libs s)); [|exact E2]. destruct E1. by split.
    + apply final_settled with (fs := js_folders s); [done|apply folders_distinct|apply folders_distinct|].
      rewrite folders_view, (retained_libs _ _ E2). cbn. by rewrite (retained_libs _ _ E1), <-folders_view.
    + intros Hset%(settled_unchanged _ _ _ _ (folders_distinct s)). rewrite (retained_libs _ _ E2), diff_ops_none by done.
      apply (retained_libs _ _ E1).
Qed.
End converge.


Import RefJellyfin.

(** No character beyond ASCII is printable. *)
#[export] Instance ascii_only : Unicode := {| in_tables := λ _, false |}.

Module Example_converge.
Definition folder (name path : string) : MediaFolder :=
  mkMediaFolder name path false None None "" (Some (mkLibrarySpec "" "movies" None)).
Definition spec : JellyfinAPISpec := mkAPISpec "bootstrap" None "" true true true.
Definition jf : Jellyfin :=
  mkJellyfin (meta_lit "home" "media" ∅ ∅)
    (mkJellyfinSpec "" None (mkStorage (mkPVCSpec "" 0%Z "" [] "") None None
         [folder "Films" "/media/films"; folder "Shows" "/media/shows"]) (mkServiceSpec "" 0%Z ∅)
       None None None ResourceRequirements_zero None None (Some spec) None None None None None ∅ [])
    (mkJellyfinStatus "" 0%Z (mkEndpoints "" "") [] "" ["Old"] []).
Definition cli : Client := mkClient (mkURL "http" "home.media.svc:8096" "/" ∅) "key-JellyOps" "" "" "" "".
Definition start : state :=
  mkState {[ "Old" := {[ "/old" ]}; "Shows" := {[ "/elsewhere" ]}; "Home videos" := {[ "/home" ]} ]} ∅ false
    (Some ("admin", "secret")) false ["JellyOps"].
End Example_converge.

