(* ===== verification/Session.v ===== *)
(** * Logging in, keys and settings
    (internal/jellyfinapi/startup.go, configuration.go and encoding.go, and
    [reconcileConfig] of internal/controller/jellyfinapi_controller.go)

    What the bootstrap and a settings area achieve against a Jellyfin server that works. *)
From S2P Require Import Prelude GoStrings Json K8s ApiTypes Http Kube Programs Options Libraries Client Wire Bindings PluginController JellyfinController ApiController Server Converge.

(** ** What may change at a server *)

(** Besides configuration documents under the given paths, only new tokens and keys. *)
Record only_config (paths : list string) (v v' : Jellyfin_view) : Prop := mkOnlyConfig {
  oc_libs : jv_libs v' = jv_libs v;
  oc_wizard : jv_wizard v' = jv_wizard v;
  oc_account : jv_account v' = jv_account v;
  oc_config path : path ∉ paths → jv_config v' !! path = jv_config v !! path;
  oc_tokens : jv_tokens v ⊆ jv_tokens v';
}.
#[export] Instance only_config_preorder paths : PreOrder (only_config paths).
Proof.
  split; [by intros v; split|]. intros v1 v2 v3 [?? ? C1 ?] [?? ? C2 ?]. split; [congruence..| |set_solver].
  intros p Hp. by rewrite C2, C1.
Qed.

Lemma only_config_mono paths paths' v v' : paths ⊆ paths' → only_config paths v v' → only_config paths' v v'.
Proof. intros Hp []. split; auto. Qed.

Lemma retained_only_config v v' : retained v v' → only_config [] v v'.
Proof. intros [? Hc ? ? ? ?]. split; [done..| |done]. intros path _. by rewrite Hc. Qed.

(** The wizard and the account aside. *)
Record same_content (v v' : Jellyfin_view) : Prop := mkSameContent {
  sc_libs : jv_libs v' = jv_libs v;
  sc_config : jv_config v' = jv_config v;
  sc_tokens : jv_tokens v ⊆ jv_tokens v';
}.
#[export] Instance same_content_preorder : PreOrder same_content.
Proof. split; [by intros v; split|]. intros v1 v2 v3 [] []. split; congruence || set_solver. Qed.

Lemma retained_same_content v v' : retained v v' → same_content v v'.
Proof. intros []. by split. Qed.
Lemma only_config_same_content v v' : only_config [] v v' → same_content v v'.
Proof. intros [? ? ? Hc ?]. split; [done| |done]. apply map_eq. intros path. apply Hc, not_elem_of_nil. Qed.
#[export] Hint Resolve retained_only_config retained_same_content : jellyops.

Section session.
Context `{Unicode} {S : Type} `{!JellyfinServer S} (other : ∀ R : Type, call R → R).
Notation quote := Quote.
Notation perform := (exec (jellyfin other)).
Notation at_base c := (TrimRightByte "/" (u_Path (cl_base c)) = js_base).

(** ** Single requests *)
Section requests.
Context (c : Client) (Hc : at_base c).

Lemma exec_admin (s : S) m p q b o :
  admin_meaning js_base (request quote c m p q b) = Some o →
  permitted o (authorised (js_view s) (request quote c m p q b)) (js_view s) →
  ∃ body (s' : S), perform s (exchange quote c m p q b) = (Ok body, s') ∧ outcome o (js_view s) body (js_view s').
Proof.
  intros Ho Hp. destruct (administered _ s o Ho Hp) as (body & Hs & Hout).
  eexists _, _. split; [by apply exec_exchange|exact Hout].
Qed.

Lemma exec_admin_do (s : S) m p q b o :
  admin_meaning js_base (request quote c m p q b) = Some o →
  permitted o (authorised (js_view s) (request quote c m p q b)) (js_view s) →
  ∃ body (s' : S), perform s (do quote c m p q b) = (Ok tt, s') ∧ outcome o (js_view s) body (js_view s').
Proof.
  intros Ho Hp. destruct (exec_admin s m p q b o Ho Hp) as (body & s' & R & Hout).
  exists body, s'. split; [|done]. unfold do. by rewrite exec_try, R.
Qed.

Lemma exec_failed {T} (read : Json → option T) zero (s : S) m p q b :
  success (js_http (request quote c m p q b) s).1 = None →
  ∃ e, perform s (do_out quote read zero c m p q b) = (Err e, (js_http (request quote c m p q b) s).2).
Proof.
  intros Hs. unfold do_out, exchange. rewrite exec_try, exec_bind, exec_ask. cbn [sv_answer jellyfin].
  destruct (js_http _ s) as [[resp|e] s']; cbn in Hs |- *; [|by eexists].
  rewrite status_test. destruct (_ && _)%Z; [done|]. by eexists.
Qed.

Ltac administration := unfold admin_meaning; rewrite request_path by exact Hc; cbn [rq_Method rq_Body rq_URL u_Query request]; reflexivity.

Lemma login_meaning n p :
  admin_meaning js_base (request quote c MethodPost "/Users/AuthenticateByName" None
    (Some (JObject [("Pw", JString p); ("Username", JString n)]))) = Some (OpLogin n p).
Proof. administration. Qed.

Lemma startup_meaning :
  admin_meaning js_base (request quote c MethodGet "/Startup/Configuration" None None) = Some OpStartup.
Proof. administration. Qed.

(** ** The first-run wizard *)
Lemma exec_wizard_step ctx (s : S) m p q b o :
  admin_meaning js_base (request quote c m p q b) = Some o →
  permitted o (authorised (js_view s) (request quote c m p q b)) (js_view s) →
  ∃ body (s' : S), perform s (wizard_step ctx (do quote c m p q b)) = (Ok tt, s') ∧ outcome o (js_view s) body (js_view s').
Proof.
  intros Ho Hp. destruct (exec_admin_do s m p q b o Ho Hp) as (body & s' & R & Hout).
  exists body, s'. split; [|done]. unfold wizard_step. by rewrite exec_bind, R.
Qed.

Lemma exec_startup_probe (s : S) :
  jv_wizard (js_view s) = true →
  ∃ cfg (s' : S), perform s (GetStartupConfiguration quote c) = (Ok cfg, s') ∧ retained (js_view s) (js_view s').
Proof.
  intros Hw. destruct (exec_admin s _ _ _ _ _ startup_meaning Hw) as (body & s' & R & (j & cfg & -> & Hread) & Hk).
  exists cfg, s'. split; [|done]. unfold GetStartupConfiguration, do_out. by rewrite exec_try, R, Hread.
Qed.

Definition wizard_steps (user pass : string) : M unit :=
  _ ←! wizard_step "set startup configuration" (SetStartupConfiguration quote c (mkStartup "" "" ""));
  _ ←! wizard_step "get startup user" (GetStartupUser quote c);
  _ ←! wizard_step "create startup user" (CreateStartupUser quote c user pass);
  _ ←! wizard_step "set startup remote access" (SetStartupRemoteAccess quote c);
  wizard_step "complete startup" (CompleteStartup quote c).

(** While the wizard is open. *)
Lemma exec_wizard_idle ctx (s : S) m p q b :
  admin_meaning js_base (request quote c m p q b) = Some OpWizardStep → jv_wizard (js_view s) = true →
  ∃ s' : S, perform s (wizard_step ctx (do quote c m p q b)) = (Ok tt, s') ∧ retained (js_view s) (js_view s').
Proof. intros Ho Hw. destruct (exec_wizard_step ctx s m p q b _ Ho Hw) as (body & s' & R & Hk). by exists s'. Qed.

Lemma exec_wizard (s : S) user pass :
  jv_wizard (js_view s) = true →
  ∃ s' : S, perform s (wizard_steps user pass) = (Ok tt, s') ∧ same_content (js_view s) (js_view s') ∧
    jv_wizard (js_view s') = false ∧ jv_account (js_view s') = Some (user, pass).
Proof.
  intros Hw. unfold wizard_steps, SetStartupConfiguration, GetStartupUser, CreateStartupUser, SetStartupRemoteAccess, CompleteStartup.
  match goal with |- context [wizard_step ?x (do quote c ?m ?p ?q ?b)] =>
    destruct (exec_wizard_idle x s m p q b) as (s1 & R1 & K1); [by administration|done|] end.
  rewrite exec_try, R1. pose proof (retained_wizard _ _ K1) as W1. rewrite Hw in W1.
  match goal with |- context [wizard_step ?x (do quote c ?m ?p ?q ?b)] =>
    destruct (exec_wizard_idle x s1 m p q b) as (s2 & R2 & K2); [by administration|done|] end.
  rewrite exec_try, R2. pose proof (retained_wizard _ _ K2) as W2. rewrite W1 in W2.
  match goal with |- context [wizard_step ?x (do quote c ?m ?p ?q ?b)] =>
    destruct (exec_wizard_step x s2 m p q b (OpCreateUser user pass)) as (? & s3 & R3 & K3); [by administration|done|] end.
  rewrite exec_try, R3. pose proof (retained_wizard _ _ K3) as W3. cbn in W3. rewrite W2 in W3.
  match goal with |- context [wizard_step ?x (do quote c ?m ?p ?q ?b)] =>
    destruct (exec_wizard_idle x s3 m p q b) as (s4 & R4 & K4); [by administration|done|] end.
  rewrite exec_try, R4. pose proof (retained_wizard _ _ K4) as W4. rewrite W3 in W4.
  match goal with |- context [wizard_step ?x (do quote c ?m ?p ?q ?b)] =>
    destruct (exec_wizard_step x s4 m p q b OpComplete) as (? & s5 & R5 & K5); [by administration|done|] end.
  exists s5. split_and!; [done| |by rewrite (retained_wizard _ _ K5)|].
  - destruct K1, K2, K3, K4, K5. cbn in *. split; congruence || set_solver.
  - rewrite (retained_account _ _ K5). cbn. by rewrite (retained_account _ _ K4), (retained_account _ _ K3).
Qed.

(** ** Logging in, and a key of one's own *)
Lemma exec_login (s : S) user pass :
  jv_wizard (js_view s) = false → jv_account (js_view s) = Some (user, pass) →
  ∃ token (s' : S), perform s (AuthenticateByName quote c user pass) = (Ok (token, SetToken c token), s') ∧
    token ≠ "" ∧ token ∈ jv_tokens (js_view s') ∧ only_config [] (js_view s) (js_view s').
Proof.
  intros Hw Ha. destruct (exec_admin s _ _ _ _ _ (login_meaning user pass) (conj Hw Ha))
    as (body & s' & R & (j & a & -> & Hread & Hne & Hk)).
  exists (au_AccessToken a), s'. split_and!; [|done|apply (retained_tokens _ _ Hk); cbn; set_solver|].
  - unfold AuthenticateByName, do_out. rewrite exec_try, exec_try, R. cbn. rewrite Hread. cbn. by rewrite decide_False.
  - destruct Hk as [? Hcfg ???]. cbn in *. split; [done..| |set_solver]. intros path _. by rewrite Hcfg.
Qed.
End requests.

Lemma exec_CreateAPIKey c app (s : S) :
  at_base c → cl_token c ≠ "" → cl_token c ∈ jv_tokens (js_view s) →
  ∃ key (s' : S), perform s (CreateAPIKey quote c app) = (Ok key, s') ∧
    key ≠ "" ∧ key ∈ jv_tokens (js_view s') ∧ same_content (js_view s) (js_view s').
Proof.
  intros Hc Ht Hin. unfold CreateAPIKey.
  match goal with |- context [do quote c ?m ?p ?q ?b] =>
    destruct (exec_admin_do c s m p q b (OpCreateKey app)) as (? & s1 & R1 & (t & Hne & K1)) end.
  { unfold admin_meaning. rewrite request_path by exact Hc. reflexivity. }
  { by apply authorised_request. }
  rewrite exec_try, R1. unfold do_out.
  match goal with |- context [exchange quote c ?m ?p ?q ?b] =>
    destruct (exec_admin c s1 m p q b OpListKeys) as (body & s2 & R2 & ((j & -> & Hread) & K2)) end.
  { unfold admin_meaning. rewrite request_path by exact Hc. reflexivity. }
  { apply authorised_request; [done|]. apply (retained_tokens _ _ K1). cbn. set_solver. }
  rewrite exec_try, exec_try, R2, Hread. unfold ok at 1. cbn [exec run].
  assert (mkKey t app ∈ filter (λ k, ak_AppName k = app ∧ ak_AccessToken k ≠ "") (jv_keys (js_view s1))) as Hk.
  { apply list_elem_of_filter. split; [done|]. rewrite (retained_keys _ _ K1). apply elem_of_app. right. by left. }
  destruct (filter _ _) as [|k l] eqn:Hf; [by apply elem_of_nil in Hk|].
  assert (k ∈ k :: l) as Hkl by left. rewrite <-Hf in Hkl. apply list_elem_of_filter in Hkl as [[Happ Hk'] Hkin].
  exists (ak_AccessToken k), s2. split_and!; [done|done|by apply (retained_tokens _ _ K2), keys_accepted|].
  destruct K1, K2. cbn in *. split; congruence || set_solver.
Qed.

(** The whole bootstrap: a new server is set up with the name and the password; one that
    was set up with them is logged in to. *)
Lemma exec_Bootstrap c app user pass (s : S) :
  at_base c → (jv_wizard (js_view s) = true ∨ jv_account (js_view s) = Some (user, pass)) →
  ∃ key (s' : S), perform s (Bootstrap quote c user pass app) = (Ok key, s') ∧
    key ≠ "" ∧ key ∈ jv_tokens (js_view s') ∧ same_content (js_view s) (js_view s').
Proof.
  intros Hc Hs.
  assert (∃ r (s0 s1 : S), perform s (GetStartupConfiguration quote c) = (r, s0) ∧
    perform s0 (match r with Ok _ => wizard_steps c user pass | Err _ => ok tt end) = (Ok tt, s1) ∧
    same_content (js_view s) (js_view s1) ∧ jv_wizard (js_view s1) = false ∧
    jv_account (js_view s1) = Some (user, pass)) as (r & s0 & s1 & R0 & R1 & C1 & W1 & A1).
  { destruct (jv_wizard (js_view s)) eqn:Hw.
    - destruct (exec_startup_probe c Hc s Hw) as (cfg & s0 & R0 & K0).
      destruct (exec_wizard c Hc s0 user pass) as (s1 & R1 & C1 & ?); [by rewrite (retained_wizard _ _ K0)|].
      exists (Ok cfg), s0, s1. split_and!; [done..| |tauto|tauto]. etrans; [by apply retained_same_content|done].
    - destruct Hs as [|Ha]; [done|]. destruct (startup_over _ s (startup_meaning c Hc) Hw) as [Hno K0].
      destruct (exec_failed c read_StartupConfiguration (mkStartup "" "" "") s _ _ _ _ Hno) as [e R0].
      eexists (Err e), _, _. split_and!; [exact R0|done|by apply retained_same_content| |].
      + by rewrite (retained_wizard _ _ K0).
      + by rewrite (retained_account _ _ K0). }
  destruct (exec_login c Hc s1 user pass W1 A1) as (token & s2 & R2 & Hne & Hin & C2%only_config_same_content).
  destruct (exec_CreateAPIKey (SetToken c token) app s2 Hc Hne Hin) as (key & s3 & R3 & Hkey & Hkin & C3).
  exists key, s3. split_and!; [|done|done|by do 2 (etrans; [done|])].
  unfold Bootstrap. rewrite exec_bind, R0, exec_try. fold (wizard_steps c user pass). rewrite R1.
  unfold in_context. rewrite exec_try, exec_bind, R2. exact R3.
Qed.

(** ** Settings *)

(** The document under a path, and that nothing wanted of it is missing. *)
Definition document (v : Jellyfin_view) (path : string) : RawMessage :=
  Text (JObject (default [] (jv_config v !! path))).
Definition in_place (enforce : RawMessage → result JsonError (RawMessage * bool)) (path : string)
    (v : Jellyfin_view) : Prop :=
  enforce (document v path) = Ok (document v path, false).

Lemma in_place_same enforce path v v' :
  jv_config v' !! path = jv_config v !! path → in_place enforce path v → in_place enforce path v'.
Proof. unfold in_place, document. by intros ->. Qed.

Section settings.
Context {D : Type} (path : string) (empty : D → bool) (enforce : RawMessage → D → result JsonError (RawMessage * bool))
  (d : D) (wanted : gmap string Json) (c : Client).
Hypothesis path_known : path ∈ config_paths.
Hypothesis contract : overlay_contract wanted (λ r, enforce r d).
Hypothesis empty_wanted : empty d = true → wanted = ∅.
Hypothesis marshals : ∀ cur out changed, enforce cur d = Ok (out, changed) →
  if changed then ∃ m, out = marshal_map m else out = cur.
Hypothesis c_base : at_base c.
Hypothesis c_token : cl_token c ≠ "".

Lemma read_meaning : admin_meaning js_base (request quote c MethodGet path None None) = Some (OpReadConfig path).
Proof.
  unfold admin_meaning. rewrite request_path by exact c_base. cbv zeta. by rewrite decide_True, decide_True.
Qed.

Lemma write_meaning fs :
  admin_meaning js_base (request quote c MethodPost path None (Some (JObject fs))) = Some (OpWriteConfig path fs).
Proof.
  unfold admin_meaning. rewrite request_path by exact c_base. cbv zeta.
  by rewrite decide_True, decide_False by done.
Qed.

Lemma exec_reconcileConfig (s : S) :
  cl_token c ∈ jv_tokens (js_view s) →
  ∃ s' : S, perform s (reconcileConfig empty (λ c, get_raw quote c path) enforce
      (λ c cfg, do_raw quote c MethodPost path cfg id) d c) = (Ok tt, s') ∧
    only_config [path] (js_view s) (js_view s') ∧ in_place (λ r, enforce r d) path (js_view s') ∧
    (in_place (λ r, enforce r d) path (js_view s) → only_config [] (js_view s) (js_view s')).
Proof.
  intros Hin. pose proof (contract (document (js_view s) path)) as Hcon. unfold reconcileConfig.
  destruct Hcon as (out & changed & opts' & He & _ & _ & _ & Hch & Hsame & Hagain).
  destruct (empty d) eqn:Hempty.
  { exists s. split_and!; [done|done| |done]. destruct changed; [|unfold in_place; by rewrite He, (Hsame eq_refl)].
    assert (true = false) as [=]. apply Hch. rewrite (empty_wanted eq_refl). intros k v Hk. by rewrite lookup_empty in Hk. }
  destruct (exec_admin c s _ _ _ _ _ read_meaning) as (body & s1 & R1 & (-> & K1)); [by apply authorised_request|].
  rewrite exec_try. unfold get_raw, do_out. rewrite exec_try, R1. cbn [exec run ok].
  unfold ok, parsed. cbn [exec run]. fold (document (js_view s) path).
  rewrite exec_try, He. cbn [wrap_err exec run]. destruct changed; cbn [negb].
  2:{ exists s1. split_and!; [done|apply (only_config_mono []); [set_solver|by apply retained_only_config]
        | |by intros _; apply retained_only_config].
      eapply in_place_same; [by rewrite (retained_config _ _ K1)|]. unfold in_place. by rewrite He, (Hsame eq_refl). }
  destruct (marshals _ _ _ He) as [m ->]. unfold do_raw, marshal_map. cbn [marshal_raw id].
  destruct (exec_admin_do c s1 _ _ _ _ _ (write_meaning (fields m))) as (? & s2 & R2 & K2).
  { apply authorised_request; [done|]. by apply (retained_tokens _ _ K1). }
  exists s2. split_and!; [exact R2| | |by unfold in_place; rewrite He].
  - destruct K1, K2. cbn in *. split; [congruence..| |set_solver]. intros p Hp%not_elem_of_cons.
    assert (jv_config (js_view s2) = <[path:=fields m]> (jv_config (js_view s1))) as -> by done.
    rewrite lookup_insert_ne by naive_solver. congruence.
  - unfold in_place. assert (document (js_view s2) path = marshal_map m) as ->; [|exact Hagain].
    unfold document. rewrite (retained_config _ _ K2). cbn. by rewrite lookup_insert_eq.
Qed.
End settings.
End session.
