(* ===== verification/Wiring.v ===== *)
(** * What the controllers may do and what they watch
    (the [SetupWithManager] functions and the RBAC markers of internal/controller)

    Each controller declares the permissions it needs, in markers the role is
    generated from, and the kinds whose events start a reconcile. Both are data;
    the theorems compare them with the calls the controllers make. *)
From S2P Require Import Prelude GoStrings Json K8s ApiTypes Http Kube Programs Options Libraries Client Bindings PluginController JellyfinController ApiController.

(** ** Kinds and verbs *)
Inductive Kind : Type :=
  | KJellyfin | KJellyfinPlugin | KDeployment | KService | KPersistentVolumeClaim | KPersistentVolume
  | KIngress | KHTTPRoute | KSecret.
#[export] Instance Kind_eq_dec : EqDecision Kind.
Proof. solve_decision. Defined.

(** API group and resource of a kind, as the markers name them. *)
Definition group_resource (k : Kind) : string * string :=
  match k with
  | KJellyfin => ("jellyfin.jellyops.io", "jellyfins")
  | KJellyfinPlugin => ("jellyfin.jellyops.io", "jellyfinplugins")
  | KDeployment => ("apps", "deployments")
  | KService => ("core", "services")
  | KPersistentVolumeClaim => ("core", "persistentvolumeclaims")
  | KPersistentVolume => ("core", "persistentvolumes")
  | KIngress => ("networking.k8s.io", "ingresses")
  | KHTTPRoute => ("gateway.networking.k8s.io", "httproutes")
  | KSecret => ("core", "secrets")
  end.

(** [+kubebuilder:rbac:groups=...,resources=...;...,verbs=...;...] *)
Record Rule := mkRule { ru_Group : string; ru_Resources : list string; ru_Verbs : list string }.

Definition reading : list string := ["get"; "list"; "watch"].
Definition everything : list string := ["get"; "list"; "watch"; "create"; "update"; "patch"; "delete"].

Definition jellyfin_rules : list Rule :=
  [mkRule "jellyfin.jellyops.io" ["jellyfins"] everything;
   mkRule "jellyfin.jellyops.io" ["jellyfins/status"] ["get"; "update"; "patch"];
   mkRule "jellyfin.jellyops.io" ["jellyfins/finalizers"] ["update"];
   mkRule "jellyfin.jellyops.io" ["jellyfinplugins"] reading;
   mkRule "apps" ["deployments"] everything;
   mkRule "core" ["services"; "persistentvolumeclaims"] everything;
   mkRule "core" ["persistentvolumes"] everything;
   mkRule "networking.k8s.io" ["ingresses"] everything;
   mkRule "core" ["events"] ["create"; "patch"];
   mkRule "gateway.networking.k8s.io" ["httproutes"] everything].

Definition plugin_rules : list Rule :=
  [mkRule "jellyfin.jellyops.io" ["jellyfinplugins"] everything;
   mkRule "jellyfin.jellyops.io" ["jellyfinplugins/status"] ["get"; "update"; "patch"];
   mkRule "jellyfin.jellyops.io" ["jellyfinplugins/finalizers"] ["update"];
   mkRule "jellyfin.jellyops.io" ["jellyfins"] reading;
   mkRule "apps" ["deployments"] everything;
   mkRule "core" ["services"] everything;
   mkRule "core" ["events"] ["create"; "patch"]].

Definition api_rules : list Rule :=
  [mkRule "jellyfin.jellyops.io" ["jellyfins"] reading;
   mkRule "jellyfin.jellyops.io" ["jellyfins/status"] ["get"; "update"; "patch"];
   mkRule "core" ["secrets"] ["get"; "list"; "watch"; "create"; "update"; "patch"]].

(** The role is generated from all the markers. *)
Definition manager_role : list Rule := jellyfin_rules ++ plugin_rules ++ api_rules.

Definition grants (rules : list Rule) (group resource verb : string) : bool :=
  existsb (λ r, String.eqb (ru_Group r) group && existsb (String.eqb resource) (ru_Resources r)
                && existsb (String.eqb verb) (ru_Verbs r)) rules.

(** The role the deployment installs, config/rbac/role.yaml; the API calls the core
    group by the empty name. *)
Definition deployed_role : list Rule :=
  [mkRule "" ["events"] ["create"; "patch"];
   mkRule "" ["persistentvolumeclaims"; "persistentvolumes"; "services"]
     ["create"; "delete"; "get"; "list"; "patch"; "update"; "watch"];
   mkRule "" ["secrets"] ["create"; "get"; "list"; "patch"; "update"; "watch"];
   mkRule "apps" ["deployments"] ["create"; "delete"; "get"; "list"; "patch"; "update"; "watch"];
   mkRule "gateway.networking.k8s.io" ["httproutes"] ["create"; "delete"; "get"; "list"; "patch"; "update"; "watch"];
   mkRule "jellyfin.jellyops.io" ["jellyfinplugins"; "jellyfins"]
     ["create"; "delete"; "get"; "list"; "patch"; "update"; "watch"];
   mkRule "jellyfin.jellyops.io" ["jellyfinplugins/finalizers"; "jellyfins/finalizers"] ["update"];
   mkRule "jellyfin.jellyops.io" ["jellyfinplugins/status"; "jellyfins/status"] ["get"; "patch"; "update"];
   mkRule "networking.k8s.io" ["ingresses"] ["create"; "delete"; "get"; "list"; "patch"; "update"; "watch"]].

Definition group_name (marker : string) : string := if decide (marker = "core") then "" else marker.
Definition with_group_name (r : Rule) : Rule := mkRule (group_name (ru_Group r)) (ru_Resources r) (ru_Verbs r).

(** ** What a call needs *)
Inductive access : Type :=
  (** A read is served by the manager's cache, which lists and watches the kind. *)
  | Read (k : Kind)
  | Verb (k : Kind) (verb : string)
  | StatusVerb (k : Kind) (verb : string).

Definition upsert (k : Kind) : list access := [Read k; Verb k "create"; Verb k "update"].

Definition requires {R} (c : call R) : list access :=
  match c with
  | GetJellyfin _ _ | ListJellyfins _ => [Read KJellyfin]
  | GetPlugin _ _ | ListPlugins _ => [Read KJellyfinPlugin]
  | GetDeployment _ _ | ListDeployments _ _ => [Read KDeployment]
  | GetPersistentVolume _ => [Read KPersistentVolume]
  | GetSecret _ _ => [Read KSecret]
  | UpdatePlugin _ => [Verb KJellyfinPlugin "update"]
  | UpdateDeployment _ => [Verb KDeployment "update"]
  | StatusUpdatePlugin _ => [StatusVerb KJellyfinPlugin "update"]
  | StatusUpdateJellyfin _ => [StatusVerb KJellyfin "update"]
  | DeleteDeployment _ _ => [Verb KDeployment "delete"]
  | DeleteService _ _ => [Verb KService "delete"]
  | DeleteIngress _ _ => [Verb KIngress "delete"]
  | DeleteHTTPRoute _ _ => [Verb KHTTPRoute "delete"]
  | DeletePersistentVolume _ => [Verb KPersistentVolume "delete"]
  | PatchPVC _ _ => [Verb KPersistentVolumeClaim "patch"]
  | UpsertDeployment _ _ _ => upsert KDeployment
  | UpsertService _ _ _ => upsert KService
  | UpsertIngress _ _ _ => upsert KIngress
  | UpsertHTTPRoute _ _ _ => upsert KHTTPRoute
  | UpsertPVC _ _ _ => upsert KPersistentVolumeClaim
  | UpsertPersistentVolume _ _ => upsert KPersistentVolume
  | UpsertSecret _ _ _ => upsert KSecret
  | Http _ | RandRead _ => []
  end.

Definition allowed (rules : list Rule) (a : access) : bool :=
  match a with
  | Read k => forallb (grants rules (group_resource k).1 (group_resource k).2) reading
  | Verb k v => grants rules (group_resource k).1 (group_resource k).2 v
  | StatusVerb k v => grants rules (group_resource k).1 ((group_resource k).2 +:+ "/status") v
  end.

Definition permitted (rules : list Rule) : call_pred := λ R c, forallb (allowed rules) (requires c) = true.

(** The kind of object a call creates or updates. *)
Definition upserted {R} (c : call R) : option Kind :=
  match c with
  | UpsertDeployment _ _ _ => Some KDeployment
  | UpsertService _ _ _ => Some KService
  | UpsertIngress _ _ _ => Some KIngress
  | UpsertHTTPRoute _ _ _ => Some KHTTPRoute
  | UpsertPVC _ _ _ => Some KPersistentVolumeClaim
  | UpsertPersistentVolume _ _ => Some KPersistentVolume
  | UpsertSecret _ _ _ => Some KSecret
  | _ => None
  end.

(** ** SetupWithManager

    [For]: the kind reconciled; [Owns]: the kinds whose events are mapped to their
    controller; [Watches]: the kinds mapped by a function. *)
Record Wiring := mkWiring { wi_For : Kind; wi_Owns : list Kind; wi_Watches : list Kind; wi_Named : string }.

Definition jellyfin_wiring : Wiring :=
  mkWiring KJellyfin [KDeployment; KService; KPersistentVolumeClaim; KIngress] [KJellyfinPlugin] "jellyfin".
Definition plugin_wiring : Wiring :=
  mkWiring KJellyfinPlugin [KDeployment; KService] [KJellyfin] "jellyfinplugin".
Definition api_wiring : Wiring := mkWiring KJellyfin [KSecret] [] "jellyfinapi".

Definition watched (w : Wiring) : list Kind := wi_For w :: wi_Owns w ++ wi_Watches w.

(** A controller's calls: permitted by its own markers, and every object it keeps
    is of a kind it watches, up to the kinds in [unwatched]. *)
Definition conforms (rules : list Rule) (w : Wiring) (unwatched : list Kind) : call_pred := λ R c,
  forallb (allowed rules) (requires c) &&
  match upserted c with Some k => bool_decide (k ∈ wi_Owns w ++ unwatched) | None => true end = true.

(** Each [CreateOrUpdate] passes one of the mutation functions of the controllers, and
    a patch of a claim asks for a size. *)
Definition known_mutation `{KubeLib} : call_pred := λ R c,
  match c with
  | UpsertDeployment _ _ f => (∃ jf d, f = deployment_mutation jf d) ∨ (∃ p d, f = workload_mutation p d)
  | UpsertService _ _ f =>
      (∃ jf, f = server_service_mutation jf) ∨ (∃ jf d, f = web_service_mutation jf d) ∨
      (∃ kind owner d, f = service_mutation kind owner d)
  | UpsertIngress _ _ f => ∃ jf spec, f = ingress_mutation jf spec
  | UpsertHTTPRoute _ _ f => ∃ jf d, f = route_mutation jf d
  | UpsertPVC _ _ f =>
      (∃ jf spec size modes, f = pvc_mutation jf spec size modes) ∨ (∃ jf nfs pv, f = nfs_pvc_mutation jf nfs pv)
  | UpsertPersistentVolume _ f => ∃ jf nfs claim, f = pv_mutation jf nfs claim
  | UpsertSecret _ _ f => ∃ jf user pass key, f = secret_mutation jf user pass key
  | PatchPVC old new => ∃ size, new = grown old size
  | _ => True
  end.

Definition issues `{KubeLib} (rules : list Rule) (w : Wiring) (unwatched : list Kind) : call_pred := λ R c,
  conforms rules w unwatched R c ∧ known_mutation R c.

Section controllers.
Context `{KubeLib, RetryLib, NetUrl, MapOrder}.
Context (quote : string → string).

Ltac conforming := walk ltac:(split; [reflexivity|cbn; naive_solver]).

Lemma plugin_only ns name :
  only (issues plugin_rules plugin_wiring []) (PluginController.Reconcile quote ns name).
Proof.
  unfold PluginController.Reconcile, finalize, reconcilePlugin, ensureFinalizer, boundInstance, updateStatus.
  unfold reconcileWorkloads, pruneWorkloads, reconcileServices, reconcileWorkload, drainWorkload, countWorkload.
  conforming.
Qed.

Lemma jellyfin_only σ ns name :
  only (issues jellyfin_rules jellyfin_wiring [KPersistentVolume; KHTTPRoute]) (ReconcileJellyfin quote σ ns name).
Proof.
  unfold ReconcileJellyfin, reconcileInstance, BoundPlugins, reconcileStorage, reconcileDeployment, reconcileService.
  unfold reconcileIngress, reconcileWeb, reconcileGateway, updateInstanceStatus, writeJellyfinStatus.
  unfold ensure_optional, reconcileMedia, ensureProvisionedNFS, checkVolume, ensurePVC, growPVC.
  conforming.
Qed.

Ltac http := unfold do_raw, do, get_raw, do_out, exchange; conforming.

Lemma area_only (P : call_pred) lt rq jf m ty er what msg k :
  (∀ ns n, P _ (GetJellyfin ns n)) → (∀ jf, P _ (StatusUpdateJellyfin jf)) →
  only P m → (∀ jf, only P (k jf)) → only P (area lt rq jf m ty er what msg k).
Proof.
  intros Hg Hs Hm Hk. unfold area, ApiController.finish, writeJellyfinStatus. apply only_bind; [done|].
  intros [jf'|e]; [apply Hk|]. walk ltac:(first [apply Hg|apply Hs]).
Qed.

Lemma libraries_only jf spec cli :
  only (issues api_rules api_wiring []) (reconcileLibraries quote jf spec cli).
Proof.
  unfold reconcileLibraries, enforceLibraryOptions, enforceOne, parsed.
  unfold ListVirtualFolders, AddVirtualFolder, AddMediaPath, RemoveMediaPath, RemoveVirtualFolder, RefreshLibraries,
    UpdateLibraryOptions.
  http.
Qed.

Lemma config_only {D} empty get enforce update (d : D) cli :
  only (issues api_rules api_wiring []) (get cli) →
  (∀ r, only (issues api_rules api_wiring []) (update cli r)) →
  only (issues api_rules api_wiring []) (reconcileConfig empty get enforce update d cli).
Proof. intros Hg Hu. unfold reconcileConfig, parsed. conforming; [done|apply Hu]. Qed.

Lemma credentials_only jf spec cli :
  only (issues api_rules api_wiring []) (ensureCredentials quote jf spec cli).
Proof.
  unfold ensureCredentials, givenCredentials, earlierCredentials, randomSecret, persistGeneratedSecret, getSecret.
  unfold AuthenticateByName, Bootstrap, wizard_step, CreateAPIKey, ListVirtualFolders.
  unfold GetStartupConfiguration, SetStartupConfiguration, GetStartupUser, CreateStartupUser,
    SetStartupRemoteAccess, CompleteStartup, AuthenticateByName.
  http.
Qed.

Lemma finish_only rq jf : only (issues api_rules api_wiring []) (ApiController.finish rq jf).
Proof. unfold ApiController.finish, writeJellyfinStatus. conforming. Qed.

Lemma areas_only lt rq jf spec cli :
  only (issues api_rules api_wiring []) (reconcileAreas quote lt rq jf spec cli).
Proof.
  assert (∀ jf, only (issues api_rules api_wiring []) (authenticated rq jf)) as Hauth
    by (intros ?; apply finish_only).
  assert (∀ jf, only (issues api_rules api_wiring []) (brandingArea quote lt rq cli jf)) as Hbr.
  { intros jf'. unfold brandingArea. case_decide; [apply Hauth|]. apply area_only; [done|done| |apply Hauth].
    unfold unchanged. apply only_try; [|done]. apply config_only; unfold GetBrandingConfig, UpdateBrandingConfig; http. }
  assert (∀ jf, only (issues api_rules api_wiring []) (serverConfigArea quote lt rq cli jf)) as Hsc.
  { intros jf'. unfold serverConfigArea. case_decide; [apply Hbr|]. apply area_only; [done|done| |apply Hbr].
    unfold unchanged. apply only_try; [|done]. apply config_only; unfold GetServerConfig, UpdateServerConfig; http. }
  assert (∀ jf, only (issues api_rules api_wiring []) (encodingArea quote lt rq cli jf)) as Hen.
  { intros jf'. unfold encodingArea. case_decide; [apply Hsc|]. apply area_only; [done|done| |apply Hsc].
    unfold unchanged. apply only_try; [|done]. apply config_only; unfold GetEncodingConfig, UpdateEncodingConfig; http. }
  unfold reconcileAreas. destruct (api_ManageLibraries spec); [|apply Hen].
  apply area_only; [done|done|apply libraries_only|apply Hen].
Qed.

Lemma api_only lt rq ns name :
  only (issues api_rules api_wiring []) (ReconcileAPI quote lt rq ns name).
Proof.
  unfold ReconcileAPI, reconcileAPI. apply only_bind; [by apply only_ask|]. intros [jf|e]; [|by destruct e].
  destruct (js_API (jf_Spec jf)) as [spec|], (om_DeletionTimestamp (jf_Meta jf)); try done.
  case_match; [apply finish_only|]. case_match; [|done].
  apply only_bind; [apply credentials_only|]. intros [[tok jf']|e]; [apply areas_only|apply finish_only].
Qed.
End controllers.


(** the manager can watch what the controllers ask it to: the role generated
    from the markers grants get, list and watch on every kind of every controller, and
    the reads of the two watch mappers. *)
Theorem watches_permitted `{KubeLib} p jf :
  (∀ w k, w ∈ [jellyfin_wiring; plugin_wiring; api_wiring] → k ∈ watched w →
     allowed manager_role (Read k) = true) ∧
  always (within (permitted jellyfin_rules)) anything [] (mapPluginToInstances p) ∧
  always (within (permitted plugin_rules)) anything [] (mapInstanceToPlugins jf).
Proof.
  split_and!.
  - assert (Forall (λ w, Forall (λ k, allowed manager_role (Read k) = true) (watched w))
      [jellyfin_wiring; plugin_wiring; api_wiring]) as Hall by (repeat constructor).
    intros w k Hw Hk. rewrite Forall_forall in Hall. specialize (Hall w Hw). rewrite Forall_forall in Hall. auto.
  - apply only_always. unfold mapPluginToInstances, InstancesForPlugin. walk ltac:(reflexivity).
  - apply only_always. unfold mapInstanceToPlugins, BoundPlugins. walk ltac:(reflexivity).
Qed.

(** Group, resource and verb of everything some rules grant. *)
Definition granted (rules : list Rule) : list (string * string * string) :=
  rules ≫= λ r, ru_Resources r ≫= λ res, (λ v, (ru_Group r, res, v)) <$> ru_Verbs r.

Lemma grants_granted rules g res v : grants rules g res v = true ↔ (g, res, v) ∈ granted rules.
Proof.
  unfold grants, granted. rewrite existsb_exists, list_elem_of_bind. setoid_rewrite list_elem_of_In. split.
  - intros (r&Hr&[[Hg%String.eqb_eq (x&Hx&Ex%String.eqb_eq)%existsb_exists]%andb_prop
                  (y&Hy&Ey%String.eqb_eq)%existsb_exists]%andb_prop).
    exists r. split; [|done]. subst. apply list_elem_of_In, list_elem_of_bind. exists x.
    split; [by apply list_elem_of_fmap; exists y; rewrite list_elem_of_In|by apply list_elem_of_In].
  - intros (r&(x&(y&[= -> -> ->]&Hy%list_elem_of_In)%list_elem_of_fmap&Hx%list_elem_of_In)%list_elem_of_In%list_elem_of_bind&Hr).
    exists r. split; [done|]. apply andb_true_intro. split; [apply andb_true_intro; split|].
    + apply String.eqb_refl.
    + apply existsb_exists. exists x. split; [done|apply String.eqb_refl].
    + apply existsb_exists. exists y. split; [done|apply String.eqb_refl].
Qed.

(** the role that is deployed is the one the markers ask for: it grants a verb on a
    resource exactly when a marker of some controller does. *)
Theorem deployed_role_exact g res v :
  grants deployed_role g res v = grants (with_group_name <$> manager_role) g res v.
Proof.
  apply eq_true_iff_eq. rewrite !grants_granted.
  assert (Forall (.∈ granted (with_group_name <$> manager_role)) (granted deployed_role) ∧
          Forall (.∈ granted deployed_role) (granted (with_group_name <$> manager_role))) as [H1 H2]
    by (split; apply (bool_decide_unpack _); vm_compute; exact I).
  rewrite Forall_forall in H1, H2. split; auto.
Qed.

(** The route of an instance is controlled by it, but no event of a route starts a
    reconcile: a route that is edited or deleted stays so until something else does. *)
Lemma routes_are_not_watched :
  KHTTPRoute ∉ watched jellyfin_wiring ∧
  ∀ ns n f, upserted (UpsertHTTPRoute ns n f) = Some KHTTPRoute.
Proof. split; [by apply (bool_decide_unpack _)|done]. Qed.
