(* ===== verification/Objects.v ===== *)
(** * The objects of a cluster, and an API server that works

    The objects the controllers read and write, by kind, name and namespace; the documented
    answers of an API server while no call fails and nobody else writes; and what a
    controller's [CreateOrUpdate] and [Delete] do there. *)
From S2P Require Import Prelude GoStrings Json K8s ApiTypes Naming Meta HwAccel Builder Web Gateway Http Kube Programs Options Libraries Client Bindings PluginController JellyfinController ApiController Wiring.

(** ** Objects by kind *)
Definition object (k : Kind) : Type :=
  match k with
  | KJellyfin => Jellyfin | KJellyfinPlugin => JellyfinPlugin
  | KDeployment => Deployment | KService => Service
  | KPersistentVolumeClaim => PersistentVolumeClaim | KPersistentVolume => PersistentVolume
  | KIngress => Ingress | KHTTPRoute => HTTPRoute | KSecret => Secret
  end.
Definition meta_of (k : Kind) : object k → ObjectMeta :=
  match k with
  | KJellyfin => jf_Meta | KJellyfinPlugin => p_Meta
  | KDeployment => dep_Meta | KService => svc_Meta
  | KPersistentVolumeClaim => pvcl_Meta | KPersistentVolume => pv_Meta
  | KIngress => ing_Meta | KHTTPRoute => hr_Meta | KSecret => sec_Meta
  end.

(** The port and the protocol a Service forwards to have defaults. *)
Definition port_completes (got new : ServicePort) : Prop :=
  sp_Name got = sp_Name new ∧ sp_Port got = sp_Port new ∧
  (sp_TargetPort new ≠ 0%Z → sp_TargetPort got = sp_TargetPort new) ∧
  (sp_Protocol new ≠ "" → sp_Protocol got = sp_Protocol new).
#[export] Instance port_completes_refl : Reflexive port_completes.
Proof. by intros port. Qed.

Lemma complete_ports got new :
  Forall2 port_completes got new → Forall (λ p, sp_TargetPort p ≠ 0%Z ∧ sp_Protocol p ≠ "") new → got = new.
Proof.
  induction 1 as [|[] [] got new (Hn&Hp&Ht&Hr) _ IH]; [done|]. intros [[H1 H2] Hnew]%Forall_cons. cbn in *.
  f_equal; [|by apply IH]. rewrite Hn, Hp, Ht, Hr by done. done.
Qed.

(** What a write set, in the object the server keeps: fields that were left out may have been
    filled in, those of a pod template as [completes] says. *)
Definition same_spec (completes : PodTemplateSpec → PodTemplateSpec → Prop) (k : Kind) : object k → object k → Prop :=
  match k with
  | KDeployment => λ got new, (∀ n, dep_Replicas new = Some n → dep_Replicas got = Some n) ∧ dep_Selector got = dep_Selector new ∧
      (dep_Strategy new ≠ "" → dep_Strategy got = dep_Strategy new) ∧ completes (dep_Template got) (dep_Template new)
  | KService => λ got new, (svc_Type new ≠ "" → svc_Type got = svc_Type new) ∧ svc_Selector got = svc_Selector new ∧
      Forall2 port_completes (svc_Ports got) (svc_Ports new)
  | KIngress => λ got new, (∀ class, ing_ClassName new = Some class → ing_ClassName got = Some class) ∧
      ing_Rules got = ing_Rules new ∧ ing_TLS got = ing_TLS new
  | KHTTPRoute => λ got new, hr_ParentRefs got = hr_ParentRefs new ∧ hr_Hostnames got = hr_Hostnames new ∧
      hr_Rules got = hr_Rules new
  | KPersistentVolume => λ got new, pv_NFS got = pv_NFS new ∧ pv_StorageClassName got = pv_StorageClassName new
  | KSecret => λ got new, sec_Data got = sec_Data new
  | _ => λ _ _, True
  end.
(** The specs are equal. *)
Definition equal_spec (k : Kind) : object k → object k → Prop :=
  match k with
  | KDeployment => λ a b, dep_Replicas a = dep_Replicas b ∧ dep_Selector a = dep_Selector b ∧
      dep_Strategy a = dep_Strategy b ∧ dep_Template a = dep_Template b
  | KService => λ a b, svc_Type a = svc_Type b ∧ svc_Selector a = svc_Selector b ∧ svc_Ports a = svc_Ports b
  | KHTTPRoute => λ a b, hr_ParentRefs a = hr_ParentRefs b ∧ hr_Hostnames a = hr_Hostnames b ∧ hr_Rules a = hr_Rules b
  | _ => λ a b, a = b
  end.

(** [CreateOrUpdate] and [Delete] of an object of each kind. *)
Inductive upserts : ∀ k : Kind, string → string → (object k → result Error (object k)) →
    call (result Error (object k)) → Prop :=
| upserts_deployment ns n f : upserts KDeployment ns n f (UpsertDeployment ns n f)
| upserts_service ns n f : upserts KService ns n f (UpsertService ns n f)
| upserts_ingress ns n f : upserts KIngress ns n f (UpsertIngress ns n f)
| upserts_route ns n f : upserts KHTTPRoute ns n f (UpsertHTTPRoute ns n f)
| upserts_claim ns n f : upserts KPersistentVolumeClaim ns n f (UpsertPVC ns n f)
| upserts_volume n f : upserts KPersistentVolume "" n f (UpsertPersistentVolume n f)
| upserts_secret ns n f : upserts KSecret ns n f (UpsertSecret ns n f).

Inductive deletes : Kind → string → string → call (result ApiError unit) → Prop :=
| deletes_deployment ns n : deletes KDeployment ns n (DeleteDeployment ns n)
| deletes_service ns n : deletes KService ns n (DeleteService ns n)
| deletes_ingress ns n : deletes KIngress ns n (DeleteIngress ns n)
| deletes_route ns n : deletes KHTTPRoute ns n (DeleteHTTPRoute ns n).

#[export] Hint Constructors upserts deletes : jellyops.

(** ** An API server that works

    Its documented answers while no call fails and nobody else writes. A new object has only its name
    and namespace before the mutation fills it in; an update keeps what it was given. Validation
    may turn a write down, also because of what is there already: some fields never change. *)
Section views.
Context {C : Type} (view : ∀ k : Kind, C → string → string → option (object k)).

Definition same_but (k0 : Kind) (ns0 n0 : string) (c c' : C) : Prop :=
  ∀ k ns n, (k, ns, n) ≠ (k0, ns0, n0) → view k c' ns n = view k c ns n.

(** What a mutation is given. *)
Definition base (k : Kind) (ns n : string) (c : C) (cur : object k) : Prop :=
  match view k c ns n with
  | Some o => cur = o
  | None => om_Namespace (meta_of k cur) = ns ∧ om_OwnerReferences (meta_of k cur) = [] ∧
      om_CreationTimestamp (meta_of k cur) = None
  end.

(** Whatever the mutation makes of the object passes validation. *)
Definition passes (admits : ∀ k : Kind, option (object k) → object k → Prop) (k : Kind) (ns n : string)
    (f : object k → result Error (object k)) (c : C) : Prop :=
  ∀ cur new, base k ns n c cur → f cur = Ok new → admits k (view k c ns n) new.
End views.

Class ApiObjects (C : Type) := {
  view : ∀ k : Kind, C → string → string → option (object k);
  ao_answer : ∀ R : Type, call R → C → R * C;
  completes : PodTemplateSpec → PodTemplateSpec → Prop;
  (** Validation of an object, given the one it replaces. *)
  admits : ∀ k : Kind, option (object k) → object k → Prop;

  view_key : ∀ k c ns n o, view k c ns n = Some o → om_Namespace (meta_of k o) = ns ∧ om_Name (meta_of k o) = n;
  view_created : ∀ k c ns n o, view k c ns n = Some o → is_Some (om_CreationTimestamp (meta_of k o));
  get_jellyfin_law : ∀ c ns n, ao_answer _ (GetJellyfin ns n) c
    = (match view KJellyfin c ns n with Some o => Ok o | None => Err NotFound end, c);
  get_plugin_law : ∀ c ns n, ao_answer _ (GetPlugin ns n) c
    = (match view KJellyfinPlugin c ns n with Some o => Ok o | None => Err NotFound end, c);
  get_deployment_law : ∀ c ns n, ao_answer _ (GetDeployment ns n) c
    = (match view KDeployment c ns n with Some o => Ok o | None => Err NotFound end, c);
  get_volume_law : ∀ c n, ao_answer _ (GetPersistentVolume n) c
    = (match view KPersistentVolume c "" n with Some o => Ok o | None => Err NotFound end, c);
  get_secret_law : ∀ c ns n, ao_answer _ (GetSecret ns n) c
    = (match view KSecret c ns n with Some o => Ok o | None => Err NotFound end, c);
  list_jellyfins_law : ∀ c ns, ∃ jfs, ao_answer _ (ListJellyfins ns) c = (Ok jfs, c) ∧
    ∀ jf, jf ∈ jfs ↔ view KJellyfin c ns (jf_Name jf) = Some jf;
  list_plugins_law : ∀ c ns, ∃ ps, ao_answer _ (ListPlugins ns) c = (Ok ps, c) ∧
    NoDup (p_Name <$> ps) ∧ ∀ p, p ∈ ps ↔ view KJellyfinPlugin c ns (p_Name p) = Some p;
  list_deployments_law : ∀ c ns labels, ∃ deps, ao_answer _ (ListDeployments ns labels) c = (Ok deps, c) ∧
    ∀ dep, dep ∈ deps ↔ view KDeployment c ns (om_Name (dep_Meta dep)) = Some dep ∧ labels ⊆ om_Labels (dep_Meta dep);
  upsert_law : ∀ k ns n f cl c, upserts k ns n f cl → passes view admits k ns n f c → ∃ cur, base view k ns n c cur ∧
    match f cur with
    | Err e => ao_answer _ cl c = (Err e, c)
    | Ok new => ∃ got c', ao_answer _ cl c = (Ok got, c') ∧ view k c' ns n = Some got ∧
        same_spec completes k got new ∧ om_OwnerReferences (meta_of k got) = om_OwnerReferences (meta_of k new) ∧
        om_Labels (meta_of k got) = om_Labels (meta_of k new) ∧ same_but view k ns n c c'
    end;
  (** Valid or not, what was accepted is there. *)
  upsert_there : ∀ k ns n f cl c, upserts k ns n f cl → ∀ got c', ao_answer _ cl c = (Ok got, c') → view k c' ns n = Some got;
  delete_law : ∀ k ns n cl c, deletes k ns n cl → ∃ r c', ao_answer _ cl c = (r, c') ∧
    (r = Ok tt ∨ r = Err NotFound) ∧ view k c' ns n = None ∧ same_but view k ns n c c';
  (** A patch may be refused; it keeps the claim and its owners. *)
  patch_law : ∀ old new c, ∃ r c', ao_answer _ (PatchPVC old new) c = (r, c') ∧
    (∀ e, r = Err e → e = Forbidden ∨ e = Invalid) ∧
    (∀ k ns n, k ≠ KPersistentVolumeClaim → view k c' ns n = view k c ns n) ∧
    (∀ ns n o', view KPersistentVolumeClaim c' ns n = Some o' → ∃ o, view KPersistentVolumeClaim c ns n = Some o ∧
       om_OwnerReferences (pvcl_Meta o') = om_OwnerReferences (pvcl_Meta o));
  status_law : ∀ jf0 jf c ns n, view KJellyfin c ns n = Some jf0 → om_Namespace (jf_Meta jf) = ns → om_Name (jf_Meta jf) = n →
    ∃ got c', ao_answer _ (StatusUpdateJellyfin jf) c = (Ok got, c') ∧ view KJellyfin c' ns n = Some got ∧
      jf_Status got = jf_Status jf ∧ jf_Spec got = jf_Spec jf0 ∧ jf_Meta got = jf_Meta jf0 ∧
      same_but view KJellyfin ns n c c';
  (** A status update of a plugin writes the status, any other update the rest. *)
  plugin_status_law : ∀ p0 p c ns n, view KJellyfinPlugin c ns n = Some p0 → om_Namespace (p_Meta p) = ns → om_Name (p_Meta p) = n →
    ∃ got c', ao_answer _ (StatusUpdatePlugin p) c = (Ok got, c') ∧ view KJellyfinPlugin c' ns n = Some got ∧
      p_Status got = p_Status p ∧ p_Spec got = p_Spec p0 ∧ om_Labels (p_Meta got) = om_Labels (p_Meta p0) ∧
      same_but view KJellyfinPlugin ns n c c';
  plugin_update_law : ∀ p0 p c ns n, view KJellyfinPlugin c ns n = Some p0 → om_Namespace (p_Meta p) = ns → om_Name (p_Meta p) = n →
    p_Spec p = p_Spec p0 →
    ∃ got c', ao_answer _ (UpdatePlugin p) c = (Ok got, c') ∧ view KJellyfinPlugin c' ns n = Some got ∧
      p_Spec got = p_Spec p ∧ p_Status got = p_Status p0 ∧ om_Labels (p_Meta got) = om_Labels (p_Meta p) ∧
      om_Finalizers (p_Meta got) = om_Finalizers (p_Meta p) ∧ same_but view KJellyfinPlugin ns n c c';
  (** No call of the controllers deletes a claim. *)
  claims_stay : ∀ R (cl : call R) c ns n, is_Some (view KPersistentVolumeClaim c ns n) →
    is_Some (view KPersistentVolumeClaim (ao_answer R cl c).2 ns n);
}.

(** ** What an owner may write *)
Section owner.
Context `{KubeLib} {C : Type} `{!ApiObjects C} (kind : string) (owner : ObjectMeta).
Implicit Types (c : C) (m : ObjectMeta).

Definition objects_server : server := mkServer C ao_answer.
Notation perform := (exec objects_server).
Notation mine := (om_Namespace owner).

(** Nothing else controls the object. *)
Definition unclaimed m : Prop :=
  om_Namespace m = mine ∧
  ∀ r, head (filter (λ r, or_Controller r = true) (om_OwnerReferences m)) = Some r →
    or_Kind r = kind ∧ or_Name r = om_Name owner.

(** Or the owner has taken it before. *)
Definition claimable m : Prop :=
  unclaimed m ∨
  om_Namespace m = mine ∧ ∃ m0 m1, SetControllerReference kind owner m0 = Some m1 ∧ om_Namespace m1 = mine ∧
    om_OwnerReferences m = om_OwnerReferences m1.

Lemma claimable_ext m m' :
  om_Namespace m' = om_Namespace m → om_OwnerReferences m' = om_OwnerReferences m → claimable m → claimable m'.
Proof. unfold claimable, unclaimed. by intros -> ->. Qed.

Lemma own_claimable m :
  claimable m → ∃ m', own kind owner m = Ok m' ∧ claimable m' ∧ om_Labels m' = om_Labels m.
Proof.
  unfold own. intros [[Hns Hfree]|(Hns&m0&m1&Hset&Hns1&Hrefs)].
  - destruct (controller_reference_free kind owner m Hns Hfree) as [m' Hm']. rewrite Hm'.
    exists m'. destruct (controller_reference _ _ _ _ Hm') as (refs&Heq&_).
    split_and!; [done| |by rewrite Heq]. right. split; [by rewrite Heq|].
    exists m, m'. split_and!; [done|by rewrite Heq|done].
  - rewrite (controller_reference_again _ _ _ _ m Hset) by congruence. exists m. split_and!; [done| |done].
    right. split; [done|eauto 10].
Qed.

(** A mutation that succeeds on such an object and leaves it one. *)
Definition accepts (k : Kind) (f : object k → result Error (object k)) : Prop :=
  ∀ cur, claimable (meta_of k cur) → ∃ new, f cur = Ok new ∧ claimable (meta_of k new).

(** No object under the name belongs to somebody else. *)
Definition free (k : Kind) c (n : string) : Prop := ∀ o, view k c mine n = Some o → claimable (meta_of k o).

Lemma free_same k c c' n : view k c' mine n = view k c mine n → free k c n → free k c' n.
Proof. unfold free. by intros ->. Qed.

Definition allowed (k : Kind) (n : string) (f : object k → result Error (object k)) c : Prop :=
  passes view admits k mine n f c.

Lemma allowed_same k n f c c' :
  view k c' mine n = view k c mine n → allowed k n f c → allowed k n f c'.
Proof. unfold allowed, passes, base. by intros ->. Qed.

(** ** Single calls *)
Lemma perform_ask {R} c (cl : call R) : perform c (ask cl) = ao_answer R cl c.
Proof. apply exec_ask. Qed.

Lemma try_perform {A B} c (m : M A) (k : A → M B) a c' r :
  perform c m = (Ok a, c') → perform c' (k a) = r → perform c (try m k) = r.
Proof. intros Hm <-. by rewrite exec_try, Hm. Qed.

Lemma bind_perform {A B} c (m : prog A) (k : A → prog B) a c' r :
  perform c m = (a, c') → perform c' (k a) = r → perform c (m ≫= k) = r.
Proof. intros Hm <-. by rewrite exec_bind, Hm. Qed.

Lemma in_context_perform {A} ctx (m : M A) c a c' :
  perform c m = (Ok a, c') → perform c (in_context ctx m) = (Ok a, c').
Proof. intros Hm. unfold in_context. by rewrite exec_bind, Hm. Qed.

Lemma upsert_perform k n f cl c :
  upserts k mine n f cl → accepts k f → free k c n → allowed k n f c →
  ∃ got c', perform c (ask cl) = (Ok got, c') ∧ view k c' mine n = Some got ∧
    (∃ cur new, base view k mine n c cur ∧ f cur = Ok new ∧ same_spec completes k got new ∧ om_Labels (meta_of k got) = om_Labels (meta_of k new)) ∧
    free k c' n ∧ same_but view k mine n c c'.
Proof.
  intros Hup Hacc Hfree Hall. destruct (upsert_law k mine n f cl c Hup Hall) as (cur&Hbase&Hans).
  assert (claimable (meta_of k cur)) as Hcur.
  { unfold base in Hbase. destruct (view k c mine n) as [o|] eqn:Ho; [subst; by apply Hfree|].
    destruct Hbase as (Hns&Hrefs&_). left. split; [done|]. by rewrite Hrefs. }
  destruct (Hacc cur Hcur) as (new&Hf&Hnew). rewrite Hf in Hans.
  destruct Hans as (got&c'&Hans&Hview&Hsame&Hr&Hl&Hbut). exists got, c'. rewrite perform_ask.
  split_and!; [done..|by exists cur, new| |done].
  intros o Ho. rewrite Hview in Ho. injection Ho as <-. eapply claimable_ext; [|exact Hr|exact Hnew].
  rewrite (proj1 (view_key _ _ _ _ _ Hview)). by destruct Hnew as [[-> _]|[-> _]].
Qed.

Lemma upsert_part k n f cl c :
  upserts k mine n f cl → accepts k f → free k c n → allowed k n f c →
  ∃ got c', perform c (_ ←! ask cl; ok tt) = (Ok tt, c') ∧ view k c' mine n = Some got ∧
    (∃ cur new, base view k mine n c cur ∧ f cur = Ok new ∧ same_spec completes k got new ∧ om_Labels (meta_of k got) = om_Labels (meta_of k new)) ∧
    same_but view k mine n c c'.
Proof.
  intros Hup Hacc Hfree Hall.
  destruct (upsert_perform k n f cl c Hup Hacc Hfree Hall) as (got&c'&Hrun&Hview&Hf&_&Hbut).
  exists got, c'. split_and!; [|done..]. by eapply try_perform; [exact Hrun|].
Qed.

Lemma delete_perform k ns n cl c :
  deletes k ns n cl →
  ∃ c', perform c (delete_if_present cl) = (Ok tt, c') ∧ view k c' ns n = None ∧ same_but view k ns n c c'.
Proof.
  intros Hdel. destruct (delete_law k ns n cl c Hdel) as (r&c'&Hans&Hr&Hview&Hbut).
  exists c'. unfold delete_if_present. rewrite exec_bind, perform_ask, Hans.
  split_and!; [by destruct Hr as [-> | ->]|done..].
Qed.

Lemma attempts_perform n c (m : M unit) c' :
  perform c m = (Ok tt, c') → perform c (attempts n m) = (Ok tt, c').
Proof. intros Hm. destruct n; cbn [attempts]; by rewrite exec_bind, Hm. Qed.

Lemma writeJellyfinStatus_perform `{RetryLib} c jf0 jf :
  view KJellyfin c (jf_Namespace jf) (jf_Name jf) = Some jf0 →
  ∃ got c', perform c (writeJellyfinStatus jf) = (Ok tt, c') ∧
    view KJellyfin c' (jf_Namespace jf) (jf_Name jf) = Some got ∧ jf_Status got = jf_Status jf ∧
    jf_Spec got = jf_Spec jf0 ∧ jf_Meta got = jf_Meta jf0 ∧ same_but view KJellyfin (jf_Namespace jf) (jf_Name jf) c c'.
Proof.
  intros Hview. destruct (view_key _ _ _ _ _ Hview) as [Hns Hn].
  destruct (status_law jf0 (with_status jf0 (jf_Status jf)) c _ _ Hview Hns Hn) as (got&c'&Hans&Hgot&Hst&Hspec&Hmeta&Hbut).
  exists got, c'. split_and!; [|done..]. unfold writeJellyfinStatus. destruct retry_on_conflict as [n ->].
  apply attempts_perform. eapply try_perform; [rewrite exec_api; cbn [sv_answer objects_server]; by rewrite get_jellyfin_law, Hview|].
  eapply try_perform; [rewrite exec_api; cbn [sv_answer objects_server]; by rewrite Hans|]. done.
Qed.

(** What is kept of an object that was asked for. *)
Definition matches (k : Kind) c (n : string) (wanted : object k) : Prop :=
  ∃ got, view k c mine n = Some got ∧ same_spec completes k got wanted.

Lemma same_spec_equal k (a b d : object k) :
  same_spec completes k a b → equal_spec k b d → same_spec completes k a d.
Proof.
  destruct k; cbn; try (by intros ? ->).
  - intros (Hr&Hs&Hst&Ht) (Er&Es&Est&Et). rewrite Er, Es, Est, Et in *. by split_and!.
  - intros (Ht&Hs&Hp) (Et&Es&Ep). rewrite Et, Es, Ep in *. by split_and!.
  - intros (Hr&Hs&Hp) (Er&Es&Ep). rewrite Er, Es, Ep in *. by split_and!.
Qed.
End owner.

(** ** A server that keeps what it is given *)
Module Example_objects.
(** [stamp]: the time at which it was made, once it is there. *)
Definition with_key (stamp : option Z → option Z) (k : Kind) (ns n : string) : object k → object k :=
  let key := λ m, mkMeta n ns (om_UID m) (om_Generation m) (stamp (om_CreationTimestamp m)) (om_DeletionTimestamp m)
                    (om_Labels m) (om_Annotations m) (om_Finalizers m) (om_OwnerReferences m) in
  match k with
  | KJellyfin => λ o, mkJellyfin (key (jf_Meta o)) (jf_Spec o) (jf_Status o)
  | KJellyfinPlugin => λ o, mkPlugin (key (p_Meta o)) (p_Spec o) (p_Status o)
  | KDeployment => λ o, mkDeployment (key (dep_Meta o)) (dep_Replicas o) (dep_Selector o) (dep_Strategy o)
                          (dep_Template o) (dep_Status o)
  | KService => λ o, mkService (key (svc_Meta o)) (svc_Type o) (svc_Selector o) (svc_Ports o)
  | KPersistentVolumeClaim => λ o, mkPVC (key (pvcl_Meta o)) (pvcl_AccessModes o) (pvcl_Requests o)
                                     (pvcl_StorageClassName o) (pvcl_VolumeName o) (pvcl_Phase o)
  | KPersistentVolume => λ o, mkPV (key (pv_Meta o)) (pv_Capacity o) (pv_AccessModes o) (pv_ReclaimPolicy o)
                                (pv_MountOptions o) (pv_StorageClassName o) (pv_NFS o) (pv_ClaimRef o) (pv_Phase o)
  | KIngress => λ o, mkIngress (key (ing_Meta o)) (ing_ClassName o) (ing_Rules o) (ing_TLS o)
  | KHTTPRoute => λ o, mkHTTPRoute (key (hr_Meta o)) (hr_ParentRefs o) (hr_Hostnames o) (hr_Rules o)
  | KSecret => λ o, mkSecret (key (sec_Meta o)) (sec_Data o)
  end.

Definition kept : ∀ k : Kind, string → string → object k → object k := with_key (λ t, Some (default 0%Z t)).

(** The newest entry of a name counts; an object that was deleted has an empty one. *)
Definition entry : Type := {k : Kind & (string * string * option (object k))%type}.
Definition store : Type := list entry.
Definition assign (k : Kind) (ns n : string) (o : option (object k)) (c : store) : store := existT k (ns, n, o) :: c.
Fixpoint find_in (k : Kind) (ns n : string) (c : store) : option (object k) :=
  match c with
  | [] => None
  | existT k' (ns', n', o) :: c =>
      match decide (k' = k) with
      | left e => if decide ((ns', n') = (ns, n)) then eq_rect k' (λ k, option (object k)) o k e else find_in k ns n c
      | right _ => find_in k ns n c
      end
  end.
Definition look (k : Kind) (c : store) (ns n : string) : option (object k) := kept k ns n <$> find_in k ns n c.

Definition names (k : Kind) (ns : string) (c : store) : list string :=
  omap (λ e : entry, if decide (projT1 e = k ∧ (projT2 e).1.1 = ns) then Some (projT2 e).1.2 else None) c.
Definition list_in (k : Kind) (ns : string) (c : store) : list (object k) :=
  omap (look k c ns) (remove_dups (names k ns c)).

Definition blank (k : Kind) : object k :=
  let m := meta_lit "" "" ∅ ∅ in
  match k with
  | KJellyfin => Example_instance.jf 0
  | KJellyfinPlugin => Example_bindings.plugin []
  | KDeployment => mkDeployment m None ∅ "" (mkPodTemplate ∅ ∅ single_container_pod) DeploymentStatus_zero
  | KService => mkService m "" ∅ []
  | KPersistentVolumeClaim => mkPVC m [] ∅ None "" ""
  | KPersistentVolume => mkPV m ∅ [] "" [] "" None None ""
  | KIngress => mkIngress m None [] []
  | KHTTPRoute => mkHTTPRoute m [] [] []
  | KSecret => mkSecret m ∅
  end.

(** The fields that never change. *)
Definition keeps_fields (k : Kind) : option (object k) → object k → Prop :=
  match k with
  | KDeployment => λ old new, ∀ o, old = Some o → dep_Selector new = dep_Selector o
  | KPersistentVolume => λ old new, ∀ o, old = Some o → pv_NFS new = pv_NFS o
  | KPersistentVolumeClaim => λ old new, ∀ o, old = Some o → pvcl_AccessModes new = pvcl_AccessModes o ∧
      pvcl_StorageClassName new = pvcl_StorageClassName o ∧ pvcl_VolumeName new = pvcl_VolumeName o
  | _ => λ _ _, True
  end.

Definition upsert (k : Kind) (ns n : string) (f : object k → result Error (object k)) (c : store)
  : result Error (object k) * store :=
  match f (default (with_key id k ns n (blank k)) (look k c ns n)) with
  | Ok new => (Ok (kept k ns n new), assign k ns n (Some new) c)
  | Err e => (Err e, c)
  end.
Definition get {A} (o : option A) : result ApiError A := match o with Some a => Ok a | None => Err NotFound end.
Definition update_plugin (p : JellyfinPlugin) (f : JellyfinPlugin → JellyfinPlugin) (c : store)
  : result ApiError JellyfinPlugin * store :=
  match look KJellyfinPlugin c (p_Namespace p) (p_Name p) with
  | Some cur => (Ok (kept KJellyfinPlugin (p_Namespace p) (p_Name p) (f cur)),
                 assign KJellyfinPlugin (p_Namespace p) (p_Name p) (Some (f cur)) c)
  | None => (Err NotFound, c)
  end.

(** Patches are refused. *)
Definition respond (R : Type) (cl : call R) : store → R * store :=
  match cl in call R return store → R * store with
  | GetJellyfin ns n => λ c, (get (look KJellyfin c ns n), c)
  | GetPlugin ns n => λ c, (get (look KJellyfinPlugin c ns n), c)
  | GetDeployment ns n => λ c, (get (look KDeployment c ns n), c)
  | GetPersistentVolume n => λ c, (get (look KPersistentVolume c "" n), c)
  | GetSecret ns n => λ c, (get (look KSecret c ns n), c)
  | ListPlugins ns => λ c, (Ok (list_in KJellyfinPlugin ns c), c)
  | ListJellyfins ns => λ c, (Ok (list_in KJellyfin ns c), c)
  | ListDeployments ns labels => λ c,
      (Ok (filter (λ dep : Deployment, labels ⊆ om_Labels (dep_Meta dep)) (list_in KDeployment ns c)), c)
  | UpdateDeployment _ => λ c, (Err Conflict, c)
  | UpdatePlugin p => update_plugin p (λ cur, mkPlugin (p_Meta p) (p_Spec p) (p_Status cur))
  | StatusUpdatePlugin p => update_plugin p (λ cur, mkPlugin (p_Meta cur) (p_Spec cur) (p_Status p))
  | PatchPVC _ _ => λ c, (Err Forbidden, c)
  | StatusUpdateJellyfin jf => λ c,
      let ns := om_Namespace (jf_Meta jf) in let n := om_Name (jf_Meta jf) in
      match look KJellyfin c ns n with
      | Some cur => let got := with_status cur (jf_Status jf) in (Ok got, assign KJellyfin ns n (Some got) c)
      | None => (Err NotFound, c)
      end
  | DeleteDeployment ns n => λ c, (Ok tt, assign KDeployment ns n None c)
  | DeleteService ns n => λ c, (Ok tt, assign KService ns n None c)
  | DeleteIngress ns n => λ c, (Ok tt, assign KIngress ns n None c)
  | DeleteHTTPRoute ns n => λ c, (Ok tt, assign KHTTPRoute ns n None c)
  | DeletePersistentVolume n => λ c, (Ok tt, assign KPersistentVolume "" n None c)
  | UpsertDeployment ns n f => upsert KDeployment ns n f
  | UpsertService ns n f => upsert KService ns n f
  | UpsertIngress ns n f => upsert KIngress ns n f
  | UpsertHTTPRoute ns n f => upsert KHTTPRoute ns n f
  | UpsertPVC ns n f => upsert KPersistentVolumeClaim ns n f
  | UpsertPersistentVolume n f => upsert KPersistentVolume "" n f
  | UpsertSecret ns n f => upsert KSecret ns n f
  | Http _ => λ c, (Err "no server", c)
  | RandRead _ => λ c, (None, c)
  end.

Lemma look_assign k ns n o c : look k (assign k ns n o c) ns n = kept k ns n <$> o.
Proof.
  unfold look, assign. cbn [find_in]. destruct (decide (k = k)) as [e|]; [|done]. rewrite decide_True by done.
  by rewrite (proof_irrel e eq_refl).
Qed.
Lemma look_assign_other k ns n o c : same_but look k ns n c (assign k ns n o c).
Proof.
  intros k' ns' n' Hne. unfold look, assign. cbn [find_in].
  destruct (decide (k = k')) as [<-|]; [|done]. rewrite decide_False; [done|congruence].
Qed.
Lemma look_key k c ns n o : look k c ns n = Some o → om_Namespace (meta_of k o) = ns ∧ om_Name (meta_of k o) = n.
Proof. intros (o'&_&->)%fmap_Some. by destruct k. Qed.

Lemma look_created k c ns n o : look k c ns n = Some o → is_Some (om_CreationTimestamp (meta_of k o)).
Proof. intros (o'&_&->)%fmap_Some. destruct k; by eexists. Qed.

Lemma names_find k ns n c : is_Some (find_in k ns n c) → n ∈ names k ns c.
Proof.
  induction c as [|[k' [[ns' n'] o]] c IH]; [by intros []|]. cbn [find_in]. intros Hf. unfold names. cbn.
  destruct (decide (k' = k)) as [<-|Hk].
  - destruct (decide ((ns', n') = (ns, n))) as [[= -> ->]|Hne].
    + rewrite decide_True by done. by left.
    + case_decide; [right|]; by apply IH.
  - rewrite decide_False by tauto. by apply IH.
Qed.
Lemma elem_of_list_in k ns c o : o ∈ list_in k ns c ↔ look k c ns (om_Name (meta_of k o)) = Some o.
Proof.
  unfold list_in. rewrite list_elem_of_omap. setoid_rewrite elem_of_remove_dups. split.
  - intros (n&_&Ho). by destruct (look_key _ _ _ _ _ Ho) as [_ ->].
  - intros Ho. exists (om_Name (meta_of k o)). split; [|done]. apply names_find.
    unfold look in Ho. apply fmap_Some in Ho as (?&->&_). by eexists.
Qed.

Lemma list_in_nodup k ns c : NoDup (om_Name ∘ meta_of k <$> list_in k ns c).
Proof.
  unfold list_in. generalize (remove_dups (names k ns c)), (NoDup_remove_dups (names k ns c)). intros l.
  induction 1 as [|n l Hn Hl IH]; [constructor|]. cbn. destruct (look k c ns n) as [o|] eqn:Ho; [|done].
  cbn. constructor; [|done]. intros (o'&Heq&(n'&Hn'&Ho')%list_elem_of_omap)%list_elem_of_fmap.
  destruct (look_key _ _ _ _ _ Ho) as [_ H1], (look_key _ _ _ _ _ Ho') as [_ H2]. cbn in *. congruence.
Qed.

Lemma upsert_spec k ns n f c : ∃ cur, base look k ns n c cur ∧
    match f cur with
    | Err e => upsert k ns n f c = (Err e, c)
    | Ok new => ∃ got c', upsert k ns n f c = (Ok got, c') ∧ look k c' ns n = Some got ∧
        same_spec eq k got new ∧ om_OwnerReferences (meta_of k got) = om_OwnerReferences (meta_of k new) ∧
        om_Labels (meta_of k got) = om_Labels (meta_of k new) ∧ same_but look k ns n c c'
    end.
Proof.
  exists (default (with_key id k ns n (blank k)) (look k c ns n)). split.
  - unfold base. destruct (look k c ns n); [done|]. by destruct k.
  - unfold upsert. destruct (f _) as [new|e]; [|done]. exists (kept k ns n new), (assign k ns n (Some new) c).
    split_and!; [done|by rewrite look_assign|by destruct k..|apply look_assign_other].
Qed.

Lemma upsert_claims_stay k ns0 n0 f c ns n :
  is_Some (look KPersistentVolumeClaim c ns n) → is_Some (look KPersistentVolumeClaim (upsert k ns0 n0 f c).2 ns n).
Proof.
  intros Hc. unfold upsert. destruct (f _) as [new|e]; [|done]. cbn [snd].
  destruct (decide ((KPersistentVolumeClaim, ns, n) = (k, ns0, n0))) as [[= <- <- <-]|Hne].
  - rewrite look_assign. by eexists.
  - by rewrite look_assign_other.
Qed.

#[local] Obligation Tactic := idtac.
#[export] Program Instance objects : ApiObjects store := {
  view := look;
  ao_answer := respond;
  completes := eq;
  admits := keeps_fields;
}.
Next Obligation. apply look_key. Qed.
Next Obligation. apply look_created. Qed.
Next Obligation. done. Qed.
Next Obligation. done. Qed.
Next Obligation. done. Qed.
Next Obligation. done. Qed.
Next Obligation. done. Qed.
Next Obligation. intros c ns. eexists. split; [done|]. apply (elem_of_list_in KJellyfin). Qed.
Next Obligation. intros c ns. eexists. split_and!; [done|apply (list_in_nodup KJellyfinPlugin)|apply (elem_of_list_in KJellyfinPlugin)]. Qed.
Next Obligation.
  intros c ns labels. eexists. split; [done|]. intros dep. rewrite list_elem_of_filter.
  pose proof (elem_of_list_in KDeployment ns c dep) as Hin. cbn in Hin. split; intros [? ?]; (split; [by apply Hin|done]) || (split; [done|by apply Hin]).
Qed.
Next Obligation. intros k ns n f cl c [] _; by apply upsert_spec. Qed.
Next Obligation.
  intros k ns n f cl c Hup got c' Hans. assert (upsert k ns n f c = (Ok got, c')) as Hu by by destruct Hup.
  revert Hu. unfold upsert. destruct (f _); [|discriminate]. intros [= <- <-]. by rewrite look_assign.
Qed.
Next Obligation.
  intros k ns n cl c []; eexists _, _; (split_and!; [done|by left|by rewrite look_assign|apply look_assign_other]).
Qed.
Next Obligation.
  intros old new c. eexists _, _. split_and!; [done|intros e [= <-]; by left|done|]. intros ns n o' Ho. by exists o'.
Qed.
Next Obligation.
  intros jf0 jf c ns n Hv <- <-. cbn [respond]. rewrite Hv. eexists _, _. split_and!; [done| |done..|apply look_assign_other].
  rewrite look_assign. destruct (look_key _ _ _ _ _ Hv) as [H1 H2], (look_created _ _ _ _ _ Hv) as [t H3].
  cbn in *. rewrite <- H1, <- H2. clear -H3. destruct jf0 as [[]]. cbn in *. by subst.
Qed.
Next Obligation.
  intros p0 p c ns n Hv <- <-. cbn [respond]. unfold update_plugin, p_Namespace, p_Name. rewrite Hv.
  eexists _, _. split_and!; [done|by rewrite look_assign|done..|apply look_assign_other].
Qed.
Next Obligation.
  intros p0 p c ns n Hv <- <- Hs. cbn [respond]. unfold update_plugin, p_Namespace, p_Name. rewrite Hv.
  eexists _, _. split_and!; [done|by rewrite look_assign|done..|apply look_assign_other].
Qed.
Next Obligation.
  intros R cl c ns n Hc. change (is_Some (look KPersistentVolumeClaim (respond R cl c).2 ns n)).
  destruct cl; cbn [respond snd]; try exact Hc; try (match goal with |- context [upsert ?k _ _ _ _] => by apply (upsert_claims_stay k) end);
    try (rewrite look_assign_other by congruence; exact Hc); cbn zeta; unfold update_plugin;
    (match goal with |- context [match ?o with Some _ => _ | None => _ end] => destruct o; [|exact Hc] end);
    cbn [snd]; rewrite look_assign_other by congruence; exact Hc.
Qed.
End Example_objects.
