(* ===== verification/Provision.v ===== *)
(** * An instance is brought up (internal/controller/jellyfin_controller.go)

    One pass of the instance controller against an API server that works: from any
    state of the cluster in which no object under the instance's names belongs to
    somebody else, the pass succeeds and leaves every object as the builders make it,
    those the spec does not ask for gone, and all the others untouched. *)
From S2P Require Import Prelude GoStrings Json K8s ApiTypes Naming Meta HwAccel Builder Web Gateway Http Kube Programs Options Libraries Client Bindings PluginController JellyfinController ApiController Wiring Objects.

Section provision.
Context `{KubeLib, RetryLib} {C : Type} `{!ApiObjects C} (quote : string → string) (jf : Jellyfin).
Implicit Types (c : C) (m : ObjectMeta).

Notation perform := (exec objects_server).
Notation mine := (om_Namespace (jf_Meta jf)).
Notation claimable := (claimable "Jellyfin" (jf_Meta jf)).
Notation accepts := (accepts "Jellyfin" (jf_Meta jf)).
Notation free := (free "Jellyfin" (jf_Meta jf)).
Notation allowed := (allowed (jf_Meta jf)).
Notation matches := (matches (jf_Meta jf)).
Notation upsert_part := (upsert_part "Jellyfin" (jf_Meta jf)).
Notation upsert_perform := (upsert_perform "Jellyfin" (jf_Meta jf)).

Lemma own_instance_claimable m : claimable m → ∃ m', own_instance jf m = Ok m' ∧ claimable m'.
Proof. intros Hm. destruct (own_claimable _ _ _ Hm) as (m'&?&?&_). by exists m'. Qed.

Ltac accepted :=
  intros cur Hcur; unfold deployment_mutation, server_service_mutation, ingress_mutation, web_service_mutation,
    route_mutation, pvc_mutation, nfs_pvc_mutation;
  match goal with |- context [own_instance jf ?m] =>
    destruct (own_instance_claimable m) as (m'&->&Hm'); [eapply claimable_ext; [| |exact Hcur]; done|] end;
  cbn [mbind result_bind]; try destruct (om_CreationTimestamp _); (eexists; split; [reflexivity|eassumption]).

Lemma deployment_accepts d : accepts KDeployment (deployment_mutation jf d).
Proof. accepted. Qed.
Lemma server_service_accepts : accepts KService (server_service_mutation jf).
Proof. accepted. Qed.
Lemma web_service_accepts d : accepts KService (web_service_mutation jf d).
Proof. accepted. Qed.
Lemma ingress_accepts spec : accepts KIngress (ingress_mutation jf spec).
Proof. accepted. Qed.
Lemma route_accepts d : accepts KHTTPRoute (route_mutation jf d).
Proof. accepted. Qed.
Lemma pvc_accepts spec size modes : accepts KPersistentVolumeClaim (pvc_mutation jf spec size modes).
Proof. accepted. Qed.
Lemma nfs_pvc_accepts nfs n : accepts KPersistentVolumeClaim (nfs_pvc_mutation jf nfs n).
Proof. accepted. Qed.

#[local] Hint Resolve deployment_accepts server_service_accepts web_service_accepts ingress_accepts route_accepts
  pvc_accepts nfs_pvc_accepts : core.

(** ** The parts of a pass *)

Lemma reconcileDeployment_perform σ healthy c σ' dep :
  BuildDeployment σ jf healthy = Ok (σ', dep) → free KDeployment c (jf_Name jf) →
  allowed KDeployment (jf_Name jf) (deployment_mutation jf dep) c →
  ∃ c', perform c (reconcileDeployment σ jf healthy) = (Ok σ', c') ∧
    matches KDeployment c' (jf_Name jf) dep ∧ same_but view KDeployment mine (jf_Name jf) c c'.
Proof.
  intros Hb Hfree Hall. unfold reconcileDeployment. rewrite Hb.
  edestruct (upsert_perform KDeployment) as (got&c'&Hrun&Hview&(cur&new&_&Hf&Hsame&_)&_&Hbut);
    [apply upserts_deployment|apply (deployment_accepts dep)|done..|].
  exists c'. split_and!; [| |done].
  { eapply try_perform; [reflexivity|]. by eapply try_perform; [exact Hrun|]. }
  exists got. split; [done|]. eapply same_spec_equal; [done|].
  unfold deployment_mutation in Hf. by apply bind_Ok in Hf as (m&_&[= <-]).
Qed.

(** The Service of the server. *)
Definition service_done c : Prop :=
  ∃ svc, view KService c mine (jf_Name jf) = Some svc ∧
    svc_Type svc = or_default ServiceTypeClusterIP (ss_Type (js_Service (jf_Spec jf))) ∧
    svc_Selector svc = InstanceSelectorLabels jf ∧
    svc_Ports svc = [mkSvcPort "http" (service_port jf) DefaultJellyfinPort ProtocolTCP].

Lemma reconcileService_perform c :
  free KService c (jf_Name jf) → allowed KService (jf_Name jf) (server_service_mutation jf) c →
  ∃ c', perform c (reconcileService jf) = (Ok tt, c') ∧ service_done c' ∧ same_but view KService mine (jf_Name jf) c c'.
Proof.
  intros Hfree Hall. destruct (upsert_part KService (jf_Name jf) (server_service_mutation jf) _ c (upserts_service _ _ _)
    server_service_accepts Hfree Hall) as (got&c'&Hrun&Hview&(cur&new&_&Hf&Hsame&_)&Hbut).
  exists c'. split_and!; [exact Hrun| |done]. exists got. split; [done|].
  unfold server_service_mutation in Hf. apply bind_Ok in Hf as (m&_&[= <-]). destruct Hsame as (Ht&Hs&Hp).
  split_and!; [apply Ht|exact Hs|apply complete_ports; [exact Hp|by repeat constructor]].
  cbn. unfold or_default. by case_decide.
Qed.

(** The Ingress; without class or TLS in the spec those of an older one are kept. *)
Definition ingress_done c : Prop :=
  match js_Ingress (jf_Spec jf) with
  | None => view KIngress c mine (jf_Name jf) = None
  | Some spec => ∃ ing, view KIngress c mine (jf_Name jf) = Some ing ∧
      ing_Rules ing = [mkIngressRule (is_Host spec) "/" PathTypePrefix (jf_Name jf) (service_port jf)] ∧
      (is_ClassName spec ≠ "" → ing_ClassName ing = Some (is_ClassName spec)) ∧
      (∀ tls, is_TLS spec = Some tls → ing_TLS ing = [mkIngressTLSEntry [is_Host spec] (itls_SecretName tls)])
  end.

Lemma reconcileIngress_perform c :
  free KIngress c (jf_Name jf) →
  (∀ spec, js_Ingress (jf_Spec jf) = Some spec → allowed KIngress (jf_Name jf) (ingress_mutation jf spec) c) →
  ∃ c', perform c (reconcileIngress jf) = (Ok tt, c') ∧ ingress_done c' ∧ same_but view KIngress mine (jf_Name jf) c c'.
Proof.
  intros Hfree Hall. unfold reconcileIngress, ingress_done. destruct (js_Ingress (jf_Spec jf)) as [spec|].
  - destruct (upsert_part KIngress (jf_Name jf) (ingress_mutation jf spec) _ c (upserts_ingress _ _ _)
      (ingress_accepts spec) Hfree (Hall _ eq_refl)) as (got&c'&Hrun&Hview&(cur&new&_&Hf&Hsame&_)&Hbut).
    exists c'. split_and!; [exact Hrun| |done]. exists got. split; [done|].
    unfold ingress_mutation in Hf. apply bind_Ok in Hf as (m&_&[= <-]). destruct Hsame as (Hc&Hr&Ht). cbn in *.
    split_and!; [done|intros Hne; apply Hc; by rewrite decide_True|intros tls Htls; by rewrite Ht, Htls].
  - apply delete_perform. constructor.
Qed.

(** The web tier. *)
Definition web_done c : Prop :=
  if decide (js_Web (jf_Spec jf) = None ∨ EffectiveMode (js_Web (jf_Spec jf)) = WebModeVolume) then
    view KDeployment c mine (WebDeploymentName jf) = None ∧ view KService c mine (WebServiceName jf) = None
  else ∃ dep, BuildWebDeployment jf = Ok dep ∧ matches KDeployment c (WebDeploymentName jf) dep ∧
    matches KService c (WebServiceName jf) (BuildWebService jf).

Lemma reconcileWeb_perform c :
  free KDeployment c (WebDeploymentName jf) → free KService c (WebServiceName jf) →
  (∀ dep, BuildWebDeployment jf = Ok dep → allowed KDeployment (WebDeploymentName jf) (deployment_mutation jf dep) c) →
  allowed KService (WebServiceName jf) (web_service_mutation jf (BuildWebService jf)) c →
  ∃ c1 c', perform c (reconcileWeb jf) = (Ok tt, c') ∧ web_done c' ∧
    same_but view KDeployment mine (WebDeploymentName jf) c c1 ∧ same_but view KService mine (WebServiceName jf) c1 c'.
Proof.
  intros Hd Hs Had Has. unfold reconcileWeb, web_done. cbv zeta.
  destruct (decide (js_Web (jf_Spec jf) = None ∨ EffectiveMode (js_Web (jf_Spec jf)) = WebModeVolume)) as [Hno|Hweb].
  - destruct (delete_perform KDeployment mine (WebDeploymentName jf) _ c (deletes_deployment _ _)) as (c1&Hrun1&Hv1&Hb1).
    destruct (delete_perform KService mine (WebServiceName jf) _ c1 (deletes_service _ _)) as (c2&Hrun2&Hv2&Hb2).
    exists c1, c2. split_and!; [by eapply try_perform; [exact Hrun1|]|by rewrite Hb2|done..].
  - destruct (BuildWebDeployment jf) as [dep|[]] eqn:Hb; cycle 1.
    { exfalso. unfold BuildWebDeployment in Hb. destruct (js_Web (jf_Spec jf)); [discriminate Hb|tauto]. }
    { exfalso. unfold BuildWebDeployment in Hb. destruct (js_Web (jf_Spec jf)); [discriminate Hb|tauto]. }
    edestruct (upsert_perform KDeployment) as (got&c1&Hrun1&Hv1&(cur&new&_&Hf&Hsame&_)&_&Hb1);
      [apply upserts_deployment|apply (deployment_accepts dep)|exact Hd|by apply Had|].
    assert (free KService c1 (WebServiceName jf)) as Hs1 by (eapply free_same; [|exact Hs]; by apply Hb1).
    assert (allowed KService (WebServiceName jf) (web_service_mutation jf (BuildWebService jf)) c1) as Has1
      by (eapply allowed_same; [|exact Has]; by apply Hb1).
    edestruct (upsert_part KService) as (got2&c2&Hrun2&Hv2&(cur2&new2&_&Hf2&Hsame2&_)&Hb2);
      [apply upserts_service|apply (web_service_accepts (BuildWebService jf))|exact Hs1|exact Has1|].
    exists c1, c2. split_and!; [|exists dep; split_and!; [done|exists got|exists got2]|done..].
    + eapply try_perform; [reflexivity|]. eapply try_perform; [exact Hrun1|exact Hrun2].
    + split; [by rewrite Hb2|]. eapply same_spec_equal; [done|].
      unfold deployment_mutation in Hf. by apply bind_Ok in Hf as (m&_&[= <-]).
    + split; [done|]. eapply same_spec_equal; [done|].
      unfold web_service_mutation in Hf2. by apply bind_Ok in Hf2 as (m&_&[= <-]).
Qed.

(** The route. *)
Definition route_done c : Prop :=
  match js_Gateway (jf_Spec jf) with
  | None => view KHTTPRoute c mine (HTTPRouteName jf) = None
  | Some _ => ∃ r, BuildHTTPRoute jf = Ok r ∧ matches KHTTPRoute c (HTTPRouteName jf) r
  end.

Lemma reconcileGateway_perform c :
  free KHTTPRoute c (HTTPRouteName jf) →
  (∀ r, BuildHTTPRoute jf = Ok r → allowed KHTTPRoute (HTTPRouteName jf) (route_mutation jf r) c) →
  ∃ c', perform c (reconcileGateway jf) = (Ok tt, c') ∧ route_done c' ∧ same_but view KHTTPRoute mine (HTTPRouteName jf) c c'.
Proof.
  intros Hfree Hall. unfold reconcileGateway, route_done. destruct (js_Gateway (jf_Spec jf)) as [gw|] eqn:Hgw.
  - destruct (BuildHTTPRoute jf) as [r|e] eqn:Hb; [|unfold BuildHTTPRoute in Hb; rewrite Hgw in Hb; discriminate Hb].
    destruct (upsert_part KHTTPRoute (HTTPRouteName jf) (route_mutation jf r) _ c (upserts_route _ _ _)
      (route_accepts r) Hfree (Hall r eq_refl)) as (got&c'&Hrun&Hview&(cur&new&_&Hf&Hsame&_)&Hbut).
    exists c'. split_and!; [eapply try_perform; [reflexivity|exact Hrun]| |done].
    exists r. split; [done|]. exists got. split; [done|]. eapply same_spec_equal; [done|].
    unfold route_mutation in Hf. by apply bind_Ok in Hf as (m&_&[= <-]).
  - apply delete_perform. constructor.
Qed.

(** ** Storage *)

(** The claims the pass makes, with what it writes. *)
Definition claim_mutation (p : PVCSpec) (size : Quantity) : PersistentVolumeClaim → result Error PersistentVolumeClaim :=
  pvc_mutation jf p (if decide (pvc_Size p = 0%Z) then size else pvc_Size p)
    (if decide (pvc_AccessModes p = []) then [ReadWriteOnce] else pvc_AccessModes p).
Definition optional_claim (name : string) (spec : option PVCSpec) (size : Quantity)
    : list (string * (PersistentVolumeClaim → result Error PersistentVolumeClaim)) :=
  match spec with
  | Some p => if decide (pvc_ExistingClaim p = "") then [(name, claim_mutation p size)] else []
  | None => []
  end.
Definition volume_name (mf : MediaFolder) : string := MediaClaimName jf mf +:+ "-pv".
Definition media_claim_made (mf : MediaFolder) : list (string * (PersistentVolumeClaim → result Error PersistentVolumeClaim)) :=
  if decide (mf_ExistingClaim mf ≠ "") then []
  else match mf_NFS mf with
  | Some nfs => if nfs_Provision nfs then [(MediaClaimName jf mf, nfs_pvc_mutation jf nfs (volume_name mf))] else []
  | None => optional_claim (MediaClaimName jf mf) (mf_PVC mf) (Gi 100)
  end.
Definition storage_claims : list (string * (PersistentVolumeClaim → result Error PersistentVolumeClaim)) :=
  let st := js_Storage (jf_Spec jf) in
  optional_claim (ConfigClaimName jf) (Some (st_Config st)) (Gi 10) ++
  optional_claim (CacheClaimName jf) (st_Cache st) (Gi 5) ++
  optional_claim (TrickplayClaimName jf) (st_Trickplay st) (Gi 20) ++ (st_Media st ≫= media_claim_made).

(** A claim that is there already keeps its spec. *)
Lemma storage_claims_keep n f cur new t :
  (n, f) ∈ storage_claims → f cur = Ok new → om_CreationTimestamp (pvcl_Meta cur) = Some t →
  pvcl_AccessModes new = pvcl_AccessModes cur ∧ pvcl_StorageClassName new = pvcl_StorageClassName cur ∧
  pvcl_VolumeName new = pvcl_VolumeName cur.
Proof.
  intros Hin Hf Ht.
  assert (∀ name spec size, (n, f) ∈ optional_claim name spec size → ∃ p, f = claim_mutation p size) as Hopt.
  { intros name spec size. unfold optional_claim. destruct spec as [p|]; [case_decide|];
      [intros [= -> ->]%list_elem_of_singleton; by exists p|by intros ?%elem_of_nil..]. }
  assert ((∃ p size, f = claim_mutation p size) ∨ ∃ nfs v, f = nfs_pvc_mutation jf nfs v) as [(p&size&->)|(nfs&v&->)].
  { unfold storage_claims in Hin. rewrite !elem_of_app in Hin.
    destruct Hin as [(p&->)%Hopt|[(p&->)%Hopt|[(p&->)%Hopt|(mf&Hmf&_)%list_elem_of_bind]]]; eauto.
    unfold media_claim_made in Hmf. case_decide; [by apply elem_of_nil in Hmf|].
    destruct (mf_NFS mf) as [nfs|]; [destruct (nfs_Provision nfs)|apply Hopt in Hmf as (p&->); eauto].
    - apply list_elem_of_singleton in Hmf as [= -> ->]. eauto.
    - by apply elem_of_nil in Hmf. }
  - unfold claim_mutation, pvc_mutation in Hf. apply bind_Ok in Hf as (m&_&Hf). rewrite Ht in Hf. by injection Hf as <-.
  - unfold nfs_pvc_mutation in Hf. apply bind_Ok in Hf as (m&_&Hf). rewrite Ht in Hf. by injection Hf as <-.
Qed.

Definition provisioned (mf : MediaFolder) (nfs : NFSSource) : Prop :=
  mf_ExistingClaim mf = "" ∧ mf_NFS mf = Some nfs ∧ nfs_Provision nfs = true.

(** The claims and volumes to make are valid: a claim that is there already keeps its
    spec, a volume that is there already has the source it should. *)
Record storage_valid : Prop := {
  valid_claims n f c : (n, f) ∈ storage_claims → allowed KPersistentVolumeClaim n f c;
  valid_volumes mf nfs c : mf ∈ st_Media (js_Storage (jf_Spec jf)) → provisioned mf nfs →
    (∀ pv, view KPersistentVolume c "" (volume_name mf) = Some pv → pv_matches pv nfs) →
    passes view admits KPersistentVolume "" (volume_name mf) (pv_mutation jf nfs (MediaClaimName jf mf)) c;
  (** Folders that get the same volume want the same. *)
  folders_agree mf1 nfs1 mf2 nfs2 :
    mf1 ∈ st_Media (js_Storage (jf_Spec jf)) → mf2 ∈ st_Media (js_Storage (jf_Spec jf)) →
    provisioned mf1 nfs1 → provisioned mf2 nfs2 → MediaClaimName jf mf1 = MediaClaimName jf mf2 →
    wanted_nfs nfs1 = wanted_nfs nfs2 ∧ nfs_StorageClassName nfs1 = nfs_StorageClassName nfs2;
}.

(** The claims to make are the instance's to make, and its volumes are absent or right. *)
Record storage_ready c : Prop := {
  ready_claims n f : (n, f) ∈ storage_claims → free KPersistentVolumeClaim c n;
  ready_volumes mf nfs pv : mf ∈ st_Media (js_Storage (jf_Spec jf)) → provisioned mf nfs →
    view KPersistentVolume c "" (volume_name mf) = Some pv → pv_matches pv nfs;
}.

Definition storage_step c c' : Prop :=
  storage_ready c' ∧
  ∀ k ns n, k ≠ KPersistentVolumeClaim → k ≠ KPersistentVolume → view k c' ns n = view k c ns n.

Lemma storage_step_trans c1 c2 c3 : storage_step c1 c2 → storage_step c2 c3 → storage_step c1 c3.
Proof. intros [_ H12] [Hr H23]. split; [done|]. intros k ns n H1 H2. by rewrite H23, H12. Qed.

Lemma storage_step_claim c c' n :
  storage_ready c → free KPersistentVolumeClaim c' n → same_but view KPersistentVolumeClaim mine n c c' →
  storage_step c c'.
Proof.
  intros [Hc Hv] Hfree Hbut. split; [split|].
  - intros n' f Hn'. destruct (decide (n' = n)) as [->|Hne]; [done|].
    eapply free_same; [|by eapply Hc]. apply Hbut. congruence.
  - intros mf nfs pv Hmf Hpr. rewrite Hbut by congruence. by apply Hv.
  - intros k ns n' H1 H2. apply Hbut. congruence.
Qed.

Lemma growPVC_perform pvc size c :
  storage_ready c → ∃ c', perform c (growPVC pvc size) = (Ok tt, c') ∧ storage_step c c'.
Proof.
  intros Hready. assert (storage_step c c) as Hrefl by done.
  assert (∃ c', perform c (if decide (pvcl_Phase pvc ≠ ClaimBound) then ok tt
      else r ← ask (PatchPVC pvc (grown pvc size));
           match r with Ok _ => ok tt | Err e => if decide (e = Forbidden ∨ e = Invalid) then ok tt else throw (Api e) end)
      = (Ok tt, c') ∧ storage_step c c') as Hpatch.
  { case_decide; [by exists c|]. destruct (patch_law pvc (grown pvc size) c) as (r&c'&Hans&Hr&Hother&Hclaims).
    exists c'. rewrite exec_bind, perform_ask, Hans. split.
    { destruct r as [|e]; [done|]. by rewrite decide_True by by apply Hr. }
    split; [split|].
    - intros n f Hn o' Ho'. destruct (Hclaims _ _ _ Ho') as (o&Ho&Hrefs).
      eapply claimable_ext; [|exact Hrefs|by eapply ready_claims].
      exact (eq_trans (proj1 (view_key _ _ _ _ _ Ho')) (eq_sym (proj1 (view_key _ _ _ _ _ Ho)))).
    - intros mf nfs pv. rewrite Hother by done. by apply ready_volumes.
    - intros k ns n Hk _. by apply Hother. }
  unfold growPVC. destruct (pvcl_Requests pvc !! ResourceStorage) as [cur|]; [|exact Hpatch].
  destruct (decide (size = cur)); [by exists c|]. destruct (decide (size < cur)%Z); [by exists c|]. exact Hpatch.
Qed.

Lemma ensurePVC_perform name spec size c :
  storage_valid → (name, claim_mutation spec size) ∈ storage_claims → storage_ready c →
  ∃ c', perform c (ensurePVC jf name spec [ReadWriteOnce] size) = (Ok tt, c') ∧ storage_step c c'.
Proof.
  intros Hval Hname Hready. unfold ensurePVC. cbv zeta. set (sz := if decide (pvc_Size spec = 0%Z) then size else _).
  edestruct (upsert_perform KPersistentVolumeClaim name) as (pvc&c1&Hrun&_&_&Hfree&Hbut);
    [apply upserts_claim|apply (pvc_accepts spec sz)|by eapply ready_claims|by eapply (valid_claims Hval)|].
  pose proof (storage_step_claim _ _ _ Hready Hfree Hbut) as Hstep.
  destruct (growPVC_perform pvc sz c1) as (c2&Hrun2&Hstep2); [apply Hstep|].
  exists c2. split; [by eapply try_perform; [exact Hrun|]|by eapply storage_step_trans].
Qed.

Lemma ensure_optional_perform name spec size c :
  storage_valid → (∀ x, x ∈ optional_claim name spec size → x ∈ storage_claims) → storage_ready c →
  ∃ c', perform c (ensure_optional jf name spec size) = (Ok tt, c') ∧ storage_step c c'.
Proof.
  intros Hval Hin Hready. unfold ensure_optional. destruct spec as [p|]; [|by exists c].
  unfold optional_claim in Hin. case_decide; [|by exists c]. apply ensurePVC_perform; [done|apply Hin; by left|done].
Qed.

Lemma ensureProvisionedNFS_perform mf nfs c :
  storage_valid → mf ∈ st_Media (js_Storage (jf_Spec jf)) → provisioned mf nfs →
  (MediaClaimName jf mf, nfs_pvc_mutation jf nfs (volume_name mf)) ∈ storage_claims → storage_ready c →
  ∃ c', perform c (ensureProvisionedNFS quote jf mf nfs) = (Ok tt, c') ∧ storage_step c c'.
Proof.
  intros Hval Hmf Hpr Hname Hready. unfold ensureProvisionedNFS. cbv zeta. fold (volume_name mf).
  assert (perform c (checkVolume quote (volume_name mf) nfs) = (Ok tt, c)) as Hcheck.
  { unfold checkVolume. rewrite exec_bind, perform_ask, get_volume_law.
    destruct (view KPersistentVolume c "" (volume_name mf)) as [pv|] eqn:Hpv; [|done].
    pose proof (ready_volumes _ Hready _ _ _ Hmf Hpr Hpv) as Hm.
    apply (immutablePVDrift_spec quote) in Hm. unfold wanted_nfs in Hm. cbv zeta. rewrite Hm. by rewrite decide_False by tauto. }
  destruct (upsert_law KPersistentVolume "" (volume_name mf) (pv_mutation jf nfs (MediaClaimName jf mf)) _ c
    (upserts_volume _ _)) as (cur&_&got&c1&Hans&Hview&[Hnfs Hclass]&_&_&Hbut);
    [apply (valid_volumes Hval); [done..|intros pv; by apply (ready_volumes c Hready)]|].
  assert (storage_step c c1) as Hstep.
  { split; [split|].
    - intros n f Hn. eapply free_same; [by apply Hbut|by eapply ready_claims].
    - intros mf' nfs' pv Hmf' Hpr' Hpv. destruct (decide (volume_name mf' = volume_name mf)) as [Heq|Hne].
      + rewrite Heq, Hview in Hpv. injection Hpv as <-. apply app_s_inj_r in Heq.
        unfold pv_matches. destruct (folders_agree Hval _ _ _ _ Hmf' Hmf Hpr' Hpr Heq) as [-> ->]. by split.
      + rewrite Hbut in Hpv by congruence. by eapply ready_volumes.
    - intros k ns n Hk Hk'. apply Hbut. congruence. }
  edestruct (upsert_perform KPersistentVolumeClaim (MediaClaimName jf mf)) as (pvc'&c2'&Hrun'&_&_&Hfree&Hbut2');
    [apply upserts_claim|apply (nfs_pvc_accepts nfs (volume_name mf))|by eapply (ready_claims c1); [apply Hstep|]|by apply (valid_claims Hval)|].
  exists c2'. split.
  - eapply try_perform; [exact Hcheck|]. eapply try_perform; [etrans; [apply perform_ask|exact Hans]|].
    by eapply try_perform; [exact Hrun'|].
  - eapply storage_step_trans; [done|]. eapply storage_step_claim; [apply Hstep|done..].
Qed.

Lemma reconcileMedia_perform mf c :
  storage_valid → mf ∈ st_Media (js_Storage (jf_Spec jf)) → storage_ready c →
  ∃ c', perform c (reconcileMedia quote jf mf) = (Ok tt, c') ∧ storage_step c c'.
Proof.
  intros Hval Hmf Hready.
  assert (∀ x, x ∈ media_claim_made mf → x ∈ storage_claims) as Hin.
  { intros x Hx. unfold storage_claims. rewrite !elem_of_app. do 3 right. apply list_elem_of_bind. by exists mf. }
  unfold reconcileMedia. unfold media_claim_made in Hin. destruct (decide (mf_ExistingClaim mf ≠ "")) as [He|He]; [by exists c|].
  destruct (mf_NFS mf) as [nfs|] eqn:Hnfs.
  - destruct (nfs_Provision nfs) eqn:Hp; [|by exists c]. apply ensureProvisionedNFS_perform; try done.
    + split_and!; [|done|done]. destruct (decide (mf_ExistingClaim mf = "")); [done|tauto].
    + apply Hin. by left.
  - apply (ensure_optional_perform (MediaClaimName jf mf) (mf_PVC mf) (Gi 100) c Hval Hin Hready).
Qed.

Lemma reconcileStorage_perform c :
  storage_valid → storage_ready c →
  ∃ c', perform c (reconcileStorage quote jf) = (Ok tt, c') ∧ storage_step c c'.
Proof.
  intros Hval Hready. unfold reconcileStorage. cbv zeta.
  assert (∀ l c, (∀ mf, mf ∈ l → mf ∈ st_Media (js_Storage (jf_Spec jf))) → storage_ready c →
    ∃ c', perform c (for_each (reconcileMedia quote jf) l) = (Ok tt, c') ∧ storage_step c c') as Hmedia.
  { induction l as [|mf l IH]; intros c0 Hl Hr0; [by exists c0|]. cbn [for_each].
    destruct (reconcileMedia_perform mf c0) as (c1&Hrun1&Hs1); [done|apply Hl; by left|done|].
    destruct (IH c1) as (c2&Hrun2&Hs2); [intros mf' ?; apply Hl; by right|apply Hs1|].
    exists c2. split; [by eapply try_perform|by eapply storage_step_trans]. }
  edestruct (ensure_optional_perform (ConfigClaimName jf)) as (c1&Hrun1&Hs1); [exact Hval| |exact Hready|];
    [intros n Hn; unfold storage_claims; apply elem_of_app; left; exact Hn|].
  edestruct (ensure_optional_perform (CacheClaimName jf)) as (c2&Hrun2&Hs2); [exact Hval| |apply Hs1|];
    [intros n Hn; unfold storage_claims; rewrite !elem_of_app; right; left; exact Hn|].
  edestruct (ensure_optional_perform (TrickplayClaimName jf)) as (c3&Hrun3&Hs3); [exact Hval| |apply Hs2|];
    [intros n Hn; unfold storage_claims; rewrite !elem_of_app; right; right; left; exact Hn|].
  destruct (Hmedia (st_Media (js_Storage (jf_Spec jf))) c3) as (c4&Hrun4&Hs4); [done|apply Hs3|].
  exists c4. split; [|do 3 (eapply storage_step_trans; [eassumption|]); exact Hs4].
  do 3 (eapply try_perform; [eassumption|]). exact Hrun4.
Qed.

(** *** The claims that are there in the end *)

(** The claim an event reports to have been made or found. *)
Definition upserted_claim (ev : event) : option (string * string) :=
  match ev with
  | Ev cl r =>
      match cl in call R return R → option (string * string) with
      | UpsertPVC ns n _ => λ r, match r with Ok _ => Some (ns, n) | Err _ => None end
      | _ => λ _, None
      end r
  end.

Definition claims_there c (tr : list event) : Prop :=
  ∀ ev ns n, ev ∈ tr → upserted_claim ev = Some (ns, n) → is_Some (view KPersistentVolumeClaim c ns n).

Lemma answer_claims R (cl : call R) c ns n :
  upserted_claim (Ev cl (ao_answer R cl c).1) = Some (ns, n) →
  is_Some (view KPersistentVolumeClaim (ao_answer R cl c).2 ns n).
Proof.
  destruct cl as [| | | | | | | | | | | | | | | | | | | |cns cn f| | | | | |]; cbn; try discriminate.
  pose proof (upsert_there KPersistentVolumeClaim cns cn f _ c (upserts_claim cns cn f)) as Hthere.
  change (object KPersistentVolumeClaim) with PersistentVolumeClaim in Hthere.
  destruct (ao_answer _ _ c) as [[got|e] c']; [|discriminate]. cbn. intros [= <- <-]. exists got. by apply Hthere.
Qed.

Lemma run_claims {A} c tr (p : prog A) :
  claims_there c tr → claims_there (run objects_server c tr p).2 (run objects_server c tr p).1.2.
Proof.
  revert c tr. induction p as [a|R cl k IH]; intros c tr Htr; [done|]. cbn.
  pose proof (answer_claims R cl c) as Hcl. pose proof (claims_stay R cl c) as Hstay.
  destruct (ao_answer R cl c) as [r c']. apply IH. intros ev ns n Hin Hev.
  apply elem_of_app in Hin as [Hin| ->%list_elem_of_singleton]; [|by apply Hcl].
  apply Hstay. by eapply Htr.
Qed.

Lemma perform_claims_stay {A} c (p : prog A) ns n :
  is_Some (view KPersistentVolumeClaim c ns n) → is_Some (view KPersistentVolumeClaim (perform c p).2 ns n).
Proof.
  revert c. induction p as [a|R cl k IH]; intros c Hc; [done|]. rewrite exec_Call. cbn.
  pose proof (claims_stay R cl c ns n Hc) as Hstay. destruct (ao_answer R cl c) as [r c']. by apply IH.
Qed.

(** Every claim the server's pod mounts is one the user named or is there. *)
Definition claims_done c : Prop :=
  ∀ v src, v ∈ server_volumes jf → vol_PersistentVolumeClaim v = Some src →
    pvcs_ClaimName src ∈ existing_claims jf ∨ is_Some (view KPersistentVolumeClaim c mine (pvcs_ClaimName src)).

Lemma reconcileStorage_claims c c' :
  Forall media_ok (st_Media (js_Storage (jf_Spec jf))) →
  perform c (reconcileStorage quote jf) = (Ok tt, c') → claims_done c'.
Proof.
  intros Hok. unfold exec.
  pose proof (always_run _ _ objects_server c [] _ (reconcileStorage_always quote jf [] Hok)) as [Hpost _].
  pose proof (run_claims c [] (reconcileStorage quote jf)) as Hclaims.
  destruct (run objects_server c [] (reconcileStorage quote jf)) as [[r tr] c1]. intros [= -> ->].
  intros v src Hv Hsrc. destruct (Hpost v src Hv Hsrc) as [Hex|(f&pvc&Hin)]; [by left|right].
  eapply Hclaims; [by intros ev ns n ?%elem_of_nil|exact Hin|done].
Qed.

(** *** The status *)
Definition status_done (healthy : list JellyfinPlugin) c : Prop :=
  ∃ got ready, view KJellyfin c mine (jf_Name jf) = Some got ∧ jf_Spec got = jf_Spec jf ∧
    jf_Meta got = jf_Meta jf ∧ jf_Status got = instance_status jf healthy ready ∧
    (ready = true ↔ ∃ dep, view KDeployment c mine (jf_Name jf) = Some dep ∧ deployment_ready (Ok dep) = true).

Lemma updateInstanceStatus_perform healthy c :
  view KJellyfin c mine (jf_Name jf) = Some jf →
  ∃ c', perform c (updateInstanceStatus jf healthy) = (Ok tt, c') ∧ status_done healthy c' ∧
    same_but view KJellyfin mine (jf_Name jf) c c'.
Proof.
  intros Hview. set (r := match view KDeployment c mine (jf_Name jf) with Some d => Ok d | None => Err NotFound end).
  set (st := instance_status jf healthy (deployment_ready r)).
  destruct (writeJellyfinStatus_perform c jf (set_jf_Status st jf) Hview) as (got&c'&Hrun&Hgot&Hst&Hspec&Hmeta&Hbut).
  exists c'. split_and!; [| |exact Hbut].
  - unfold updateInstanceStatus. rewrite exec_bind, perform_ask, get_deployment_law. exact Hrun.
  - exists got, (deployment_ready r). split_and!; [done..|]. rewrite Hbut by done. unfold r.
    destruct (view KDeployment c mine (jf_Name jf)) as [d|]; [|by split; [|intros (?&?&?)]].
    split; [intros Hd; by exists d|by intros (d'&[= ->]&Hd)].
Qed.

(** ** A whole pass *)

(** The objects a pass writes or deletes, claims and volumes apart. *)
Definition touched : list (Kind * string * string) :=
  [(KDeployment, mine, jf_Name jf); (KService, mine, jf_Name jf); (KIngress, mine, jf_Name jf);
   (KDeployment, mine, WebDeploymentName jf); (KService, mine, WebServiceName jf);
   (KHTTPRoute, mine, HTTPRouteName jf); (KJellyfin, mine, jf_Name jf)].

(** Nothing in the way: nobody else's objects under the instance's names, no volume
    that differs from what its folder wants, no plugin with two ways to install, and
    nothing that validation turns down. *)
Record unobstructed (σ : Store) c : Prop := {
  un_storage : storage_ready c;
  un_server : free KDeployment c (jf_Name jf);
  un_service : free KService c (jf_Name jf);
  un_ingress : free KIngress c (jf_Name jf);
  un_web : free KDeployment c (WebDeploymentName jf);
  un_web_service : free KService c (WebServiceName jf);
  un_route : free KHTTPRoute c (HTTPRouteName jf);
  un_plugins p : view KJellyfinPlugin c mine (p_Name p) = Some p → conflicting p = false;
  va_storage : storage_valid;
  (** Whichever of the plugins are healthy. *)
  va_server ps σ' dep : NoDup (p_Name <$> ps) →
    (∀ p, p ∈ ps → ∃ q, view KJellyfinPlugin c mine (p_Name p) = Some q ∧ p_Spec p = p_Spec q) →
    BuildDeployment σ jf ps = Ok (σ', dep) → allowed KDeployment (jf_Name jf) (deployment_mutation jf dep) c;
  va_service : allowed KService (jf_Name jf) (server_service_mutation jf) c;
  va_ingress spec : js_Ingress (jf_Spec jf) = Some spec → allowed KIngress (jf_Name jf) (ingress_mutation jf spec) c;
  va_web dep : BuildWebDeployment jf = Ok dep →
    allowed KDeployment (WebDeploymentName jf) (deployment_mutation jf dep) c;
  va_web_service : allowed KService (WebServiceName jf) (web_service_mutation jf (BuildWebService jf)) c;
  va_route r : BuildHTTPRoute jf = Ok r → allowed KHTTPRoute (HTTPRouteName jf) (route_mutation jf r) c;
}.

(** The server that runs: built from the plugins bound to the instance and not rejected. *)
Definition server_done (σ : Store) (healthy : list JellyfinPlugin) c : Prop :=
  ∃ σ' dep, BuildDeployment σ jf healthy = Ok (σ', dep) ∧ matches KDeployment c (jf_Name jf) dep.

Lemma build_healthy σ ps :
  Forall (λ p, conflicting p = false) ps →
  ∃ σ' dep, BuildDeployment σ jf (HealthyPlugins (bound_of jf ps)) = Ok (σ', dep).
Proof.
  intros Hps. pose proof (BuildDeployment_outcome σ jf (HealthyPlugins (bound_of jf ps))) as Hout.
  destruct (BuildDeployment _ _ _) as [[σ' dep]|e]; [by exists σ', dep|].
  destruct Hout as (p&[_ [Hin _]%elem_of_bound_of]%list_elem_of_filter&Hc&_).
  rewrite Forall_forall in Hps. rewrite Hps in Hc; [discriminate|done].
Qed.

Lemma healthy_nodup ps : NoDup (p_Name <$> ps) → NoDup (p_Name <$> HealthyPlugins (bound_of jf ps)).
Proof.
  intros Hnd. unfold HealthyPlugins, bound_of. eapply sublist_NoDup; [|apply fmap_sublist, sublist_filter].
  rewrite sort_by_Permutation. eapply sublist_NoDup; [done|apply fmap_sublist, sublist_filter].
Qed.

(** What the pass leaves: each part as the spec wants it. *)
Record brought_up (σ : Store) (healthy : list JellyfinPlugin) c c' : Prop := {
  bu_server : server_done σ healthy c';
  bu_service : service_done c';
  bu_ingress : ingress_done c';
  bu_web : web_done c';
  bu_route : route_done c';
  bu_status : status_done healthy c';
  bu_claims : Forall media_ok (st_Media (js_Storage (jf_Spec jf))) → claims_done c';
  bu_others k ns n : k ≠ KPersistentVolumeClaim → k ≠ KPersistentVolume → (k, ns, n) ∉ touched →
    view k c' ns n = view k c ns n;
}.

Ltac frames := repeat match goal with
  | Hb : same_but view _ _ _ ?a ?b |- context [view ?k ?b ?x ?y] => rewrite (Hb k x y) by first [assumption|congruence]
  | Hs : storage_step ?a ?b |- context [view ?k ?b ?x ?y] => rewrite (proj2 Hs k x y) by done
  end.

Lemma reconcileInstance_perform σ c :
  view KJellyfin c mine (jf_Name jf) = Some jf → WebDeploymentName jf ≠ jf_Name jf → unobstructed σ c →
  ∃ ps c', (∀ p, p ∈ ps ↔ view KJellyfinPlugin c mine (p_Name p) = Some p) ∧
    perform c (reconcileInstance quote σ jf) = (Ok Result_zero, c') ∧
    brought_up σ (HealthyPlugins (bound_of jf ps)) c c'.
Proof.
  intros Hjf Hne [Hst Hfd Hfs Hfi Hfw Hfws Hfr Hpl Hval Ad As Ai Aw Aws Ar].
  assert (WebServiceName jf ≠ jf_Name jf) as Hne' by exact Hne.
  destruct (list_plugins_law c mine) as (ps&Hans&Hnd&Hps). exists ps.
  destruct (build_healthy σ ps) as (σ'&dep&Hb); [apply Forall_forall; intros p Hp%Hps; by apply Hpl|].
  set (healthy := HealthyPlugins (bound_of jf ps)) in *.
  destruct (reconcileStorage_perform c Hval Hst) as (c1&R1&S1).
  destruct (reconcileDeployment_perform σ healthy c1 σ' dep Hb) as (c2&R2&D2&B2);
    [eapply free_same; [|exact Hfd]; by frames|eapply allowed_same; [|eapply Ad; [by apply healthy_nodup| |exact Hb]]; [by frames|];
     intros p [_ [Hp%Hps _]%elem_of_bound_of]%list_elem_of_filter; by exists p|].
  destruct (reconcileService_perform c2) as (c3&R3&D3&B3); 
    [eapply free_same; [|exact Hfs]; by frames|eapply allowed_same; [|exact As]; by frames|].
  destruct (reconcileIngress_perform c3) as (c4&R4&D4&B4); 
    [eapply free_same; [|exact Hfi]; by frames|intros spec Hs; eapply allowed_same; [|by apply Ai]; by frames|].
  destruct (reconcileWeb_perform c4) as (c5a&c5&R5&D5&B5a&B5);
    [eapply free_same; [|exact Hfw]; by frames|eapply free_same; [|exact Hfws]; by frames
    |intros wdep Hw; eapply allowed_same; [|by apply Aw]; by frames|eapply allowed_same; [|exact Aws]; by frames|].
  destruct (reconcileGateway_perform c5) as (c6&R6&D6&B6); 
    [eapply free_same; [|exact Hfr]; by frames|intros r Hr; eapply allowed_same; [|by apply Ar]; by frames|].
  destruct (updateInstanceStatus_perform healthy c6) as (c7&R7&D7&B7); [by frames|].
  exists c7. split_and!; [done| |].
  - unfold reconcileInstance.
    assert (perform c (BoundPlugins jf) = (Ok (bound_of jf ps), c)) as R0.
    { unfold BoundPlugins. rewrite exec_try, exec_api. cbn [sv_answer objects_server]. unfold jf_Namespace. by rewrite Hans. }
    eapply try_perform; [exact R0|]. fold healthy.
    do 6 (eapply try_perform; [apply in_context_perform; eassumption|]).
    by eapply try_perform; [exact R7|].
  - split.
    + exists σ', dep. split; [done|]. unfold matches in *. by frames.
    + unfold service_done in *. by frames.
    + unfold ingress_done in *. by frames.
    + unfold web_done, matches in *.
      by rewrite !(B7 KDeployment), !(B6 KDeployment), !(B7 KService), !(B6 KService) by congruence.
    + unfold route_done, matches in *. by frames.
    + done.
    + intros Hok v src Hv Hsrc. destruct (reconcileStorage_claims c c1 Hok R1 v src Hv Hsrc) as [?|Hc]; [by left|right].
      by frames.
    + intros k ns n Hk Hk' Hin. unfold touched in Hin. rewrite !not_elem_of_cons in Hin. destruct_and? Hin. by frames.
Qed.
End provision.

(** An instance without a web tier deletes the server and the Service of the instance that
    is called like its own would be, whoever owns them. *)
Lemma web_deletes_namesake `{KubeLib} {C} `{!ApiObjects C} jf other (c : C) :
  jf_Name other = WebDeploymentName jf → jf_Namespace other = jf_Namespace jf → js_Web (jf_Spec jf) = None →
  ∃ c', exec objects_server c (reconcileWeb jf) = (Ok tt, c') ∧
    view KDeployment c' (jf_Namespace other) (jf_Name other) = None ∧
    view KService c' (jf_Namespace other) (jf_Name other) = None.
Proof.
  intros -> -> Hweb. unfold reconcileWeb. rewrite decide_True by by left. cbv zeta.
  destruct (delete_perform KDeployment (jf_Namespace jf) (WebDeploymentName jf) _ c (deletes_deployment _ _)) as (c1&R1&V1&_).
  destruct (delete_perform KService (jf_Namespace jf) (WebServiceName jf) _ c1 (deletes_service _ _)) as (c2&R2&V2&B2).
  exists c2. split_and!; [by eapply try_perform; [exact R1|]| |exact V2]. by rewrite B2.
Qed.

Lemma ReconcileJellyfin_perform `{KubeLib, RetryLib} {C} `{!ApiObjects C} quote σ jf (c : C) :
  view KJellyfin c (jf_Namespace jf) (jf_Name jf) = Some jf → om_DeletionTimestamp (jf_Meta jf) = None →
  WebDeploymentName jf ≠ jf_Name jf → unobstructed jf σ c →
  ∃ ps c', (∀ p, p ∈ ps ↔ view KJellyfinPlugin c (jf_Namespace jf) (p_Name p) = Some p) ∧
    exec objects_server c (ReconcileJellyfin quote σ (jf_Namespace jf) (jf_Name jf)) = (Ok Result_zero, c') ∧
    brought_up jf σ (HealthyPlugins (bound_of jf ps)) c c'.
Proof.
  intros Hjf Hdel Hne Hun. destruct (reconcileInstance_perform quote jf σ c Hjf Hne Hun) as (ps&c'&Hps&Hrun&Hup).
  exists ps, c'. split_and!; [done| |done]. unfold ReconcileJellyfin. rewrite exec_bind, exec_ask.
  cbn [sv_answer objects_server]. by rewrite get_jellyfin_law, Hjf, Hdel.
Qed.


Module Example_pass.
Import Example_objects.
(** An instance that was just made, with a plugin; an Ingress of its name is left from before. *)
Definition jf : Jellyfin := kept KJellyfin "media" "home" Example_gateway.jf.
Definition old_ingress : Ingress := mkIngress (meta_lit "home" "media" ∅ ∅) (Some "nginx") [] [].
Definition cluster : store :=
  assign KJellyfin "media" "home" (Some jf) (assign KJellyfinPlugin "media" "shoko" (Some (Example_bindings.plugin []))
    (assign KIngress "media" "home" (Some old_ingress) [])).

Lemma cluster_look k ns n :
  k ≠ KJellyfin → k ≠ KIngress → k ≠ KJellyfinPlugin → look k cluster ns n = None.
Proof. intros H1 H2 H3. unfold cluster. by rewrite !look_assign_other by congruence. Qed.

Lemma cluster_free k n : k ≠ KJellyfin → k ≠ KIngress → k ≠ KJellyfinPlugin → free "Jellyfin" (jf_Meta jf) k cluster n.
Proof. intros H1 H2 H3 o Ho. change (look k cluster "media" n = Some o) in Ho. by rewrite cluster_look in Ho. Qed.

(** A write under a name that is free meets no older object. *)
Lemma cluster_allowed k n f : k ≠ KJellyfin → k ≠ KIngress → k ≠ KJellyfinPlugin → allowed (jf_Meta jf) k n f cluster.
Proof.
  intros H1 H2 H3 cur new _ _. change (keeps_fields k (look k cluster "media" n) new). rewrite cluster_look by done.
  by destruct k.
Qed.

Lemma claim_spec_kept n f c : (n, f) ∈ storage_claims jf → allowed (jf_Meta jf) KPersistentVolumeClaim n f c.
Proof.
  intros Hin cur new Hbase Hf o Ho. unfold base in Hbase. rewrite Ho in Hbase. subst cur.
  destruct (view_created _ _ _ _ _ Ho) as [t Ht]. cbn in Ht.
  exact (storage_claims_keep _ _ _ _ _ _ Hin Hf Ht).
Qed.

Lemma unobstructed_cluster σ : unobstructed jf σ cluster.
Proof.
  split; try (intros; apply cluster_free; done); try (intros; apply cluster_allowed; done).
  - split; [intros; by apply cluster_free|]. intros mf nfs pv _ _ Hpv.
    change (look KPersistentVolume cluster "" (volume_name jf mf) = Some pv) in Hpv. by rewrite cluster_look in Hpv.
  - intros o Ho. assert (o = kept KIngress "media" "home" old_ingress) as -> by (by injection Ho). left. by split.
  - intros p Hp. change (look KJellyfinPlugin cluster "media" (p_Name p) = Some p) in Hp. unfold cluster in Hp.
    rewrite look_assign_other in Hp by congruence. destruct (decide (p_Name p = "shoko")) as [Hn|Hn].
    + rewrite Hn, look_assign in Hp. by injection Hp as <-.
    + by rewrite !look_assign_other in Hp by congruence.
  - split; [apply claim_spec_kept|..].
    + intros mf nfs c Hin (_&Hnfs&_) _. apply list_elem_of_singleton in Hin as ->. discriminate Hnfs.
    + intros mf1 nfs1 mf2 nfs2 Hin _ (_&Hnfs&_). apply list_elem_of_singleton in Hin as ->. discriminate Hnfs.
Qed.
End Example_pass.

