(* ===== verification/Settled.v ===== *)
(** * The API controller, its cluster and its Jellyfin server together
    (internal/controller/jellyfinapi_controller.go with internal/jellyfinapi)

    One whole pass of the API controller against an API server that works and a network
    of Jellyfin servers that do what their API documents: it gets credentials, settles
    the libraries and puts every managed setting in place, at the instance's own server
    and at no other. *)
From S2P Require Import Prelude GoStrings Sha256 Json K8s ApiTypes Http Kube Programs Options Libraries Client Wire Bindings PluginController JellyfinController ApiController Server Converge Session Wiring Objects Provision.

(** ** A cluster with servers on a network *)
Section site.
Context {C S : Type} `{!ApiObjects C, !JellyfinServer S} (draw : option (list N)).

(** The objects of the cluster, and the servers by host. *)
Definition site_answer (R : Type) (cl : call R) (w : C * gmap string S) : R * (C * gmap string S) :=
  match cl in call R return R * (C * gmap string S) with
  | Http r =>
      match w.2 !! u_Host (rq_URL r) with
      | Some s => let '(a, s') := js_http r s in (a, (w.1, <[u_Host (rq_URL r) := s']> w.2))
      | None => (Err "no such host", w)
      end
  | RandRead _ => (draw, w)
  | cl => let '(a, c') := ao_answer _ cl w.1 in (a, (c', w.2))
  end.
Definition site : server := mkServer (C * gmap string S) site_answer.

Definition at_cluster : call_pred := λ R cl, match cl with Http _ | RandRead _ => False | _ => True end.
Definition at_host (h : string) : call_pred := λ R cl, match cl with Http r => u_Host (rq_URL r) = h | _ => False end.

Lemma exec_cluster {A} (p : prog A) (c : C) (net : gmap string S) a (c' : C) :
  only at_cluster p → exec objects_server c p = (a, c') → exec site (c, net) p = (a, (c', net)).
Proof.
  revert c. induction p as [x|R cl k IH]; intros c Ho; [by intros [= -> ->]|]. destruct Ho as [Hc Hk].
  rewrite !exec_Call. cbn [sv_answer objects_server site].
  assert (site_answer R cl (c, net) = let '(a, c') := ao_answer R cl c in (a, (c', net))) as -> by by destruct cl.
  destruct (ao_answer R cl c) as [r c1]. apply IH, Hk.
Qed.

Lemma exec_host {A} (p : prog A) I Q tr h (c : C) (net : gmap string S) (s s' : S) a :
  always I Q tr p → (∀ R tr (cl : call R), I R tr cl → at_host h R cl) →
  exec (jellyfin refuse) s p = (a, s') → exec site (c, <[h := s]> net) p = (a, (c, <[h := s']> net)).
Proof.
  intros Hp HI. revert s tr Hp. induction p as [x|R cl k IH]; intros s tr; [by intros _ [= -> ->]|]. intros [Hc Hk].
  rewrite !exec_Call. cbn [sv_answer jellyfin site]. apply HI in Hc. destruct cl; try done. cbn in Hc.
  cbn [site_answer fst snd]. rewrite Hc, lookup_insert_eq. destruct (js_http r s) as [x s1].
  rewrite insert_insert_eq. eapply IH, Hk.
Qed.

(** A program whose requests all go to one host. *)
Lemma exec_there {A} (p : prog A) h (c : C) (net : gmap string S) (s s' : S) a :
  only (at_host h) p → exec (jellyfin refuse) s p = (a, s') →
  exec site (c, <[h := s]> net) p = (a, (c, <[h := s']> net)).
Proof. intros Hp. eapply (exec_host p _ _ []); [by apply only_always|done]. Qed.
End site.

(** Names that are written out are or are not among others. *)
Ltac literal := apply (bool_decide_unpack _); vm_compute; exact I.
Ltac there := walk ltac:(first [reflexivity|done]).

(** ** One instance *)
Section instance.
Context `{KubeLib, RetryLib, MapOrder, Unicode} {C S : Type} `{!ApiObjects C, !JellyfinServer S}.
Context (draw : option (list N)) (library_text : Error → string) (RequeueInterval : Z).
Context (jf : Jellyfin) (spec : JellyfinAPISpec) (net : gmap string S) (cli : Client).
Implicit Types (c : C) (s : S).
Notation quote := Quote.
Notation mine := (jf_Namespace jf).
Notation h := (u_Host (cl_base cli)).
Notation perform := (exec (site draw)).
Hypothesis cli_base : TrimRightByte "/" (u_Path (cl_base cli)) = js_base.

Lemma at_perform {A B} w (m : M A) (k : A → M B) a w' r :
  perform w m = (Ok a, w') → perform w' (k a) = r → perform w (try m k) = r.
Proof. intros Hm <-. by rewrite exec_try, Hm. Qed.

Lemma then_perform {A B} w (m : prog A) (k : A → prog B) a w' r :
  perform w m = (a, w') → perform w' (k a) = r → perform w (m ≫= k) = r.
Proof. intros Hm <-. by rewrite exec_bind, Hm. Qed.

(** *** Credentials *)

(** What the user gave: key, user name and password. *)
Definition given_in c : option (string * string * string) :=
  match api_CredentialsSecret spec with
  | Some name =>
      if decide (name = "") then Some ("", "", "")
      else sec ← view KSecret c mine name; Some (data sec "apiKey", data sec "username", data sec "password")
  | None => Some ("", "", "")
  end.

Lemma given_perform c net' g :
  given_in c = Some g → perform (c, net') (givenCredentials jf spec) = (Ok g, (c, net')).
Proof.
  intros Hg. apply exec_cluster.
  - unfold givenCredentials, getSecret. there.
  - unfold given_in, givenCredentials in *. destruct (api_CredentialsSecret spec) as [name|]; [|by injection Hg as <-].
    case_decide; [by injection Hg as <-|]. destruct (view KSecret c mine name) as [sec|] eqn:Hv; [|done].
    injection Hg as <-. unfold getSecret. eapply try_perform; [|done].
    apply in_context_perform. rewrite exec_api. cbn [sv_answer objects_server]. by rewrite get_secret_law, Hv.
Qed.

Notation generated := (generatedName jf spec).

(** A name or password that is missing is taken from the generated Secret of an earlier pass. *)
Definition filled c (value key : string) : string :=
  if decide (value = "") then match view KSecret c mine generated with Some sec => data sec key | None => "" end
  else value.
Definition user_of c (user : string) : string :=
  if decide (filled c user "username" = "") then "admin" else filled c user "username".

(** The key of an earlier pass. *)
Definition earlier_key c : option string :=
  sec ← view KSecret c mine generated; if decide (data sec "apiKey" = "") then None else Some (data sec "apiKey").

(** The server can be logged in to: with provided credentials that it accepts; or with
    the generated key; or because its first-run wizard is open, or its administrator
    has the name and password that were given or generated, and the Secret for the new
    key is free. *)
Definition can_log_in c (v : Jellyfin_view) : Prop :=
  ∃ key user pass, given_in c = Some (key, user, pass) ∧
  if decide (api_Mode spec = "provided") then
    (key ≠ "" ∧ key ∈ jv_tokens v) ∨
    (key = "" ∧ user ≠ "" ∧ pass ≠ "" ∧ jv_wizard v = false ∧ jv_account v = Some (user, pass))
  else
    (∃ k, earlier_key c = Some k ∧ k ∈ jv_tokens v) ∨
    ((jv_wizard v = true ∨ filled c pass "password" ≠ "" ∧ jv_account v = Some (user_of c user, filled c pass "password")) ∧
     free "Jellyfin" (jf_Meta jf) KSecret c generated ∧
     ∀ u p k, allowed (jf_Meta jf) KSecret generated (secret_mutation jf u p k) c).

(** The generated Secret holds the key. *)
Definition secret_holds c (key : string) : Prop :=
  ∃ sec, view KSecret c mine generated = Some sec ∧ sec_Data sec !! "apiKey" = Some key.

Lemma secret_accepts u p k : accepts "Jellyfin" (jf_Meta jf) KSecret (secret_mutation jf u p k).
Proof.
  intros cur Hcur. unfold secret_mutation. destruct (own_instance_claimable jf _ Hcur) as (m & Hm & Hc).
  cbn in Hm. rewrite Hm. by eexists.
Qed.

Lemma persist_perform c net' u p k :
  free "Jellyfin" (jf_Meta jf) KSecret c generated →
  allowed (jf_Meta jf) KSecret generated (secret_mutation jf u p k) c →
  ∃ c', perform (c, net') (persistGeneratedSecret jf generated u p k) = (Ok tt, (c', net')) ∧
    secret_holds c' k ∧ same_but view KSecret mine generated c c'.
Proof.
  intros Hf Ha. destruct (upsert_part "Jellyfin" (jf_Meta jf) KSecret generated _ _ c (upserts_secret _ _ _)
    (secret_accepts u p k) Hf Ha) as (got & c' & Hrun & Hv & (cur & new & _ & Hn & Hs & _) & Hb).
  exists c'. split_and!; [|exists got; split; [done|]|done].
  - apply exec_cluster; [|exact Hrun]. unfold persistGeneratedSecret. there.
  - unfold secret_mutation in Hn. apply bind_Ok in Hn as (m & _ & [= <-]). rewrite Hs. cbn.
    rewrite !lookup_insert_ne by done. apply lookup_insert_eq.
Qed.
Lemma get_secret_perform c net' name :
  perform (c, net') (getSecret mine name) =
    (match view KSecret c mine name with Some o => Ok o | None => Err (Api NotFound) end, (c, net')).
Proof.
  apply exec_cluster; [unfold getSecret; there|]. unfold getSecret. rewrite exec_api. cbn [sv_answer objects_server].
  rewrite get_secret_law. by destruct (view KSecret c mine name).
Qed.

Lemma list_host (c' : Client) : cl_base c' = cl_base cli → only (at_host h) (ListVirtualFolders quote c').
Proof. intros Hb. unfold ListVirtualFolders, do_out, exchange. walk ltac:(by cbn; rewrite Hb). Qed.

(** Trying a key out. *)
Lemma try_key c s key :
  key ≠ "" → let cli' := SetToken cli key in
  ∃ r s', perform (c, <[h := s]> net) (ListVirtualFolders quote cli') = (r, (c, <[h := s']> net)) ∧
    retained (js_view s) (js_view s') ∧ (is_Ok r = true ↔ key ∈ jv_tokens (js_view s)).
Proof.
  intros Hkey cli'. destruct (decide (key ∈ jv_tokens (js_view s))) as [Hin|Hno].
  - destruct (exec_list refuse cli' cli_base Hkey s Hin) as (s' & R & _ & K). exists (Ok (js_folders s)), s'.
    split_and!; [|done|done]. apply exec_there; [by apply list_host|exact R].
  - destruct (refused _ s (list_meaning cli' cli_base)) as [Hs K].
    { unfold authorised. rewrite bearer_request by done. by apply bool_decide_eq_false. }
    destruct (exec_failed refuse cli' (read_list read_VirtualFolder) [] s _ _ _ _ Hs) as [e R].
    eexists (Err e), _. split_and!; [|exact K|by split]. apply exec_there; [by apply list_host|exact R].
Qed.

Lemma earlier_perform c s user pass :
  ∃ r s', perform (c, <[h := s]> net) (earlierCredentials quote jf cli generated user pass) = (r, (c, <[h := s']> net)) ∧
    retained (js_view s) (js_view s') ∧
    match r with
    | inl k => earlier_key c = Some k ∧ k ∈ jv_tokens (js_view s)
    | inr (cli', user', pass') => (∀ k, earlier_key c = Some k → k ∉ jv_tokens (js_view s)) ∧
        cl_base cli' = cl_base cli ∧ user' = filled c user "username" ∧ pass' = filled c pass "password"
    end.
Proof.
  unfold earlierCredentials, earlier_key, filled. rewrite exec_bind, get_secret_perform.
  destruct (view KSecret c mine generated) as [sec|]; cbn [wrap_err mbind option_bind].
  2:{ eexists (inr (cli, user, pass)), s. split_and!; [done|done|done|done|by case_decide|by case_decide]. }
  destruct (decide (data sec "apiKey" = "")) as [Hk|Hk].
  { eexists (inr (cli, _, _)), s. split_and!; [done|done|done|done|done|done]. }
  destruct (try_key c s _ Hk) as (r & s' & R & K & Hr).
  exists (match r with Ok _ => inl (data sec "apiKey") | Err _ => inr (SetToken cli (data sec "apiKey"),
     if decide (user = "") then data sec "username" else user,
     if decide (pass = "") then data sec "password" else pass) end), s'.
  split_and!; [by eapply then_perform; [exact R|]|done|]. destruct r as [fs|e]; cbn in Hr.
  - split; [done|]. by apply Hr.
  - split_and!; [|done..]. intros k [= <-] Hin. by apply Hr in Hin.
Qed.

(** *** What getting credentials achieves *)
Record logged_in c c' s s' (token : string) (jf' : Jellyfin) : Prop := mkLoggedIn {
  li_token : token ≠ "" ∧ token ∈ jv_tokens (js_view s');
  li_server : same_content (js_view s) (js_view s');
  li_status : jf' = if decide (api_Mode spec = "provided") then jf else set_jst_APICredentialsSecret generated jf;
  li_secret : api_Mode spec ≠ "provided" → secret_holds c' token;
  li_others : same_but view KSecret mine generated c c';
  li_provided : api_Mode spec = "provided" → c' = c ∧ only_config [] (js_view s) (js_view s');
}.

Lemma earlier_key_holds c k : earlier_key c = Some k → k ≠ "" ∧ secret_holds c k.
Proof.
  unfold earlier_key, secret_holds, data. destruct (view KSecret c mine generated) as [sec|]; [|done]. cbn.
  case_decide as Hk; [done|]. intros [= <-]. split; [done|]. exists sec. split; [done|].
  by destruct (sec_Data sec !! "apiKey").
Qed.

Lemma bootstrap_host (c' : Client) user pass s s' r :
  cl_base c' = cl_base cli → exec (jellyfin refuse) s (Bootstrap quote c' user pass apiKeyAppName) = (r, s') →
  ∀ c, perform (c, <[h := s]> net) (Bootstrap quote c' user pass apiKeyAppName) = (r, (c, <[h := s']> net)).
Proof.
  intros Hb R c. eapply exec_host; [apply (Bootstrap_always quote c' user pass apiKeyAppName [])| |exact R].
  intros R' tr cl. destruct cl; try done. cbn. intros (c2 & m & p & q & b & -> & Hb2 & _)%phase_request_form.
  cbn. by rewrite Hb2, Hb.
Qed.

Lemma bootstrap_perform c s (cli' : Client) user pass :
  api_Mode spec ≠ "provided" → cl_base cli' = cl_base cli →
  jv_wizard (js_view s) = true ∨ pass ≠ "" ∧ jv_account (js_view s) = Some (user, pass) →
  free "Jellyfin" (jf_Meta jf) KSecret c generated →
  (∀ u p k, allowed (jf_Meta jf) KSecret generated (secret_mutation jf u p k) c) →
  ∃ token c' s', perform (c, <[h := s]> net)
    (pass ← (if decide (pass = "") then randomSecret else mret pass);
     key ←! Bootstrap quote cli' user pass apiKeyAppName;
     _ ←! persistGeneratedSecret jf generated user pass key;
     ok (key, set_jst_APICredentialsSecret generated jf))
    = (Ok (token, set_jst_APICredentialsSecret generated jf), (c', <[h := s']> net)) ∧
    logged_in c c' s s' token (set_jst_APICredentialsSecret generated jf).
Proof.
  intros Hmode Hb Hs Hf Ha.
  assert (∃ p', perform (c, <[h := s]> net) (if decide (pass = "") then randomSecret else mret pass)
      = (p', (c, <[h := s]> net)) ∧ (jv_wizard (js_view s) = true ∨ jv_account (js_view s) = Some (user, p')))
    as (p' & Rp & Hs').
  { case_decide as Hp; [|exists pass; split; [done|tauto]]. eexists. split; [|left; tauto].
    unfold randomSecret. rewrite exec_bind, exec_ask. done. }
  destruct (exec_Bootstrap refuse cli' apiKeyAppName user p' s) as (key & s' & R & Hne & Hin & Hc); [by rewrite Hb|done|].
  destruct (persist_perform c (<[h := s']> net) user p' key Hf (Ha _ _ _)) as (c' & Rs & Hsec & Hbut).
  exists key, c', s'. split.
  - eapply then_perform; [exact Rp|]. eapply at_perform; [by apply bootstrap_host|].
    by eapply at_perform; [exact Rs|].
  - split; [done|done|by rewrite decide_False|done|done|done].
Qed.

Lemma ensureCredentials_perform c s :
  can_log_in c (js_view s) →
  ∃ token jf' c' s', perform (c, <[h := s]> net) (ensureCredentials quote jf spec cli)
      = (Ok (token, jf'), (c', <[h := s']> net)) ∧ logged_in c c' s s' token jf'.
Proof.
  intros (key & user & pass & Hg & Hcan). unfold ensureCredentials.
  rewrite exec_try, (given_perform c _ _ Hg). destruct (decide (api_Mode spec = "provided")) as [Hm|Hm].
  - destruct Hcan as [[Hk Hin]|(-> & Hu & Hp & Hw & Hacc)].
    + exists key, jf, c, s. rewrite decide_True by done. split; [done|]. by split; [|done|rewrite decide_True| | |].
    + destruct (exec_login refuse cli cli_base s user pass Hw Hacc) as (token & s' & R & Hne & Hin & Hc).
      exists token, jf, c, s'. split; [|by split; [|apply only_config_same_content|rewrite decide_True| | |]].
      rewrite decide_False by tauto. rewrite decide_False by tauto.
      eapply at_perform; [apply exec_there; [|exact R]|done].
      unfold AuthenticateByName, do_out, exchange. there.
  - destruct (earlier_perform c s user pass) as (r & s1 & R1 & K1 & Hr). rewrite exec_bind, R1.
    destruct r as [k|[[cli' user'] pass']].
    + destruct Hr as [Hk Hin]. destruct (earlier_key_holds _ _ Hk) as [Hne Hsec].
      exists k, (set_jst_APICredentialsSecret generated jf), c, s1. split; [done|].
      split; [|by apply retained_same_content|by rewrite decide_False|done|done|done].
      split; [done|]. by apply (retained_tokens _ _ K1).
    + destruct Hr as (Hno & Hb & -> & ->). destruct Hcan as [(k & Hk & Hin)|(Hs & Hf & Ha)]; [by destruct (Hno k)|].
      destruct (bootstrap_perform c s1 cli' (user_of c user) (filled c pass "password") Hm Hb)
        as (token & c' & s' & R & [Ht Hc Hst Hsec Hot Hpr]); [|done|done|].
      { by rewrite (retained_wizard _ _ K1), (retained_account _ _ K1). }
      exists token, (set_jst_APICredentialsSecret generated jf), c', s'. split; [exact R|].
      split; [done|etrans; [by apply retained_same_content|done]|done|done|done|done].
Qed.
(** *** What is declared of the settings *)
Notation encoding := (desiredEncoding (js_Transcoding (jf_Spec jf))).
Notation server_config := (desiredServerConfig (js_General (jf_Spec jf)) (js_Playback (jf_Spec jf))).
Notation branding := (desiredBranding (js_Branding (jf_Spec jf))).

Definition encoding_paths : list string :=
  if decide (js_Transcoding (jf_Spec jf) = None) then [] else [encodingConfigPath].
Definition server_config_paths : list string :=
  if decide (js_General (jf_Spec jf) = None ∧ js_Playback (jf_Spec jf) = None) then [] else [serverConfigPath].
Definition branding_paths : list string :=
  if decide (js_Branding (jf_Spec jf) = None) then [] else [brandingConfigPath].

(** Every declared setting is in place. *)
Definition branding_in_place (v : Jellyfin_view) : Prop :=
  in_place (λ r, EnforceBranding r branding) brandingConfigPath v.
Definition server_config_in_place (v : Jellyfin_view) : Prop :=
  in_place (λ r, EnforceServerConfig r server_config) serverConfigPath v.
Definition encoding_in_place (v : Jellyfin_view) : Prop :=
  in_place (λ r, EnforceEncodingOptions r encoding) encodingConfigPath v.
Definition settings_in_place (v : Jellyfin_view) : Prop :=
  (js_Branding (jf_Spec jf) ≠ None → branding_in_place v) ∧
  (js_General (jf_Spec jf) ≠ None ∨ js_Playback (jf_Spec jf) ≠ None → server_config_in_place v) ∧
  (js_Transcoding (jf_Spec jf) ≠ None → encoding_in_place v).

Lemma settings_in_place_same v v' : jv_config v' = jv_config v → settings_in_place v → settings_in_place v'.
Proof.
  intros Heq (H1' & H2' & H3'). split_and!; intros Hd; (eapply in_place_same; [by rewrite Heq|]);
    [by apply H1'|by apply H2'|by apply H3'].
Qed.

(** *** The areas of a pass, each followed by the later ones *)
Section areas.
Hypothesis has_token : cl_token cli ≠ "".
Notation known s := (cl_token cli ∈ jv_tokens (js_view s)).
Notation finished := (mkResult (requeue RequeueInterval)).

Definition reports (t reason : string) (jf' : Jellyfin) : Prop :=
  ∃ cond, FindStatusCondition (jst_Conditions (jf_Status jf')) t = Some cond ∧
    cond_Status cond = ConditionTrue ∧ cond_Reason cond = reason.

Lemma reports_set jf1 t reason msg : reports t reason (with_condition jf1 t ConditionTrue reason msg).
Proof. eexists. split; [apply find_set_same|done]. Qed.

Definition same_instance (jf1 : Jellyfin) : Prop := jf_Meta jf1 = jf_Meta jf ∧ jf_Spec jf1 = jf_Spec jf.
Definition present c : Prop :=
  ∃ jf0, view KJellyfin c mine (jf_Name jf) = Some jf0 ∧ jf_Spec jf0 = jf_Spec jf ∧ jf_Meta jf0 = jf_Meta jf.

(** From the status carried so far and the server to those at the end: conditions of
    some types and documents under some paths may have changed. *)
Record stage (types paths : list string) (jf1 : Jellyfin) c c' (v v' : Jellyfin_view) (got : Jellyfin) : Prop := mkStage {
  st_view : view KJellyfin c' mine (jf_Name jf) = Some got;
  st_spec : jf_Spec got = jf_Spec jf;
  st_meta : jf_Meta got = jf_Meta jf;
  st_endpoints : jst_Endpoints (jf_Status got) = jst_Endpoints (jf_Status jf1);
  st_secret : jst_APICredentialsSecret (jf_Status got) = jst_APICredentialsSecret (jf_Status jf1);
  st_managed : jst_ManagedLibraries (jf_Status got) = jst_ManagedLibraries (jf_Status jf1);
  st_ready : reports conditionAPIReady "Authenticated" got;
  st_conditions t : t ∉ conditionAPIReady :: types →
    FindStatusCondition (jst_Conditions (jf_Status got)) t = FindStatusCondition (jst_Conditions (jf_Status jf1)) t;
  st_server : only_config paths v v';
  st_rest : settings_in_place v → only_config [] v v';
  st_others : same_but view KJellyfin mine (jf_Name jf) c c';
}.

(** The rest of a pass, to its end. *)
Definition ends (k : Jellyfin → M Result) (types paths : list string) (extra : Jellyfin → Jellyfin_view → Prop) : Prop :=
  ∀ jf1 c s, same_instance jf1 → present c → known s →
  ∃ got c' s', perform (c, <[h := s]> net) (k jf1) = (Ok finished, (c', <[h := s']> net)) ∧
    stage types paths jf1 c c' (js_view s) (js_view s') got ∧ extra got (js_view s').

Lemma ends_mono k types types' paths extra extra' :
  types ⊆ types' → (∀ got v, extra got v → extra' got v) → ends k types paths extra → ends k types' paths extra'.
Proof.
  intros Ht He Hk jf1 c s Hi Hp Hs. destruct (Hk jf1 c s Hi Hp Hs) as (got & c' & s' & R & [] & Hx).
  exists got, c', s'. split_and!; [done|split; [done..| |done|done|done]|by apply He]. intros t Hno. set_solver.
Qed.

Lemma ends_same (k k' : Jellyfin → M Result) types paths extra :
  (∀ jf1, same_instance jf1 → k' jf1 = k jf1) → ends k types paths extra → ends k' types paths extra.
Proof. intros Heq Hk jf1 c s Hi Hp Hs. rewrite Heq by done. by apply Hk. Qed.

Lemma ends_authenticated : ends (authenticated RequeueInterval) [] [] (λ _ _, True).
Proof.
  intros jf1 c s [Hm Hsp] (jf0 & Hv & Hs0 & Hm0) Hs. unfold authenticated, ApiController.finish.
  match goal with |- context [writeJellyfinStatus ?x] => set (jf2 := x) end.
  assert (jf_Namespace jf2 = mine ∧ jf_Name jf2 = jf_Name jf) as [Hns Hn].
  { unfold jf_Namespace, jf_Name, jf2. cbn. by rewrite Hm. }
  rewrite <-Hns, <-Hn in Hv.
  destruct (writeJellyfinStatus_perform c jf0 jf2 Hv) as (got & c' & R & Hg & Hst & Hspec & Hmeta & Hb).
  rewrite Hns, Hn in Hg, Hb. exists got, c', s. split_and!; [|split; rewrite ?Hst; try done; try congruence|done].
  - eapply at_perform; [apply exec_cluster; [|exact R]; unfold writeJellyfinStatus; there|done].
  - unfold reports. rewrite Hst. apply reports_set.
  - intros t Ht. apply find_set_other. cbn. intros ->. apply Ht. by left.
Qed.

(** An area of settings. *)
Lemma ends_area (m : Jellyfin → M unit) path enforce type err what okMessage k types paths extra :
  (∀ jf1 s, same_instance jf1 → known s → ∃ s', exec (jellyfin refuse) s (m jf1) = (Ok tt, s') ∧
     only_config [path] (js_view s) (js_view s') ∧ in_place enforce path (js_view s') ∧
     (in_place enforce path (js_view s) → only_config [] (js_view s) (js_view s'))) →
  (∀ v, settings_in_place v → in_place enforce path v) →
  (∀ jf1, same_instance jf1 → only (at_host h) (m jf1)) → path ∉ paths → type ∉ conditionAPIReady :: types →
  ends k types paths extra →
  ends (λ jf1, area library_text RequeueInterval jf1 (unchanged (m jf1) jf1) type err what okMessage k)
    (type :: types) (path :: paths)
    (λ got v, extra got v ∧ reports type "Reconciled" got ∧ in_place enforce path v).
Proof.
  intros Hm Hin Hat Hpath Htype Hk jf1 c s Hi Hp Hs. destruct (Hm jf1 s Hi Hs) as (s1 & R1 & O1 & I1 & Q1).
  destruct (Hk (with_condition jf1 type ConditionTrue "Reconciled" okMessage) c s1)
    as (got & c' & s' & R & [Hv Hsp Hme Hen Hse Hma Hre Hco Hsv Hrs Hot] & Hx); [done|done|by apply (oc_tokens _ _ _ O1)|].
  exists got, c', s'. split_and!; [|split; [done..| | | |done]|done| |].
  - unfold area, unchanged. eapply then_perform; [eapply at_perform; [apply exec_there; [by apply Hat|exact R1]|done]|exact R].
  - intros t Ht. rewrite Hco by set_solver. apply find_set_other. cbn. set_solver.
  - etrans; [eapply only_config_mono; [|exact O1]|eapply only_config_mono; [|exact Hsv]]; set_solver.
  - intros Hall. pose proof (Q1 (Hin _ Hall)) as O. etrans; [exact O|]. apply Hrs.
    eapply settings_in_place_same; [|exact Hall]. by apply only_config_same_content in O as [].
  - unfold reports. rewrite Hco by done. apply reports_set.
  - eapply in_place_same; [|exact I1]. by eapply oc_config.
Qed.
(** *** The settings *)
Lemma encoding_nothing d : DesiredEncoding_Empty d = true → list_to_map (encoding_fields d) = (∅ : gmap string Json).
Proof. intros (H3 & H4 & H5 & H6)%bool_decide_eq_true. destruct d. cbn in *. by subst. Qed.

Lemma config_host {D} (empty : D → bool) path enforce (d : D) :
  only (at_host h) (reconcileConfig empty (λ cl, get_raw quote cl path) enforce
    (λ cl cfg, do_raw quote cl MethodPost path cfg id) d cli).
Proof. unfold reconcileConfig, get_raw, do_raw, do, do_out, exchange, parsed. there. Qed.

Lemma ends_settings {D} (m : Jellyfin → M unit) (empty : D → bool) path enforce (d : D) wanted
    type err what okMessage k types paths extra :
  (∀ jf1, jf_Spec jf1 = jf_Spec jf → m jf1 = reconcileConfig empty (λ cl, get_raw quote cl path) enforce
     (λ cl cfg, do_raw quote cl MethodPost path cfg id) d cli) →
  overlay_contract wanted (λ r, enforce r d) → (empty d = true → wanted = ∅) →
  (∀ cur out changed, enforce cur d = Ok (out, changed) → if changed then ∃ m, out = marshal_map m else out = cur) →
  path ∈ config_paths → path ∉ paths → type ∉ conditionAPIReady :: types →
  (∀ v, settings_in_place v → in_place (λ r, enforce r d) path v) →
  ends k types paths extra →
  ends (λ jf1, area library_text RequeueInterval jf1 (unchanged (m jf1) jf1) type err what okMessage k)
    (type :: types) (path :: paths)
    (λ got v, extra got v ∧ reports type "Reconciled" got ∧ in_place (λ r, enforce r d) path v).
Proof.
  intros Hm Hcon Hempty Hmar Hpath Hno Htype Hin Hk. apply ends_area; try done.
  - intros jf1 s [_ Hs] Htok. rewrite Hm by done. by apply (exec_reconcileConfig refuse path empty enforce d wanted).
  - intros jf1 [_ Hs]. rewrite Hm by done. apply config_host.
Qed.

Lemma ends_branding :
  ends (brandingArea quote library_text RequeueInterval cli) [conditionBrandingReady] branding_paths
    (λ got v, js_Branding (jf_Spec jf) ≠ None →
       reports conditionBrandingReady "Reconciled" got ∧
       in_place (λ r, EnforceBranding r branding) brandingConfigPath v).
Proof.
  unfold branding_paths. case_decide as Hd; (eapply ends_same; [intros jf1 [_ Hs]; unfold brandingArea; rewrite Hs;
    first [by rewrite decide_True by exact Hd|by rewrite decide_False by exact Hd]|]).
  { eapply ends_mono; [| |apply ends_authenticated]; [set_solver|done]. }
  eapply ends_mono; [done| |eapply (ends_settings (λ jf1, reconcileBranding quote jf1 cli) DesiredBranding_Empty brandingConfigPath
    EnforceBranding branding (DesiredBranding_managed branding)); [|apply branding_contract|exact (proj1 (bool_decide_eq_true _))| | | | | |apply ends_authenticated]].
  - by intros got v (_ & ?).
  - intros jf1 Hs. unfold reconcileBranding. by rewrite Hs.
  - intros cur out ch. apply overlay_marshals.
  - literal.
  - apply not_elem_of_nil.
  - literal.
  - intros v Hin. by apply Hin.
Qed.

Lemma ends_server_config :
  Forall int64_opt (server_ints server_config) →
  ends (serverConfigArea quote library_text RequeueInterval cli) [conditionServerConfigReady; conditionBrandingReady]
    (server_config_paths ++ branding_paths)
    (λ got v, (js_Branding (jf_Spec jf) ≠ None → reports conditionBrandingReady "Reconciled" got ∧
       in_place (λ r, EnforceBranding r branding) brandingConfigPath v) ∧
      (js_General (jf_Spec jf) ≠ None ∨ js_Playback (jf_Spec jf) ≠ None →
       reports conditionServerConfigReady "Reconciled" got ∧
       in_place (λ r, EnforceServerConfig r server_config) serverConfigPath v)).
Proof.
  intros Hints. unfold server_config_paths. case_decide as Hd; (eapply ends_same; [intros jf1 [_ Hs]; unfold serverConfigArea; rewrite Hs;
    first [by rewrite decide_True by exact Hd|by rewrite decide_False by exact Hd]|]).
  { eapply ends_mono; [| |apply ends_branding]; [set_solver|tauto]. }
  eapply ends_mono; [done| |eapply (ends_settings (λ jf1, reconcileServerConfig quote jf1 cli) DesiredServerConfig_Empty serverConfigPath
    EnforceServerConfig server_config (DesiredServerConfig_managed server_config)); [|by apply server_contract|exact (proj1 (bool_decide_eq_true _))| | | | | |apply ends_branding]].
  - by intros got v (? & ?).
  - intros jf1 Hs. unfold reconcileServerConfig. by rewrite Hs.
  - intros cur out ch. apply overlay_marshals.
  - literal.
  - unfold branding_paths. case_decide; literal.
  - literal.
  - intros v Hin. apply Hin. apply not_and_l in Hd. done.
Qed.

Lemma ends_encoding :
  Forall int64_opt (server_ints server_config) →
  Forall int64_opt [de_ThrottleDelaySeconds encoding; de_SegmentKeepSeconds encoding] →
  ends (encodingArea quote library_text RequeueInterval cli)
    [conditionTranscodingReady; conditionServerConfigReady; conditionBrandingReady]
    (encoding_paths ++ server_config_paths ++ branding_paths)
    (λ got v, ((js_Branding (jf_Spec jf) ≠ None → reports conditionBrandingReady "Reconciled" got ∧
       in_place (λ r, EnforceBranding r branding) brandingConfigPath v) ∧
      (js_General (jf_Spec jf) ≠ None ∨ js_Playback (jf_Spec jf) ≠ None →
       reports conditionServerConfigReady "Reconciled" got ∧
       in_place (λ r, EnforceServerConfig r server_config) serverConfigPath v)) ∧
      (js_Transcoding (jf_Spec jf) ≠ None →
       reports conditionTranscodingReady "Reconciled" got ∧
       in_place (λ r, EnforceEncodingOptions r encoding) encodingConfigPath v)).
Proof.
  intros Hints He. unfold encoding_paths. case_decide as Hd; (eapply ends_same; [intros jf1 [_ Hs]; unfold encodingArea; rewrite Hs;
    first [by rewrite decide_True by exact Hd|by rewrite decide_False by exact Hd]|]).
  { eapply ends_mono; [| |by apply ends_server_config]; [set_solver|intros got v Hx; by split]. }
  eapply ends_mono; [done| |eapply (ends_settings (λ jf1, reconcileEncoding quote jf1 cli) DesiredEncoding_Empty encodingConfigPath
    EnforceEncodingOptions encoding (list_to_map (encoding_fields encoding))); [|by apply encoding_contract|apply encoding_nothing| | | | | |by apply ends_server_config]].
  - by intros got v (? & ?).
  - intros jf1 Hs. unfold reconcileEncoding. by rewrite Hs.
  - intros cur out ch. apply overlay_marshals.
  - literal.
  - unfold server_config_paths, branding_paths. repeat case_decide; literal.
  - literal.
  - intros v Hin. by apply Hin.
Qed.
End areas.

(** *** The whole pass *)

(** What the resource declares can be written: library names are distinct, options are
    objects, and numbers are those of their Go types. *)
Record well_declared : Prop := mkWellDeclared {
  wd_names : api_ManageLibraries spec = true → NoDup (dl_Name <$> desiredLibraries jf);
  wd_options d : api_ManageLibraries spec = true → d ∈ desiredLibraries jf → options_read d;
  wd_server : Forall int64_opt (server_ints (desiredServerConfig (js_General (jf_Spec jf)) (js_Playback (jf_Spec jf))));
  wd_encoding : let e := desiredEncoding (js_Transcoding (jf_Spec jf)) in
    Forall int64_opt [de_ThrottleDelaySeconds e; de_SegmentKeepSeconds e];
}.

(** The server is as declared. *)
Definition at_rest s : Prop :=
  (api_ManageLibraries spec = true →
     settled (desiredLibraries jf) (js_folders s) (jst_ManagedLibraries (jf_Status jf)) (api_Prune spec)) ∧
  settings_in_place (js_view s).

Lemma at_rest_same s s' : same_content (js_view s) (js_view s') → at_rest s → at_rest s'.
Proof.
  intros [Hl Hc _] [Hs Hp]. split; [|by eapply settings_in_place_same]. intros Hm.
  eapply settled_paths; [apply folders_distinct|apply folders_distinct| |by apply Hs]. by rewrite !folders_view.
Qed.

Notation later := [conditionTranscodingReady; conditionServerConfigReady; conditionBrandingReady].
Notation managed_paths := (encoding_paths ++ server_config_paths ++ branding_paths).

Definition settings_done (got : Jellyfin) (v : Jellyfin_view) : Prop :=
  ((js_Branding (jf_Spec jf) ≠ None → reports conditionBrandingReady "Reconciled" got ∧ branding_in_place v) ∧
   (js_General (jf_Spec jf) ≠ None ∨ js_Playback (jf_Spec jf) ≠ None →
     reports conditionServerConfigReady "Reconciled" got ∧ server_config_in_place v)) ∧
  (js_Transcoding (jf_Spec jf) ≠ None → reports conditionTranscodingReady "Reconciled" got ∧ encoding_in_place v).

Definition libraries_done (got : Jellyfin) s s' : Prop :=
  if api_ManageLibraries spec then
    reports conditionLibrariesReady "Reconciled" got ∧
    jst_ManagedLibraries (jf_Status got) = sort_strings (dl_Name <$> desiredLibraries jf) ∧
    settled (desiredLibraries jf) (js_folders s') (jst_ManagedLibraries (jf_Status jf)) (api_Prune spec)
  else
    jst_ManagedLibraries (jf_Status got) = jst_ManagedLibraries (jf_Status jf) ∧
    jv_libs (js_view s') = jv_libs (js_view s).

(** The part of the status that the areas before the settings leave alone. *)
Record same_report (jf1 jf2 : Jellyfin) : Prop := mkSameReport {
  sr_endpoints : jst_Endpoints (jf_Status jf2) = jst_Endpoints (jf_Status jf1);
  sr_secret : jst_APICredentialsSecret (jf_Status jf2) = jst_APICredentialsSecret (jf_Status jf1);
  sr_conditions t : t ∉ api_conditions →
    FindStatusCondition (jst_Conditions (jf_Status jf2)) t = FindStatusCondition (jst_Conditions (jf_Status jf1)) t;
}.

Section areas_pass.
Hypothesis has_token : cl_token cli ≠ "".
Notation known s := (cl_token cli ∈ jv_tokens (js_view s)).

Lemma libraries_host jf1 : only (at_host h) (reconcileLibraries quote jf1 spec cli).
Proof.
  unfold reconcileLibraries, enforceLibraryOptions, enforceOne, parsed, ListVirtualFolders, AddVirtualFolder,
    AddMediaPath, RemoveMediaPath, RemoveVirtualFolder, UpdateLibraryOptions, RefreshLibraries, do_raw, do, do_out, exchange.
  there.
Qed.

(** The areas of a logged-in client: what there is after the libraries, and at the end. *)
Lemma reconcileAreas_perform jf1 c s :
  well_declared → same_instance jf1 → jst_ManagedLibraries (jf_Status jf1) = jst_ManagedLibraries (jf_Status jf) →
  present c → known s →
  ∃ got jf2 c' s' s1, perform (c, <[h := s]> net) (reconcileAreas quote library_text RequeueInterval jf1 spec cli)
      = (Ok (mkResult (requeue RequeueInterval)), (c', <[h := s']> net)) ∧
    same_report jf1 jf2 ∧ stage later managed_paths jf2 c c' (js_view s1) (js_view s') got ∧
    settings_done got (js_view s') ∧ libraries_done got s s' ∧
    retained (set_libs (jv_libs (js_view s1)) (js_view s)) (js_view s1) ∧
    (at_rest s → jv_libs (js_view s1) = jv_libs (js_view s)).
Proof.
  intros [Hnames Hopts Hints Henc] Hi Hman Hp Hk. unfold reconcileAreas, libraries_done, at_rest.
  destruct (api_ManageLibraries spec) eqn:Hm.
  2:{ destruct (ends_encoding has_token Hints Henc jf1 c s Hi Hp Hk) as (got & c' & s' & R & St & He).
      exists got, jf1, c', s', s. split_and!; try done; [by rewrite (st_managed _ _ _ _ _ _ _ _ St)|].
      apply (oc_libs _ _ _ (st_server _ _ _ _ _ _ _ _ St)). }
  assert (desiredLibraries jf1 = desiredLibraries jf) as Hd by (unfold desiredLibraries; by rewrite (proj2 Hi)).
  destruct (reconcileLibraries_settles refuse cli cli_base has_token jf1 spec s Hk) as (s1 & R1 & K1 & Hs & Hq);
    rewrite Hd in *; [by apply Hnames|intros d; by apply Hopts|]. rewrite Hman in Hs, Hq.
  set (jf2 := with_condition (managed_update jf1) conditionLibrariesReady ConditionTrue "Reconciled" "Libraries reconciled").
  destruct (ends_encoding has_token Hints Henc jf2 c s1) as (got & c' & s' & R & St & He);
    [by split; apply Hi|done|by apply (retained_tokens _ _ K1)|].
  exists got, jf2, c', s', s1. split_and!; [| |exact St|exact He| | | |exact K1|].
  - unfold area. eapply then_perform; [apply exec_there; [apply libraries_host|exact R1]|exact R].
  - split; [done|done|]. intros t Ht. apply find_set_other. cbn. intros ->. apply Ht. literal.
  - unfold reports. rewrite (st_conditions _ _ _ _ _ _ _ _ St) by literal. apply reports_set.
  - rewrite (st_managed _ _ _ _ _ _ _ _ St). cbn. by rewrite Hd.
  - eapply settled_paths; [apply folders_distinct|apply folders_distinct| |exact Hs].
    rewrite !folders_view. apply (oc_libs _ _ _ (st_server _ _ _ _ _ _ _ _ St)).
  - intros [Hset _]. by apply Hq, Hset.
Qed.
End areas_pass.

(** What a pass leaves, from the cluster [c] and the server [s]; [got] is the instance as
    it is then. *)
Record configured c c' s s' (got : Jellyfin) : Prop := mkConfigured {
  cf_view : view KJellyfin c' mine (jf_Name jf) = Some got;
  cf_spec : jf_Spec got = jf_Spec jf;
  cf_meta : jf_Meta got = jf_Meta jf;
  cf_endpoints : jst_Endpoints (jf_Status got) = jst_Endpoints (jf_Status jf);
  cf_conditions t : t ∉ api_conditions →
    FindStatusCondition (jst_Conditions (jf_Status got)) t = FindStatusCondition (jst_Conditions (jf_Status jf)) t;
  cf_ready : reports conditionAPIReady "Authenticated" got;
  cf_libraries : libraries_done got s s';
  cf_settings : settings_done got (js_view s');
  cf_documents path : path ∉ managed_paths → jv_config (js_view s') !! path = jv_config (js_view s) !! path;
  cf_tokens : jv_tokens (js_view s) ⊆ jv_tokens (js_view s');
  cf_secret : api_Mode spec ≠ "provided" →
    jst_APICredentialsSecret (jf_Status got) = generated ∧
    ∃ key, key ≠ "" ∧ secret_holds c' key ∧ key ∈ jv_tokens (js_view s');
  cf_provided : api_Mode spec = "provided" → (∀ ns n, view KSecret c' ns n = view KSecret c ns n) ∧
    jv_wizard (js_view s') = jv_wizard (js_view s) ∧ jv_account (js_view s') = jv_account (js_view s);
  cf_others k ns n : (k, ns, n) ≠ (KJellyfin, mine, jf_Name jf) → (k, ns, n) ≠ (KSecret, mine, generated) →
    view k c' ns n = view k c ns n;
  cf_rest : at_rest s → same_content (js_view s) (js_view s');
}.

(** What logging in and the areas leave, together. *)
Lemma areas_configure c c1 c' s s0 s1 s' token jf1 jf2 got :
  logged_in c c1 s s0 token jf1 → same_report jf1 jf2 →
  stage later managed_paths jf2 c1 c' (js_view s1) (js_view s') got →
  settings_done got (js_view s') → libraries_done got s0 s' →
  retained (set_libs (jv_libs (js_view s1)) (js_view s0)) (js_view s1) →
  (at_rest s0 → jv_libs (js_view s1) = jv_libs (js_view s0)) →
  configured c c' s s' got.
Proof.
  clear cli_base. intros [[Hne Htok] Hsc Hjf1 Hsec Hoth Hpr] [Se Ss Sc] [Hv Hsp Hme Hen Hse Hma Hre Hco [Ol Ow Oa Oc Ot] Hrs Hot] Hset Hlib
    [_ Kc Kw Ka _ Kt] Hq. cbn in *.
  assert (jst_Endpoints (jf_Status jf1) = jst_Endpoints (jf_Status jf) ∧
    jst_Conditions (jf_Status jf1) = jst_Conditions (jf_Status jf)) as [He1 Hc1] by (rewrite Hjf1; by case_decide).
  split; try done.
  - congruence.
  - intros t Ht. rewrite <-Hc1, <-Sc by done. apply Hco. unfold api_conditions in Ht. set_solver.
  - unfold libraries_done in *. destruct (api_ManageLibraries spec); [exact Hlib|].
    split; [apply Hlib|]. by rewrite (proj2 Hlib), (sc_libs _ _ Hsc).
  - intros path Hp. by rewrite Oc, Kc, (sc_config _ _ Hsc) by done.
  - etrans; [apply Hsc|]. by etrans.
  - intros Hm. rewrite Hse, Ss, Hjf1, decide_False by done. split; [done|]. exists token.
    split_and!; [done| |by apply Ot, Kt]. destruct (Hsec Hm) as (sec & Hsv1 & Hk). exists sec. split; [|done]. by rewrite Hot.
  - intros Hm. destruct (Hpr Hm) as [-> [_ Lw La _ _]]. split_and!; [intros ns n; by rewrite Hot|congruence|congruence].
  - intros k ns n ? ?. by rewrite Hot, Hoth.
  - intros Hr. pose proof (at_rest_same _ _ Hsc Hr) as Hr0. etrans; [exact Hsc|].
    assert (same_content (js_view s0) (js_view s1)) as Hsc1 by (split; [by apply Hq|done|done]).
    etrans; [exact Hsc1|]. apply only_config_same_content, Hrs. eapply settings_in_place_same; [exact Kc|]. apply Hr0.
Qed.
End instance.

(** ** Pass after pass *)
Section passes.
Context `{KubeLib, RetryLib, NetUrl, MapOrder, Unicode} {C S : Type} `{!ApiObjects C, !JellyfinServer S}.
Implicit Types (c : C) (s : S) (jf : Jellyfin) (spec : JellyfinAPISpec).

(** When a pass can do its work: a ready instance known under its Service, at which there
    is a server that can be logged in to, and a declaration that can be written. *)
Record configurable jf spec c s : Prop := mkConfigurable {
  cb_view : view KJellyfin c (jf_Namespace jf) (jf_Name jf) = Some jf;
  cb_live : om_DeletionTimestamp (jf_Meta jf) = None;
  cb_api : js_API (jf_Spec jf) = Some spec;
  cb_ready : instanceReady jf = true;
  cb_service : at_service jf;
  cb_login : can_log_in jf spec c (js_view s);
  cb_declared : well_declared jf spec;
}.

Lemma configure draw library_text RequeueInterval jf spec c (net : gmap string S) s :
  configurable jf spec c s → js_base (S := S) = "" → net !! service_host jf = Some s →
  ∃ got c' s',
    exec (site draw) (c, net) (ReconcileAPI Quote library_text RequeueInterval (jf_Namespace jf) (jf_Name jf))
      = (Ok (mkResult (requeue RequeueInterval)), (c', <[service_host jf := s']> net)) ∧
    configured jf spec c c' s s' got.
Proof.
  intros [Hv Hdel Hapi Hready Hat Hlog Hwell] Hroot Hnet.
  set (cli := mkClient (mkURL "http" (service_host jf) "" ∅) "" OperatorClientName "operator" (om_UID (jf_Meta jf)) "0.1.0").
  destruct (ensureCredentials_perform draw jf spec net cli (eq_sym Hroot) c s Hlog) as (token & jf1 & c1 & s0 & R1 & Hl).
  assert (same_instance jf jf1 ∧ jst_ManagedLibraries (jf_Status jf1) = jst_ManagedLibraries (jf_Status jf)) as [Hi Hma].
  { destruct Hl as [_ _ -> _ _ _]. by case_decide. }
  destruct (reconcileAreas_perform draw library_text RequeueInterval jf spec net (SetToken cli token) (eq_sym Hroot)
    (proj1 (li_token _ _ _ _ _ _ _ _ Hl)) jf1 c1 s0 Hwell Hi Hma)
    as (got & jf2 & c' & s' & s1 & R2 & Hsr & St & Hset & Hlib & K1 & Hq).
  { exists jf. split; [|done]. by rewrite (li_others _ _ _ _ _ _ _ _ Hl). }
  { apply (li_token _ _ _ _ _ _ _ _ Hl). }
  exists got, c', s'. split; [|by eapply areas_configure].
  assert ((c, net) = (c, <[service_host jf := s]> net)) as -> by by rewrite insert_id.
  unfold ReconcileAPI. rewrite exec_bind, exec_ask. cbn [sv_answer site site_answer fst].
  rewrite get_jellyfin_law, Hv, Hapi, Hdel. unfold reconcileAPI. rewrite Hready. cbn [negb].
  unfold newClient, New. rewrite at_service_parse by exact Hat. fold cli.
  eapply then_perform; [exact R1|exact R2].
Qed.

(** Only the name, the namespace and the spec matter to what can be done. *)
Lemma can_log_in_same jf jf' spec c v : jf_Meta jf' = jf_Meta jf → can_log_in jf spec c v → can_log_in jf' spec c v.
Proof. destruct jf, jf'. cbn. intros ->. exact id. Qed.

Lemma well_declared_same jf jf' spec : jf_Spec jf' = jf_Spec jf → well_declared jf spec → well_declared jf' spec.
Proof. destruct jf, jf'. cbn. intros -> []. by split. Qed.

Lemma at_service_same jf jf' :
  jf_Meta jf' = jf_Meta jf → jf_Spec jf' = jf_Spec jf →
  jst_Endpoints (jf_Status jf') = jst_Endpoints (jf_Status jf) → at_service jf → at_service jf'.
Proof. destruct jf as [? ? []], jf' as [? ? []]. cbn. intros -> -> ->. exact id. Qed.

(** The next pass can be made as well. *)
Lemma can_log_in_again jf spec c c' s s' got :
  can_log_in jf spec c (js_view s) → configured jf spec c c' s s' got → can_log_in jf spec c' (js_view s').
Proof.
  intros (key & user & pass & Hg & Hcan) Hc. destruct (decide (api_Mode spec = "provided")) as [Hm|Hm].
  - destruct (cf_provided _ _ _ _ _ _ _ Hc Hm) as (Hsec & Hw & Ha). exists key, user, pass.
    rewrite decide_True by done. split.
    + unfold given_in in *. destruct (api_CredentialsSecret spec); [|done]. case_decide; [done|]. by rewrite Hsec.
    + rewrite Hw, Ha. destruct Hcan as [[Hk Hin]|Hcan]; [left; split; [done|]|by right].
      by apply (cf_tokens _ _ _ _ _ _ _ Hc).
  - destruct (cf_secret _ _ _ _ _ _ _ Hc Hm) as (_ & k & Hne & (sec & Hv & Hk) & Hin).
    assert (is_Some (given_in jf spec c')) as [[[key' user'] pass'] Hg'].
    { unfold given_in in *. destruct (api_CredentialsSecret spec) as [name|]; [|by eexists].
      case_decide; [by eexists|]. destruct (decide (name = generatedName jf spec)) as [->|Hn].
      - rewrite Hv. by eexists.
      - rewrite (cf_others _ _ _ _ _ _ _ Hc) by congruence.
        destruct (view KSecret c (jf_Namespace jf) name); [by eexists|done]. }
    exists key', user', pass'. split; [done|]. rewrite decide_False by done. left. exists k. split; [|done].
    unfold earlier_key. rewrite Hv. cbn. unfold data. rewrite Hk. cbn. by rewrite decide_False.
Qed.

Lemma configurable_again jf spec c c' s s' got :
  configurable jf spec c s → configured jf spec c c' s s' got → configurable got spec c' s'.
Proof.
  intros [Hv Hdel Hapi Hready Hat Hlog Hwell] Hc. pose proof Hc as [Gv Gs Gm Ge Gc _ _ _ _ _ _ _ _ _].
  split; [|by rewrite Gm|by rewrite Gs| |by eapply at_service_same|by eapply can_log_in_same, can_log_in_again|
    by eapply well_declared_same].
  - unfold jf_Namespace, jf_Name. by rewrite Gm.
  - unfold instanceReady in *. by rewrite Gc by literal.
Qed.

(** What a pass leaves is what is declared. *)
Lemma configured_at_rest jf spec c c' s s' got : configured jf spec c c' s s' got → at_rest got spec s'.
Proof.
  intros [_ Gs _ _ _ _ Gl [[Gb Gg] Gt] _ _ _ _ _ _]. split.
  - intros Hm. unfold libraries_done in Gl. rewrite Hm in Gl. destruct Gl as (_ & Hma & Hd & _).
    assert (desiredLibraries got = desiredLibraries jf) as Hds by (unfold desiredLibraries; by rewrite Gs).
    rewrite Hds, Hma. split; [exact Hd|]. intros _ f _ Hf. unfold sort_strings in Hf. by rewrite elem_of_sort_by in Hf.
  - unfold settings_in_place, branding_in_place, server_config_in_place, encoding_in_place. rewrite Gs.
    split_and!; intros Hd; [by apply Gb|by apply Gg|by apply Gt].
Qed.
End passes.


(** A ready instance whose server was just started: nobody has gone through the first-run
    wizard, and there is no Secret. *)
Module Example_site.
Import Example_objects.
Definition jf : Jellyfin :=
  kept KJellyfin "media" "home" (mkJellyfin (meta_lit "home" "media" ∅ ∅)
    (mkJellyfinSpec "" None (mkStorage (mkPVCSpec "" 0%Z "" [] "") None None
         [Example_converge.folder "Films" "/media/films"; Example_converge.folder "Shows" "/media/shows"])
       (mkServiceSpec "" 0%Z ∅) None None None ResourceRequirements_zero None None (Some Example_converge.spec)
       (Some (mkTranscoding (Some (mkThrottle (Some true) (Some 180%Z))) None)) None
       (Some (mkBranding (Some "Welcome") None None)) None None ∅ [])
    (mkJellyfinStatus "Ready" 0%Z (mkEndpoints "http://home.media.svc:8096" "") [] "" ["Old"]
       [mkCondition conditionReady ConditionTrue "" "" 0%Z])).
Definition cluster : store := assign KJellyfin "media" "home" (Some jf) [].
Definition fresh : RefJellyfin.state :=
  RefJellyfin.mkState {[ "Old" := {[ "/old" ]}; "Home videos" := {[ "/home" ]} ]}
    {[ brandingConfigPath := [("CustomCss", JString "a")] ]} true None false [].
Definition net : gmap string RefJellyfin.state :=
  {[ "home.media.svc:8096" := fresh; "away.media.svc:8096" := fresh ]}.

Lemma secret_free : free "Jellyfin" (jf_Meta jf) KSecret cluster "home-api".
Proof. intros o Ho. change (look KSecret cluster "media" "home-api" = Some o) in Ho. discriminate Ho. Qed.

Lemma declared : well_declared jf Example_converge.spec.
Proof.
  split.
  - intros _. by apply (bool_decide_unpack _); vm_compute.
  - intros d _ Hd. left. cbn in Hd. rewrite !elem_of_cons, elem_of_nil in Hd. by destruct Hd as [->|[->|[]]].
  - repeat constructor.
  - cbn. repeat constructor; cbn; lia.
Qed.
End Example_site.

