(* ===== verification/Served.v ===== *)
(** * From the resource to a configured server
    (the instance controller and the API controller of internal/controller, one after
    the other)

    What the first writes into the status is what the second finds: the address of the
    Service, and that the instance is ready. *)
From S2P Require Import Prelude GoStrings Sha256 Json K8s ApiTypes Naming Meta HwAccel Builder Web Gateway Http Kube Programs Options Libraries Client Wire Bindings PluginController JellyfinController ApiController Server Converge Session Wiring Objects Provision Settled.

Section served.
Context `{KubeLib, RetryLib, NetUrl, MapOrder, Unicode} {C S : Type} `{!ApiObjects C, !JellyfinServer S}.
Implicit Types (c : C) (s : S) (jf : Jellyfin) (spec : JellyfinAPISpec).

(** A name and a namespace that a Service can have, and a port. *)
Definition well_named jf : Prop :=
  all_chars host_char (jf_Name jf) = true ∧ all_chars host_char (jf_Namespace jf) = true ∧ (0 ≤ jellyfinPort jf)%Z.

(** The instance controller calls the API server only. *)
Lemma jellyfin_at_cluster σ ns name : only at_cluster (ReconcileJellyfin Quote σ ns name).
Proof.
  unfold ReconcileJellyfin, reconcileInstance, BoundPlugins, reconcileStorage, reconcileDeployment, reconcileService.
  unfold reconcileIngress, reconcileWeb, reconcileGateway, updateInstanceStatus, writeJellyfinStatus.
  unfold ensure_optional, reconcileMedia, ensureProvisionedNFS, checkVolume, ensurePVC, growPVC.
  there.
Qed.

(** Getting credentials is about the Secrets of the cluster. *)
Lemma can_log_in_views jf spec c c' v :
  (∀ n, view KSecret c' (jf_Namespace jf) n = view KSecret c (jf_Namespace jf) n) →
  can_log_in jf spec c v → can_log_in jf spec c' v.
Proof.
  intros Hv (key & user & pass & Hg & Hcan). exists key, user, pass. split.
  { unfold given_in in *. destruct (api_CredentialsSecret spec) as [name|]; [by rewrite Hv|done]. }
  unfold earlier_key, user_of, filled in *. rewrite !Hv.
  case_decide; [exact Hcan|]. destruct Hcan as [Hk|(Hs & Hf & Ha)]; [by left|right]. split_and!; [exact Hs| |].
  - by eapply free_same; [apply Hv|].
  - intros u p k. by eapply allowed_same; [apply Hv|].
Qed.

(** A server that is available makes the instance ready. *)
Lemma ready_status jf healthy jf1 :
  jf_Status jf1 = instance_status jf healthy true →
  instanceReady jf1 = true ∧ ie_Service (jst_Endpoints (jf_Status jf1)) = service_endpoint jf.
Proof.
  intros Hst. unfold instanceReady. rewrite Hst. unfold instance_status, setCondition. cbn. split; [|done].
  rewrite find_set_other by done. by rewrite (find_set_same _ (mkCondition conditionReady _ _ _ _)).
Qed.

(** After a pass of the instance controller, with the server available. *)
Lemma configurable_after jf spec σ healthy c c1 s :
  om_DeletionTimestamp (jf_Meta jf) = None → js_API (jf_Spec jf) = Some spec → well_named jf →
  can_log_in jf spec c (js_view s) → well_declared jf spec → brought_up jf σ healthy c c1 →
  (∃ dep, view KDeployment c1 (jf_Namespace jf) (jf_Name jf) = Some dep ∧ deployment_ready (Ok dep) = true) →
  ∃ jf1, configurable jf1 spec c1 s ∧ jf_Meta jf1 = jf_Meta jf ∧ jf_Spec jf1 = jf_Spec jf.
Proof.
  intros Hdel Hapi (Hn & Hns & Hp) Hlog Hwell Hup Hdep.
  destruct (bu_status _ _ _ _ _ Hup) as (jf1 & ready & Hv & Hs & Hm & Hst & Hready). apply Hready in Hdep as ->.
  destruct (ready_status _ _ _ Hst) as [Hr He]. exists jf1. split_and!; [|done|done].
  split; [|by rewrite Hm|by rewrite Hs|done| | |by eapply well_declared_same].
  - unfold jf_Namespace, jf_Name. by rewrite Hm.
  - unfold at_service. rewrite He. unfold service_endpoint, service_port, jellyfinPort, jf_Name, jf_Namespace in *.
    rewrite Hm, Hs. split_and!; [done|done|done|]. right. left.
  - eapply can_log_in_same; [exact Hm|]. eapply can_log_in_views; [|exact Hlog].
    intros n. apply (bu_others _ _ _ _ _ Hup); [done|done|]. unfold touched. rewrite !not_elem_of_cons.
    split_and!; try congruence. apply not_elem_of_nil.
Qed.
End served.


(** A resource that was just made, over a Deployment of its name that is available, and
    the server that the pod runs. *)
Module Example_served.
Import Example_objects.
Import Example_site.

Definition running : Deployment :=
  kept KDeployment "media" "home" (mkDeployment (meta_lit "home" "media" ∅ ∅) (Some 1%Z) (InstanceSelectorLabels jf) ""
    (mkPodTemplate ∅ ∅ single_container_pod) (mkDepStatus 1 1 1)).
Definition start : store := assign KDeployment "media" "home" (Some running) cluster.

Lemma start_empty k n : k ≠ KJellyfin → k ≠ KDeployment ∨ n ≠ "home" → look k start "media" n = None.
Proof.
  intros Hk Hn. unfold start, cluster. rewrite look_assign_other by (destruct Hn; congruence).
  by rewrite look_assign_other by congruence.
Qed.

Lemma start_free k n : k ≠ KJellyfin → free "Jellyfin" (jf_Meta jf) k start n.
Proof.
  intros Hk o Ho. change (look k start "media" n = Some o) in Ho. destruct (decide (k = KDeployment)) as [->|Hd].
  - destruct (decide (n = "home")) as [->|Hn]; [|by rewrite start_empty in Ho by auto].
    unfold start in Ho. rewrite look_assign in Ho. injection Ho as <-. left. by split.
  - by rewrite start_empty in Ho by auto.
Qed.

Lemma start_allowed k n f :
  k ≠ KJellyfin → k ≠ KDeployment ∨ n ≠ "home" → allowed (jf_Meta jf) k n f start.
Proof.
  intros Hk Hn cur new _ _. change (keeps_fields k (look k start "media" n) new). rewrite start_empty by done.
  by destruct k.
Qed.

Lemma claim_allowed n f c : (n, f) ∈ storage_claims jf → allowed (jf_Meta jf) KPersistentVolumeClaim n f c.
Proof.
  intros Hin cur new Hbase Hf o Ho. unfold base in Hbase. rewrite Ho in Hbase. subst cur.
  destruct (view_created _ _ _ _ _ Ho) as [t Ht]. cbn in Ht. exact (storage_claims_keep _ _ _ _ _ _ Hin Hf Ht).
Qed.

Lemma no_nfs mf : mf ∈ st_Media (js_Storage (jf_Spec jf)) → mf_NFS mf = None.
Proof. intros Hin. cbn in Hin. rewrite !elem_of_cons, elem_of_nil in Hin. by destruct Hin as [->|[->|[]]]. Qed.

Lemma server_allowed σ σ' ps dep :
  BuildDeployment σ jf ps = Ok (σ', dep) → allowed (jf_Meta jf) KDeployment "home" (deployment_mutation jf dep) start.
Proof.
  unfold BuildDeployment. intros ([σ1 template] & _ & [= _ <-])%bind_Ok cur new _ Hf.
  unfold deployment_mutation in Hf. apply bind_Ok in Hf as (m & _ & [= <-]). intros o Ho.
  change (look KDeployment start "media" "home" = Some o) in Ho. unfold start in Ho. rewrite look_assign in Ho.
  by injection Ho as <-.
Qed.

Lemma unobstructed_start : unobstructed jf ∅ start.
Proof.
  split; try (intros; apply start_free; done); try (intros; apply start_allowed; auto; done).
  - split; [intros; by apply start_free|]. intros mf nfs pv _ _ Hpv. exfalso. revert Hpv.
    change (look KPersistentVolume start "" (volume_name jf mf) ≠ Some pv). unfold start, cluster.
    by rewrite !look_assign_other by congruence.
  - intros p Hp. change (look KJellyfinPlugin start "media" (p_Name p) = Some p) in Hp.
    by rewrite start_empty in Hp by auto.
  - split; [apply claim_allowed|..].
    + intros mf nfs c Hin (_&Hnfs&_) _. by rewrite no_nfs in Hnfs.
    + intros mf1 nfs1 mf2 nfs2 Hin _ (_&Hnfs&_). by rewrite no_nfs in Hnfs.
  - intros ps σ' dep _ _ Hb. by eapply server_allowed.
Qed.

Lemma start_secret_free : free "Jellyfin" (jf_Meta jf) KSecret start "home-api".
Proof. by apply start_free. Qed.

(** The cluster after the instance controller's pass. *)
Definition brought_up_start : store :=
  (exec (site (ApiObjects0 := objects) (JellyfinServer0 := RefJellyfin.reference_jellyfin) None) (start, net)
     (ReconcileJellyfin Quote (∅ : Store) "media" "home")).2.1.

Lemma available : ∃ dep, look KDeployment brought_up_start "media" "home" = Some dep ∧ deployment_ready (Ok dep) = true.
Proof.
  assert (match look KDeployment brought_up_start "media" "home" with
          | Some dep => deployment_ready (Ok dep) | None => false end = true) as Hready by by vm_compute.
  destruct (look KDeployment brought_up_start "media" "home") as [dep|]; [by exists dep|discriminate].
Qed.
End Example_served.

