(* ===== verification/Delivery.v ===== *)
(** * A plugin is delivered (internal/controller/jellyfinplugin_controller.go and jellyfin_controller.go)

    One pass of the plugin controller against an API server that works, and what the
    next pass of the instance controller makes of it: the companion workloads and
    services run, leftovers are gone, and the server is built with the plugin exactly
    when its ABI is compatible. *)
From S2P Require Import Prelude GoStrings Json K8s ApiTypes Naming Meta HwAccel Builder Web Workloads Gateway Http Kube Programs Options Libraries Client Bindings PluginController JellyfinController ApiController Wiring Objects Provision.

Section plugin_pass.
Context `{KubeLib} {C : Type} `{!ApiObjects C} (quote : string → string).
Implicit Types (c : C) (p : JellyfinPlugin).

Notation perform := (exec objects_server).

(** The same plugin, with other finalizers or another status. *)
Definition same_plugin p p' : Prop :=
  p_Spec p' = p_Spec p ∧ p_Name p' = p_Name p ∧ p_Namespace p' = p_Namespace p ∧ om_Labels (p_Meta p') = om_Labels (p_Meta p).

Lemma ensureFinalizer_perform p c :
  view KJellyfinPlugin c (p_Namespace p) (p_Name p) = Some p →
  ∃ p' c', perform c (ensureFinalizer p) = (Ok p', c') ∧ view KJellyfinPlugin c' (p_Namespace p) (p_Name p) = Some p' ∧
    same_plugin p p' ∧ p_Status p' = p_Status p ∧ ContainsFinalizer (p_Meta p') pluginFinalizer = true ∧
    same_but view KJellyfinPlugin (p_Namespace p) (p_Name p) c c'.
Proof.
  intros Hv. unfold ensureFinalizer. destruct (ContainsFinalizer (p_Meta p) pluginFinalizer) eqn:Hf; cbn [negb].
  { exists p, c. by split_and!. }
  destruct (add_finalizer (p_Meta p) pluginFinalizer) as (fs&Hadd&Hfs). rewrite Hadd.
  destruct (plugin_update_law p (set_p_Meta (set_om_Finalizers fs (p_Meta p)) p) c _ _ Hv eq_refl eq_refl eq_refl)
    as (got&c'&Hans&Hgot&Hspec&Hst&Hl&Hfin&Hbut).
  exists got, c'. rewrite exec_api. cbn [sv_answer objects_server]. rewrite Hans.
  destruct (view_key _ _ _ _ _ Hgot) as [Hns Hn]. split_and!; try done.
  apply contains_finalizer. rewrite Hfin. cbn. apply Hfs. by left.
Qed.

(** ** The instance it is bound to *)
Definition bound_instance c p (jf : option Jellyfin) : Prop :=
  let searched := match jf with
    | Some jf => view KJellyfin c (p_Namespace p) (jf_Name jf) = Some jf ∧ pluginBinds jf p = true
    | None => ∀ jf, view KJellyfin c (p_Namespace p) (jf_Name jf) = Some jf → pluginBinds jf p = false
    end in
  match pls_JellyfinRef (p_Spec p) with
  | Some name => if decide (name ≠ "") then jf = view KJellyfin c (p_Namespace p) name else searched
  | None => searched
  end.

Lemma boundInstance_perform p c : ∃ jf, perform c (boundInstance p) = (jf, c) ∧ bound_instance c p jf.
Proof.
  assert (∃ jf, perform c (r ← ask (ListJellyfins (p_Namespace p));
      Ret (match r with Ok items => find (λ jf, pluginBinds jf p) items | Err _ => None end)) = (jf, c) ∧
    match jf with
    | Some jf => view KJellyfin c (p_Namespace p) (jf_Name jf) = Some jf ∧ pluginBinds jf p = true
    | None => ∀ jf, view KJellyfin c (p_Namespace p) (jf_Name jf) = Some jf → pluginBinds jf p = false
    end) as Hsearch.
  { destruct (list_jellyfins_law c (p_Namespace p)) as (jfs&Hans&Hjfs). eexists. split.
    - eapply bind_perform; [etrans; [apply perform_ask|exact Hans]|reflexivity].
    - cbn. destruct (find _ jfs) as [jf|] eqn:Hfind.
      + apply find_some in Hfind as [Hin Hb]. split; [|done]. by apply Hjfs, list_elem_of_In.
      + intros jf Hjf%Hjfs%list_elem_of_In. exact (find_none _ _ Hfind jf Hjf). }
  unfold boundInstance, bound_instance. cbv zeta. destruct (pls_JellyfinRef (p_Spec p)) as [name|]; [|exact Hsearch].
  case_decide; [|exact Hsearch]. eexists. split; [|done].
  rewrite exec_bind, perform_ask, get_jellyfin_law. by destruct (view KJellyfin c (p_Namespace p) name).
Qed.

(** ** One write for each of a list *)
Lemma each_perform {A} (K : Kind) (ns : string) (nm : A → string) (g : A → M unit) (ready : C → A → Prop)
    (done : A → object K → Prop) (l : list A) c :
  (∀ a c, a ∈ l → ready c a → ∃ got c', perform c (g a) = (Ok tt, c') ∧ view K c' ns (nm a) = Some got ∧ done a got ∧
     same_but view K ns (nm a) c c') →
  (∀ a c c', view K c' ns (nm a) = view K c ns (nm a) → ready c a → ready c' a) →
  NoDup (nm <$> l) → (∀ a, a ∈ l → ready c a) →
  ∃ c', perform c (for_each g l) = (Ok tt, c') ∧
    (∀ a, a ∈ l → ∃ got, view K c' ns (nm a) = Some got ∧ done a got) ∧
    (∀ k' ns' n', ¬ (k' = K ∧ ns' = ns ∧ n' ∈ nm <$> l) → view k' c' ns' n' = view k' c ns' n').
Proof.
  intros Hstep Hsame. revert c Hstep. induction l as [|a l IH]; intros c Hstep Hnd Hready.
  { exists c. by split_and!; [|intros a ?%elem_of_nil|]. }
  apply NoDup_cons in Hnd as [Ha Hnd]. fold (fmap nm l) in *.
  destruct (Hstep a c) as (got&c1&R1&V1&D1&B1); [by left|apply Hready; by left|].
  assert (∀ a', a' ∈ l → nm a' ≠ nm a) as Hne.
  { intros a' Hin Heq. apply Ha. change (nm a ∈ nm <$> l). apply list_elem_of_fmap. by exists a'. }
  destruct (IH c1) as (c2&R2&V2&B2); [intros a' c' Hin; apply Hstep; by right|done| |].
  { intros a' Hin. eapply Hsame; [|apply Hready; by right]. apply B1. specialize (Hne a' Hin). congruence. }
  exists c2. split_and!; [by eapply try_perform| |].
  - intros a' [->|Hin]%elem_of_cons; [|by apply V2]. exists got. split; [|done]. rewrite B2; [done|].
    intros (_&_&Hin). by apply Ha.
  - intros k' ns' n' Hno. rewrite B2, B1; [done| |].
    + intros [= -> -> ->]. apply Hno. split_and!; [done..|by left].
    + intros (->&->&Hin). apply Hno. split_and!; [done..|by right].
Qed.

(** ** The parts of a pass *)
Section owned.
Context (p : JellyfinPlugin) (jf : option Jellyfin).
Notation mine := (om_Namespace (p_Meta p)).
Notation free := (free "JellyfinPlugin" (p_Meta p)).
Notation allowed := (allowed (p_Meta p)).

Lemma workload_accepts dep : accepts "JellyfinPlugin" (p_Meta p) KDeployment (workload_mutation p dep).
Proof.
  intros cur Hcur. unfold workload_mutation.
  destruct (own_claimable "JellyfinPlugin" (p_Meta p) (set_om_Labels (om_Labels (dep_Meta dep)) (dep_Meta cur)))
    as (m'&->&Hm'&_); [by eapply claimable_ext; [| |exact Hcur]|].
  cbn [mbind result_bind]. eexists. split; [reflexivity|exact Hm'].
Qed.
Lemma service_accepts svc : accepts "JellyfinPlugin" (p_Meta p) KService (service_mutation "JellyfinPlugin" (p_Meta p) svc).
Proof.
  intros cur Hcur. unfold service_mutation.
  destruct (own_claimable "JellyfinPlugin" (p_Meta p) (set_om_Labels (om_Labels (svc_Meta svc)) (svc_Meta cur)))
    as (m'&->&Hm'&_); [by eapply claimable_ext; [| |exact Hcur]|].
  cbn [mbind result_bind]. eexists. split; [reflexivity|exact Hm'].
Qed.

Lemma workload_meta w :
  dep_Meta (BuildWorkloadDeployment jf p w) =
    meta_lit (WorkloadName p w) (p_Namespace p) (<[ManagedByLabel := ManagedByValue]> (workloadSelectorLabels p w)) ∅.
Proof. unfold BuildWorkloadDeployment. by destruct (appendInstanceMedia _ _ _ _). Qed.

Lemma workload_replicas w : dep_Replicas (BuildWorkloadDeployment jf p w) = Some (default 1%Z (wl_Replicas w)).
Proof. unfold BuildWorkloadDeployment. by destruct (appendInstanceMedia _ _ _ _). Qed.

(** The Deployment of a workload. The selector of one that was there stays: it never changes. *)
Definition workload_runs c0 (w : PluginWorkload) (got : Deployment) : Prop :=
  let wanted := BuildWorkloadDeployment jf p w in
  dep_Replicas got = dep_Replicas wanted ∧ completes (dep_Template got) (dep_Template wanted) ∧
  om_Labels (dep_Meta got) = om_Labels (dep_Meta wanted) ∧
  dep_Selector got = match view KDeployment c0 mine (WorkloadName p w) with
                     | Some old => dep_Selector old
                     | None => dep_Selector wanted
                     end.

Lemma reconcileWorkload_perform w c :
  free KDeployment c (WorkloadName p w) →
  allowed KDeployment (WorkloadName p w) (workload_mutation p (BuildWorkloadDeployment jf p w)) c →
  ∃ got c', perform c (reconcileWorkload p jf w) = (Ok tt, c') ∧ view KDeployment c' mine (WorkloadName p w) = Some got ∧
    workload_runs c w got ∧ same_but view KDeployment mine (WorkloadName p w) c c'.
Proof.
  intros Hfree Hall. unfold reconcileWorkload. cbv zeta. set (dep := BuildWorkloadDeployment jf p w) in *.
  pose proof (workload_meta w) as Hmeta. fold dep in Hmeta. rewrite Hmeta. cbn [om_Namespace om_Name meta_lit].
  destruct (upsert_part "JellyfinPlugin" (p_Meta p) KDeployment (WorkloadName p w) (workload_mutation p dep) _ c
    (upserts_deployment _ _ _) (workload_accepts dep) Hfree Hall) as (got&c'&Hrun&Hv&(cur&new&Hbase&Hf&Hsame&Hl)&Hbut).
  exists got, c'. split_and!; [exact Hrun|exact Hv| |done]. unfold workload_mutation in Hf.
  destruct (own _ _ _) as [m|] eqn:Hown; cbn [mbind result_bind] in Hf; [|discriminate]. injection Hf as <-.
  destruct Hsame as (Hr&Hs&_&Ht). cbn in Hr, Hs, Ht, Hl. unfold workload_runs. cbv zeta. fold dep.
  pose proof (workload_replicas w) as Hrep. fold dep in Hrep.
  split_and!; [by rewrite Hrep; apply Hr|exact Ht| |].
  - rewrite Hl. unfold own in Hown. destruct (SetControllerReference _ _ _) as [m1|] eqn:Hset; [|discriminate].
    injection Hown as <-. by destruct (controller_reference _ _ _ _ Hset) as (refs&->&_).
  - rewrite Hs. unfold base in Hbase. destruct (view KDeployment c mine (WorkloadName p w)) as [old|] eqn:Ho.
    + subst cur. destruct (view_created _ _ _ _ _ Ho) as [t Ht']. cbn in Ht'. by rewrite Ht'.
    + destruct Hbase as (_&_&Hc). cbn in Hc. by rewrite Hc.
Qed.

(** *** Leftovers *)

(** A Deployment of the plugin whose workload is no longer declared. *)
Definition leftover c (n : string) : Prop :=
  ∃ dep, view KDeployment c mine n = Some dep ∧ {[ PluginLabel := p_Name p ]} ⊆ om_Labels (dep_Meta dep) ∧
    stale_workload (desired_workloads p) dep = true.

Definition stale_names (desired : gset string) (deps : list Deployment) : list string :=
  om_Name ∘ dep_Meta <$> filter (λ dep, stale_workload desired dep = true) deps.

Lemma delete_each desired deps c :
  (∀ dep, dep ∈ deps → om_Namespace (dep_Meta dep) = mine) →
  ∃ c', perform c (for_each (prune_step desired) deps) = (Ok tt, c') ∧
    (∀ n, n ∈ stale_names desired deps → view KDeployment c' mine n = None) ∧
    (∀ k ns n, ¬ (k = KDeployment ∧ ns = mine ∧ n ∈ stale_names desired deps) → view k c' ns n = view k c ns n).
Proof.
  revert c. induction deps as [|dep deps IH]; intros c Hns.
  { exists c. by split_and!; [|intros n ?%elem_of_nil|]. }
  cbn [for_each]. unfold prune_step at 1, stale_names. rewrite filter_cons.
  destruct (decide (stale_workload desired dep = true)) as [Hs|Hs]; cycle 1.
  { apply not_true_is_false in Hs. rewrite Hs. destruct (IH c) as (c'&Hrun&Hv); [intros d Hd; apply Hns; by right|].
    exists c'. split; [by eapply try_perform|done]. }
  rewrite Hs. unfold delete_of. rewrite (Hns dep) by by left. set (n0 := om_Name (dep_Meta dep)).
  destruct (delete_perform KDeployment mine n0 _ c (deletes_deployment _ _)) as (c1&R1&V1&B1).
  destruct (IH c1) as (c2&R2&V2&B2); [intros d Hd; apply Hns; by right|].
  exists c2. fold (stale_names desired deps). rewrite fmap_cons. fold (stale_names desired deps).
  split_and!; [by eapply try_perform| |].
  - intros n Hn. destruct (decide (n ∈ stale_names desired deps)) as [Hin|Hin]; [by apply V2|].
    rewrite B2 by tauto. by apply elem_of_cons in Hn as [->|Hn].
  - intros k ns n Hno. rewrite B2, B1; [done| |].
    + intros [= -> -> ->]. apply Hno. split_and!; [done..|by left].
    + intros (->&->&Hin). apply Hno. split_and!; [done..|by right].
Qed.

Lemma pruneWorkloads_perform c :
  ∃ c', perform c (pruneWorkloads p (desired_workloads p)) = (Ok tt, c') ∧
    (∀ n, leftover c n → view KDeployment c' mine n = None) ∧
    (∀ k ns n, ¬ (k = KDeployment ∧ ns = mine ∧ leftover c n) → view k c' ns n = view k c ns n).
Proof.
  destruct (list_deployments_law c mine {[ PluginLabel := p_Name p ]}) as (deps&Hans&Hdeps).
  assert (∀ n, n ∈ stale_names (desired_workloads p) deps ↔ leftover c n) as Hleft.
  { intros n. unfold stale_names, leftover. rewrite list_elem_of_fmap. setoid_rewrite list_elem_of_filter.
    setoid_rewrite Hdeps. split; [intros (dep&->&?&?&?); by exists dep|].
    intros (dep&Hv&Hl&Hs). destruct (view_key _ _ _ _ _ Hv) as [_ Hn]. cbn in Hn. exists dep. cbn. by rewrite Hn. }
  destruct (delete_each (desired_workloads p) deps c) as (c'&Hrun&Hv&Hb).
  { intros dep [Hd _]%Hdeps. by destruct (view_key _ _ _ _ _ Hd). }
  exists c'. setoid_rewrite Hleft in Hv. setoid_rewrite Hleft in Hb. split_and!; [|done..].
  unfold pruneWorkloads. eapply try_perform; [|exact Hrun]. rewrite exec_api. cbn [sv_answer objects_server].
  unfold p_Namespace. by rewrite Hans.
Qed.

Lemma workload_not_stale w dep :
  w ∈ pls_Workloads (p_Spec p) → om_Labels (dep_Meta dep) = om_Labels (dep_Meta (BuildWorkloadDeployment jf p w)) →
  stale_workload (desired_workloads p) dep = false.
Proof.
  intros Hw Hl. unfold stale_workload. rewrite Hl, workload_meta. cbn [om_Labels meta_lit]. unfold workloadSelectorLabels.
  rewrite lookup_insert_eq, decide_True by done. rewrite !lookup_insert_ne, lookup_singleton_eq by done.
  apply bool_decide_eq_false. intros Hno. apply Hno. unfold desired_workloads, toSet.
  apply elem_of_list_to_set, list_elem_of_fmap. by exists w.
Qed.

Lemma reconcileWorkloads_perform c :
  NoDup (workload_names p) →
  (∀ w, w ∈ pls_Workloads (p_Spec p) → free KDeployment c (WorkloadName p w) ∧
     allowed KDeployment (WorkloadName p w) (workload_mutation p (BuildWorkloadDeployment jf p w)) c) →
  ∃ c', perform c (reconcileWorkloads p jf) = (Ok tt, c') ∧
    (∀ w, w ∈ pls_Workloads (p_Spec p) →
       ∃ got, view KDeployment c' mine (WorkloadName p w) = Some got ∧ workload_runs c w got) ∧
    (∀ n, ¬ leftover c' n) ∧
    (∀ k ns n, ¬ (k = KDeployment ∧ ns = mine ∧ (n ∈ workload_names p ∨ leftover c n)) →
       view k c' ns n = view k c ns n).
Proof.
  intros Hnd Hready.
  destruct (each_perform KDeployment mine (WorkloadName p) (reconcileWorkload p jf)
    (λ c' w, free KDeployment c' (WorkloadName p w) ∧
       allowed KDeployment (WorkloadName p w) (workload_mutation p (BuildWorkloadDeployment jf p w)) c' ∧
       view KDeployment c' mine (WorkloadName p w) = view KDeployment c mine (WorkloadName p w))
    (workload_runs c) (pls_Workloads (p_Spec p)) c) as (c1&R1&V1&B1); [| |done| |].
  - intros w c0 _ (Hfree&Hall&Hsame). destruct (reconcileWorkload_perform w c0 Hfree Hall) as (got&c'&Hrun&Hv&Hd&Hb).
    exists got, c'. split_and!; [done..| |done]. unfold workload_runs in *. by rewrite <-Hsame.
  - intros w c0 c' Hv (Hfree&Hall&Hsame). split_and!; [by eapply free_same|by eapply allowed_same|by rewrite Hv].
  - intros w Hw. by destruct (Hready w Hw).
  - destruct (pruneWorkloads_perform c1) as (c2&R2&V2&B2).
    assert (∀ w, w ∈ pls_Workloads (p_Spec p) → ¬ leftover c1 (WorkloadName p w)) as Hkept.
    { intros w Hw (dep&Hv&_&Hs). destruct (V1 w Hw) as (got&Hgot&_&_&Hl&_). rewrite Hv in Hgot. injection Hgot as ->.
      by rewrite (workload_not_stale w) in Hs. }
    exists c2. split_and!; [by eapply try_perform| | |].
    + intros w Hw. destruct (V1 w Hw) as (got&Hgot&Hruns). exists got. split; [|done].
      rewrite B2; [done|]. intros (_&_&Hl). by eapply Hkept.
    + intros n Hl. assert (¬ leftover c1 n) as Hno.
      { intros Hl1. destruct Hl as (dep&Hv&_). by rewrite V2 in Hv. }
      apply Hno. destruct Hl as (dep&Hv&Hl). exists dep. rewrite B2 in Hv by tauto. by split.
    + intros k ns n Hno. rewrite B2, B1; [done|naive_solver|]. intros (->&->&Hl). apply Hno. split_and!; [done..|].
      destruct (decide (n ∈ workload_names p)) as [Hn|Hn]; [by left|right].
      destruct Hl as (dep&Hv&Hl). exists dep. rewrite B1 in Hv by (intros (_&_&?); by apply Hn). by split.
Qed.

(** *** Services *)
Definition instance_name : string := match jf with Some jf => jf_Name jf | None => "" end.

Lemma reconcileServices_perform c :
  NoDup (psv_Name <$> pls_Services (p_Spec p)) →
  (∀ s, s ∈ pls_Services (p_Spec p) → free KService c (psv_Name s) ∧
     ∃ svc, BuildPluginService p s instance_name = Ok svc ∧
       allowed KService (psv_Name s) (service_mutation "JellyfinPlugin" (p_Meta p) svc) c) →
  ∃ c', perform c (reconcileServices p jf) = (Ok tt, c') ∧
    (∀ s, s ∈ pls_Services (p_Spec p) → ∃ svc, BuildPluginService p s instance_name = Ok svc ∧
       matches (p_Meta p) KService c' (psv_Name s) svc) ∧
    (∀ k ns n, ¬ (k = KService ∧ ns = mine ∧ n ∈ psv_Name <$> pls_Services (p_Spec p)) → view k c' ns n = view k c ns n).
Proof.
  intros Hnd Hready. unfold reconcileServices. fold instance_name.
  match goal with |- context [for_each ?g _] => edestruct (each_perform KService mine psv_Name g
    (λ c s, free KService c (psv_Name s) ∧ ∃ svc, BuildPluginService p s instance_name = Ok svc ∧
       allowed KService (psv_Name s) (service_mutation "JellyfinPlugin" (p_Meta p) svc) c)
    (λ s got, ∃ svc, BuildPluginService p s instance_name = Ok svc ∧ same_spec completes KService got svc))
    as (c'&Hrun&Hd&Hb); [| |exact Hnd|exact Hready|] end.
  - intros s c0 _ (Hfree&svc&Hb&Hall). rewrite Hb.
    assert (svc_Meta svc = meta_lit (psv_Name s) (p_Namespace p)
      {[ PluginLabel := p_Name p; ManagedByLabel := ManagedByValue ]} ∅) as Hm.
    { unfold BuildPluginService in Hb. by apply bind_Ok in Hb as (sel&_&[= <-]). }
    destruct (upsert_part "JellyfinPlugin" (p_Meta p) KService (psv_Name s) _ _ c0 (upserts_service _ _ _)
      (service_accepts svc) Hfree Hall) as (got&c1&Hrun&Hv&(cur&new&_&Hf&Hsame&_)&Hbut).
    exists got, c1. split_and!; [|done| |done].
    + eapply try_perform; [reflexivity|]. rewrite Hm. exact Hrun.
    + exists svc. split; [done|]. unfold service_mutation in Hf. by apply bind_Ok in Hf as (m&_&[= <-]).
  - intros s c0 c1 Hv (Hfree&svc&Hb&Hall). split; [by eapply free_same|]. exists svc. split; [done|by eapply allowed_same].
  - exists c'. split_and!; [exact Hrun| |exact Hb]. intros s Hs. destruct (Hd s Hs) as (got&Hv&svc&Hb'&Hsame).
    exists svc. split; [done|]. by exists got.
Qed.

(** *** Status *)

(** Desired and ready replicas of the workloads that are there. *)
Definition counts c : Z * Z :=
  foldl (λ s w, match view KDeployment c mine (WorkloadName p w) with
    | Some dep => (match dep_Replicas dep with Some n => add_int32 s.1 n | None => s.1 end,
                   add_int32 s.2 (ds_ReadyReplicas (dep_Status dep)))
    | None => s
    end) (0%Z, 0%Z) (pls_Workloads (p_Spec p)).

Lemma counts_perform c : perform c (fold_each (countWorkload p) (0%Z, 0%Z) (pls_Workloads (p_Spec p))) = (Ok (counts c), c).
Proof.
  unfold counts. generalize (pls_Workloads (p_Spec p)) as l, (0%Z, 0%Z) as s. induction l as [|w l IH]; intros s; [done|].
  cbn [fold_each foldl]. eapply try_perform; [|apply IH]. unfold countWorkload. destruct s as [x y].
  rewrite exec_bind, perform_ask, get_deployment_law. unfold p_Namespace. by destruct (view KDeployment c mine (WorkloadName p w)).
Qed.

Lemma updateStatus_perform ok reason msg c :
  view KJellyfinPlugin c mine (p_Name p) = Some p →
  ∃ got c', perform c (updateStatus p jf ok reason msg) = (Ok tt, c') ∧
    view KJellyfinPlugin c' mine (p_Name p) = Some got ∧ same_plugin p got ∧
    p_Status got = plugin_status p jf ok reason msg (counts c).1 (counts c).2 ∧
    same_but view KJellyfinPlugin mine (p_Name p) c c'.
Proof.
  intros Hv. unfold updateStatus. set (st := plugin_status p jf ok reason msg (counts c).1 (counts c).2).
  destruct (plugin_status_law p (set_p_Status st p) c _ _ Hv eq_refl eq_refl) as (got&c'&Hans&Hgot&Hst&Hspec&Hl&Hbut).
  exists got, c'. destruct (view_key _ _ _ _ _ Hgot) as [Hns Hn]. split_and!; [|done|by split_and!|done..].
  eapply try_perform; [apply counts_perform|]. rewrite (surjective_pairing (counts c)).
  eapply try_perform; [|reflexivity]. rewrite exec_api. cbn [sv_answer objects_server]. fold st. by rewrite Hans.
Qed.
End owned.

(** ** A whole pass *)
Section same.
Context (p p' : JellyfinPlugin) (Hsame : same_plugin p p').

Lemma same_plugin_key : p_Spec p' = p_Spec p ∧ om_Name (p_Meta p') = om_Name (p_Meta p) ∧
  om_Namespace (p_Meta p') = om_Namespace (p_Meta p).
Proof. by destruct Hsame as (?&?&?&_). Qed.

Lemma same_WorkloadName w : WorkloadName p' w = WorkloadName p w.
Proof. destruct same_plugin_key as (_&Hn&_). unfold WorkloadName, p_Name. by rewrite Hn. Qed.
Lemma same_workload_names : workload_names p' = workload_names p.
Proof.
  destruct same_plugin_key as (Hs&_). unfold workload_names. rewrite Hs. apply list_fmap_ext.
  intros i w _. apply same_WorkloadName.
Qed.
Lemma same_BuildPluginService s n : BuildPluginService p' s n = BuildPluginService p s n.
Proof.
  destruct same_plugin_key as (_&Hn&Hns). unfold BuildPluginService, resolveServiceSelector, p_Name, p_Namespace.
  by rewrite Hn, Hns.
Qed.
Lemma same_BuildWorkloadDeployment jf w : BuildWorkloadDeployment jf p' w = BuildWorkloadDeployment jf p w.
Proof.
  destruct same_plugin_key as (_&Hn&Hns). unfold BuildWorkloadDeployment, workloadSelectorLabels.
  rewrite same_WorkloadName. unfold p_Name, p_Namespace. by rewrite Hn, Hns.
Qed.
Lemma same_pluginBinds jf : pluginBinds jf p' = pluginBinds jf p.
Proof.
  destruct Hsame as (Hs&_&Hns&Hl). unfold pluginBinds, selector_binds. by rewrite Hs, Hns, Hl.
Qed.
Lemma same_bound_instance c c' jf :
  (∀ ns n, view KJellyfin c' ns n = view KJellyfin c ns n) → bound_instance c' p' jf → bound_instance c p jf.
Proof.
  intros Hv. destruct Hsame as (Hs&_&Hns&_). unfold bound_instance. rewrite Hs, Hns.
  assert (match jf with
    | Some jf => view KJellyfin c' (p_Namespace p) (jf_Name jf) = Some jf ∧ pluginBinds jf p' = true
    | None => ∀ jf, view KJellyfin c' (p_Namespace p) (jf_Name jf) = Some jf → pluginBinds jf p' = false
    end → match jf with
    | Some jf => view KJellyfin c (p_Namespace p) (jf_Name jf) = Some jf ∧ pluginBinds jf p = true
    | None => ∀ jf, view KJellyfin c (p_Namespace p) (jf_Name jf) = Some jf → pluginBinds jf p = false
    end) as Hsearch.
  { destruct jf as [jf|]; [by rewrite Hv, same_pluginBinds|]. intros Hno jf Hjf. rewrite <-same_pluginBinds.
    apply Hno. by rewrite Hv. }
  destruct (pls_JellyfinRef (p_Spec p)) as [name|]; [|done]. case_decide; [by rewrite Hv|done].
Qed.
Lemma same_leftover c n : leftover p' c n ↔ leftover p c n.
Proof.
  destruct same_plugin_key as (Hs&Hn&Hns). unfold leftover, desired_workloads, p_Name. by rewrite Hs, Hn, Hns.
Qed.
Lemma same_counts c : counts p' c = counts p c.
Proof.
  destruct same_plugin_key as (Hs&Hn&Hns). unfold counts, WorkloadName, p_Name. by rewrite Hs, Hn, Hns.
Qed.
Lemma same_runs jf c0 w got : workload_runs p' jf c0 w got ↔ workload_runs p jf c0 w got.
Proof.
  destruct same_plugin_key as (_&_&Hns). unfold workload_runs. by rewrite same_BuildWorkloadDeployment, same_WorkloadName, Hns.
Qed.
Lemma vacant_free k c n :
  (∀ o, view k c (p_Namespace p) n = Some o → unclaimed "JellyfinPlugin" (p_Meta p) (meta_of k o)) →
  free "JellyfinPlugin" (p_Meta p') k c n.
Proof.
  destruct same_plugin_key as (_&Hn&Hns). intros Hv o Ho. rewrite Hns in Ho. left. destruct (Hv o Ho) as [Hons Hr].
  split; [by rewrite Hns|]. intros r Hr'. rewrite Hn. by apply Hr.
Qed.
End same.

Notation abi_ok p jf := ((validateABI quote p jf).1.1).

(** Nothing in the way: the names of the workloads and services are distinct, nobody else
    controls what has them, the services can be built and validation turns nothing down. *)
Record plugin_ready c p (jf : option Jellyfin) : Prop := {
  pr_workloads : NoDup (workload_names p);
  pr_services : NoDup (psv_Name <$> pls_Services (p_Spec p));
  pr_workload w o : w ∈ pls_Workloads (p_Spec p) → view KDeployment c (p_Namespace p) (WorkloadName p w) = Some o →
    unclaimed "JellyfinPlugin" (p_Meta p) (dep_Meta o);
  pr_service s o : s ∈ pls_Services (p_Spec p) → view KService c (p_Namespace p) (psv_Name s) = Some o →
    unclaimed "JellyfinPlugin" (p_Meta p) (svc_Meta o);
  pr_valid_workload w p' : w ∈ pls_Workloads (p_Spec p) → same_plugin p p' →
    passes view admits KDeployment (p_Namespace p) (WorkloadName p w)
      (workload_mutation p' (BuildWorkloadDeployment jf p w)) c;
  pr_valid_service s : s ∈ pls_Services (p_Spec p) → ∃ svc, BuildPluginService p s (instance_name jf) = Ok svc ∧
    ∀ p', same_plugin p p' →
      passes view admits KService (p_Namespace p) (psv_Name s) (service_mutation "JellyfinPlugin" (p_Meta p') svc) c;
}.

(** The objects a pass writes or deletes. *)
Definition plugin_touches c p (abi : bool) (k : Kind) (ns n : string) : Prop :=
  ns = p_Namespace p ∧
  (k = KJellyfinPlugin ∧ n = p_Name p ∨
   abi = true ∧ (k = KDeployment ∧ (n ∈ workload_names p ∨ leftover p c n) ∨
                 k = KService ∧ n ∈ psv_Name <$> pls_Services (p_Spec p))).

(** What the pass leaves. A plugin whose ABI was rejected only gets its status. *)
Record companions_up c p (jf : option Jellyfin) c' : Prop := {
  cu_workloads w : abi_ok p jf = true → w ∈ pls_Workloads (p_Spec p) →
    ∃ got, view KDeployment c' (p_Namespace p) (WorkloadName p w) = Some got ∧ workload_runs p jf c w got;
  cu_leftovers n : abi_ok p jf = true → ¬ leftover p c' n;
  cu_services s : abi_ok p jf = true → s ∈ pls_Services (p_Spec p) →
    ∃ svc got, BuildPluginService p s (instance_name jf) = Ok svc ∧
      view KService c' (p_Namespace p) (psv_Name s) = Some got ∧ same_spec completes KService got svc;
  cu_others k ns n : ¬ plugin_touches c p (abi_ok p jf) k ns n → view k c' ns n = view k c ns n;
}.

Definition status_told c p (jf : option Jellyfin) c' : Prop :=
  ∃ before after, same_plugin p before ∧ p_Status before = p_Status p ∧
    view KJellyfinPlugin c' (p_Namespace p) (p_Name p) = Some after ∧ same_plugin p after ∧
    p_Status after = plugin_status before jf (abi_ok p jf) (validateABI quote p jf).1.2 (validateABI quote p jf).2
      (counts p c').1 (counts p c').2.

(** The workloads and services of a plugin that is admitted. *)
Lemma companions_perform p p' jf c :
  same_plugin p p' → plugin_ready c p jf →
  ∃ c1 c', perform c (in_context "workloads" (reconcileWorkloads p' jf)) = (Ok tt, c1) ∧
    perform c1 (in_context "services" (reconcileServices p' jf)) = (Ok tt, c') ∧
    (∀ w, w ∈ pls_Workloads (p_Spec p) →
      ∃ got, view KDeployment c' (p_Namespace p) (WorkloadName p w) = Some got ∧ workload_runs p jf c w got) ∧
    (∀ n, ¬ leftover p c' n) ∧
    (∀ s, s ∈ pls_Services (p_Spec p) → ∃ svc got, BuildPluginService p s (instance_name jf) = Ok svc ∧
      view KService c' (p_Namespace p) (psv_Name s) = Some got ∧ same_spec completes KService got svc) ∧
    (∀ k ns n, ¬ (ns = p_Namespace p ∧ (k = KDeployment ∧ (n ∈ workload_names p ∨ leftover p c n) ∨
                 k = KService ∧ n ∈ psv_Name <$> pls_Services (p_Spec p))) → view k c' ns n = view k c ns n).
Proof.
  intros Hsame [Hnw Hns Hw Hs Hvw Hvs]. destruct (same_plugin_key _ _ Hsame) as (Hspec&Hn&Hmine).
  destruct (reconcileWorkloads_perform p' jf c) as (c1&R1&V1&L1&B1).
  { by rewrite (same_workload_names _ _ Hsame). }
  { rewrite Hspec. intros w Hin. rewrite (same_WorkloadName _ _ Hsame), (same_BuildWorkloadDeployment _ _ Hsame).
    split; [apply (vacant_free _ _ Hsame); intros o; by apply Hw|]. unfold allowed. rewrite Hmine. by apply Hvw. }
  rewrite Hspec, (same_workload_names _ _ Hsame), Hmine in *.
  destruct (reconcileServices_perform p' jf c1) as (c2&R2&V2&B2).
  { by rewrite Hspec. }
  { rewrite Hspec. intros s Hin. assert (view KService c1 (p_Namespace p) (psv_Name s) = view KService c (p_Namespace p) (psv_Name s))
      as Heq by (apply B1; naive_solver). destruct (Hvs s Hin) as (svc&Hb&Hall).
    split; [apply (vacant_free _ _ Hsame); intros o Ho; rewrite Heq in Ho; by eapply Hs|].
    exists svc. rewrite (same_BuildPluginService _ _ Hsame). split; [done|].
    eapply allowed_same; [by rewrite Hmine|]. unfold allowed. rewrite Hmine. by apply Hall. }
  rewrite Hspec, Hmine in *. exists c1, c2. split_and!; try by apply in_context_perform.
  - intros w Hin. destruct (V1 w Hin) as (got&Hgot&Hr). exists got. rewrite (same_WorkloadName _ _ Hsame) in Hgot.
    rewrite B2 by (intros [? _]; discriminate). split; [exact Hgot|by apply (same_runs _ _ Hsame)].
  - intros n (dep&Hv&Hl). apply (L1 n), (same_leftover _ _ Hsame). exists dep. split; [|done].
    rewrite B2 in Hv by (intros [? _]; discriminate). exact Hv.
  - intros s Hin. destruct (V2 s Hin) as (svc&Hb&got&Hgot&Hsp). rewrite (same_BuildPluginService _ _ Hsame) in Hb.
    rewrite Hmine in Hgot. by exists svc, got.
  - intros k ns n Hno. setoid_rewrite (same_leftover _ _ Hsame) in B1. unfold p_Namespace in Hno.
    rewrite B2, B1; [done|naive_solver..].
Qed.

(** Nothing that a pass looks at but the plugin itself differs. *)
Definition same_objects c c' : Prop :=
  ∀ k ns n, k ≠ KJellyfinPlugin → view k c' ns n = view k c ns n.

Lemma plugin_ready_same c c' p jf : same_objects c c' → plugin_ready c p jf → plugin_ready c' p jf.
Proof.
  intros Hs [Hnw Hns Hw Hsv Hvw Hvs]. split; [done..|intros w o; rewrite Hs by done; apply Hw|
    intros s o; rewrite Hs by done; apply Hsv| |].
  - intros w p' Hin Hp. specialize (Hvw w p' Hin Hp). unfold passes, base in *. by rewrite Hs.
  - intros s Hin. destruct (Hvs s Hin) as (svc&Hb&Hall). exists svc. split; [done|]. intros p' Hp.
    specialize (Hall p' Hp). unfold passes, base in *. by rewrite Hs.
Qed.
Lemma leftover_same c c' p n : same_objects c c' → leftover p c' n ↔ leftover p c n.
Proof. intros Hs. unfold leftover. by rewrite (Hs KDeployment _ n) by done. Qed.
Lemma runs_same c c' p jf w got : same_objects c c' → workload_runs p jf c' w got ↔ workload_runs p jf c w got.
Proof. intros Hs. unfold workload_runs. by rewrite Hs. Qed.
Lemma counts_same c c' p : same_objects c c' → counts p c' = counts p c.
Proof.
  intros Hs. unfold counts. generalize (0%Z, 0%Z) as s. induction (pls_Workloads (p_Spec p)) as [|w l IH]; intros s; [done|].
  cbn [foldl]. by rewrite IH, Hs.
Qed.

(** Workloads and services if the ABI is compatible. *)
Lemma gated_perform p p' jf c :
  same_plugin p p' → (abi_ok p jf = true → plugin_ready c p jf) →
  ∃ c', perform c (if abi_ok p jf then _ ←! in_context "workloads" (reconcileWorkloads p' jf);
                     in_context "services" (reconcileServices p' jf) else ok tt) = (Ok tt, c') ∧
    companions_up c p jf c' ∧ view KJellyfinPlugin c' (p_Namespace p) (p_Name p) = view KJellyfinPlugin c (p_Namespace p) (p_Name p).
Proof.
  intros Hsame Hready. destruct (abi_ok p jf) eqn:Hok.
  - destruct (companions_perform p p' jf c Hsame (Hready eq_refl)) as (c1&c'&R1&R2&Hw&Hl&Hs&Ho).
    exists c'. split_and!; [by eapply try_perform|split; [intros w _; apply Hw|intros n _; apply Hl|intros s _; apply Hs|]|].
    + intros k ns n Hno. apply Ho. intros [-> Ht]. apply Hno. rewrite Hok. split; [done|right; done].
    + apply Ho. intros [_ [[? _]|[? _]]]; discriminate.
  - exists c. split_and!; [done|split; [intros w; by rewrite Hok|intros n; by rewrite Hok|intros s; by rewrite Hok|done]|done].
Qed.

Lemma reconcilePlugin_perform p c :
  view KJellyfinPlugin c (p_Namespace p) (p_Name p) = Some p →
  (∀ jf, bound_instance c p jf → abi_ok p jf = true → plugin_ready c p jf) →
  ∃ jf c', bound_instance c p jf ∧ perform c (reconcilePlugin quote p) = (Ok Result_zero, c') ∧
    companions_up c p jf c' ∧ status_told c p jf c'.
Proof.
  intros Hv Hready. destruct (ensureFinalizer_perform p c Hv) as (p'&c1&R1&V1&Hsame&Hst&_&B1).
  assert (same_objects c c1) as Hs1 by (intros k ns n Hk; apply B1; congruence).
  destruct (boundInstance_perform p' c1) as (jf&Rb&Hb). apply (same_bound_instance _ _ Hsame c) in Hb; [|by intros; apply Hs1].
  destruct (same_plugin_key _ _ Hsame) as (Hspec&Hn&Hmine).
  assert (validateABI quote p' jf = validateABI quote p jf) as Habi by (unfold validateABI; by rewrite Hspec).
  destruct (gated_perform p p' jf c1 Hsame) as (c2&R2&[Hw Hl Hs Ho]&V2).
  { intros Hok. by eapply plugin_ready_same, Hready. }
  rewrite V1 in V2.
  destruct (updateStatus_perform p' jf (abi_ok p jf) (validateABI quote p jf).1.2 (validateABI quote p jf).2 c2)
    as (got&c3&R3&V3&Hgot&Hstatus&B3); [unfold p_Name; by rewrite Hmine, Hn|].
  assert (same_objects c2 c3) as Hs3 by (intros k ns n Hk; apply B3; congruence).
  exists jf, c3. split_and!; [done| | |].
  - unfold reconcilePlugin. eapply try_perform; [exact R1|]. eapply bind_perform; [exact Rb|]. rewrite Habi.
    destruct (validateABI quote p jf) as [[okk reason] msg]. eapply try_perform; [exact R2|].
    by eapply try_perform; [exact R3|].
  - split.
    + intros w Hok Hin. destruct (Hw w Hok Hin) as (d&Hd&Hr). exists d. rewrite Hs3 by done.
      split; [done|by apply (runs_same _ _ _ _ _ _ Hs1)].
    + intros n Hok Hleft. by apply (Hl n Hok), (leftover_same _ _ _ _ Hs3).
    + intros s Hok Hin. destruct (Hs s Hok Hin) as (svc&d&Hbuilt&Hd&Hr). exists svc, d. by rewrite Hs3.
    + intros k ns n Hno. rewrite B3, Ho, B1; [done| | |].
      * intros [= -> -> ->]. apply Hno. split; [done|by left].
      * intros [-> Ht]. apply Hno. split; [done|]. by setoid_rewrite (leftover_same _ _ _ _ Hs1) in Ht.
      * intros [= -> -> ->]. apply Hno. split; [exact Hmine|left; split; [done|exact Hn]].
  - exists p', got. unfold p_Name in V3. rewrite Hmine, Hn in V3. split_and!; [done..| |].
    + destruct Hsame as (?&?&?&?), Hgot as (?&?&?&?). split_and!; congruence.
    + by rewrite Hstatus, (same_counts _ _ Hsame), (counts_same _ _ _ Hs3).
Qed.
End plugin_pass.

(** ** The next pass of the instance controller *)

(** After its pass a plugin takes part in the server's pod exactly when its ABI is right. *)
Lemma told_plugin_healthy `{KubeLib} jf before after ps abi reason msg d r :
  p_Status after = plugin_status before (Some jf) abi reason msg d r →
  after ∈ ps → pluginBinds jf after = true →
  after ∈ HealthyPlugins (bound_of jf ps) ↔ abi = true.
Proof.
  intros Hst Hin Hbind. unfold HealthyPlugins. rewrite list_elem_of_filter, elem_of_bound_of.
  assert ((pst_Phase (p_Status after) ≠ PluginPhaseFailed ∧ abi_rejected after = false) ↔ abi = true) as Hgate; [|tauto].
  unfold abi_rejected. rewrite Hst. unfold plugin_status. destruct abi; cbn [negb].
  - split; [done|]. intros _.
    destruct (bool_decide (pls_Workloads (p_Spec before) = []) || ((0 <? d)%Z && (d <=? r)%Z)),
      (pls_Install (p_Spec before)); cbn [pst_Phase pst_Conditions]; rewrite !find_setCondition; by split.
  - split; [|done]. cbn [pst_Phase]. by intros [? _].
Qed.

Section composition.
Context `{KubeLib, RetryLib} {C : Type} `{!ApiObjects C} (quote : string → string) (σ : Store).
Implicit Types (c : C) (p : JellyfinPlugin) (jf : Jellyfin).

Notation abi_ok p jf := ((validateABI quote p jf).1.1).

(** The names of the plugin's objects are not those of the instance's. *)
Definition apart c p jf : Prop := ∀ k ns n, (k, ns, n) ∈ touched jf → ¬ plugin_touches c p true k ns n.

Ltac in_touched := unfold touched; rewrite !elem_of_cons; tauto.

Lemma unobstructed_after c c' jf :
  unobstructed jf σ c →
  (∀ k ns n, (k, ns, n) ∈ touched jf ∨ k = KPersistentVolumeClaim ∨ k = KPersistentVolume →
     view k c' ns n = view k c ns n) →
  (∀ q', view KJellyfinPlugin c' (jf_Namespace jf) (p_Name q') = Some q' →
     ∃ q, view KJellyfinPlugin c (jf_Namespace jf) (p_Name q') = Some q ∧ p_Spec q' = p_Spec q) →
  unobstructed jf σ c'.
Proof.
  intros [[Hc Hv] Hfd Hfs Hfi Hfw Hfws Hfr Hpl Hval Ad As Ai Aw Aws Ar] Hsame Hplug.
  assert (∀ k n, (k, jf_Namespace jf, n) ∈ touched jf → view k c' (jf_Namespace jf) n = view k c (jf_Namespace jf) n) as Ht
    by (intros; apply Hsame; by left).
  split; try (intros; eapply free_same; [|eassumption]; apply Ht; in_touched); try done;
    try (intros; eapply allowed_same; [|eauto]; apply Ht; in_touched).
  - split.
    + intros n f Hin. eapply free_same; [|by eapply Hc]. apply Hsame. auto.
    + intros mf nfs pv Hmf Hpr. rewrite Hsame by auto. by apply Hv.
  - intros q' Hq'. destruct (Hplug q' Hq') as (q&Hq&Hs). unfold conflicting. rewrite Hs. apply Hpl.
    assert (p_Name q = p_Name q') as Hn by (by destruct (view_key _ _ _ _ _ Hq)). by rewrite Hn.
  - intros ps σ' dep Hnd Hps Hb. eapply allowed_same; [apply Ht; in_touched|]. eapply Ad; [done| |done].
    intros p Hp. destruct (Hps p Hp) as (q'&Hq'&Hs'). destruct (view_key _ _ _ _ _ Hq') as [_ Hn].
    assert (p_Name q' = p_Name p) as Hn' by exact Hn.
    destruct (Hplug q') as (q&Hq&Hs); [by rewrite Hn'|]. exists q. rewrite Hn' in Hq. split; [done|congruence].
Qed.
End composition.


(** ** A plugin with a workload, and one of an older spec *)
Module Example_delivery.
Import Example_objects.
Definition jf : Jellyfin := Example_pass.jf.
Definition plugin : JellyfinPlugin := kept KJellyfinPlugin "media" "shoko" (Example_controller.plugin "").
Definition old : Deployment := kept KDeployment "media" "shoko-old" Example_controller.leftover.
Definition cluster : store :=
  assign KJellyfin "media" "home" (Some jf) (assign KJellyfinPlugin "media" "shoko" (Some plugin)
    (assign KDeployment "media" "shoko-old" (Some old) [])).

Lemma delivery_look k ns n :
  k ≠ KJellyfin → k ≠ KJellyfinPlugin → (k, n) ≠ (KDeployment, "shoko-old") → look k cluster ns n = None.
Proof. intros H1 H2 H3. unfold cluster. by rewrite !look_assign_other by congruence. Qed.

Lemma worker_name : workload_names plugin = ["shoko-worker"].
Proof. by vm_compute. Qed.
Lemma web_name : WebDeploymentName jf = "home-web".
Proof. by vm_compute. Qed.

Lemma delivery_free k n :
  k ≠ KJellyfin → k ≠ KJellyfinPlugin → (k, n) ≠ (KDeployment, "shoko-old") → free "Jellyfin" (jf_Meta jf) k cluster n.
Proof. intros H1 H2 H3 o Ho. change (look k cluster "media" n = Some o) in Ho. by rewrite delivery_look in Ho. Qed.
Lemma delivery_passes k n f :
  k ≠ KJellyfin → k ≠ KJellyfinPlugin → (k, n) ≠ (KDeployment, "shoko-old") →
  passes look keeps_fields k "media" n f cluster.
Proof. intros H1 H2 H3 cur new _ _. rewrite delivery_look by done. by destruct k. Qed.

Lemma unobstructed_delivery σ : unobstructed jf σ cluster.
Proof.
  split; rewrite ?web_name; try (intros; apply delivery_free; done); try (intros; apply delivery_passes; done).
  - split; [intros; by apply delivery_free|]. intros mf nfs pv _ _ Hpv.
    change (look KPersistentVolume cluster "" (volume_name jf mf) = Some pv) in Hpv. by rewrite delivery_look in Hpv.
  - intros q Hq. change (look KJellyfinPlugin cluster "media" (p_Name q) = Some q) in Hq. unfold cluster in Hq.
    rewrite look_assign_other in Hq by congruence. destruct (decide (p_Name q = "shoko")) as [Hn|Hn].
    + rewrite Hn, look_assign in Hq. by injection Hq as <-.
    + by rewrite !look_assign_other in Hq by congruence.
  - apply Example_pass.unobstructed_cluster. exact ∅.
Qed.

Lemma plugin_ready_cluster : plugin_ready cluster plugin (Some jf).
Proof.
  assert (∀ w, w ∈ pls_Workloads (p_Spec plugin) → WorkloadName plugin w = "shoko-worker") as Hw.
  { intros w ->%list_elem_of_singleton. by vm_compute. }
  split.
  - rewrite worker_name. apply NoDup_singleton.
  - constructor.
  - intros w o Hin Ho. rewrite (Hw w Hin) in Ho. change (look KDeployment cluster "media" "shoko-worker" = Some o) in Ho.
    by rewrite delivery_look in Ho.
  - by intros s o ?%elem_of_nil.
  - intros w p' Hin _. rewrite (Hw w Hin). by apply delivery_passes.
  - by intros s ?%elem_of_nil.
Qed.

Lemma apart_cluster : apart cluster plugin jf.
Proof.
  assert (∀ n, leftover plugin cluster n → n = "shoko-old") as Hold.
  { intros n (dep&Hv&_). destruct (decide (n = "shoko-old")) as [|Hne]; [done|].
    change (look KDeployment cluster "media" n = Some dep) in Hv. by rewrite delivery_look in Hv by congruence. }
  intros k ns n Hin [_ Ht]. unfold touched in Hin. rewrite web_name, !elem_of_cons, elem_of_nil in Hin.
  destruct Ht as [[-> ->]|[_ [[-> [Hn|Hn%Hold]]|[-> []%elem_of_nil]]]].
  - naive_solver.
  - rewrite worker_name in Hn. apply list_elem_of_singleton in Hn as ->. naive_solver.
  - naive_solver.
Qed.
End Example_delivery.

