(* ===== verification/System.v ===== *)
(** * The operator at work

    The three controllers run at the same time, each on many resources, against one
    API server, while users and other controllers act in between; the process may
    stop at any point and start again. A state of the system is the server's and the
    reconciles under way, each with the answers it has had and what is left of it.

    What holds of a controller's calls whatever it is answered holds in every such
    interleaving ([reachable_always]); with the server's rules for concurrent writes
    it says what happens to the objects ([operator_keeps_data]). *)
From S2P Require Import Prelude GoStrings Json K8s ApiTypes Http Kube Programs Options Libraries Client Bindings PluginController JellyfinController ApiController Wiring.
From stdpp Require Import relations.

(** ** Reconciles under way *)
Record worker : Type := mkWorker { wk_seen : list event; wk_rest : prog (result Error Result) }.

(** What a server with states [C] may answer to a call, and its state afterwards. *)
Definition answering (C : Type) : Type := ∀ R : Type, call R → C → R → C → Prop.

(** ** The objects that hold data

    The API server's rules for claims and Secrets. [CreateOrUpdate] writes what the
    mutation makes of the object the server has, or of one without a creation time
    when it has none: an update of an older version is a conflict. A patch changes the fields in
    which its two objects differ, and the request of a claim never shrinks. Nothing
    else that is called changes them. *)
Definition claim_key {R} (c : call R) : option (string * string) :=
  match c with
  | UpsertPVC ns n _ => Some (ns, n)
  | PatchPVC old _ => Some (om_Namespace (pvcl_Meta old), om_Name (pvcl_Meta old))
  | _ => None
  end.
Definition secret_key {R} (c : call R) : option (string * string) :=
  match c with UpsertSecret ns n _ => Some (ns, n) | _ => None end.

Definition merged {A} `{EqDecision A} (old new cur : A) : A := if decide (old = new) then cur else new.

Class Cluster (C : Type) := {
  claim_at : C → string → string → option PersistentVolumeClaim;
  secret_at : C → string → string → option Secret;
  answers : answering C;

  claim_frame : ∀ R (c : call R) s r s' ns n, answers R c s r s' →
    claim_key c ≠ Some (ns, n) → claim_at s' ns n = claim_at s ns n;
  claim_created : ∀ s ns n pvc, claim_at s ns n = Some pvc → is_Some (om_CreationTimestamp (pvcl_Meta pvc));
  claim_upsert : ∀ ns n f s r s', answers _ (UpsertPVC ns n f) s r s' →
    claim_at s' ns n = claim_at s ns n ∨
    ∃ cur new got, f cur = Ok new ∧ claim_at s' ns n = Some got ∧
      (∀ pvc, claim_at s ns n = Some pvc → cur = pvc ∧
         pvcl_AccessModes got = pvcl_AccessModes new ∧ pvcl_Requests got = pvcl_Requests new ∧
         pvcl_StorageClassName got = pvcl_StorageClassName new ∧ pvcl_VolumeName got = pvcl_VolumeName new);
  claim_patch : ∀ old new s r s' ns n, answers _ (PatchPVC old new) s r s' → claim_key (PatchPVC old new) = Some (ns, n) →
    claim_at s' ns n = claim_at s ns n ∨
    ∃ cur got, claim_at s ns n = Some cur ∧ claim_at s' ns n = Some got ∧
      pvcl_AccessModes got = merged (pvcl_AccessModes old) (pvcl_AccessModes new) (pvcl_AccessModes cur) ∧
      pvcl_StorageClassName got =
        merged (pvcl_StorageClassName old) (pvcl_StorageClassName new) (pvcl_StorageClassName cur) ∧
      pvcl_VolumeName got = merged (pvcl_VolumeName old) (pvcl_VolumeName new) (pvcl_VolumeName cur) ∧
      (∀ k, pvcl_Requests got !! k =
         merged (pvcl_Requests old !! k) (pvcl_Requests new !! k) (pvcl_Requests cur !! k)) ∧
      (∀ k x y, pvcl_Requests cur !! k = Some x → pvcl_Requests got !! k = Some y → (x ≤ y)%Z);

  secret_frame : ∀ R (c : call R) s r s' ns n, answers R c s r s' →
    secret_key c ≠ Some (ns, n) → secret_at s' ns n = secret_at s ns n;
  secret_upsert : ∀ ns n f s r s', answers _ (UpsertSecret ns n f) s r s' →
    secret_at s' ns n = secret_at s ns n ∨
    ∃ cur new got, f cur = Ok new ∧ secret_at s' ns n = Some got ∧
      (∀ sec, secret_at s ns n = Some sec → cur = sec ∧ sec_Data got = sec_Data new);
}.

(** What must not happen to a claim: to go, to shrink, to change its class, its access
    modes or its volume. *)
Definition claim_kept (a b : PersistentVolumeClaim) : Prop :=
  pvcl_AccessModes b = pvcl_AccessModes a ∧ pvcl_StorageClassName b = pvcl_StorageClassName a ∧
  pvcl_VolumeName b = pvcl_VolumeName a ∧
  ∀ k x, pvcl_Requests a !! k = Some x → ∃ y, pvcl_Requests b !! k = Some y ∧ (x ≤ y)%Z.

(** The entries of a Secret the operator writes, and who controls it. *)
Definition credential_entries : list string := ["apiKey"; "username"; "password"].
Definition foreign (m : ObjectMeta) : Prop :=
  ∃ r, head (filter (λ r, or_Controller r = true) (om_OwnerReferences m)) = Some r ∧ or_Kind r ≠ "Jellyfin".

(** What must not happen to a Secret: to go, to change in another entry, or at all when
    it is controlled by something else than an instance. *)
Definition secret_kept (a b : Secret) : Prop :=
  (∀ k, k ∉ credential_entries → sec_Data b !! k = sec_Data a !! k) ∧ (foreign (sec_Meta a) → b = a).

Definition keeps {A} (kept : A → A → Prop) (o o' : option A) : Prop :=
  ∀ a, o = Some a → ∃ a', o' = Some a' ∧ kept a a'.

#[export] Instance claim_kept_preorder : PreOrder claim_kept.
Proof.
  split.
  - intros a. split_and!; [done..|]. intros k x Hx. exists x. split; [done|lia].
  - intros a b c (?&?&?&Hab) (?&?&?&Hbc). split_and!; [congruence..|].
    intros k x (y&(z&Hz&?)%Hbc&?)%Hab. exists z. split; [done|lia].
Qed.

#[export] Instance secret_kept_preorder : PreOrder secret_kept.
Proof.
  split; [done|]. intros a b c (Hab&Fab) (Hbc&Fbc). split.
  - intros k Hk. rewrite Hbc by done. auto.
  - intros Hf. rewrite <-(Fab Hf) in Hf |- *. auto.
Qed.

#[export] Instance keeps_preorder {A} (kept : relation A) : PreOrder kept → PreOrder (keeps kept).
Proof.
  intros Hpre. split; [intros o a ->; by exists a|].
  intros o1 o2 o3 H12 H23 a (b&(c&->&?)%H23&?)%H12. exists c. split; [done|by trans b].
Qed.

(** Comparing states by a part of them. *)
#[export] Instance part_preorder {A B} (part : A → B) (R : relation B) :
  PreOrder R → PreOrder (λ a b, R (part a) (part b)).
Proof. intros Hpre. split; [by intros a|]. intros a b c Hab Hbc. by etrans. Qed.

Section system.
Context `{KubeLib, RetryLib, NetUrl, MapOrder} {C : Type}.
Context (quote : string → string) (library_text : Error → string) (interval : Z).
Context (answers : answering C) (others : C → C → Prop).

(** The work queues of the controllers: any key, at any time. *)
Inductive reconcile : prog (result Error Result) → Prop :=
| reconcile_instance σ ns n : reconcile (ReconcileJellyfin quote σ ns n)
| reconcile_plugin ns n : reconcile (PluginController.Reconcile quote ns n)
| reconcile_api ns n : reconcile (ReconcileAPI quote library_text interval ns n).

Inductive step : C * list worker → C * list worker → Prop :=
| step_start s ws p : reconcile p → step (s, ws) (s, mkWorker [] p :: ws)
| step_call s ws1 ws2 R (c : call R) k seen r s' :
    answers R c s r s' →
    step (s, ws1 ++ mkWorker seen (Call c k) :: ws2) (s', ws1 ++ mkWorker (seen ++ [Ev c r]) (k r) :: ws2)
| step_end s ws1 ws2 w : step (s, ws1 ++ w :: ws2) (s, ws1 ++ ws2)
| step_others s s' ws : others s s' → step (s, ws) (s', ws).

Definition reachable (s0 s : C) (ws : list worker) : Prop := rtc step (s0, []) (s, ws).

(** ** From the calls of one to the steps of all *)
Definition under (I : call_inv) (w : worker) : Prop := always I anything (wk_seen w) (wk_rest w).

Lemma step_under I s ws s' ws' :
  (∀ p, reconcile p → always I anything [] p) → step (s, ws) (s', ws') → Forall (under I) ws → Forall (under I) ws'.
Proof.
  intros Hp. inversion 1; subst; clear H3; auto; rewrite ?Forall_app, ?Forall_cons; intros Hws.
  - split; [by apply Hp|done].
  - destruct Hws as (?&[_ Hk]&?). split_and!; [done|apply Hk|done].
  - tauto.
Qed.

(** Whatever the interleaving, a reconcile under way keeps its discipline; and if every
    call that keeps it, and everything the others do, respects a preorder of the states,
    the state moves along it. *)
Lemma steps_under I (keeps : relation C) `{!PreOrder keeps} x y :
  (∀ p, reconcile p → always I anything [] p) →
  (∀ R seen (c : call R) s r s', I R seen c → answers R c s r s' → keeps s s') →
  (∀ s s', others s s' → keeps s s') →
  rtc step x y → Forall (under I) x.2 → Forall (under I) y.2 ∧ keeps x.1 y.1.
Proof.
  intros Hp Hcall Hothers Hsteps. induction Hsteps as [x|[s ws] [s1 ws1] y Hstep _ IH]; [done|].
  intros Hws. destruct IH as [Hy Hkeep]; [by eapply step_under|]. split; [done|]. etrans; [|done].
  clear Hy Hkeep. cbn in *. inversion Hstep; subst; try done; [|by apply Hothers].
  apply Forall_app in Hws as [_ [[HI _] _]%Forall_cons]. by eapply Hcall.
Qed.

Lemma reachable_keeps (P : call_pred) (keeps : relation C) `{!PreOrder keeps} s0 s ws :
  (∀ p, reconcile p → only P p) →
  (∀ R (c : call R) s r s', P R c → answers R c s r s' → keeps s s') →
  (∀ s s', others s s' → keeps s s') →
  reachable s0 s ws → keeps s0 s.
Proof.
  intros Hp Hcall Hothers Hr.
  destruct (steps_under (within P) keeps (s0, []) (s, ws)) as [_ Hk]; try done; [|intros R seen c; apply Hcall].
  intros p Hrec. by apply only_always, Hp.
Qed.

Lemma reconcile_known p : reconcile p → only known_mutation p.
Proof.
  intros []; (eapply only_impl; [first [apply jellyfin_only|apply plugin_only|apply api_only]|intros R c Hc; apply Hc]).
Qed.
End system.

(** ** What one call does to the data *)
Section data.
Context `{KubeLib} {C : Type} `{!Cluster C}.

Lemma merged_same {A} `{EqDecision A} (a cur : A) : merged a a cur = cur.
Proof. unfold merged. by rewrite decide_True. Qed.

(** A mutation only touches the metadata of a claim that exists. *)
Lemma claim_mutation_keeps f cur new :
  known_mutation _ (UpsertPVC "" "" f) → f cur = Ok new → is_Some (om_CreationTimestamp (pvcl_Meta cur)) →
  pvcl_AccessModes new = pvcl_AccessModes cur ∧ pvcl_Requests new = pvcl_Requests cur ∧
  pvcl_StorageClassName new = pvcl_StorageClassName cur ∧ pvcl_VolumeName new = pvcl_VolumeName cur.
Proof.
  intros [(jf&spec&size&modes&->)|(jf&nfs&pv&->)] Hf [t Ht]; unfold pvc_mutation, nfs_pvc_mutation in Hf;
    apply bind_Ok in Hf as (m&_&Hf); rewrite Ht in Hf; by injection Hf as <-.
Qed.

Lemma call_keeps_claim R (c : call R) s r s' ns n :
  known_mutation R c → answers R c s r s' → keeps claim_kept (claim_at s ns n) (claim_at s' ns n).
Proof.
  intros Hknown Hans. destruct (decide (claim_key c = Some (ns, n))) as [Hkey|Hne];
    [|by rewrite (claim_frame _ _ _ _ _ _ _ Hans Hne)].
  destruct c; try discriminate Hkey.
  - injection Hkey as -> ->. destruct (claim_upsert _ _ _ _ _ _ Hans) as [->|(cur&new&got&Hf&->&Hgot)]; [done|].
    intros pvc Hpvc. exists got. split; [done|]. destruct (Hgot _ Hpvc) as (->&Hm&Hr&Hs&Hv).
    apply claim_created in Hpvc. destruct (claim_mutation_keeps _ _ _ Hknown Hf Hpvc) as (Em&Er&Es&Ev).
    split_and!; [congruence..|]. intros k x Hx. exists x. split; [congruence|lia].
  - destruct Hknown as [size ->].
    destruct (claim_patch _ _ _ _ _ ns n Hans Hkey) as [->|(cur&got&Hcur&->&Hm&Hs&Hv&Hr&Hle)]; [done|].
    intros pvc Hpvc. exists got. split; [done|]. rewrite Hcur in Hpvc. injection Hpvc as ->.
    cbn in Hm, Hs, Hv, Hr. rewrite merged_same in Hm; rewrite merged_same in Hs; rewrite merged_same in Hv. split_and!; [done..|].
    intros k x Hx. destruct (pvcl_Requests got !! k) as [y|] eqn:Hy; [exists y; split; [done|by eapply Hle]|].
    exfalso. rewrite Hr in Hy. unfold merged in Hy. case_decide as Hd; [discriminate (eq_trans (eq_sym Hx) Hy)|].
    destruct (decide (k = ResourceStorage)) as [->|Hk]; [by rewrite lookup_insert_eq in Hy|].
    by rewrite lookup_insert_ne in Hd.
Qed.

Lemma call_keeps_secret R (c : call R) s r s' ns n :
  known_mutation R c → answers R c s r s' → keeps secret_kept (secret_at s ns n) (secret_at s' ns n).
Proof.
  intros Hknown Hans. destruct (decide (secret_key c = Some (ns, n))) as [Hkey|Hne];
    [|by rewrite (secret_frame _ _ _ _ _ _ _ Hans Hne)].
  destruct c; try discriminate Hkey. injection Hkey as -> ->.
  destruct (secret_upsert _ _ _ _ _ _ Hans) as [->|(cur&new&got&Hf&->&Hgot)]; [done|].
  intros sec Hsec. exists got. split; [done|]. destruct (Hgot _ Hsec) as (->&Hd).
  destruct Hknown as (jf&user&pass&key&->). unfold secret_mutation in Hf. apply bind_Ok in Hf as (m&Hm&[= <-]).
  cbn in Hd. split.
  - intros k Hk. unfold credential_entries in Hk. rewrite Hd.
    rewrite !lookup_insert_ne; [done|intros <-; apply Hk; set_solver..].
  - intros (o&Ho&Hkind). exfalso. unfold own_instance, own in Hm.
    by rewrite (controller_reference_other _ _ _ _ Ho (or_introl Hkind)) in Hm.
Qed.
End data.


(** ** A store of claims and Secrets *)
Module Example_cluster.
Definition stamped (pvc : PersistentVolumeClaim) : PersistentVolumeClaim :=
  match om_CreationTimestamp (pvcl_Meta pvc) with
  | Some _ => pvc
  | None => set_pvcl (mkMeta (om_Name (pvcl_Meta pvc)) (om_Namespace (pvcl_Meta pvc)) "uid" 1 (Some 0%Z) None ∅ ∅ [] [])
              (pvcl_AccessModes pvc) (pvcl_Requests pvc) (pvcl_StorageClassName pvc) (pvcl_VolumeName pvc) pvc
  end.
Definition store : Type := gmap (string * string) PersistentVolumeClaim * gmap (string * string) Secret.
Definition claim_in (s : store) (ns n : string) : option PersistentVolumeClaim := stamped <$> s.1 !! (ns, n).

(** A patch that would shrink the claim is refused. *)
Definition patched (old new cur : PersistentVolumeClaim) : PersistentVolumeClaim :=
  set_pvcl (pvcl_Meta cur) (merged (pvcl_AccessModes old) (pvcl_AccessModes new) (pvcl_AccessModes cur))
    (merge (λ c d, match d with Some (Some y) => Some y | Some None => None | None => c end) (pvcl_Requests cur)
       (merge (λ o w, if decide (o = w) then None else Some w) (pvcl_Requests old) (pvcl_Requests new)))
    (merged (pvcl_StorageClassName old) (pvcl_StorageClassName new) (pvcl_StorageClassName cur))
    (merged (pvcl_VolumeName old) (pvcl_VolumeName new) (pvcl_VolumeName cur)) cur.

Definition respond : answering store := λ R c s r s',
  s' = s ∨
  match c with
  | UpsertPVC ns n f => ∃ cur new, f cur = Ok new ∧ (∀ pvc, claim_in s ns n = Some pvc → cur = pvc) ∧
      s' = (<[(ns, n) := new]> s.1, s.2)
  | PatchPVC old new => ∃ cur, claim_in s (om_Namespace (pvcl_Meta old)) (om_Name (pvcl_Meta old)) = Some cur ∧
      (∀ k x y, pvcl_Requests cur !! k = Some x → pvcl_Requests (patched old new cur) !! k = Some y → (x ≤ y)%Z) ∧
      s' = (<[(om_Namespace (pvcl_Meta old), om_Name (pvcl_Meta old)) := patched old new cur]> s.1, s.2)
  | UpsertSecret ns n f => ∃ cur new, f cur = Ok new ∧ (∀ sec, s.2 !! (ns, n) = Some sec → cur = sec) ∧
      s' = (s.1, <[(ns, n) := new]> s.2)
  | _ => False
  end.

Lemma stamped_data pvc :
  pvcl_AccessModes (stamped pvc) = pvcl_AccessModes pvc ∧ pvcl_Requests (stamped pvc) = pvcl_Requests pvc ∧
  pvcl_StorageClassName (stamped pvc) = pvcl_StorageClassName pvc ∧ pvcl_VolumeName (stamped pvc) = pvcl_VolumeName pvc.
Proof. unfold stamped. by destruct (om_CreationTimestamp (pvcl_Meta pvc)). Qed.

Lemma patched_requests old new cur k :
  pvcl_Requests (patched old new cur) !! k =
  merged (pvcl_Requests old !! k) (pvcl_Requests new !! k) (pvcl_Requests cur !! k).
Proof.
  unfold patched, merged. cbn. rewrite !lookup_merge.
  destruct (pvcl_Requests old !! k), (pvcl_Requests new !! k), (pvcl_Requests cur !! k); cbn; repeat case_decide; naive_solver.
Qed.

Lemma claim_insert s ns n ns' n' p sec :
  claim_in (<[(ns', n') := p]> s.1, sec) ns n = if decide ((ns, n) = (ns', n')) then Some (stamped p) else claim_in s ns n.
Proof.
  unfold claim_in. cbn [fst]. case_decide as Hk; [by rewrite Hk, lookup_insert_eq|by rewrite lookup_insert_ne].
Qed.

#[export] Program Instance stores : Cluster store := {
  claim_at := claim_in;
  secret_at s ns n := s.2 !! (ns, n);
  answers := respond;
}.
Next Obligation.
  intros R c s r s' ns n [->|Hc] Hne; [done|]. destruct c; try done.
  - destruct Hc as (cur&new&_&_&->). rewrite claim_insert, decide_False; [done|].
    intros Heq. apply Hne. cbn. congruence.
  - destruct Hc as (cur&_&_&->). rewrite claim_insert, decide_False; [done|]. intros Heq. apply Hne. cbn. congruence.
  - by destruct Hc as (cur&new&_&_&->).
Qed.
Next Obligation.
  intros s ns n pvc. unfold claim_in. intros (q&_&->)%fmap_Some. unfold stamped.
  destruct (om_CreationTimestamp (pvcl_Meta q)) eqn:Ht; [by rewrite Ht|by eexists].
Qed.
Next Obligation.
  intros ns n f s r s' [->|(cur&new&Hf&Hcur&->)]; [by left|]. right. exists cur, new, (stamped new).
  rewrite claim_insert, decide_True by done. split_and!; [done..|]. intros pvc Hpvc.
  split; [by apply Hcur|apply stamped_data].
Qed.
Next Obligation.
  intros old new s r s' ns n [->|(cur&Hcur&Hle&->)] Hkey; [by left|]. right. injection Hkey as <- <-.
  destruct (stamped_data (patched old new cur)) as (Em&Er&Es&Ev).
  exists cur, (stamped (patched old new cur)). rewrite claim_insert, decide_True by done.
  rewrite Em, Er, Es, Ev. split_and!; [done..|apply patched_requests|done].
Qed.
Next Obligation.
  intros R c s r s' ns n [->|Hc] Hne; [done|]. destruct c; try done.
  - by destruct Hc as (cur&new&_&_&->).
  - by destruct Hc as (cur&_&_&->).
  - destruct Hc as (cur&new&_&_&->). cbn. rewrite lookup_insert_ne; [done|]. intros Heq. apply Hne. cbn. congruence.
Qed.
Next Obligation.
  intros ns n f s r s' [->|(cur&new&Hf&Hcur&->)]; [by left|]. right. exists cur, new, new.
  cbn. rewrite lookup_insert_eq. split_and!; [done..|]. intros sec Hsec. split; [by apply Hcur|done].
Qed.

(** Two reconciles of the same instance under way, one of them answered once. *)
Definition before : store := ({[ ("media", "home-config") := Example_instance.claim (Gi 10) ]}, ∅).
Definition others (a b : store) : Prop := a.1 = b.1.

Lemma two_under_way : ∃ ws,
  reachable Example_controller.quote (λ _, "error") 0 respond others before before ws ∧ length ws = 2.
Proof.
  eexists. split.
  - eapply rtc_l; [apply step_start, (reconcile_instance _ _ _ ∅ "media" "home")|].
    eapply rtc_l; [apply step_start, (reconcile_api _ _ _ "media" "home")|].
    eapply rtc_l; [|reflexivity]. apply (step_call _ _ _ _ _ before []) with (r := Err NotFound). by left.
  - done.
Qed.

End Example_cluster.
