(* ===== verification/Scheme.v ===== *)
(** * The registration of the kinds
    (api/v1alpha1/groupversion_info.go, the [init] functions of jellyfin_types.go,
    jellyfinplugin_types.go and cmd/main.go)

    A client finds the API path of an object from its Go type, in a scheme the process
    fills before [main] starts. A kind that is missing is an error at the first call
    that uses it, so [main_init_complete] says that none of the controllers' is. *)
From S2P Require Import Prelude Wiring.

Record schema_GroupVersion : Type := mkGV { gv_Group : string; gv_Version : string }.
#[export] Instance schema_GroupVersion_eq_dec : EqDecision schema_GroupVersion.
Proof. solve_decision. Defined.

(** A registration may fail, with an error that is not looked at further. *)
Inductive SchemeError : Type := AddFailed.

(** The parts of apimachinery, client-go and gateway-api that the registration uses.
    [AddKnownTypes] takes the names of the Go types, which are the kinds. A builder
    applies its functions in the order they were registered. *)
Class SchemeLib : Type := {
  Scheme : Type;
  NewScheme : Scheme;
  recognizes : Scheme → schema_GroupVersion → string → Prop;
  AddKnownTypes : Scheme → schema_GroupVersion → list string → Scheme;
  AddToGroupVersion : Scheme → schema_GroupVersion → Scheme;
  clientgo_AddToScheme : Scheme → result SchemeError Scheme;
  gatewayv1_Install : Scheme → result SchemeError Scheme;
  Builder : Type;
  NewSchemeBuilder : (Scheme → result SchemeError Scheme) → Builder;
  Register : Builder → (Scheme → result SchemeError Scheme) → Builder;
  Builder_AddToScheme : Builder → Scheme → result SchemeError Scheme;
  AddKnownTypes_adds s gv kinds k : k ∈ kinds → recognizes (AddKnownTypes s gv kinds) gv k;
  AddKnownTypes_keeps s gv kinds g k : recognizes s g k → recognizes (AddKnownTypes s gv kinds) g k;
  AddToGroupVersion_keeps s gv g k : recognizes s g k → recognizes (AddToGroupVersion s gv) g k;
  clientgo_adds s s' k : clientgo_AddToScheme s = Ok s' →
    (k ∈ ["Deployment"; "DeploymentList"] → recognizes s' (mkGV "apps" "v1") k) ∧
    (k ∈ ["Service"; "PersistentVolumeClaim"; "PersistentVolume"; "Secret"] → recognizes s' (mkGV "" "v1") k) ∧
    (k = "Ingress" → recognizes s' (mkGV "networking.k8s.io" "v1") k);
  gatewayv1_adds s s' : gatewayv1_Install s = Ok s' → recognizes s' (mkGV "gateway.networking.k8s.io" "v1") "HTTPRoute";
  gatewayv1_keeps s s' g k : gatewayv1_Install s = Ok s' → recognizes s g k → recognizes s' g k;
  NewSchemeBuilder_spec f s : Builder_AddToScheme (NewSchemeBuilder f) s = f s;
  Register_spec b f s : Builder_AddToScheme (Register b f) s = (s ← Builder_AddToScheme b s; f s);
}.

(** ** groupversion_info.go *)
Definition SchemeGroupVersion : schema_GroupVersion := mkGV "jellyfin.jellyops.io" "v1alpha1".
Definition GroupVersion : schema_GroupVersion := SchemeGroupVersion.

Section registration.
Context `{SchemeLib}.

Definition SchemeBuilder : Builder := NewSchemeBuilder (λ scheme, Ok (AddToGroupVersion scheme SchemeGroupVersion)).

(** The [init] functions of the package run after its variables are set, file by
    file; each adds to the builder. *)
Definition jellyfin_init (b : Builder) : Builder :=
  Register b (λ s, Ok (AddKnownTypes s SchemeGroupVersion ["Jellyfin"; "JellyfinList"])).
Definition jellyfinplugin_init (b : Builder) : Builder :=
  Register b (λ s, Ok (AddKnownTypes s SchemeGroupVersion ["JellyfinPlugin"; "JellyfinPluginList"])).
Definition package_init : Builder := jellyfinplugin_init (jellyfin_init SchemeBuilder).

(** [AddToScheme] is the method of the variable, bound by its address, so it sees what
    was registered after it was set. *)
Definition v1alpha1_AddToScheme (s : Scheme) : result SchemeError Scheme := Builder_AddToScheme package_init s.

(** ** cmd/main.go: [init]; an error is a panic. *)
Definition main_init : result SchemeError Scheme :=
  s ← clientgo_AddToScheme NewScheme;
  s ← v1alpha1_AddToScheme s;
  gatewayv1_Install s.
End registration.

(** Group, version and kind of what the controllers read and write. *)
Definition group_version_kind (k : Kind) : schema_GroupVersion * string :=
  match k with
  | KJellyfin => (SchemeGroupVersion, "Jellyfin")
  | KJellyfinPlugin => (SchemeGroupVersion, "JellyfinPlugin")
  | KDeployment => (mkGV "apps" "v1", "Deployment")
  | KService => (mkGV "" "v1", "Service")
  | KPersistentVolumeClaim => (mkGV "" "v1", "PersistentVolumeClaim")
  | KPersistentVolume => (mkGV "" "v1", "PersistentVolume")
  | KIngress => (mkGV "networking.k8s.io" "v1", "Ingress")
  | KHTTPRoute => (mkGV "gateway.networking.k8s.io" "v1", "HTTPRoute")
  | KSecret => (mkGV "" "v1", "Secret")
  end.
(** The kinds the controllers also list. *)
Definition listed (k : Kind) : bool :=
  match k with KJellyfin | KJellyfinPlugin | KDeployment => true | _ => false end.

(** when the process gets past its [init], its scheme has every kind that a call of
    the controllers is about, under the group its permissions name, and the list of
    every kind they list; the package's own registration cannot fail. *)
Theorem main_init_complete `{SchemeLib} s :
  main_init = Ok s →
  (∀ k, recognizes s (group_version_kind k).1 (group_version_kind k).2 ∧
     (listed k = true → recognizes s (group_version_kind k).1 ((group_version_kind k).2 +:+ "List")) ∧
     (gv_Group (group_version_kind k).1 = (group_resource k).1 ∨
      (gv_Group (group_version_kind k).1 = "" ∧ (group_resource k).1 = "core"))) ∧
  (∀ s0, is_Ok (v1alpha1_AddToScheme s0) = true).
Proof.
  assert (∀ s0, v1alpha1_AddToScheme s0 = Ok (AddKnownTypes (AddKnownTypes (AddToGroupVersion s0 SchemeGroupVersion)
    SchemeGroupVersion ["Jellyfin"; "JellyfinList"]) SchemeGroupVersion ["JellyfinPlugin"; "JellyfinPluginList"])) as Hown.
  { intros s0. unfold v1alpha1_AddToScheme, package_init, jellyfinplugin_init, jellyfin_init, SchemeBuilder.
    by rewrite !Register_spec, NewSchemeBuilder_spec. }
  unfold main_init. intros (s1&Hc&H2)%bind_Ok. rewrite Hown in H2. cbn in H2.
  split; [|by intros s0; rewrite Hown].
  intros k. pose proof (λ k, clientgo_adds _ _ k Hc) as Hadds.
  split_and!; [| |by destruct k; auto]; [|intros Hlist]; destruct k; try discriminate Hlist; cbn;
    first [ by eapply gatewayv1_adds
          | eapply gatewayv1_keeps; [exact H2|] ];
    first [ apply AddKnownTypes_adds; by apply (bool_decide_unpack _)
          | apply AddKnownTypes_keeps; apply AddKnownTypes_adds; by apply (bool_decide_unpack _)
          | do 2 apply AddKnownTypes_keeps; apply AddToGroupVersion_keeps; apply Hadds; by apply (bool_decide_unpack _) ].
Qed.

(** A scheme that is a list of what was added to it, last first. *)
Module Example_scheme.
Definition add (gv : schema_GroupVersion) (kinds : list string) (s : list (schema_GroupVersion * string)) :=
  (pair gv <$> kinds) ++ s.
Definition builtin (s : list (schema_GroupVersion * string)) :=
  add (mkGV "apps" "v1") ["Deployment"; "DeploymentList"]
    (add (mkGV "" "v1") ["Service"; "PersistentVolumeClaim"; "PersistentVolume"; "Secret"]
       (add (mkGV "networking.k8s.io" "v1") ["Ingress"] s)).

Lemma elem_of_add gv kinds s g k : (g, k) ∈ add gv kinds s ↔ (g = gv ∧ k ∈ kinds) ∨ (g, k) ∈ s.
Proof.
  unfold add. rewrite elem_of_app, list_elem_of_fmap. split.
  - intros [(k'&[= -> ->]&Hk)|Hs]; auto.
  - intros [[-> Hk]|Hs]; eauto.
Qed.

#[local] Instance list_scheme : SchemeLib.
Proof.
  refine {|
    NewScheme := [];
    recognizes s g k := (g, k) ∈ s;
    AddKnownTypes s gv kinds := add gv kinds s;
    AddToGroupVersion s gv := add gv ["WatchEvent"] s;
    clientgo_AddToScheme s := Ok (builtin s);
    gatewayv1_Install s := Ok (add (mkGV "gateway.networking.k8s.io" "v1") ["HTTPRoute"] s);
    Builder := list (list (schema_GroupVersion * string) → result SchemeError (list (schema_GroupVersion * string)));
    NewSchemeBuilder f := [f];
    Register b f := b ++ [f];
    Builder_AddToScheme b s := fold_left (λ r f, s ← r; f s) b (Ok s);
  |}; intros; simplify_eq/=; unfold builtin; rewrite ?elem_of_add; auto.
  - split_and!; auto. intros ->. right; right; left. split; [done|by left].
  - left. split; [done|by left].
  - by rewrite fold_left_app.
Defined.

Lemma main_init_complete_witness :
  ∃ s, main_init = Ok s ∧ recognizes s SchemeGroupVersion "JellyfinPluginList".
Proof.
  destruct main_init as [s|] eqn:Hs; [|discriminate]. exists s. split; [done|].
  destruct (main_init_complete s Hs) as [Hk _]. destruct (Hk KJellyfinPlugin) as (_&Hl&_). by apply Hl.
Defined.
End Example_scheme.
