(* ===== verification/Stability.v ===== *)
(** * Reconciling again changes nothing

    [controllerutil.CreateOrUpdate] writes only when the mutation changes the object
    it read. This file shows that each mutation of the three controllers leaves an
    object alone that it has mutated before, whatever the API server and other
    controllers filled in meanwhile in the fields that are theirs; so a controller
    that is run again on an unchanged resource writes none of its objects, and the
    events of its own writes do not make it write again. *)
From S2P Require Import Prelude Http Options K8s ApiTypes Naming Workloads Gateway Kube Programs Bindings PluginController JellyfinController ApiController Wiring.

(** ** What may happen to an object between two reconciles

    [o] was written, [o'] is read later: it has been stored, and only fields the
    controllers leave to others have changed. *)
Definition meta_kept (m m' : ObjectMeta) : Prop :=
  om_Name m' = om_Name m ∧ om_Namespace m' = om_Namespace m ∧ is_Some (om_CreationTimestamp m') ∧
  om_Labels m' = om_Labels m ∧ om_Annotations m' = om_Annotations m ∧
  om_OwnerReferences m' = om_OwnerReferences m.

(** The status is the Deployment controller's. *)
Definition deployment_kept (d d' : Deployment) : Prop :=
  meta_kept (dep_Meta d) (dep_Meta d') ∧ dep_Replicas d' = dep_Replicas d ∧ dep_Selector d' = dep_Selector d ∧
  dep_Strategy d' = dep_Strategy d ∧ dep_Template d' = dep_Template d.

Definition service_kept (s s' : Service) : Prop :=
  meta_kept (svc_Meta s) (svc_Meta s') ∧ svc_Type s' = svc_Type s ∧ svc_Selector s' = svc_Selector s ∧
  svc_Ports s' = svc_Ports s.

(** An ingress without a class may be given the default one. *)
Definition ingress_kept (i i' : Ingress) : Prop :=
  meta_kept (ing_Meta i) (ing_Meta i') ∧
  (∀ c, ing_ClassName i = Some c → ing_ClassName i' = Some c) ∧
  ing_Rules i' = ing_Rules i ∧ ing_TLS i' = ing_TLS i.

Definition route_kept (r r' : HTTPRoute) : Prop :=
  meta_kept (hr_Meta r) (hr_Meta r') ∧ hr_ParentRefs r' = hr_ParentRefs r ∧
  hr_Hostnames r' = hr_Hostnames r ∧ hr_Rules r' = hr_Rules r.

(** A claim is defaulted, bound, grown: everything but its metadata may change. *)
Definition claim_kept (c c' : PersistentVolumeClaim) : Prop := meta_kept (pvcl_Meta c) (pvcl_Meta c').

(** The binder notes the claim's UID in the reference and sets the phase. *)
Definition volume_kept (v v' : PersistentVolume) : Prop :=
  meta_kept (pv_Meta v) (pv_Meta v') ∧ pv_Capacity v' = pv_Capacity v ∧ pv_AccessModes v' = pv_AccessModes v ∧
  pv_ReclaimPolicy v' = pv_ReclaimPolicy v ∧ pv_MountOptions v' = pv_MountOptions v ∧
  pv_StorageClassName v' = pv_StorageClassName v ∧ pv_NFS v' = pv_NFS v ∧
  (∀ r, pv_ClaimRef v = Some r → ∃ r', pv_ClaimRef v' = Some r' ∧
     cr_Namespace r' = cr_Namespace r ∧ cr_Name r' = cr_Name r).

(** Others may add entries to a secret. *)
Definition secret_kept (s s' : Secret) : Prop := meta_kept (sec_Meta s) (sec_Meta s') ∧ sec_Data s ⊆ sec_Data s'.

(** [f] has nothing more to do on what it made. *)
Definition rests {T} (kept : T → T → Prop) (f : T → result Error T) : Prop :=
  ∀ o o' o'', f o = Ok o' → kept o' o'' → f o'' = Ok o''.

Definition settles : call_pred := λ R c,
  match c with
  | UpsertDeployment _ _ f => rests deployment_kept f
  | UpsertService _ _ f => rests service_kept f
  | UpsertIngress _ _ f => rests ingress_kept f
  | UpsertHTTPRoute _ _ f => rests route_kept f
  | UpsertPVC _ _ f => rests claim_kept f
  | UpsertPersistentVolume _ f => rests volume_kept f
  | UpsertSecret _ _ f => rests secret_kept f
  | _ => True
  end.

(** ** The metadata *)
Lemma set_labels_same m : set_om_Labels (om_Labels m) m = m.
Proof. by destruct m. Qed.
Lemma set_annotations_same m : set_om_Annotations (om_Annotations m) m = m.
Proof. by destruct m. Qed.

Section stability.
Context `{KubeLib}.

(** [own] only sets the owner references, and is at rest once it has. *)
Lemma own_shape kind owner m m' :
  own kind owner m = Ok m' → ∃ refs, m' = set_om_OwnerReferences refs m.
Proof.
  unfold own. destruct (SetControllerReference kind owner m) eqn:Hs; [|done]. intros [= <-].
  destruct (controller_reference _ _ _ _ Hs) as (refs & -> & _). by eexists.
Qed.

Lemma own_again kind owner m m' m'' :
  own kind owner m = Ok m' → meta_kept m' m'' → own kind owner m'' = Ok m''.
Proof.
  unfold own. destruct (SetControllerReference kind owner m) eqn:Hs; [|done]. intros [= <-] (_ & Hns & _ & _ & _ & Hr).
  by rewrite (controller_reference_again _ _ _ _ _ Hs Hns Hr).
Qed.

(** A mutation of the metadata that overwrites labels and annotations, or keeps
    them, and takes ownership. *)
Definition remakes (g : ObjectMeta → ObjectMeta) : Prop :=
  ∀ m m'', om_Labels m'' = om_Labels (g m) → om_Annotations m'' = om_Annotations (g m) → g m'' = m''.

Lemma remakes_labels ls : remakes (set_om_Labels ls).
Proof. intros m m'' Hl _. cbn in Hl. rewrite <- Hl. apply set_labels_same. Qed.

Lemma remakes_annotated ls an : remakes (λ m, set_om_Annotations an (set_om_Labels ls m)).
Proof. intros m m'' Hl Ha. cbn in Hl, Ha. rewrite <- Hl, <- Ha. rewrite set_labels_same. apply set_annotations_same. Qed.

Lemma owned_again g kind owner m m' m'' :
  remakes g → own kind owner (g m) = Ok m' → meta_kept m' m'' → own kind owner (g m'') = Ok m''.
Proof.
  intros Hg Ho Hk. destruct (own_shape _ _ _ _ Ho) as [refs Hm'].
  assert (g m'' = m'') as ->; [|by eapply own_again].
  destruct Hk as (_ & _ & _ & Hl & Ha & _). apply (Hg m); by rewrite ?Hl, ?Ha, Hm'.
Qed.

Lemma own_then {T} (r : result Error ObjectMeta) (k : ObjectMeta → T) (o' : T) :
  (m ← r; Ok (k m)) = Ok o' → ∃ m, r = Ok m ∧ o' = k m.
Proof. destruct r as [m|e]; [|done]. intros [= <-]. by exists m. Qed.
End stability.

(** ** The mutations *)
Section mutations.
Context `{KubeLib}.

Ltac at_rest g :=
  intros o o' o''; unfold own_instance; intros Hf Hk;
  destruct (own_then _ _ _ Hf) as (m & Hm & ->); clear Hf;
  unfold deployment_kept, service_kept, ingress_kept, route_kept in Hk; cbn in Hk;
  destruct_and? Hk;
  match goal with Hmeta : meta_kept _ _ |- _ =>
    rewrite (owned_again g _ _ _ _ _ ltac:(first [apply remakes_annotated|apply remakes_labels]) Hm Hmeta)
  end; cbn; destruct o''; cbn in *; subst.

Lemma deployment_rests jf d : rests deployment_kept (deployment_mutation jf d).
Proof. unfold deployment_mutation. at_rest (set_om_Labels (om_Labels (dep_Meta d))). done. Qed.

Lemma server_service_rests jf : rests service_kept (server_service_mutation jf).
Proof.
  unfold server_service_mutation.
  at_rest (λ m, set_om_Annotations (ss_Annotations (js_Service (jf_Spec jf))) (set_om_Labels (InstanceLabels jf) m)). done.
Qed.

Lemma web_service_rests jf d : rests service_kept (web_service_mutation jf d).
Proof.
  unfold web_service_mutation.
  at_rest (λ m, set_om_Annotations (om_Annotations (svc_Meta d)) (set_om_Labels (om_Labels (svc_Meta d)) m)). done.
Qed.

Lemma plugin_service_rests kind owner d : rests service_kept (service_mutation kind owner d).
Proof. unfold service_mutation. at_rest (set_om_Labels (om_Labels (svc_Meta d))). done. Qed.

Lemma route_rests jf d : rests route_kept (route_mutation jf d).
Proof.
  unfold route_mutation.
  at_rest (λ m, set_om_Annotations (om_Annotations (hr_Meta d)) (set_om_Labels (om_Labels (hr_Meta d)) m)). done.
Qed.

Lemma ingress_rests jf spec : rests ingress_kept (ingress_mutation jf spec).
Proof.
  unfold ingress_mutation.
  at_rest (λ m, set_om_Annotations (is_Annotations spec) (set_om_Labels (InstanceLabels jf) m)).
  f_equal. f_equal; [|by destruct (is_TLS spec)].
  case_decide; [symmetry; auto|done].
Qed.

(** Workloads: the selector is set on creation only. *)
Lemma workload_rests p d : rests deployment_kept (workload_mutation p d).
Proof.
  intros o o' o'' Hf (Hmeta & Hr & Hs & Hst & Ht). unfold workload_mutation in *.
  destruct (own_then _ _ _ Hf) as (m & Hm & ->). cbn in *.
  rewrite (owned_again _ _ _ _ _ _ (remakes_labels _) Hm Hmeta). cbn.
  destruct Hmeta as (_ & _ & [t ->] & _). destruct o''. cbn in *. by subst.
Qed.

(** Claims: the rest is set on creation only. *)
Lemma claim_rests_if jf (f : PersistentVolumeClaim → result Error PersistentVolumeClaim)
    (new : ObjectMeta → PersistentVolumeClaim → PersistentVolumeClaim) :
  (∀ m c, pvcl_Meta (new m c) = m) →
  (∀ c, f c = (meta ← own_instance jf (set_om_Labels (InstanceLabels jf) (pvcl_Meta c));
               match om_CreationTimestamp (pvcl_Meta c) with
               | None => Ok (new meta c)
               | Some _ => Ok (set_pvcl meta (pvcl_AccessModes c) (pvcl_Requests c) (pvcl_StorageClassName c)
                                 (pvcl_VolumeName c) c)
               end)) → rests claim_kept f.
Proof.
  intros Hnew Hf o o' o'' Ho Hk. rewrite Hf in Ho |- *.
  destruct (own_instance jf _) as [m|] eqn:Hm in Ho; [|done].
  assert (pvcl_Meta o' = m) as Hm' by (cbn in Ho; case_match; injection Ho as <-; [done|apply Hnew]).
  unfold claim_kept in Hk. rewrite Hm' in Hk.
  unfold own_instance in *. rewrite (owned_again _ _ _ _ _ _ (remakes_labels _) Hm Hk). cbn.
  destruct Hk as (_ & _ & [t ->] & _). by destruct o''.
Qed.

Lemma claim_rests jf spec size modes : rests claim_kept (pvc_mutation jf spec size modes).
Proof.
  apply (claim_rests_if jf _ (λ m c, set_pvcl m modes {[ ResourceStorage := size ]}
    (if decide (pvc_StorageClassName spec ≠ "") then Some (pvc_StorageClassName spec) else pvcl_StorageClassName c)
    (pvcl_VolumeName c) c)); done.
Qed.

Lemma nfs_claim_rests jf nfs pv : rests claim_kept (nfs_pvc_mutation jf nfs pv).
Proof.
  apply (claim_rests_if jf _ (λ m c, set_pvcl m [ReadWriteMany] {[ ResourceStorage := Ti 1 ]}
    (Some (nfs_StorageClassName nfs)) pv c)); done.
Qed.

(** A volume has no owner; its reference is kept once it names the claim. *)
Lemma claim_ref_names ns claim cur :
  ∃ r, claim_ref ns claim cur = Some r ∧ cr_Namespace r = ns ∧ cr_Name r = claim.
Proof.
  unfold claim_ref. destruct cur as [r|]; [case_decide|]; eexists; split_and!; try done; apply dec_stable; tauto.
Qed.

Lemma claim_ref_rests ns claim r :
  cr_Namespace r = ns → cr_Name r = claim → claim_ref ns claim (Some r) = Some r.
Proof. intros <- <-. unfold claim_ref. rewrite decide_False; [done|tauto]. Qed.

Lemma volume_rests jf nfs claim : rests volume_kept (pv_mutation jf nfs claim).
Proof.
  intros o o' o'' [= <-] (Hmeta & H1 & H2 & H3 & H4 & H5 & H6 & Href). unfold pv_mutation. cbn in *.
  destruct (claim_ref_names (jf_Namespace jf) claim (pv_ClaimRef o)) as (r & Hr & Hns & Hn).
  destruct (Href r Hr) as (r' & Hr' & Hns' & Hn'). rewrite Hr', claim_ref_rests by congruence.
  destruct Hmeta as (_ & _ & _ & Hl & _). cbn in Hl. rewrite <- Hl, set_labels_same.
  destruct o''. cbn in *. by subst.
Qed.

Lemma secret_rests jf user pass key : rests secret_kept (secret_mutation jf user pass key).
Proof.
  intros o o' o'' Hf [Hmeta Hsub]. unfold secret_mutation in *.
  destruct (own_then _ _ _ Hf) as (m & Hm & ->). cbn in *. unfold own_instance in *.
  rewrite (own_again _ _ _ _ _ Hm Hmeta). cbn.
  rewrite (insert_id _ "apiKey" key), (insert_id _ "username" user), (insert_id _ "password" pass);
    [by destruct o''| | |]; (eapply lookup_weaken; [|exact Hsub]); by simplify_map_eq.
Qed.

Lemma known_settles R (c : call R) : known_mutation R c → settles R c.
Proof.
  destruct c; cbn; try done.
  - intros [(jf & d & ->)|(p & d & ->)]; [apply deployment_rests|apply workload_rests].
  - intros [(jf & ->)|[(jf & d & ->)|(k & o & d & ->)]];
      [apply server_service_rests|apply web_service_rests|apply plugin_service_rests].
  - intros (jf & spec & ->). apply ingress_rests.
  - intros (jf & d & ->). apply route_rests.
  - intros [(jf & spec & size & modes & ->)|(jf & nfs & pv & ->)]; [apply claim_rests|apply nfs_claim_rests].
  - intros (jf & nfs & claim & ->). apply volume_rests.
  - intros (jf & u & p & k & ->). apply secret_rests.
Qed.
End mutations.

