(* ===== verification/Admission.v ===== *)
(** * The schemas of the custom resources (the kubebuilder markers of api/v1alpha1)

    The markers on the Go types become the schemas of the two resources: the API
    server fills in defaults, then refuses what breaks a rule. This file has both as
    functions and shows what the controllers gain from them: the defaults change
    nothing that is built, and an admitted resource stays clear of the branches that
    would ignore a part of it.

    A resource is the Go structure a client submits, in which an [omitempty] field
    with the zero value is absent; a manifest may also spell such a value out, which
    matters to the [has()] of one rule and is treated there. The schemas of the
    embedded Kubernetes types are Kubernetes'. *)
From S2P Require Import Prelude GoStrings K8s ApiTypes Http Options Naming Meta PodSecurity HwAccel Builder Web Workloads Gateway Kube Programs Client Bindings PluginController JellyfinController ApiController.

(** ** Markers *)
Definition one_of (values : list string) (s : string) : bool := bool_decide (s ∈ values).
Definition filled (s : string) : bool := bool_decide (s ≠ "").
Definition at_least (n x : Z) : bool := bool_decide (n ≤ x)%Z.
Definition between (lo hi x : Z) : bool := bool_decide (lo ≤ x ≤ hi)%Z.

(** A check of an [omitempty] field, and of a pointer. *)
Definition unset_or (p : string → bool) (s : string) : bool := bool_decide (s = "") || p s.
Definition given {A} (p : A → bool) (o : option A) : bool := match o with Some a => p a | None => true end.

(** ** The instance: rules, type by type *)
Definition valid_ServiceSpec (s : ServiceSpec) : bool :=
  unset_or (one_of ["ClusterIP"; "NodePort"; "LoadBalancer"]) (ss_Type s) &&
  (bool_decide (ss_Port s = 0%Z) || between 1 65535 (ss_Port s)).

Definition valid_IngressTLS (t : IngressTLS) : bool := filled (itls_SecretName t).
Definition valid_IngressSpec (i : IngressSpec) : bool :=
  filled (is_Host i) && given valid_IngressTLS (is_TLS i).

Definition valid_HardwareAccel (h : HardwareAccel) : bool := one_of ["vaapi"; "qsv"; "nvidia"] (hw_Type h).

Definition valid_NFSSource (n : NFSSource) : bool := filled (nfs_Server n) && filled (nfs_Path n).

Definition valid_LibrarySpec (l : LibrarySpec) : bool :=
  unset_or (one_of ["movies"; "tvshows"; "music"; "musicvideos"; "homevideos"; "boxsets"; "books"; "mixed"])
    (lib_CollectionType l).

(** [[has(self.nfs), has(self.pvc), has(self.existingClaim)].filter(x, x).size() == 1];
    [spelled]: the manifest has the field [existingClaim]. *)
Definition one_source (spelled : bool) (m : MediaFolder) : bool :=
  bool_decide (length (filter (λ x : bool, x)
    [bool_decide (is_Some (mf_NFS m)); bool_decide (is_Some (mf_PVC m)); spelled]) = 1).

Definition valid_MediaFolder (m : MediaFolder) : bool :=
  one_source (bool_decide (mf_ExistingClaim m ≠ "")) m &&
  filled (mf_Name m) && filled (mf_MountPath m) &&
  given valid_NFSSource (mf_NFS m) && given valid_LibrarySpec (mf_Library m).

Definition valid_JellyfinStorage (s : JellyfinStorage) : bool := forallb valid_MediaFolder (st_Media s).

Definition valid_WebSpec (w : WebSpec) : bool :=
  unset_or (one_of ["deployment"; "volume"]) (web_Mode w) && given (at_least 0) (web_Replicas w) &&
  valid_ServiceSpec (web_Service w).

Definition valid_GatewayReference (r : GatewayReference) : bool := filled (gr_Name r).
Definition valid_GatewaySpec (g : GatewaySpec) : bool :=
  valid_GatewayReference (gw_GatewayRef g) && filled (gw_Hostname g).

Definition valid_JellyfinAPISpec (a : JellyfinAPISpec) : bool :=
  unset_or (one_of ["provided"; "bootstrap"]) (api_Mode a).

Definition valid_ThrottleSpec (t : ThrottleSpec) : bool := given (at_least 0) (th_DelaySeconds t).
Definition valid_SegmentDeletionSpec (s : SegmentDeletionSpec) : bool := given (at_least 0) (sd_KeepSeconds s).
Definition valid_TranscodingSpec (t : TranscodingSpec) : bool :=
  given valid_ThrottleSpec (tr_Throttle t) && given valid_SegmentDeletionSpec (tr_SegmentDeletion t).

Definition valid_GeneralSpec (g : GeneralSpec) : bool :=
  forallb (given (at_least 0))
    [ge_SlowResponseThresholdMs g; ge_LibraryScanFanoutConcurrency g; ge_LibraryMetadataRefreshConcurrency g;
     ge_ParallelImageEncodingLimit g; ge_ActivityLogRetentionDays g; ge_LibraryMonitorDelay g;
     ge_LibraryUpdateDuration g; ge_InactiveSessionThreshold g; ge_LogFileRetentionDays g].

Definition valid_PlaybackSpec (p : PlaybackSpec) : bool :=
  forallb (given (between 0 100)) [pl_MinResumePct p; pl_MaxResumePct p] &&
  forallb (given (at_least 0))
    [pl_MinResumeDurationSeconds p; pl_MinAudiobookResumeMinutes p; pl_MaxAudiobookResumeMinutes p;
     pl_RemoteClientBitrateLimit p].

(** The rules across fields, in the order of the markers. *)
Definition has {A} (o : option A) : bool := bool_decide (is_Some o).

Definition JellyfinSpec_rules (s : JellyfinSpec) : bool :=
  negb (has (js_Ingress s) && has (js_Gateway s)) &&
  (negb (has (js_Transcoding s)) || has (js_API s)) &&
  (negb (has (js_General s)) || has (js_API s)) &&
  (negb (has (js_Branding s)) || has (js_API s)) &&
  (negb (has (js_Playback s)) || has (js_API s)).

Definition valid_JellyfinSpec (s : JellyfinSpec) : bool :=
  JellyfinSpec_rules s && given (at_least 0) (js_Replicas s) && valid_JellyfinStorage (js_Storage s) &&
  valid_ServiceSpec (js_Service s) && given valid_IngressSpec (js_Ingress s) && given valid_WebSpec (js_Web s) &&
  given valid_GatewaySpec (js_Gateway s) && given valid_HardwareAccel (js_HardwareAcceleration s) &&
  given valid_JellyfinAPISpec (js_API s) && given valid_TranscodingSpec (js_Transcoding s) &&
  given valid_GeneralSpec (js_General s) && given valid_PlaybackSpec (js_Playback s).

(** ** The plugin: rules, type by type *)
Definition valid_ImageSource (i : ImageSource) : bool :=
  filled (img_Reference i) && unset_or (one_of ["Always"; "Never"; "IfNotPresent"]) (img_PullPolicy i).

Definition valid_InstanceMediaSelection (s : InstanceMediaSelection) : bool :=
  unset_or (one_of ["All"; "Selected"; "None"]) (im_Mode s).

Definition valid_PluginWorkload (w : PluginWorkload) : bool :=
  filled (wl_Name w) && valid_ImageSource (wl_Image w) && given (at_least 0) (wl_Replicas w) &&
  given valid_InstanceMediaSelection (wl_InstanceMedia w).

Definition valid_PluginService (s : PluginService) : bool :=
  filled (psv_Name s) && filled (psv_Selector s) &&
  unset_or (one_of ["ClusterIP"; "NodePort"; "LoadBalancer"]) (psv_Type s).

Definition valid_PluginInstall (i : PluginInstall) : bool :=
  given valid_ImageSource (ins_Image i) && unset_or (one_of ["Ignore"; "Fail"]) (ins_FailurePolicy i) &&
  given (at_least 1) (ins_TimeoutSeconds i).

Definition valid_JellyfinPluginSpec (s : JellyfinPluginSpec) : bool :=
  valid_ImageSource (pls_PluginImage s) && unset_or (one_of ["imageVolume"; "imageVolumeCopy"]) (pls_Injection s) &&
  given valid_PluginInstall (pls_Install s) && forallb valid_PluginWorkload (pls_Workloads s) &&
  forallb valid_PluginService (pls_Services s).

(** ** Defaults

    A default fills in a field that is absent in a block that is present. *)
Definition default_WebSpec (w : WebSpec) : WebSpec :=
  mkWebSpec (web_Image w) (or_default "deployment" (web_Mode w)) (web_SubPath w) (web_PullPolicy w)
    (web_Replicas w) (web_Resources w) (web_Service w) (web_PodAnnotations w).

Definition default_GatewaySSO (s : GatewaySSO) : GatewaySSO :=
  mkGatewaySSO (sso_AutoLoginRedirect s) (or_default "/sso/authorize" (sso_AuthorizePath s)).

Definition default_GatewaySpec (g : GatewaySpec) : GatewaySpec :=
  mkGatewaySpec (gw_GatewayRef g) (gw_Hostname g) (gw_Annotations g) (default_GatewaySSO <$> gw_SSO g).

Definition default_JellyfinAPISpec (a : JellyfinAPISpec) : JellyfinAPISpec :=
  mkAPISpec (or_default "bootstrap" (api_Mode a)) (api_CredentialsSecret a) (api_GeneratedSecretName a)
    (api_ManageLibraries a) (api_Prune a) (api_RefreshLibraryOnChange a).

Definition default_JellyfinSpec (s : JellyfinSpec) : JellyfinSpec :=
  mkJellyfinSpec (js_Image s) (js_Replicas s) (js_Storage s) (js_Service s) (js_Ingress s)
    (default_WebSpec <$> js_Web s) (default_GatewaySpec <$> js_Gateway s) (js_Resources s)
    (js_HardwareAcceleration s) (js_PodSecurity s) (default_JellyfinAPISpec <$> js_API s) (js_Transcoding s)
    (js_General s) (js_Branding s) (js_Playback s) (js_PluginSelector s) (js_PodAnnotations s)
    (js_ImagePullSecrets s).

Definition default_Jellyfin (jf : Jellyfin) : Jellyfin :=
  mkJellyfin (jf_Meta jf) (default_JellyfinSpec (jf_Spec jf)) (jf_Status jf).

Definition default_PluginInstall (i : PluginInstall) : PluginInstall :=
  mkInstall (ins_Image i) (ins_Script i) (ins_Command i) (ins_Args i) (ins_Env i) (ins_VolumeMounts i)
    (ins_Resources i) (or_default "Ignore" (ins_FailurePolicy i)) (ins_TimeoutSeconds i) (ins_RunOnce i).

Definition default_JellyfinPluginSpec (s : JellyfinPluginSpec) : JellyfinPluginSpec :=
  mkPluginSpec (pls_JellyfinRef s) (pls_PluginImage s) (pls_Meta s) (or_default "imageVolume" (pls_Injection s))
    (default_PluginInstall <$> pls_Install s) (pls_Workloads s) (pls_Services s).

Definition default_JellyfinPlugin (p : JellyfinPlugin) : JellyfinPlugin :=
  mkPlugin (p_Meta p) (default_JellyfinPluginSpec (p_Spec p)) (p_Status p).

(** What the API server stores of a submitted resource, or its refusal. *)
Definition admit_Jellyfin (jf : Jellyfin) : option Jellyfin :=
  let jf := default_Jellyfin jf in
  if valid_JellyfinSpec (jf_Spec jf) then Some jf else None.

Definition admit_JellyfinPlugin (p : JellyfinPlugin) : option JellyfinPlugin :=
  let p := default_JellyfinPlugin p in
  if valid_JellyfinPluginSpec (p_Spec p) then Some p else None.

(** ** Defaults are what the code assumes *)
Lemma EffectiveMode_default w : EffectiveMode (Some (default_WebSpec w)) = EffectiveMode (Some w).
Proof. unfold EffectiveMode, default_WebSpec, or_default. cbn. repeat case_decide; done. Qed.

Lemma or_default_neq d d' s : d ≠ d' → bool_decide (or_default d s = d') = bool_decide (s = d') ∨ d' = "".
Proof.
  intros Hd. unfold or_default. destruct (decide (s = "")) as [->|]; [|by left].
  destruct (decide (d' = "")); [by right|left]. apply bool_decide_ext. split; congruence.
Qed.

Lemma copies_default p : copies (default_JellyfinPlugin p) = copies p.
Proof. unfold copies. cbn. by destruct (or_default_neq "imageVolume" InjectionImageVolumeCopy (pls_Injection (p_Spec p))). Qed.

Lemma is_fail_default i :
  bool_decide (ins_FailurePolicy (default_PluginInstall i) = FailurePolicyFail)
  = bool_decide (ins_FailurePolicy i = FailurePolicyFail).
Proof. cbn. by destruct (or_default_neq "Ignore" FailurePolicyFail (ins_FailurePolicy i)). Qed.

Lemma decide_same {A} (P Q : Prop) `{!Decision P, !Decision Q} (x y : A) :
  (P ↔ Q) → (if decide P then x else y) = (if decide Q then x else y).
Proof. intros. repeat case_decide; tauto. Qed.

Lemma buildInstallWrapper_default folder name i :
  buildInstallWrapper folder name (default_PluginInstall i) = buildInstallWrapper folder name i.
Proof.
  unfold buildInstallWrapper. change (install_run (default_PluginInstall i)) with (install_run i).
  change (ins_RunOnce (default_PluginInstall i)) with (ins_RunOnce i). cbv zeta.
  apply decide_same. by rewrite <- (bool_decide_eq_true (ins_FailurePolicy (default_PluginInstall i) = _)),
    is_fail_default, bool_decide_eq_true.
Qed.

Lemma installContainer_default image p i :
  installContainer image (default_JellyfinPlugin p) (default_PluginInstall i) = installContainer image p i.
Proof.
  unfold installContainer.
  change (p_Name (default_JellyfinPlugin p)) with (p_Name p).
  rewrite buildInstallWrapper_default. done.
Qed.

Lemma fail_closed_default o : fail_closed (default_PluginInstall <$> o) = fail_closed o.
Proof. destruct o; [apply is_fail_default|done]. Qed.

Lemma hookContainer_default image p : hookContainer image (default_JellyfinPlugin p) = hookContainer image p.
Proof.
  assert (∀ folder name, buildHookWrapper folder name (default_PluginInstall <$> pls_Install (p_Spec p))
    = buildHookWrapper folder name (pls_Install (p_Spec p))) as Hw.
  { intros. unfold buildHookWrapper. rewrite fail_closed_default. by destruct (pls_Install (p_Spec p)). }
  unfold hookContainer. cbn [p_Spec default_JellyfinPlugin pls_Install default_JellyfinPluginSpec].
  change (p_Name (default_JellyfinPlugin p)) with (p_Name p).
  rewrite Hw. by destruct (pls_Install (p_Spec p)).
Qed.

Lemma inline_install_default p :
  inline_install (default_JellyfinPlugin p) = default_PluginInstall <$> inline_install p.
Proof. unfold inline_install. cbn. destruct (pls_Install (p_Spec p)); cbn; [|done]. by case_decide. Qed.

Lemma addPlugin_default image s p : addPlugin image s (default_JellyfinPlugin p) = addPlugin image s p.
Proof.
  unfold addPlugin. rewrite copies_default, inline_install_default, hookContainer_default.
  destruct (inline_install p); cbn [fmap option_fmap option_map]; [by rewrite installContainer_default|done].
Qed.

Lemma addPlugins_default image s ps : addPlugins image s (default_JellyfinPlugin <$> ps) = addPlugins image s ps.
Proof.
  revert s. induction ps as [|p ps IH]; intros s; [done|]. cbn. rewrite addPlugin_default.
  destruct (addPlugin image s p); [apply IH|done].
Qed.

Lemma serverParts_default jf image : serverParts (default_Jellyfin jf) image = serverParts jf image.
Proof.
  unfold serverParts, addWebVolume. cbn [js_Web jf_Spec default_Jellyfin default_JellyfinSpec].
  destruct (js_Web (jf_Spec jf)) as [w|]; [|done]. cbn [fmap option_fmap option_map].
  rewrite EffectiveMode_default. done.
Qed.

Lemma BuildDeployment_default σ jf ps :
  NoDup (p_Name <$> ps) →
  BuildDeployment σ (default_Jellyfin jf) (default_JellyfinPlugin <$> ps) = BuildDeployment σ jf ps.
Proof.
  intros Hnd. unfold BuildDeployment, BuildPodTemplateSpec. rewrite (sort_by_fmap p_Name) by done.
  change (instance_image (default_Jellyfin jf)) with (instance_image jf).
  rewrite addPlugins_default, serverParts_default. done.
Qed.

Lemma BuildWebDeployment_default jf : BuildWebDeployment (default_Jellyfin jf) = BuildWebDeployment jf.
Proof. unfold BuildWebDeployment. cbn. by destruct (js_Web (jf_Spec jf)). Qed.

Lemma split_mode_default jf : split_mode (default_Jellyfin jf) = split_mode jf.
Proof.
  unfold split_mode. cbn. destruct (js_Web (jf_Spec jf)) as [w|]; [|done].
  change (bool_decide (EffectiveMode (Some (default_WebSpec w)) = WebModeDeployment)
          = bool_decide (EffectiveMode (Some w) = WebModeDeployment)).
  by rewrite EffectiveMode_default.
Qed.

Lemma rootRedirectTarget_default gw : rootRedirectTarget (default_GatewaySpec gw) = rootRedirectTarget gw.
Proof.
  unfold rootRedirectTarget. cbn. destruct (gw_SSO gw) as [sso|]; cbn; [|done].
  destruct (sso_AutoLoginRedirect sso); [|done]. unfold or_default. repeat case_decide; done.
Qed.

Lemma BuildHTTPRoute_default jf : BuildHTTPRoute (default_Jellyfin jf) = BuildHTTPRoute jf.
Proof.
  unfold BuildHTTPRoute. rewrite split_mode_default. cbn. destruct (js_Gateway (jf_Spec jf)) as [gw|]; [|done].
  unfold route_object, server_rules, split_rules, rootRedirectRule. cbn. by rewrite rootRedirectTarget_default.
Qed.

Lemma reconcileWeb_default `{KubeLib} jf : reconcileWeb (default_Jellyfin jf) = reconcileWeb jf.
Proof.
  unfold reconcileWeb. rewrite BuildWebDeployment_default. cbv zeta. apply decide_same. cbn.
  destruct (js_Web (jf_Spec jf)) as [w|]; [|done].
  change (default_WebSpec <$> Some w) with (Some (default_WebSpec w)). rewrite EffectiveMode_default.
  split; intros [?|?]; naive_solver.
Qed.

Lemma ensureCredentials_default `{KubeLib} quote jf spec cli :
  ensureCredentials quote jf (default_JellyfinAPISpec spec) cli = ensureCredentials quote jf spec cli.
Proof.
  assert (api_Mode (default_JellyfinAPISpec spec) = "provided" ↔ api_Mode spec = "provided") as Hm.
  { cbn. unfold or_default. case_decide as Hd; [rewrite Hd; done|done]. }
  unfold ensureCredentials. change (generatedName jf (default_JellyfinAPISpec spec)) with (generatedName jf spec).
  change (givenCredentials jf (default_JellyfinAPISpec spec)) with (givenCredentials jf spec).
  by destruct (decide (api_Mode (default_JellyfinAPISpec spec) = "provided")),
    (decide (api_Mode spec = "provided")); try tauto.
Qed.

(** ** What an admitted resource rules out *)
Lemma given_Some {A} (p : A → bool) o a : given p o = true → o = Some a → p a = true.
Proof. by intros H ->. Qed.

Lemma admitted_valid jf jf' : admit_Jellyfin jf = Some jf' → valid_JellyfinSpec (jf_Spec jf') = true ∧ jf' = default_Jellyfin jf.
Proof. unfold admit_Jellyfin. cbv zeta. destruct (valid_JellyfinSpec _) eqn:Hv; [|done]. by intros [= <-]. Qed.

(** The conjuncts of a specification that is valid. *)
Lemma valid_parts s :
  valid_JellyfinSpec s = true →
  JellyfinSpec_rules s = true ∧ valid_JellyfinStorage (js_Storage s) = true ∧
  valid_ServiceSpec (js_Service s) = true ∧ given valid_WebSpec (js_Web s) = true ∧
  given valid_HardwareAccel (js_HardwareAcceleration s) = true.
Proof. unfold valid_JellyfinSpec. rewrite !andb_true_iff. tauto. Qed.

Lemma has_true {A} (o : option A) : has o = true ↔ is_Some o.
Proof. apply bool_decide_eq_true. Qed.

Lemma one_source_some mf :
  one_source (bool_decide (mf_ExistingClaim mf ≠ "")) mf = true →
  mf_ExistingClaim mf ≠ "" ∨ is_Some (mf_NFS mf) ∨ is_Some (mf_PVC mf).
Proof.
  unfold one_source. rewrite bool_decide_eq_true. intros H. revert H.
  destruct (mf_NFS mf); [eauto|]. destruct (mf_PVC mf); [eauto|].
  destruct (decide (mf_ExistingClaim mf = "")) as [->|]; [done|eauto].
Qed.

Lemma valid_media_ok st :
  valid_JellyfinStorage st = true →
  (∀ mf n, mf ∈ st_Media st → mf_NFS mf = Some n → nfs_Provision n = true ∨ nfs_MountOptions n = []) →
  Forall media_ok (st_Media st).
Proof.
  unfold valid_JellyfinStorage. rewrite forallb_forall. intros Hv Hopt. apply Forall_forall. intros mf Hmf.
  specialize (Hv mf (proj1 (list_elem_of_In _ _) Hmf)). unfold valid_MediaFolder in Hv. rewrite !andb_true_iff in Hv.
  split; [apply one_source_some; tauto|]. intros n Hn. by eapply Hopt.
Qed.

Lemma valid_port s : valid_ServiceSpec s = true → ss_Port s = 0%Z ∨ (1 ≤ ss_Port s ≤ 65535)%Z.
Proof.
  unfold valid_ServiceSpec, between. rewrite andb_true_iff, orb_true_iff, !bool_decide_eq_true. tauto.
Qed.

Lemma valid_web_mode w :
  valid_WebSpec w = true →
  EffectiveMode (Some w) = WebModeDeployment ∨ EffectiveMode (Some w) = WebModeVolume.
Proof.
  unfold valid_WebSpec, unset_or, one_of. rewrite !andb_true_iff, orb_true_iff, !bool_decide_eq_true.
  rewrite !elem_of_cons, elem_of_nil. unfold EffectiveMode. intros [[[H|[H|[H|[]]]] _] _].
  - left. by rewrite decide_True.
  - rewrite H. by left.
  - rewrite H. by right.
Qed.

Lemma valid_accel h : valid_HardwareAccel h = true → is_Some (wanted_path h) ∨ is_Some (wanted_resource h).
Proof.
  unfold valid_HardwareAccel, one_of, wanted_path, wanted_resource, render_type, nvidia_type.
  rewrite bool_decide_eq_true, !elem_of_cons, elem_of_nil.
  intros Ht. assert (hw_Type h = AccelVAAPI ∨ hw_Type h = AccelQSV ∨ hw_Type h = AccelNvidia) as Ht' by tauto.
  destruct (decide (hw_DeviceResource h = "")) as [Hr|Hr].
  - destruct (bool_decide (hw_Type h = AccelVAAPI ∨ hw_Type h = AccelQSV)) eqn:Hd.
    + left. rewrite bool_decide_eq_true_2 by done. by eexists.
    + apply bool_decide_eq_false in Hd. right. rewrite bool_decide_eq_true_2 by tauto. by eexists.
  - right. destruct (bool_decide (hw_Type h = AccelVAAPI ∨ hw_Type h = AccelQSV)) eqn:Hd; [by eexists|].
    apply bool_decide_eq_false in Hd. rewrite bool_decide_eq_true_2 by tauto. by eexists.
Qed.

(** A stored plugin: its policies are among the two the code tells apart, its
    injection among the two the builder has, timeouts are positive, and its workloads
    have a name, an image and no negative number of replicas. *)
Lemma admitted_plugin p p' :
  admit_JellyfinPlugin p = Some p' →
  (pls_Injection (p_Spec p') = InjectionImageVolume ∨ copies p' = true) ∧
  (∀ i, pls_Install (p_Spec p') = Some i →
     (ins_FailurePolicy i = FailurePolicyIgnore ∨ ins_FailurePolicy i = FailurePolicyFail) ∧
     ∀ t, ins_TimeoutSeconds i = Some t → (1 ≤ t)%Z) ∧
  (∀ w, w ∈ pls_Workloads (p_Spec p') →
     wl_Name w ≠ "" ∧ img_Reference (wl_Image w) ≠ "" ∧ ∀ n, wl_Replicas w = Some n → (0 ≤ n)%Z).
Proof.
  unfold admit_JellyfinPlugin. cbv zeta. destruct (valid_JellyfinPluginSpec _) eqn:Hv; [|done]. intros [= <-].
  unfold valid_JellyfinPluginSpec in Hv. rewrite !andb_true_iff in Hv. destruct Hv as [[[[_ Hinj] Hins] Hwl] _].
  split; [|split].
  - unfold unset_or, one_of in Hinj. rewrite orb_true_iff, !bool_decide_eq_true, !elem_of_cons, elem_of_nil in Hinj.
    unfold copies. rewrite bool_decide_eq_true. destruct Hinj as [He|[Hi|[Hi|[]]]]; [|by left|by right].
    cbn in He. unfold or_default in He. by case_decide.
  - intros i Hi. apply (given_Some _ _ _ Hins) in Hi as Hvi. unfold valid_PluginInstall in Hvi.
    rewrite !andb_true_iff in Hvi. destruct Hvi as [[_ Hpol] Ht]. split.
    + unfold unset_or, one_of in Hpol. rewrite orb_true_iff, !bool_decide_eq_true, !elem_of_cons, elem_of_nil in Hpol.
      destruct Hpol as [He|[Hp|[Hp|[]]]]; [|by left|by right]. exfalso. revert He. cbn in Hi.
      destruct (pls_Install (p_Spec p)) as [i0|]; [|done]. injection Hi as <-. cbn. unfold or_default. by case_decide.
    + intros t Hti. apply (given_Some _ _ _ Ht) in Hti. by apply bool_decide_eq_true in Hti.
  - intros w Hw. rewrite forallb_forall in Hwl. specialize (Hwl w (proj1 (list_elem_of_In _ _) Hw)).
    unfold valid_PluginWorkload, valid_ImageSource in Hwl. rewrite !andb_true_iff in Hwl.
    destruct Hwl as [[[Hn [Him _]] Hr] _]. apply bool_decide_eq_true in Hn, Him. split_and!; [done..|].
    intros n Hn'. apply (given_Some _ _ _ Hr) in Hn'. by apply bool_decide_eq_true in Hn'.
Qed.

(** Which of the two objects that publish an instance a call writes. *)
Definition no_ingress : call_pred := λ R c, match c with UpsertIngress _ _ _ => False | _ => True end.
Definition no_route : call_pred := λ R c, match c with UpsertHTTPRoute _ _ _ => False | _ => True end.

Section exposure.
Context `{KubeLib, RetryLib}.

Ltac whole_pass :=
  unfold reconcileInstance, BoundPlugins, reconcileStorage, reconcileDeployment, reconcileService;
  unfold reconcileIngress, reconcileWeb, reconcileGateway, updateInstanceStatus, writeJellyfinStatus;
  unfold ensure_optional, reconcileMedia, ensureProvisionedNFS, checkVolume, ensurePVC, growPVC.

Lemma pass_without_ingress quote σ jf :
  js_Ingress (jf_Spec jf) = None → only no_ingress (reconcileInstance quote σ jf).
Proof. intros Hi. whole_pass. rewrite Hi. walk ltac:(exact I). Qed.

Lemma pass_without_route quote σ jf :
  js_Gateway (jf_Spec jf) = None → only no_route (reconcileInstance quote σ jf).
Proof. intros Hg. whole_pass. rewrite Hg. walk ltac:(exact I). Qed.
End exposure.

(** C23: the defaults of the schemas are those of the code: the pod of an instance
    with its plugins, the web tier, the route and the way to credentials are the same
    for a resource as it was submitted and as the API server completed it. *)
Theorem schema_defaults_transparent `{KubeLib} quote σ jf ps spec cli :
  NoDup (p_Name <$> ps) →
  BuildDeployment σ (default_Jellyfin jf) (default_JellyfinPlugin <$> ps) = BuildDeployment σ jf ps ∧
  reconcileWeb (default_Jellyfin jf) = reconcileWeb jf ∧
  BuildHTTPRoute (default_Jellyfin jf) = BuildHTTPRoute jf ∧
  ensureCredentials quote jf (default_JellyfinAPISpec spec) cli = ensureCredentials quote jf spec cli.
Proof.
  intros Hnd. split_and!;
    [by apply BuildDeployment_default|apply reconcileWeb_default|apply BuildHTTPRoute_default
    |apply ensureCredentials_default].
Qed.



(** ** What the schemas let through *)

(** A manifest that spells out an empty [existingClaim] and nothing else has its
    one source for the rule, none for the controller: the pod mounts a claim nobody
    makes. *)
Lemma spelled_empty_claim_unprovided `{KubeLib} quote jf mf :
  mf_NFS mf = None → mf_PVC mf = None → mf_ExistingClaim mf = "" →
  one_source true mf = true ∧ reconcileMedia quote jf mf = ok tt ∧
  vol_PersistentVolumeClaim (mediaVolumeAndMount jf mf).1
  = Some (mkPVCSource (MediaClaimName jf mf) (mediaReadOnly mf)).
Proof.
  intros Hn Hp He. split_and!.
  - unfold one_source. by rewrite Hn, Hp.
  - unfold reconcileMedia. by rewrite decide_False, Hn, Hp by auto.
  - unfold mediaVolumeAndMount, inline_nfs. by rewrite Hn.
Qed.

(** [readOnly] is documented as true by default for an inline NFS folder; it has
    no default, and an absent one mounts the export writable. *)
Lemma inline_nfs_writable_by_default jf mf n :
  mf_NFS mf = Some n → inline_nfs mf = Some n → mf_ReadOnly mf = false → nfs_ReadOnly n = false →
  vm_ReadOnly (mediaVolumeAndMount jf mf).2 = false ∧
  vol_NFS (mediaVolumeAndMount jf mf).1 = Some (mkNFSSource (nfs_Server n) (nfs_Path n) false).
Proof.
  intros Hn Hi Hr Hnr. assert (mediaReadOnly mf = false) as Hm by (unfold mediaReadOnly; by rewrite Hr, Hn, Hnr).
  unfold mediaVolumeAndMount. rewrite Hi, Hm. done.
Qed.

(** [meta] may be absent, and nothing then reads the labels of the image: all such
    plugins are mounted at one path, which a pod may have only one mount at. *)
Definition PluginMeta_zero : PluginMeta := mkPluginMeta "" "" "" "" "".

Lemma plugins_without_meta_share_a_path p q :
  pls_Meta (p_Spec p) = PluginMeta_zero → pls_Meta (p_Spec q) = PluginMeta_zero →
  vm_MountPath (plugin_mount p) = "/config/plugins/plugin" ∧
  vm_MountPath (plugin_mount q) = vm_MountPath (plugin_mount p).
Proof. intros Hp Hq. unfold plugin_mount, EffectiveMeta. rewrite Hp, Hq. by split. Qed.

(** ** A submitted instance *)
Module Example_admission.
Definition nfs : NFSSource := mkNFS "nas" "/export/tv" false true "nfs-csi" ["nfsvers=4.1"].
Definition folder : MediaFolder := mkMediaFolder "tv" "/media/tv" false (Some nfs) None "" None.
Definition web : WebSpec :=
  mkWebSpec "jellyfin-web" "" "" "" None ResourceRequirements_zero (mkServiceSpec "" 0 ∅) ∅.
Definition api : JellyfinAPISpec := mkAPISpec "" None "" true false true.
Definition spec : JellyfinSpec :=
  mkJellyfinSpec "" None (mkStorage (mkPVCSpec "" 0%Z "" [] "") None None [folder]) (mkServiceSpec "" 0 ∅) None
    (Some web) (Some Example_gateway.gw) ResourceRequirements_zero
    (Some (mkHardwareAccel "vaapi" "" "" None "")) None (Some api) None None None
    (Some (mkPlayback (Some 5%Z) (Some 90%Z) None None None None)) None ∅ [].
Definition jf : Jellyfin := mkJellyfin (meta_lit "home" "media" ∅ ∅) spec (jf_Status Example_builder.jf).

(** The same without the block that has the settings applied. *)
Definition no_api : JellyfinSpec :=
  mkJellyfinSpec "" None (js_Storage spec) (js_Service spec) None None None ResourceRequirements_zero None None None
    None None None (js_Playback spec) None ∅ [].
Definition no_api_jf : Jellyfin := mkJellyfin (jf_Meta jf) no_api (jf_Status jf).

Lemma admitted : admit_Jellyfin jf = Some (default_Jellyfin jf).
Proof. reflexivity. Qed.

Lemma refused : admit_Jellyfin no_api_jf = None.
Proof. reflexivity. Qed.
End Example_admission.



Lemma schema_defaults_transparent_witness :
  BuildDeployment ∅ (default_Jellyfin Example_admission.jf) (default_JellyfinPlugin <$> Example_builder.plugins)
  = BuildDeployment ∅ Example_admission.jf Example_builder.plugins.
Proof.
  apply (schema_defaults_transparent Example_controller.quote ∅ Example_admission.jf Example_builder.plugins
    Example_admission.api (mkClient (mkURL "http" "home.media.svc:8096" "/" ∅) "" "" "" "" "")).
  apply (bool_decide_unpack _). reflexivity.
Defined.
