(* ===== verification/Utils.v ===== *)
(** * The helpers of the end-to-end tests (test/utils/utils.go)

    They run commands, look for cert-manager's resources and uncomment code in files.
    What they write to the test log is left out. *)
From S2P Require Import Prelude GoStrings.

Definition certmanagerVersion : string := "v1.20.2".
Definition certmanagerURL : string :=
  "https://github.com/cert-manager/cert-manager/releases/download/" +:+ certmanagerVersion +:+ "/cert-manager.yaml".
Definition defaultKindBinary : string := "kind".
Definition defaultKindCluster : string := "kind".

(** The machine the tests run on: its state and what package os and os/exec do with
    it. A command has a directory, additions to the environment and its words; it
    answers its output, and an error if it failed. *)
Class Host (W : Type) := {
  os_Getwd : W → string * option string;
  os_Chdir : string → W → option string * W;
  os_LookupEnv : string → W → option string;
  os_ReadFile : string → W → result string string;
  os_WriteFile : string → string → W → option string * W;
  CombinedOutput : string → list string → list string → W → (string * option string) * W;
}.

Inductive UtilsError : Type :=
| NoWorkingDir (err : string)
| CommandFailed (command output err : string)
| ReadFailed (filename err : string)
| CodeNotFound (target : string)
| WriteFailed (filename err : string).

Definition newline : ascii := "010"%char.
Definition carriage_return : ascii := "013"%char.

(** [strings.Index] and [strings.Contains] *)
Definition strings_Index (s sub : string) : option nat := String.index 0 sub s.
Definition strings_Contains (s sub : string) : bool := bool_decide (is_Some (strings_Index s sub)).
(** [strings.ReplaceAll(s, old, "")], [old] not empty. *)
Fixpoint remove_all (fuel : nat) (old s : string) : string :=
  match fuel with
  | 0 => s
  | S fuel => match strings_Index s old with
              | None => s
              | Some i => take_s i s +:+ remove_all fuel old (drop_s (i + String.length old) s)
              end
  end.

Section utils.
Context {W : Type} `{!Host W}.

Definition GetProjectDir (w : W) : string * option UtilsError :=
  let '(wd, err) := os_Getwd w in
  match err with
  | Some e => (wd, Some (NoWorkingDir e))
  | None => (remove_all (String.length wd) "/test/e2e" wd, None)
  end.

(** The error of changing the directory is only logged. *)
Definition Run (args : list string) (w : W) : (string * option UtilsError) * W :=
  let '(dir, _) := GetProjectDir w in
  let '(_, w) := os_Chdir dir w in
  let '((output, err), w) := CombinedOutput dir ["GO111MODULE=on"] args w in
  match err with
  | Some e => ((output, Some (CommandFailed (Join args " ") output e)), w)
  | None => ((output, None), w)
  end.

Definition kubeSystemLeases : list string :=
  ["cert-manager-cainjector-leader-election"; "cert-manager-controller"].

(** Failures are only warnings. *)
Definition UninstallCertManager (w : W) : W :=
  let w := (Run ["kubectl"; "delete"; "-f"; certmanagerURL] w).2 in
  fold_left (λ w lease, (Run ["kubectl"; "delete"; "lease"; lease; "-n"; "kube-system"; "--ignore-not-found";
                              "--force"; "--grace-period=0"] w).2) kubeSystemLeases w.

Definition InstallCertManager (w : W) : option UtilsError * W :=
  let '((_, err), w) := Run ["kubectl"; "apply"; "-f"; certmanagerURL] w in
  match err with
  | Some e => (Some e, w)
  | None =>
      let '((_, err), w) := Run ["kubectl"; "wait"; "deployment.apps/cert-manager-webhook";
                                 "--for"; "condition=Available"; "--namespace"; "cert-manager"; "--timeout"; "5m"] w in
      (err, w)
  end.

Definition GetNonEmptyLines (output : string) : list string :=
  filter (λ l, l ≠ "") (Split newline output).

Definition certManagerCRDs : list string :=
  ["certificates.cert-manager.io"; "issuers.cert-manager.io"; "clusterissuers.cert-manager.io";
   "certificaterequests.cert-manager.io"; "orders.acme.cert-manager.io"; "challenges.acme.cert-manager.io"].

Definition IsCertManagerCRDsInstalled (w : W) : bool * W :=
  let '((output, err), w) := Run ["kubectl"; "get"; "crds"] w in
  match err with
  | Some _ => (false, w)
  | None => (existsb (λ crd, existsb (λ line, strings_Contains line crd) (GetNonEmptyLines output)) certManagerCRDs, w)
  end.

Definition LoadImageToKindClusterWithName (name : string) (w : W) : option UtilsError * W :=
  let cluster := default defaultKindCluster (os_LookupEnv "KIND_CLUSTER" w) in
  let kindBinary := default defaultKindBinary (os_LookupEnv "KIND" w) in
  let '((_, err), w) := Run [kindBinary; "load"; "docker-image"; name; "--name"; cluster] w in (err, w).

(** ** Uncommenting

    [bufio.Scanner] with its default split and buffer: the lines without their end, a
    carriage return before it included, up to the first that does not fit the
    buffer of 64 KiB; nothing after the last end of line is no line. *)
Definition dropCR (s : string) : string :=
  match last_char s with
  | Some c => if Ascii.eqb c carriage_return then take_s (String.length s - 1) s else s
  | None => s
  end.
Fixpoint scanned (lines : list string) : list string :=
  match lines with
  | [] => []
  | [l] => if decide (l = "") then [] else if decide (65536 ≤ Z.of_nat (String.length l))%Z then [] else [dropCR l]
  | l :: lines => if decide (65536 ≤ Z.of_nat (String.length l))%Z then [] else dropCR l :: scanned lines
  end.
Definition scan_lines (s : string) : list string := scanned (Split newline s).

(** The new content; nothing when the target has no line to scan. *)
Definition uncommented (content target prefix : string) (idx : nat) : option string :=
  let lines := scan_lines target in
  if decide (lines = []) then None
  else Some (take_s idx content +:+ Join ((λ l, TrimPrefix l prefix) <$> lines) (String newline "") +:+
             drop_s (idx + String.length target) content).

Definition UncommentCode (filename target prefix : string) (w : W) : option UtilsError * W :=
  match os_ReadFile filename w with
  | Err e => (Some (ReadFailed filename e), w)
  | Ok content =>
      match strings_Index content target with
      | None => (Some (CodeNotFound target), w)
      | Some idx =>
          match uncommented content target prefix idx with
          | None => (None, w)
          | Some out =>
              let '(err, w) := os_WriteFile filename out w in
              (match err with Some e => Some (WriteFailed filename e) | None => None end, w)
          end
      end
  end.

(** ** What they do *)

(** A line the scanner returns as it is. *)
Definition plain_line (s : string) : Prop :=
  no_byte newline s = true ∧ last_char s ≠ Some carriage_return ∧ (Z.of_nat (String.length s) < 65536)%Z ∧ s ≠ "".

Lemma dropCR_plain s : plain_line s → dropCR s = s.
Proof.
  intros (_&Hcr&_). unfold dropCR. destruct (last_char s) as [c|]; [|done].
  destruct (Ascii.eqb c carriage_return) eqn:Hc; [|done]. apply Ascii.eqb_eq in Hc as ->. done.
Qed.

Lemma scan_lines_Join l :
  l ≠ [] → Forall plain_line l → scan_lines (Join l (String newline "")) = l.
Proof.
  intros Hne Hl. unfold scan_lines. rewrite Split_Join;
    [|done|eapply Forall_impl; [exact Hl|intros s Hs; apply Hs]].
  clear Hne. induction Hl as [|s l Hs Hl IH]; [done|]. destruct Hs as (Hn&Hcr&Hlen&Hne).
  destruct l as [|s' l]; cbn [scanned].
  - rewrite decide_False by done. rewrite decide_False by lia. by rewrite dropCR_plain.
  - rewrite decide_False by lia. rewrite dropCR_plain by done. f_equal. exact IH.
Qed.

(** A block of lines, each behind the prefix. *)
Definition commented (prefix : string) (ls : list string) : string :=
  Join ((λ l, prefix +:+ l) <$> ls) (String newline "").

Lemma uncommented_commented prefix ls pre post :
  ls ≠ [] → Forall (λ l, plain_line (prefix +:+ l)) ls →
  uncommented (pre +:+ commented prefix ls +:+ post) (commented prefix ls) prefix (String.length pre) =
  Some (pre +:+ Join ls (String newline "") +:+ post).
Proof.
  intros Hne Hls. unfold uncommented, commented.
  rewrite scan_lines_Join; [|by destruct ls|by apply Forall_fmap].
  assert ((λ l, TrimPrefix l prefix) <$> ((λ l, prefix +:+ l) <$> ls) = ls) as Htrim.
  { rewrite <-list_fmap_compose. rewrite <-(list_fmap_id ls) at 2. apply list_fmap_ext. intros i l _.
    apply TrimPrefix_app. }
  cbv zeta. rewrite Htrim, decide_False by by destruct ls.
  fold (commented prefix ls). rewrite take_s_app, <-length_app_s, <-(app_s_assoc pre (commented prefix ls)), drop_s_app. done.
Qed.
End utils.

(** uncommenting undoes commenting. When the first place of the target in the file
    is a block of lines, each behind the prefix, the file is written once, with that
    block without the prefixes and every other byte as it was; when the file cannot be
    read or does not contain the target, nothing is written and the error says which. *)
Theorem UncommentCode_undoes `{Host W} filename prefix ls pre post w :
  ls ≠ [] → Forall (λ l, plain_line (prefix +:+ l)) ls →
  (os_ReadFile filename w = Ok (pre +:+ commented prefix ls +:+ post) →
   strings_Index (pre +:+ commented prefix ls +:+ post) (commented prefix ls) = Some (String.length pre) →
   UncommentCode filename (commented prefix ls) prefix w =
     let '(err, w') := os_WriteFile filename (pre +:+ Join ls (String newline "") +:+ post) w in
     (WriteFailed filename <$> err, w')) ∧
  (∀ e, os_ReadFile filename w = Err e →
     UncommentCode filename (commented prefix ls) prefix w = (Some (ReadFailed filename e), w)) ∧
  (∀ content, os_ReadFile filename w = Ok content → strings_Contains content (commented prefix ls) = false →
     UncommentCode filename (commented prefix ls) prefix w = (Some (CodeNotFound (commented prefix ls)), w)).
Proof.
  intros Hne Hls. unfold UncommentCode. split_and!.
  - intros -> ->. rewrite uncommented_commented by done. by destruct (os_WriteFile _ _ w) as [[e|] w'].
  - by intros e ->.
  - intros content -> Hno. unfold strings_Contains in Hno. apply bool_decide_eq_false in Hno.
    by rewrite (proj2 (eq_None_not_Some _) Hno).
Qed.

(** A target that ends with a newline takes it away: the line after it is joined. *)
Lemma uncomment_joins_lines :
  let nl := String newline "" in
  uncommented ("a" +:+ nl +:+ "#b" +:+ nl +:+ "c") ("#b" +:+ nl) "#" 2 = Some ("a" +:+ nl +:+ "bc").
Proof. reflexivity. Qed.

(** ** A machine with files only *)
Module Example_host.
#[local] Instance files : Host (gmap string string) := {|
  os_Getwd _ := ("/repo/test/e2e", None);
  os_Chdir _ w := (None, w);
  os_LookupEnv _ _ := None;
  os_ReadFile f w := match w !! f with Some s => Ok s | None => Err "no such file" end;
  os_WriteFile f s w := (None, <[f := s]> w);
  CombinedOutput _ _ _ w := (("", Some "no such command"), w);
|}.

Definition nl : string := String newline "".
Definition before : gmap string string := {[ "k.yaml" := "x:" +:+ nl +:+ "#- a" +:+ nl +:+ "#- b" +:+ nl +:+ "y:" ]}.

Lemma UncommentCode_undoes_witness :
  (UncommentCode "k.yaml" ("#- a" +:+ nl +:+ "#- b") "#" before).2 !! "k.yaml" =
    Some ("x:" +:+ nl +:+ "- a" +:+ nl +:+ "- b" +:+ nl +:+ "y:").
Proof.
  destruct (UncommentCode_undoes "k.yaml" "#" ["- a"; "- b"] ("x:" +:+ nl) (nl +:+ "y:") before) as [H _].
  - done.
  - repeat constructor; by vm_compute.
  - change ("#- a" +:+ nl +:+ "#- b") with (commented "#" ["- a"; "- b"]).
    rewrite H by reflexivity. apply lookup_insert_eq.
Defined.

(** The tests run from the repository's root. *)
Example project_dir : GetProjectDir before = ("/repo", None).
Proof. reflexivity. Qed.
End Example_host.
