(* ===== verification/Main.v ===== *)
(** * The manager's entry point (cmd/main.go)

    Flags become the options of the manager and its two TLS servers; then the
    controllers and health checks are registered and the manager is started, each
    step ending the process when it fails. Controller-runtime's constructors are the
    steps of the program; what they do inside is not part of the repository. *)
From S2P Require Import Prelude GoStrings Wiring.

(** ** Flags *)
Record Flags := mkFlags {
  fl_metricsAddr : string;
  fl_probeAddr : string;
  fl_enableLeaderElection : bool;
  fl_secureMetrics : bool;
  fl_webhookCertPath : string;
  fl_webhookCertName : string;
  fl_webhookCertKey : string;
  fl_metricsCertPath : string;
  fl_metricsCertName : string;
  fl_metricsCertKey : string;
  fl_enableHTTP2 : bool;
}.

(** The values without any argument. *)
Definition default_flags : Flags :=
  mkFlags "0" ":8081" false true "" "tls.crt" "tls.key" "" "tls.crt" "tls.key" false.

(** [strconv.ParseBool] *)
Definition parse_bool (s : string) : option bool :=
  if decide (s ∈ ["1"; "t"; "T"; "TRUE"; "true"; "True"]) then Some true
  else if decide (s ∈ ["0"; "f"; "F"; "FALSE"; "false"; "False"]) then Some false
  else None.

(** How an argument [--name=value] sets a flag; a boolean flag given alone has the
    value [true]. [library_flag] tells which other flags the libraries have
    registered ([zap.Options.BindFlags] and the client configuration's). *)
Section flags.
Context (library_flag : string → string → bool).

Definition set_flag (name value : string) (f : Flags) : option Flags :=
  let '(mkFlags ma pa le sm wp wn wk mp mn mk h2) := f in
  if decide (name = "metrics-bind-address") then Some (mkFlags value pa le sm wp wn wk mp mn mk h2)
  else if decide (name = "health-probe-bind-address") then Some (mkFlags ma value le sm wp wn wk mp mn mk h2)
  else if decide (name = "leader-elect") then
    (λ b, mkFlags ma pa b sm wp wn wk mp mn mk h2) <$> parse_bool value
  else if decide (name = "metrics-secure") then
    (λ b, mkFlags ma pa le b wp wn wk mp mn mk h2) <$> parse_bool value
  else if decide (name = "webhook-cert-path") then Some (mkFlags ma pa le sm value wn wk mp mn mk h2)
  else if decide (name = "webhook-cert-name") then Some (mkFlags ma pa le sm wp value wk mp mn mk h2)
  else if decide (name = "webhook-cert-key") then Some (mkFlags ma pa le sm wp wn value mp mn mk h2)
  else if decide (name = "metrics-cert-path") then Some (mkFlags ma pa le sm wp wn wk value mn mk h2)
  else if decide (name = "metrics-cert-name") then Some (mkFlags ma pa le sm wp wn wk mp value mk h2)
  else if decide (name = "metrics-cert-key") then Some (mkFlags ma pa le sm wp wn wk mp mn value h2)
  else if decide (name = "enable-http2") then
    (λ b, mkFlags ma pa le sm wp wn wk mp mn mk b) <$> parse_bool value
  else if library_flag name value then Some f
  else None.

(** [flag.Parse] on arguments of that form; the first bad one ends the process. *)
Fixpoint parse_flags (args : list (string * string)) (f : Flags) : option Flags :=
  match args with
  | [] => Some f
  | (name, value) :: args => f ← set_flag name value f; parse_flags args f
  end.
End flags.

(** ** Servers *)

(** The field of [tls.Config] the program touches. *)
Record TLSConfig := mkTLS { NextProtos : list string }.

Definition disableHTTP2 (c : TLSConfig) : TLSConfig := mkTLS ["http/1.1"].

Definition tlsOpts (f : Flags) : list (TLSConfig → TLSConfig) :=
  if negb (fl_enableHTTP2 f) then [disableHTTP2] else [].

(** A server applies its options in order. *)
Definition apply_opts (opts : list (TLSConfig → TLSConfig)) (c : TLSConfig) : TLSConfig :=
  fold_left (λ c o, o c) opts c.

Record CertFiles := mkCert { cf_Dir : string; cf_Name : string; cf_Key : string }.

Record WebhookOptions := mkWebhook { wo_TLSOpts : list (TLSConfig → TLSConfig); wo_Cert : CertFiles }.

Inductive Filter : Type := NoFilter | WithAuthenticationAndAuthorization.

Record MetricsOptions := mkMetrics {
  mo_BindAddress : string;
  mo_SecureServing : bool;
  mo_TLSOpts : list (TLSConfig → TLSConfig);
  mo_FilterProvider : Filter;
  mo_Cert : CertFiles;
}.

Definition no_cert : CertFiles := mkCert "" "" "".

Definition webhookServerOptions (f : Flags) : WebhookOptions :=
  mkWebhook (tlsOpts f)
    (if decide (fl_webhookCertPath f = "") then no_cert
     else mkCert (fl_webhookCertPath f) (fl_webhookCertName f) (fl_webhookCertKey f)).

Definition metricsServerOptions (f : Flags) : MetricsOptions :=
  mkMetrics (fl_metricsAddr f) (fl_secureMetrics f) (tlsOpts f)
    (if fl_secureMetrics f then WithAuthenticationAndAuthorization else NoFilter)
    (if decide (fl_metricsCertPath f = "") then no_cert
     else mkCert (fl_metricsCertPath f) (fl_metricsCertName f) (fl_metricsCertKey f)).

Record ManagerOptions := mkManager {
  ma_Metrics : MetricsOptions;
  ma_WebhookServer : WebhookOptions;
  ma_HealthProbeBindAddress : string;
  ma_LeaderElection : bool;
  ma_LeaderElectionID : string;
}.

Definition manager_options (f : Flags) : ManagerOptions :=
  mkManager (metricsServerOptions f) (webhookServerOptions f) (fl_probeAddr f) (fl_enableLeaderElection f)
    "3948b309.jellyops.io".

(** ** Start-up *)
Inductive Step : Type :=
  | AddToScheme (group : string)
  | GetConfig
  | NewManager (o : ManagerOptions)
  | SetupController (w : Wiring)
  | AddHealthzCheck (name : string)
  | AddReadyzCheck (name : string)
  | Start.

(** [init] registers the types; [main] makes the manager, registers the three
    controllers and the two checks, and runs it. *)
Definition steps (f : Flags) : list Step :=
  [AddToScheme "client-go"; AddToScheme "jellyfin.jellyops.io/v1alpha1"; AddToScheme "gateway.networking.k8s.io/v1";
   GetConfig; NewManager (manager_options f);
   SetupController jellyfin_wiring; SetupController plugin_wiring; SetupController api_wiring;
   AddHealthzCheck "healthz"; AddReadyzCheck "readyz"; Start].

(** How the process ends: [utilruntime.Must] panics, which exits with 2; a failed
    step of [main] exits with 1. *)
Definition failure_status (s : Step) : Z := match s with AddToScheme _ => 2 | _ => 1 end.

(** The steps taken and the exit status, when [fails] tells which steps fail. *)
Fixpoint run_steps (fails : Step → bool) (l : list Step) : list Step * Z :=
  match l with
  | [] => ([], 0%Z)
  | s :: l => if fails s then ([s], failure_status s)
              else let '(done, status) := run_steps fails l in (s :: done, status)
  end.

Definition main (library_flag : string → string → bool) (args : list (string * string)) (fails : Step → bool)
    : list Step * Z :=
  match parse_flags library_flag args default_flags with
  | Some f => run_steps fails (steps f)
  | None => ([], 2%Z)
  end.

(** ** What the process does *)
Definition before_start (f : Flags) : list Step :=
  [AddToScheme "client-go"; AddToScheme "jellyfin.jellyops.io/v1alpha1"; AddToScheme "gateway.networking.k8s.io/v1";
   GetConfig; NewManager (manager_options f);
   SetupController jellyfin_wiring; SetupController plugin_wiring; SetupController api_wiring;
   AddHealthzCheck "healthz"; AddReadyzCheck "readyz"].

Lemma start_last f : steps f = before_start f ++ [Start] ∧ Start ∉ before_start f.
Proof. split; [done|]. unfold before_start. repeat (apply not_elem_of_cons; split; [done|]). apply not_elem_of_nil. Qed.

(** A run that reaches the last step took all the others. *)
Lemma reaches_start f pre s post :
  steps f = pre ++ s :: post → Start ∈ pre ++ [s] → pre = before_start f ∧ post = [].
Proof.
  destruct (start_last f) as [-> Hno]. intros Heq Hin.
  destruct post as [|x post _] using rev_ind.
  - by apply app_inj_tail in Heq as [-> _].
  - rewrite app_comm_cons, app_assoc in Heq. apply app_inj_tail in Heq as [Heq _]. destruct Hno. rewrite Heq.
    revert Hin. rewrite !elem_of_app, !elem_of_cons, elem_of_nil. tauto.
Qed.

Lemma run_steps_spec fails l done status :
  run_steps fails l = (done, status) →
  (done = l ∧ status = 0%Z ∧ ∀ s, s ∈ l → fails s = false) ∨
  (∃ pre s post, l = pre ++ s :: post ∧ done = pre ++ [s] ∧ status = failure_status s ∧ fails s = true ∧
    ∀ t, t ∈ pre → fails t = false).
Proof.
  revert done. induction l as [|s l IH]; intros done; cbn.
  - intros [= <- <-]. left. split_and!; [done|done|]. by intros s ?%elem_of_nil.
  - destruct (fails s) eqn:Hs.
    + intros [= <- <-]. right. exists [], s, l. split_and!; try done. by intros t ?%elem_of_nil.
    + destruct (run_steps fails l) as [d st]. intros [= <- <-].
      destruct (IH d eq_refl) as [(-> & -> & Hall)|(pre & t & post & -> & -> & -> & Ht & Hpre)].
      * left. split_and!; [done|done|]. intros t [->|Ht]%elem_of_cons; auto.
      * right. exists (s :: pre), t, post. split_and!; try done. intros u [->|Hu]%elem_of_cons; auto.
Qed.

(** C34: the manager runs only when everything before it worked: the process exits
    with 0 exactly when no step fails, and then all steps were taken, in order;
    otherwise it stops at the first step that fails, with a non-zero status, so that
    it never serves with a controller or a health check missing. *)
Theorem main_all_or_nothing library_flag args fails f done status :
  parse_flags library_flag args default_flags = Some f →
  main library_flag args fails = (done, status) →
  (status = 0%Z ↔ ∀ s, s ∈ steps f → fails s = false) ∧
  (status = 0%Z → done = steps f) ∧
  (status ≠ 0%Z → ∃ pre s, done = pre ++ [s] ∧ done `prefix_of` steps f ∧ fails s = true) ∧
  (Start ∈ done → ∀ w, w ∈ [jellyfin_wiring; plugin_wiring; api_wiring] →
     SetupController w ∈ done ∧ fails (SetupController w) = false).
Proof.
  intros Hf. unfold main. rewrite Hf. intros H%run_steps_spec.
  assert (∀ w, w ∈ [jellyfin_wiring; plugin_wiring; api_wiring] → SetupController w ∈ before_start f) as Hw.
  { intros w Hin. unfold before_start. rewrite !elem_of_cons, elem_of_nil in Hin. destruct Hin as [->|[->|[->|[]]]];
      repeat first [apply list_elem_of_here|apply list_elem_of_further]. }
  destruct H as [(-> & -> & Hall)|(pre & s & post & Hl & -> & -> & Hs & Hpre)].
  - split_and!; [done|done|done|]. intros _ w Hin%Hw. destruct (start_last f) as [Hst _].
    assert (SetupController w ∈ steps f) by (rewrite Hst; apply elem_of_app; by left). auto.
  - assert (failure_status s ≠ 0%Z) by (by destruct s).
    split_and!; [split; [done|]|done| |].
    + intros Hall. rewrite Hall in Hs; [done|]. rewrite Hl. apply elem_of_app. right. by left.
    + intros _. exists pre, s. split_and!; [done| |done]. exists post. by rewrite Hl, <-app_assoc.
    + intros Hin w Hwin%Hw. destruct (reaches_start f pre s post Hl Hin) as [-> _].
      split; [apply elem_of_app; by left|by apply Hpre].
Qed.

(** ** Security of the servers *)


(** Only its own argument changes a security setting. *)
Lemma set_flag_frame library_flag name value f g :
  set_flag library_flag name value f = Some g →
  (fl_enableHTTP2 g = fl_enableHTTP2 f ∨ (name = "enable-http2" ∧ parse_bool value = Some (fl_enableHTTP2 g))) ∧
  (fl_secureMetrics g = fl_secureMetrics f ∨ (name = "metrics-secure" ∧ parse_bool value = Some (fl_secureMetrics g))) ∧
  (fl_metricsAddr g = fl_metricsAddr f ∨ (name = "metrics-bind-address" ∧ value = fl_metricsAddr g)).
Proof.
  destruct f. unfold set_flag. intros Hg.
  repeat (case_decide; [simplify_eq/=; try (apply fmap_Some in Hg as (b & Hb & ->)); simplify_eq/=; auto|]).
  case_match; simplify_eq/=; auto.
Qed.

Lemma parse_flags_frame library_flag args f g :
  parse_flags library_flag args f = Some g →
  (fl_enableHTTP2 g = fl_enableHTTP2 f ∨
   ∃ v, ("enable-http2", v) ∈ args ∧ parse_bool v = Some (fl_enableHTTP2 g)) ∧
  (fl_secureMetrics g = fl_secureMetrics f ∨
   ∃ v, ("metrics-secure", v) ∈ args ∧ parse_bool v = Some (fl_secureMetrics g)) ∧
  (fl_metricsAddr g = fl_metricsAddr f ∨ ("metrics-bind-address", fl_metricsAddr g) ∈ args).
Proof.
  revert f. induction args as [|[name value] args IH]; intros f; cbn; [intros [= ->]; auto|].
  destruct (set_flag library_flag name value f) as [f'|] eqn:Hf; cbn; [|done].
  intros Hg. destruct (IH f' Hg) as (H1 & H2 & H3), (set_flag_frame _ _ _ _ _ Hf) as (F1 & F2 & F3).
  setoid_rewrite elem_of_cons. split_and!.
  - destruct H1 as [->|(v & Hv & Hb)]; [|right; eauto]. destruct F1 as [->|[-> Hb]]; [by left|right; eauto].
  - destruct H2 as [->|(v & Hv & Hb)]; [|right; eauto]. destruct F2 as [->|[-> Hb]]; [by left|right; eauto].
  - destruct H3 as [->|Hv]; [|right; eauto]. destruct F3 as [->|[-> <-]]; [by left|right; eauto].
Qed.

(** the servers are hardened unless an argument asks otherwise: without
    [--enable-http2] the metrics and webhook servers offer HTTP/1.1 only, whatever
    their configuration was; the metrics endpoint is served over TLS behind
    authentication and authorization without [--metrics-secure=false], and is not
    served at all without [--metrics-bind-address]; the filter is there exactly when
    TLS is. *)
Theorem servers_hardened library_flag args f c :
  parse_flags library_flag args default_flags = Some f →
  ((∀ v, ("enable-http2", v) ∈ args → parse_bool v = Some false) →
   NextProtos (apply_opts (mo_TLSOpts (ma_Metrics (manager_options f))) c) = ["http/1.1"] ∧
   NextProtos (apply_opts (wo_TLSOpts (ma_WebhookServer (manager_options f))) c) = ["http/1.1"]) ∧
  ((∀ v, ("metrics-secure", v) ∈ args → parse_bool v = Some true) →
   mo_SecureServing (ma_Metrics (manager_options f)) = true) ∧
  ((∀ v, ("metrics-bind-address", v) ∉ args) → mo_BindAddress (ma_Metrics (manager_options f)) = "0") ∧
  (mo_FilterProvider (ma_Metrics (manager_options f)) = WithAuthenticationAndAuthorization ↔
   mo_SecureServing (ma_Metrics (manager_options f)) = true).
Proof.
  intros (H1 & H2 & H3)%parse_flags_frame. split_and!.
  - intros Hargs. assert (fl_enableHTTP2 f = false) as Hf.
    { destruct H1 as [->|(v & Hv & Hb)]; [done|]. rewrite (Hargs v Hv) in Hb. congruence. }
    cbn. unfold tlsOpts. by rewrite Hf.
  - intros Hargs. cbn. destruct H2 as [->|(v & Hv & Hb)]; [done|]. rewrite (Hargs v Hv) in Hb. congruence.
  - intros Hargs. cbn. destruct H3 as [->|Hv]; [done|]. by destruct (Hargs _ Hv).
  - cbn. by destruct (fl_secureMetrics f).
Qed.

Lemma main_all_or_nothing_witness :
  main (λ _ _, false) [("leader-elect", "true")]
    (λ s, match s with AddReadyzCheck _ => true | _ => false end)
  = (take 10 (steps (mkFlags "0" ":8081" true true "" "tls.crt" "tls.key" "" "tls.crt" "tls.key" false)), 1%Z) ∧
  (1%Z ≠ 0%Z → ∃ pre s, take 10 (steps (mkFlags "0" ":8081" true true "" "tls.crt" "tls.key" "" "tls.crt" "tls.key" false))
     = pre ++ [s]).
Proof.
  split; [reflexivity|]. intros Hne.
  destruct (main_all_or_nothing (λ _ _, false) [("leader-elect", "true")]
    (λ s, match s with AddReadyzCheck _ => true | _ => false end) _ _ _ eq_refl eq_refl) as (_ & _ & H & _).
  destruct (H Hne) as (pre & s & Hp & _). by exists pre, s.
Defined.

Lemma servers_hardened_witness :
  mo_FilterProvider (metricsServerOptions default_flags) = WithAuthenticationAndAuthorization ∧
  NextProtos (apply_opts (tlsOpts default_flags) (mkTLS ["h2"; "http/1.1"])) = ["http/1.1"].
Proof.
  destruct (servers_hardened (λ _ _, false) [] default_flags (mkTLS ["h2"; "http/1.1"]) eq_refl) as (H1 & _ & _ & H4).
  split; [by apply H4|]. apply H1. by intros v ?%elem_of_nil.
Defined.
